(* ===== verification/_CoqProject ===== *)
-Q . S2P
Prelude.v
Scan.v
Knot.v
Ext.v
Ell.v
Sm.v
Endian.v
Event.v
Poll.v
Modbus.v
Timers.v
Storage.v
Session.v
Thing.v
Properties.v
Load.v
Credentials.v
Update.v
Device.v
Daemon.v
Link.v
Handle.v
Start.v
Run.v
Settings.v
Main.v
