(* ===== verification/Prelude.v ===== *)
(** * Verification library of the KNoT VirtualThing daemon (thingd)

    thingd makes a Modbus device a thing of the KNoT cloud.  It reads three configuration files,
    connects to the Modbus slave and to the cloud, registers and authenticates the thing, polls
    its registers and publishes the values that pass the checks of their events.  This library
    models the C code under src/src/ function by function and proves what it is meant to
    guarantee.

    ** The program and its model

    main.c reads the command line (settings.c), starts the device (device.c) and runs the main
    loop.  device.c holds the one object [thing], which properties.c fills from the files that
    storage.c opens, and connects the other parts by callbacks: iface-modbus.c reports the Modbus
    connection, poll.c asks for a read of each item, event.c reports the items whose time has
    come, the cloud library hands over messages.  The callbacks raise the events of the state
    machine (sm.c), whose states call back into device.c.

    - [Prelude], [Scan]: C integers and strings, the formats of sscanf and sprintf the code uses.
    - [Ext]: the state and error monad of the development.  A function of the program has type
      [M S A]: from a state [S] and the state [os] of the system to a result, or to [None] when
      the code has undefined behaviour.  A call of a library or of the system is recorded in
      [os_log] and answered by [env_answer], a parameter that may depend on the whole history;
      files, descriptors and live timers are part of [os].
    - [Knot], [Ell]: classes for the KNoT protocol library and for the hash maps, queues and
      settings of ell, with the laws the code relies on and an instance of each.
    - [Sm] (sm.c, sm.h, sm-pvt.h): [get_next_*], [enter_*], [sm_input_event] over the class
      [Device] of the functions the states call; [DeviceSpec] is the contract of an
      implementation.
    - [Event] (event.c), [Poll] (poll.c), [Modbus] and [Endian] (iface-modbus.c), [Timers] (who
      owns which live timer).
    - [Storage], [Session] (storage.c); [Thing] (struct knot_thing and its setters in device.c);
      [Properties] (properties.c, conf-parameters.h), with the proofs of the load of the device in
      [Load], of the credentials in [Credentials] and of the update of an item in [Update].
    - [Device] (device.c): the instance of the class [Device] over the static variables of the
      program, and [device_spec], its [DeviceSpec].
    - [Daemon] (device.c): the callbacks, [device_start], [device_destroy] and [handle], one turn
      of the main loop; [Link] is the abstract specification of the daemon, an automaton over its
      state and its two connections; [Handle] proves the invariant of a turn and that it is a
      step of the automaton, [Start] the start and the release, [Run] what holds of every run.
    - [Settings] (settings.c) and [Main] (main.c).

    A static variable of a C file is a field of the record of its component ([event_state],
    [poll_state], [modbus_state], [storage], [knot_thing], [world], [sm], [program]); a function of
    one component runs in a larger state through a [lens].

    ** What the theorems show

    - [Main]: an invalid command line does nothing; a run that exits with success has released
      every timer; data is published only after an accepted authentication.
    - [Run]: a turn of the main loop keeps the invariant of the daemon and a run comes to its end
      but for two messages of the cloud; the daemon is ONLINE only when both connections are up
      and it was authenticated since; every run is a run of the automaton of [Link]; in every run
      the message timeout is live exactly in the states that wait for an answer, and when it
      expires the request is sent again; one poll updates the item and publishes it exactly when
      its event asks for it; what becomes of a bad URL.
    - [Sm]: the transition table of [sm_input_event], its invariant, the states without a way
      out.
    - [Event], [Modbus], [Endian], [Poll]: the value checks against a reference in terms of an
      order, the values read for each register size and byte order, the start and the
      reconnection of the interface, the timers of a session, the URLs.
    - [Thing], [Device]: the id a thing generates, what is published on request and on the way
      into ONLINE.
    - [Storage] to [Update]: what a save leaves in the file on every path, what is written is read
      back after a reopen, no descriptor is leaked on any path, the items of a created device
      passed the checks, stored credentials are the ones loaded and cleared ones leave no token;
      and what the update of an item loses.
    - [Settings]: the parser of the command line against a reference.

    The statements use [wp] (no undefined behaviour), [wlp] (the runs without it) and [post P]
    (undefined behaviour only if [P]).

    ** Assumptions and abstractions

    - No fuel: every recursion is structural, on lists of groups, items, options or inputs.
    - [EnvLaws]: a failed call leaves a positive errno.  Nothing else is assumed of the answers.
      A write may be short, and storage.c takes it for a success: what a theorem says of the
      contents of a file after a write, it says of the histories in which no write was short
      ([whole_writes], a premise); [save_settings_cases] says what is left in the others.
    - [KnotProtocolLaws], [LHashmapLaws], [LQueueLaws], [LSettingsLaws], [LogPrioritiesLaws]: the
      documented behaviour of the libraries; each has an instance the witnesses use.  A float is
      kept by ell as decimal text, so no law says that it is read back bit for bit; a schema that
      knot_schema_is_valid accepts has a value type of the enumeration, far below 31.
    - A shift by a count outside 0 to 30 of an int, a NULL pointer that is read or copied from,
      and a string that does not fit its array are undefined behaviour, [None].
    - Any live timer may expire at any time, so the properties of runs hold for every schedule.
      l_io_destroy runs no callback.  getopt_long's options and the events the main loop delivers
      are arguments.
    - A pointer to freed memory is modelled as NULL, an uninitialised local as zero where the
      code only uses it after a successful read.

    ** Not modelled

    The text of log and usage messages; memory allocation, which in ell does not return on
    failure; the contents of the cloud's own protocol; the tests and mocks, the build files and
    the hooks. *)

From stdpp Require Export prelude strings gmap.
From Stdlib Require Export ZArith Lia Ascii.

#[global] Set Default Goal Selector "!".

Declare Scope vt_scope.
Delimit Scope vt_scope with vt.
#[global] Open Scope Z_scope.
#[global] Open Scope list_scope.

(** The hint database of the facts every component uses. *)
Create HintDb vthing.
Create Rewrite HintDb vthing.

(** ** C integers

    An [int] is a [Z] in the range of its type; the conversions the code relies on are written
    out.  [wrap n z] is the conversion to an unsigned type of [n] bits, [sext n z] the
    conversion to a signed one (two's complement). *)

Definition wrap (n z : Z) : Z := z mod 2 ^ n.

Definition sext (n z : Z) : Z :=
  let u := wrap n z in if decide (u < 2 ^ (n - 1)) then u else u - 2 ^ n.

Abbreviation u8 := (wrap 8).
Abbreviation u16 := (wrap 16).
Abbreviation u32 := (wrap 32).
Abbreviation u64 := (wrap 64).
Abbreviation s32 := (sext 32).
Abbreviation s64 := (sext 64).

(** The truth value of a C expression used as a condition, and back. *)
Definition c_true (z : Z) : bool := negb (z =? 0).
Definition c_int (b : bool) : Z := if b then 1 else 0.

(** [errno] values of the Linux C library. *)
Definition ENOENT : Z := 2.
Definition EIO : Z := 5.
Definition EEXIST : Z := 17.
Definition EINVAL : Z := 22.
Definition ENOMSG : Z := 42.

Lemma wrap_range n z : 0 <= n -> 0 <= wrap n z < 2 ^ n.
Proof. intros. apply Z.mod_pos_bound. lia. Qed.

Lemma wrap_small n z : 0 <= z < 2 ^ n -> wrap n z = z.
Proof. apply Z.mod_small. Qed.

Lemma wrap_wrap n z : wrap n (wrap n z) = wrap n z.
Proof. apply Zmod_mod. Qed.

Lemma wrap_land n z : 0 <= n -> wrap n z = Z.land z (Z.ones n).
Proof. intros. unfold wrap. by rewrite Z.land_ones. Qed.

Lemma testbit_wrap n z i : 0 <= n -> 0 <= i ->
  Z.testbit (wrap n z) i = (i <? n) && Z.testbit z i.
Proof.
  intros. unfold wrap. destruct (Z.ltb_spec i n); simpl.
  - by apply Z.mod_pow2_bits_low.
  - by apply Z.mod_pow2_bits_high.
Qed.

Lemma sext_range n z : 0 < n -> - 2 ^ (n - 1) <= sext n z < 2 ^ (n - 1).
Proof.
  intros. unfold sext. pose proof (wrap_range n z).
  assert (2 ^ n = 2 * 2 ^ (n - 1)) by (rewrite <- Z.pow_succ_r by lia; f_equal; lia).
  case_decide; lia.
Qed.

Lemma sext_small n z : 0 < n -> - 2 ^ (n - 1) <= z < 2 ^ (n - 1) -> sext n z = z.
Proof.
  intros Hn Hz. unfold sext.
  assert (2 ^ n = 2 * 2 ^ (n - 1)) as Hp by (rewrite <- Z.pow_succ_r by lia; f_equal; lia).
  assert (wrap n z = if decide (0 <= z) then z else z + 2 ^ n) as ->.
  { unfold wrap. case_decide; [apply Z.mod_small; lia|].
    rewrite <- (Z.mod_add z 1) by lia. rewrite Z.mul_1_l. apply Z.mod_small. lia. }
  repeat case_decide; lia.
Qed.

Lemma sext_wrap n z : sext n (wrap n z) = sext n z.
Proof. unfold sext. by rewrite wrap_wrap. Qed.

#[export] Hint Resolve wrap_range sext_range : vthing.
#[export] Hint Rewrite wrap_wrap sext_wrap : vthing.

(** ** C strings and character arrays

    A [char *] that is read as a NUL-terminated string is a [string] without NUL; a [char]
    array is the list of its bytes.  [cstr] reads an array as a string. *)

Definition NUL : ascii := Ascii.ascii_of_nat 0.

Fixpoint cstr_list (buf : list ascii) : list ascii :=
  match buf with
  | [] => []
  | c :: r => if decide (c = NUL) then [] else c :: cstr_list r
  end.

Definition cstr (buf : list ascii) : string := String.string_of_list_ascii (cstr_list buf).

Definition chars (s : string) : list ascii := String.list_ascii_of_string s.

Definition no_nul (s : string) : Prop := Forall (fun c => c <> NUL) (chars s).

(** [strncpy(dst, src, n)]: at most [n] bytes of [src], then NUL up to [n]. *)
Definition strncpy (dst : list ascii) (src : string) (n : nat) : list ascii :=
  let s := take n (chars src) in
  s ++ replicate (n - length s) NUL ++ drop n dst.

(** [strcpy(dst, src)], also what [sprintf(dst, ..)] does with the text it prints. *)
Definition strcpy (dst : list ascii) (src : string) : list ascii :=
  chars src ++ [NUL] ++ drop (S (length (chars src))) dst.

Definition strlen (s : string) : Z := Z.of_nat (String.length s).

(** [strncmp(s, p, strlen(p)) == 0] *)
Definition has_prefix (p s : string) : bool := String.prefix p s.

Lemma length_chars s : length (chars s) = String.length s.
Proof. induction s; simpl; congruence. Qed.

Lemma string_of_chars s : String.string_of_list_ascii (chars s) = s.
Proof. apply String.string_of_list_ascii_of_string. Qed.

Lemma string_of_chars_app a b :
  String.string_of_list_ascii (a ++ b)
  = (String.string_of_list_ascii a +:+ String.string_of_list_ascii b)%string.
Proof. induction a as [|c a IH]; [done|]. cbn. by rewrite IH. Qed.

Lemma chars_app a b : chars (a +:+ b)%string = chars a ++ chars b.
Proof.
  induction a as [|c a IH]; [done|]. change (c :: chars (a +:+ b)%string = c :: chars a ++ chars b).
  by rewrite IH.
Qed.

Lemma chars_of_chars l : chars (String.string_of_list_ascii l) = l.
Proof. apply String.list_ascii_of_string_of_list_ascii. Qed.

Lemma cstr_list_app_nul l r :
  Forall (fun c => c <> NUL) l -> cstr_list (l ++ NUL :: r) = l.
Proof.
  induction 1 as [|c l Hc _ IH]; simpl; [done|].
  rewrite decide_False by done. by rewrite IH.
Qed.

Lemma cstr_strcpy dst s : no_nul s -> cstr (strcpy dst s) = s.
Proof. intros. unfold cstr, strcpy. simpl. rewrite cstr_list_app_nul by done. apply string_of_chars. Qed.

Lemma length_strcpy dst s :
  (String.length s < length dst)%nat -> length (strcpy dst s) = length dst.
Proof.
  intros. unfold strcpy. rewrite !length_app, length_drop, length_chars. simpl. lia.
Qed.

Lemma length_strncpy dst s n :
  (n <= length dst)%nat -> length (strncpy dst s n) = length dst.
Proof.
  intros. unfold strncpy. rewrite !length_app, length_replicate, length_drop, length_take.
  lia.
Qed.

(** A [strncpy] of [n] bytes into an array whose byte [n] is NUL leaves the first [n] bytes of
    the source, whatever the array held. *)
Lemma cstr_strncpy dst s n :
  no_nul s -> (String.length s <= n)%nat -> dst !! n = Some NUL ->
  cstr (strncpy dst s n) = s.
Proof.
  intros Hs Hn Hd. unfold cstr, strncpy. rewrite take_ge by (rewrite length_chars; lia).
  destruct (drop n dst) as [|c r] eqn:E.
  { apply (f_equal length) in E. rewrite length_drop in E.
    apply lookup_lt_Some in Hd. simpl in E. lia. }
  assert (c = NUL) as ->.
  { pose proof (lookup_drop dst n 0) as H. rewrite E, Nat.add_0_r in H.
    simpl in H. rewrite Hd in H. by inversion H. }
  destruct (n - length (chars s))%nat; simpl; rewrite cstr_list_app_nul by done;
    apply string_of_chars.
Qed.

Lemma lookup_strncpy_end dst s n : (n < length dst)%nat -> strncpy dst s n !! n = dst !! n.
Proof.
  intros. unfold strncpy.
  rewrite lookup_app_r by (rewrite length_take; lia).
  rewrite lookup_app_r by (rewrite length_replicate, length_take; lia).
  rewrite lookup_drop, length_replicate, length_take. f_equal. lia.
Qed.

#[export] Hint Resolve length_strcpy length_strncpy : vthing.

(** An array of [n + 1] characters that ends the string it holds. *)
Definition array_ok (n : nat) (l : list ascii) : Prop := length l = S n /\ l !! n = Some NUL.

Lemma array_ok_replicate n : array_ok n (replicate (S n) NUL).
Proof. split; [apply length_replicate|]. apply lookup_replicate_2. lia. Qed.

Lemma array_ok_strncpy n l s : array_ok n l -> array_ok n (strncpy l s n).
Proof.
  intros [Hl Hn]. split; [rewrite length_strncpy; lia|]. by rewrite lookup_strncpy_end by lia.
Qed.

Lemma array_ok_strcpy n l s : (String.length s <= n)%nat -> array_ok n l -> array_ok n (strcpy l s).
Proof.
  intros Hs [Hl Hn]. split; [rewrite length_strcpy; lia|]. unfold strcpy.
  rewrite lookup_app_r by (rewrite length_chars; lia). rewrite length_chars.
  destruct (n - String.length s)%nat as [|m] eqn:Hm; [done|].
  rewrite lookup_app_r by (cbn; lia). rewrite lookup_drop, <- Hn. f_equal. cbn. lia.
Qed.

Lemma array_ok_clear n l : array_ok n l -> array_ok n (<[0%nat := NUL]> l).
Proof.
  intros [Hl Hn]. split; [by rewrite length_insert|].
  destruct n as [|n]; [apply list_lookup_insert_eq; lia|]. by rewrite list_lookup_insert_ne.
Qed.

Lemma cstr_clear n l : array_ok n l -> cstr (<[0%nat := NUL]> l) = EmptyString.
Proof. intros [Hl _]. by destruct l. Qed.

Lemma cstr_strncpy_ok n l s :
  array_ok n l -> no_nul s -> (String.length s <= n)%nat -> cstr (strncpy l s n) = s.
Proof. intros [_ Hn] ? ?. by apply cstr_strncpy. Qed.

(** Copying the empty string empties the array. *)
Lemma strncpy_empty n l : array_ok n l -> head (strncpy l EmptyString n) = Some NUL.
Proof. intros [_ Hn]. destruct n; [by destruct l|done]. Qed.

#[export] Hint Resolve array_ok_replicate array_ok_strncpy array_ok_strcpy array_ok_clear : vthing.

(** ** Lists of pairs *)

Lemma NoDup_fst_eq {A B} (l : list (A * B)) k v w :
  NoDup l.*1 -> (k, v) ∈ l -> (k, w) ∈ l -> v = w.
Proof.
  induction l as [|[j x] l IH]; cbn; [by intros _ ?%elem_of_nil|].
  intros [Hj Hl]%NoDup_cons [E1|H1]%elem_of_cons [E2|H2]%elem_of_cons; simplify_eq; auto.
  - destruct Hj. apply list_elem_of_fmap. by eexists (_, _).
  - destruct Hj. apply list_elem_of_fmap. by eexists (_, _).
Qed.

(** Case analysis on the conditions of the code a goal mentions. *)
Ltac split_conds :=
  repeat (case_match; simplify_eq/=; try done).
