(* ===== verification/Scan.v ===== *)
(** * Formatted input and output of the C library

    The conversions of [sscanf] and [sprintf] the daemon uses, on the list of the characters of
    a string: [%n[^c]], [%ns], [%d], [%c], white space and literal characters; [%PRIx64]. *)

From S2P Require Import Prelude.

Definition ord (c : ascii) : Z := Z.of_nat (Ascii.nat_of_ascii c).
Definition chr (z : Z) : ascii := Ascii.ascii_of_nat (Z.to_nat z).

(** [isspace] and [isdigit] in the C locale. *)
Definition is_space (c : ascii) : bool := (ord c =? 32) || ((9 <=? ord c) && (ord c <=? 13)).
Definition is_digit (c : ascii) : bool := (48 <=? ord c) && (ord c <=? 57).

(** ** [sscanf] *)

(** At most [n] characters that satisfy [p], and the rest. *)
Fixpoint span (p : ascii -> bool) (n : nat) (l : list ascii) : list ascii * list ascii :=
  match n, l with
  | S m, c :: r => if p c then let '(a, b) := span p m r in (c :: a, b) else ([], l)
  | _, _ => ([], l)
  end.

Definition skip_ws (l : list ascii) : list ascii := (span is_space (length l) l).2.

Definition scan_span (p : ascii -> bool) (n : nat) (l : list ascii)
    : option (list ascii * list ascii) :=
  match span p n l with
  | ([], _) => None
  | r => Some r
  end.

(** [%n[^stop]] *)
Definition scan_until (stop : ascii) (n : nat) : list ascii -> option (list ascii * list ascii) :=
  scan_span (fun c => negb (Ascii.eqb c stop)) n.

(** [%ns] *)
Definition scan_word (n : nat) (l : list ascii) : option (list ascii * list ascii) :=
  scan_span (fun c => negb (is_space c)) n (skip_ws l).

(** A literal character. *)
Definition scan_lit (c : ascii) (l : list ascii) : option (list ascii) :=
  match l with d :: r => if Ascii.eqb c d then Some r else None | [] => None end.

(** [%c] *)
Definition scan_char (l : list ascii) : option (ascii * list ascii) :=
  match l with c :: r => Some (c, r) | [] => None end.

Definition digits_val (l : list ascii) : Z := fold_left (fun v c => 10 * v + (ord c - 48)) l 0.

(** [strtol] clamps to the range of a [long]; [%d] stores the result as an [int]. *)
Definition clamp_long (z : Z) : Z := Z.max (- 2 ^ 63) (Z.min (2 ^ 63 - 1) z).

(** [%d] *)
Definition scan_int (l : list ascii) : option (Z * list ascii) :=
  let '(sign, l) :=
    match skip_ws l with
    | c :: r => if ord c =? 45 then (-1, r) else if ord c =? 43 then (1, r) else (1, c :: r)
    | [] => (1, [])
    end in
  match scan_span is_digit (length l) l with
  | Some (ds, r) => Some (s32 (clamp_long (sign * digits_val ds)), r)
  | None => None
  end.

(** ** [sprintf] *)

Definition hex_digit (z : Z) : ascii := chr (if z <? 10 then 48 + z else 87 + z).

(** The hexadecimal digits of [z], at most [n] of them. *)
Fixpoint hex_digits (n : nat) (z : Z) (acc : list ascii) : list ascii :=
  match n with
  | O => acc
  | S m => if z =? 0 then acc else hex_digits m (z / 16) (hex_digit (z mod 16) :: acc)
  end.

(** [%PRIx64] *)
Definition print_hex (z : Z) : string :=
  String.string_of_list_ascii (if z =? 0 then [chr 48] else hex_digits 16 z []).

(** ** Lemmas *)

(** What [span] consumes when the characters satisfy [p] and the next one, if any, does not. *)
Lemma span_app p n a b :
  Forall (fun c => p c = true) a -> (length a <= n)%nat ->
  (match b with [] => True | c :: _ => p c = false end \/ n = length a) ->
  span p n (a ++ b) = (a, b).
Proof.
  intros Ha. revert n. induction Ha as [|c a Hc _ IH]; intros n Hn Hb; cbn in *.
  - destruct n as [|n]; [done|]. destruct b as [|c b]; [done|].
    cbn. destruct Hb as [Hb|?]; [by rewrite Hb|lia].
  - destruct n as [|n]; [lia|]. cbn. rewrite Hc, IH; [done|lia|].
    destruct Hb; [by left|right; lia].
Qed.

Lemma scan_span_app p n a b :
  a <> [] -> Forall (fun c => p c = true) a -> (length a <= n)%nat ->
  (match b with [] => True | c :: _ => p c = false end \/ n = length a) ->
  scan_span p n (a ++ b) = Some (a, b).
Proof. intros. unfold scan_span. rewrite span_app by done. by destruct a. Qed.

Lemma scan_span_split p n l a b : scan_span p n l = Some (a, b) -> l = a ++ b.
Proof.
  unfold scan_span. assert (forall n l, l = (span p n l).1 ++ (span p n l).2) as Hs.
  { clear. intros n. induction n as [|n IH]; intros [|c l]; cbn; try done.
    destruct (p c); cbn; [|done]. specialize (IH l). destruct (span p n l). cbn in *. by f_equal. }
  intros H. rewrite (Hs n l) at 1. destruct (span p n l) as [[|c x] y]; [done|].
  by injection H as <- <-.
Qed.

Lemma skip_ws_none l : match l with [] => True | c :: _ => is_space c = false end -> skip_ws l = l.
Proof. destruct l as [|c l]; [done|]. intros H. unfold skip_ws. cbn. by rewrite H. Qed.

Lemma length_span p n l : (length (span p n l).1 <= n)%nat.
Proof.
  revert l. induction n as [|n IH]; intros [|c l]; cbn; try lia.
  destruct (p c); cbn; [|lia]. specialize (IH l). destruct (span p n l). cbn in *. lia.
Qed.

Lemma length_hex_digits n z acc :
  (length (hex_digits n z acc) <= n + length acc)%nat.
Proof.
  revert z acc. induction n as [|n IH]; intros z acc; cbn; [lia|].
  case_match; [lia|]. etrans; [apply IH|]. cbn. lia.
Qed.

Lemma length_print_hex z : (String.length (print_hex z) <= 16)%nat.
Proof.
  unfold print_hex. rewrite <- length_chars. unfold chars.
  rewrite String.list_ascii_of_string_of_list_ascii. case_match; cbn -[hex_digits]; [lia|].
  etrans; [apply length_hex_digits|]. cbn. lia.
Qed.

Lemma ord_chr z : 0 <= z < 256 -> ord (chr z) = z.
Proof. intros. unfold ord, chr. rewrite Ascii.nat_ascii_embedding; lia. Qed.

Lemma hex_digit_not_nul z : 0 <= z < 16 -> hex_digit z <> NUL.
Proof.
  intros Hz H. apply (f_equal ord) in H. unfold hex_digit in H. rewrite ord_chr in H.
  - change (ord NUL) with 0 in H. destruct (Z.ltb_spec z 10); lia.
  - destruct (Z.ltb_spec z 10); lia.
Qed.

Lemma no_nul_print_hex z : 0 <= z -> no_nul (print_hex z).
Proof.
  intros Hz. unfold print_hex, no_nul, chars. rewrite String.list_ascii_of_string_of_list_ascii.
  case_match; [by repeat constructor|].
  assert (forall n z acc, 0 <= z -> Forall (fun c => c <> NUL) acc ->
    Forall (fun c => c <> NUL) (hex_digits n z acc)) as Hd.
  { clear. intros n. induction n as [|n IH]; intros z acc Hz Ha; cbn; [done|].
    case_match; [done|]. apply IH; [apply Z.div_pos; lia|]. constructor; [|done].
    apply hex_digit_not_nul, Z.mod_pos_bound. lia. }
  by apply Hd.
Qed.

(** *** Reading back the digits *)

Definition is_hex_digit (c : ascii) : bool := is_digit c || ((97 <=? ord c) && (ord c <=? 102)).

Definition hex_digit_val (c : ascii) : Z := if ord c <? 58 then ord c - 48 else ord c - 87.

(** The number a string of digits stands for. *)
Definition hex_val (s : string) : Z := foldl (fun v c => 16 * v + hex_digit_val c) 0 (chars s).

Lemma hex_digit_back z : 0 <= z < 16 -> hex_digit_val (hex_digit z) = z /\ is_hex_digit (hex_digit z) = true.
Proof.
  intros Hz. assert (Forall (fun z => hex_digit_val (hex_digit z) = z /\
    is_hex_digit (hex_digit z) = true) (seqZ 0 16)) as H by (repeat constructor).
  rewrite Forall_forall in H. apply H, elem_of_seqZ. lia.
Qed.

Lemma hex_digits_back n : forall z acc,
  0 <= z < 16 ^ Z.of_nat n -> Forall (fun c => is_hex_digit c = true) acc ->
  foldl (fun v c => 16 * v + hex_digit_val c) 0 (hex_digits n z acc)
    = foldl (fun v c => 16 * v + hex_digit_val c) z acc /\
  Forall (fun c => is_hex_digit c = true) (hex_digits n z acc).
Proof.
  induction n as [|n IH]; intros z acc Hz Hacc; cbn [hex_digits].
  { split; [|done]. f_equal. change (16 ^ Z.of_nat 0) with 1 in Hz. lia. }
  destruct (Z.eqb_spec z 0) as [->|H0]; [done|].
  pose proof (Z.mod_pos_bound z 16 ltac:(lia)) as Hm. destruct (hex_digit_back _ Hm) as [Hv Hd].
  destruct (IH (z / 16) (hex_digit (z mod 16) :: acc)) as [-> Hall]; [|by constructor|].
  - rewrite Nat2Z.inj_succ, Z.pow_succ_r in Hz by lia.
    split; [apply Z.div_pos; lia|apply Z.div_lt_upper_bound; lia].
  - split; [|done]. cbn. f_equal. rewrite Hv. pose proof (Z.div_mod z 16). lia.
Qed.

Lemma hex_val_print z :
  0 <= z < 2 ^ 64 ->
  hex_val (print_hex z) = z /\ Forall (fun c => is_hex_digit c = true) (chars (print_hex z)) /\
  (1 <= String.length (print_hex z))%nat.
Proof.
  intros Hz. unfold hex_val, print_hex.
  destruct (Z.eqb_spec z 0) as [->|H0]; [by repeat constructor|].
  rewrite <- length_chars. unfold chars. rewrite String.list_ascii_of_string_of_list_ascii.
  destruct (hex_digits_back 16 z []) as [Hv Hd]; [change (16 ^ Z.of_nat 16) with (2 ^ 64); lia|done|].
  split; [done|]. split; [done|]. destruct (hex_digits 16 z []); [|cbn; lia]. by destruct H0.
Qed.

#[export] Hint Resolve length_print_hex no_nul_print_hex : vthing.
