(* ===== verification/Knot.v ===== *)
(** * The KNoT protocol data the daemon handles

    [knot/knot_protocol.h] and [knot/knot_types.h] belong to the KNoT protocol library, which
    is not part of the repository.  What the daemon uses of it is here: the fields of its
    structs that the code reads and writes (the widths of the members of [knot_value_type] are
    those of the pointers the code hands to [storage_read_key_*]), and the class
    [KnotProtocol] of the constants and functions of the library, a parameter of every
    definition that uses them. *)

From S2P Require Import Prelude.

(** ** [knot_value_type]

    The union is the little-endian number its first eight bytes form; [raw], the only longer
    member, is neither read nor written by the code.  [val_*] read a member, [set_val_*] write
    one and leave the other bytes alone. *)

Abbreviation knot_value_type := Z (only parsing).

Definition val_i (v : knot_value_type) : Z := s32 v.
Definition val_f (v : knot_value_type) : Z := u32 v.
Definition val_b (v : knot_value_type) : Z := u8 v.
Definition val_i64 (v : knot_value_type) : Z := s64 v.
Definition val_u (v : knot_value_type) : Z := u32 v.
Definition val_u64 (v : knot_value_type) : Z := u64 v.

(** Write [x] to the low [n] bits. *)
Definition set_low (n : Z) (v : knot_value_type) (x : Z) : knot_value_type :=
  Z.lor (Z.shiftl (Z.shiftr v n) n) (wrap n x).

Definition set_val_i := set_low 32.
Definition set_val_f := set_low 32.
Definition set_val_b := set_low 8.
Definition set_val_i64 := set_low 64.
Definition set_val_u := set_low 32.
Definition set_val_u64 := set_low 64.

(** ** [float]

    A [float] is its IEEE 754 binary32 encoding.  [float_val w] is the value times [2^149], an
    integer for every finite [w] ([+-2^277] for the infinities, above every finite value), and
    [None] for a NaN; C's [<] and [>] compare the values and are false on a NaN. *)

Definition float_val (w : Z) : option Z :=
  let m := Z.land w (Z.ones 23) in
  let e := Z.land (Z.shiftr w 23) (Z.ones 8) in
  let s := if Z.testbit w 31 then -1 else 1 in
  if decide (e = 255 /\ m <> 0) then None
  else if decide (e = 0) then Some (s * m)
  else Some (s * Z.shiftl (m + 2 ^ 23) (e - 1)).

Definition float_lt (a b : Z) : bool :=
  match float_val a, float_val b with
  | Some x, Some y => x <? y
  | _, _ => false
  end.

(** ** Structs *)

Record knot_schema := KnotSchema {
  schema_type_id : Z;
  schema_unit : Z;
  schema_value_type : Z;
  schema_name : list ascii    (* char name[KNOT_PROTOCOL_DATA_NAME_LEN] *)
}.

Record knot_event := KnotEvent {
  event_flags : Z;
  event_time_sec : Z;
  event_lower_limit : knot_value_type;
  event_upper_limit : knot_value_type
}.

Record knot_msg_config := KnotMsgConfig {
  config_sensor_id : Z;
  config_schema : knot_schema;
  config_event : knot_event
}.

(** ** Constants and functions of the library *)

Class KnotProtocol := {
  KNOT_VALUE_TYPE_INT : Z;
  KNOT_VALUE_TYPE_FLOAT : Z;
  KNOT_VALUE_TYPE_BOOL : Z;
  KNOT_VALUE_TYPE_RAW : Z;
  KNOT_VALUE_TYPE_INT64 : Z;
  KNOT_VALUE_TYPE_UINT : Z;
  KNOT_VALUE_TYPE_UINT64 : Z;
  KNOT_VALUE_TYPE_MIN : Z;
  KNOT_VALUE_TYPE_MAX : Z;
  KNOT_EVT_FLAG_TIME : Z;
  KNOT_EVT_FLAG_LOWER_THRESHOLD : Z;
  KNOT_EVT_FLAG_UPPER_THRESHOLD : Z;
  KNOT_EVT_FLAG_CHANGE : Z;
  KNOT_EVT_FLAG_UNREGISTERED : Z;
  KNOT_PROTOCOL_TOKEN_LEN : nat;
  KNOT_PROTOCOL_UUID_LEN : nat;
  KNOT_PROTOCOL_DEVICE_NAME_LEN : nat;
  KNOT_PROTOCOL_DATA_NAME_LEN : nat;
  (* the conversions of an int to the fields of the structs *)
  to_type_id : Z -> Z;
  to_unit : Z -> Z;
  to_value_type : Z -> Z;
  to_time_sec : Z -> Z;
  sizeof_value_type : Z;
  knot_schema_is_valid : Z -> Z -> Z -> Z;  (* type_id, value_type, unit *)
  knot_event_is_valid : Z -> Z -> Z -> knot_value_type -> knot_value_type -> Z;
  (* value_type, value and the limit written through the pointer *)
  knot_value_assign_limit : Z -> knot_value_type -> knot_value_type -> knot_value_type
}.

(** What the code relies on: the value types are the labels of one [switch], so the program
    does not compile unless they differ; they lie between the MIN and the MAX of the library, and
    the masks [properties.c] makes of them fit an [int]; a schema of another type is not valid;
    each flag is one bit of its own; the thing id holds the sixteen hexadecimal digits of a
    [uint64_t] (the comment at [device_generate_thing_id]). *)
Class KnotProtocolLaws `{KP : KnotProtocol} : Prop := {
  value_types_distinct :
    NoDup [KNOT_VALUE_TYPE_INT; KNOT_VALUE_TYPE_FLOAT; KNOT_VALUE_TYPE_BOOL;
           KNOT_VALUE_TYPE_RAW; KNOT_VALUE_TYPE_INT64; KNOT_VALUE_TYPE_UINT;
           KNOT_VALUE_TYPE_UINT64];
  value_types_range :
    Forall (fun t => KNOT_VALUE_TYPE_MIN <= t <= KNOT_VALUE_TYPE_MAX)
      [KNOT_VALUE_TYPE_INT; KNOT_VALUE_TYPE_FLOAT; KNOT_VALUE_TYPE_BOOL;
       KNOT_VALUE_TYPE_RAW; KNOT_VALUE_TYPE_INT64; KNOT_VALUE_TYPE_UINT;
       KNOT_VALUE_TYPE_UINT64];
  value_types_bounds : 0 <= KNOT_VALUE_TYPE_MIN /\ KNOT_VALUE_TYPE_MAX < 31;
  schema_valid_type type_id value_type unit :
    knot_schema_is_valid type_id value_type unit = 0 ->
    KNOT_VALUE_TYPE_MIN <= value_type <= KNOT_VALUE_TYPE_MAX;
  event_flags_bits :
    exists t l u c r,
      NoDup [t; l; u; c; r] /\ Forall (fun b => 0 <= b) [t; l; u; c; r] /\
      KNOT_EVT_FLAG_TIME = 2 ^ t /\ KNOT_EVT_FLAG_LOWER_THRESHOLD = 2 ^ l /\
      KNOT_EVT_FLAG_UPPER_THRESHOLD = 2 ^ u /\ KNOT_EVT_FLAG_CHANGE = 2 ^ c /\
      KNOT_EVT_FLAG_UNREGISTERED = 2 ^ r;
  uuid_len_holds_u64 : (16 <= KNOT_PROTOCOL_UUID_LEN)%nat
}.

Lemma value_types_small `{KnotProtocolLaws} :
  Forall (fun t => 0 <= t < 31)
    [KNOT_VALUE_TYPE_INT; KNOT_VALUE_TYPE_FLOAT; KNOT_VALUE_TYPE_BOOL;
     KNOT_VALUE_TYPE_RAW; KNOT_VALUE_TYPE_INT64; KNOT_VALUE_TYPE_UINT;
     KNOT_VALUE_TYPE_UINT64].
Proof.
  pose proof value_types_bounds. eapply Forall_impl; [apply value_types_range|].
  cbn. intros t ?. lia.
Qed.

(** A flag test of the code, [flags & FLAG] used as a condition. *)
Definition flag_set (flags flag : Z) : bool := c_true (Z.land flags flag).

(** ** Automation *)

(** The value types are pairwise different. *)
Ltac distinct_types :=
  pose proof value_types_distinct as Hdistinct;
  repeat setoid_rewrite NoDup_cons in Hdistinct; rewrite ?not_elem_of_cons in Hdistinct;
  destruct_and? Hdistinct.

Ltac type_conds :=
  repeat match goal with
  | |- context [Z.eqb ?a ?b] => destruct (Z.eqb_spec a b); try congruence
  | |- context [decide (?a = ?b)] => destruct (decide (a = b)); try congruence
  end.

(** ** Facts on the members of a value *)

Lemma testbit_set_low n v x i : 0 <= n -> 0 <= i ->
  Z.testbit (set_low n v x) i = if i <? n then Z.testbit x i else Z.testbit v i.
Proof.
  intros. unfold set_low.
  rewrite Z.lor_spec, testbit_wrap, Z.shiftl_spec by lia.
  destruct (Z.ltb_spec i n); simpl.
  - by rewrite Z.testbit_neg_r by lia.
  - rewrite Z.shiftr_spec by lia. rewrite orb_false_r. f_equal. lia.
Qed.

Lemma wrap_set_low n v x : 0 <= n -> wrap n (set_low n v x) = wrap n x.
Proof.
  intros. apply Z.bits_inj'. intros i Hi.
  rewrite !testbit_wrap, testbit_set_low by lia. by destruct (i <? n).
Qed.

Lemma sext_set_low n v x : 0 <= n -> sext n (set_low n v x) = sext n x.
Proof. intros. unfold sext. by rewrite wrap_set_low. Qed.

Lemma flag_set_spec flags b : 0 <= b -> flag_set flags (2 ^ b) = Z.testbit flags b.
Proof.
  intros. unfold flag_set, c_true.
  destruct (Z.testbit flags b) eqn:E.
  - apply negb_true_iff, Z.eqb_neq. intros H0.
    apply (f_equal (fun z => Z.testbit z b)) in H0.
    rewrite Z.land_spec, Z.pow2_bits_true, E, Z.bits_0 in H0 by lia. done.
  - apply negb_false_iff, Z.eqb_eq, Z.bits_inj'. intros i Hi.
    rewrite Z.land_spec, Z.pow2_bits_eqb, Z.bits_0 by lia.
    destruct (Z.eqb_spec b i); [subst; by rewrite E|apply andb_false_r].
Qed.

Lemma float_lt_irrefl a : float_lt a a = false.
Proof. unfold float_lt. destruct (float_val a); [apply Z.ltb_irrefl|done]. Qed.

(** A library with the value types and flags of the configuration file's comments
    (confs/device.conf: INT is 1, BOOL is 3), which shows the laws can hold. *)
Definition example_knot : KnotProtocol := {|
  KNOT_VALUE_TYPE_INT := 1; KNOT_VALUE_TYPE_FLOAT := 2; KNOT_VALUE_TYPE_BOOL := 3;
  KNOT_VALUE_TYPE_RAW := 4; KNOT_VALUE_TYPE_INT64 := 5; KNOT_VALUE_TYPE_UINT := 6;
  KNOT_VALUE_TYPE_UINT64 := 7; KNOT_VALUE_TYPE_MIN := 1; KNOT_VALUE_TYPE_MAX := 7;
  KNOT_EVT_FLAG_TIME := 1; KNOT_EVT_FLAG_LOWER_THRESHOLD := 2;
  KNOT_EVT_FLAG_UPPER_THRESHOLD := 4; KNOT_EVT_FLAG_CHANGE := 8;
  KNOT_EVT_FLAG_UNREGISTERED := 128;
  KNOT_PROTOCOL_TOKEN_LEN := 40; KNOT_PROTOCOL_UUID_LEN := 36;
  KNOT_PROTOCOL_DEVICE_NAME_LEN := 64; KNOT_PROTOCOL_DATA_NAME_LEN := 30;
  to_type_id := u16; to_unit := u8; to_value_type := u8; to_time_sec := u16;
  sizeof_value_type := 1;
  knot_schema_is_valid := fun _ t _ => if decide (1 <= t <= 7) then 0 else -1;
  knot_event_is_valid := fun flags _ _ _ _ => if decide (flags = 0) then -1 else 0;
  knot_value_assign_limit := fun _ v _ => v
|}.

Lemma example_knot_laws : KnotProtocolLaws (KP := example_knot).
Proof.
  split.
  - by apply (bool_decide_unpack _); vm_compute.
  - repeat constructor; cbn; lia.
  - cbn. lia.
  - intros t v u. cbn. by case_decide.
  - exists 0, 1, 2, 3, 7. split; [by apply (bool_decide_unpack _); vm_compute|].
    split; [repeat constructor; lia|done].
  - cbn. lia.
Qed.
