(* ===== verification/Ext.v ===== *)
(** * Effects: the calls the daemon makes, and the monad of its functions

    The functions of ell, the KNoT cloud SDK, libmodbus and the C library that have effects
    are calls.  Every call is recorded in [os_log] and its result comes from the parameter
    [env_answer], a function of the whole history of calls: a theorem that holds for every
    [Env] holds whatever the libraries and the system answer.  What the daemon itself later
    observes of its calls is state: open file descriptors and file contents ([open],
    [ftruncate], [pwrite], [close]), live timers ([l_timeout_create], [l_timeout_remove]),
    pointers allocated so far, and [errno].

    [M S A] is a function over a component's static variables [S] that returns [A]; [None] is
    undefined behaviour, a NULL pointer dereferenced or handed to a function that reads it. *)

From S2P Require Import Prelude Knot.

(** ** Calls *)

(** The callbacks timers are created with, and the data each carries. *)
Inductive poll_read_cb := on_modbus_poll_receive_cb.

Inductive timer_cb :=
| on_msg_timeout_cb
| on_sensor_to_cb (id timeout_sec : Z)
| on_poll_timeout_cb (id interval : Z) (read_cb : poll_read_cb)
| attempt_connect_cb.

Inductive call :=
(* ell *)
| C_timeout_create (seconds : Z) (cb : timer_cb)
| C_timeout_create_ms (ms : Z) (cb : timer_cb)
| C_timeout_modify (to seconds : Z)
| C_timeout_remove (to : Z)
| C_getrandom (len : Z)
| C_queue_new
| C_io_new (fd : Z)
| C_io_set_disconnect_handler (io : Z)
| C_io_destroy (io : Z)
(* KNoT cloud SDK *)
| C_cloud_start (url user_token : option string)
| C_cloud_stop
| C_cloud_register_device (id name : string)
| C_cloud_auth_device (id token : string)
| C_cloud_update_config (id : string) (configs : list knot_msg_config)
| C_cloud_publish_data (id : string) (sensor_id value_type value len : Z)
| C_cloud_read_start (id : string)
| C_cloud_set_log_priority (priority : Z)
(* libmodbus *)
| C_modbus_new_tcp_pi (host port : string)
| C_modbus_new_rtu (port : string) (baud : Z) (parity : ascii) (data_bit stop_bit : Z)
| C_modbus_rtu_set_serial_mode (ctx : Z) (rs485 : bool)
| C_modbus_rtu_set_rts_none (ctx : Z)
| C_modbus_set_slave (ctx slave : Z)
| C_modbus_get_socket (ctx : Z)
| C_modbus_connect (ctx : Z)
| C_modbus_close (ctx : Z)
| C_modbus_free (ctx : Z)
| C_modbus_read_input_bits (ctx addr nb : Z)
| C_modbus_read_registers (ctx addr nb : Z)
(* C library *)
| C_stat (path : string)
| C_mkdir (path : string)
| C_open (path : string)
| C_open_rdwr (path : string)
| C_ftruncate (fd : Z)
| C_pwrite (fd : Z) (data : string)
| C_close (fd : Z)
| C_ioctl_get_rs485 (fd : Z)
| C_daemon
(* the main loop of ell *)
| C_main_init
| C_main_quit
| C_main_exit
| C_log_set_handler
| C_debug_enable (pattern : string).

(** The result of a call: what it returns, the [errno] it leaves, and the data it writes
    through its pointer arguments. *)
Record answer := Answer { a_rc : Z; a_errno : Z; a_data : list Z }.

(** The answer to the call at the head of the history, newest call first. *)
Class Env := env_answer : list call -> answer.

(** ** State of the system outside the program *)

Record os := Os {
  os_log : list call;               (* newest first *)
  os_errno : Z;
  os_files : gmap string string;    (* contents of the files *)
  os_fds : gmap Z string;           (* open descriptors, with the path of each *)
  os_timers : gmap Z timer_cb;      (* live timers *)
  os_next : Z                       (* the next pointer an allocation returns *)
}.

Definition os_init (files : gmap string string) : os := Os [] 0 files ∅ ∅ 1.

Definition with_errno (e : Z) (o : os) : os :=
  Os (os_log o) e (os_files o) (os_fds o) (os_timers o) (os_next o).
Definition with_files (f : gmap string string) (o : os) : os :=
  Os (os_log o) (os_errno o) f (os_fds o) (os_timers o) (os_next o).
Definition with_fds (f : gmap Z string) (o : os) : os :=
  Os (os_log o) (os_errno o) (os_files o) f (os_timers o) (os_next o).
Definition with_timers (t : gmap Z timer_cb) (o : os) : os :=
  Os (os_log o) (os_errno o) (os_files o) (os_fds o) t (os_next o).
Definition with_next (n : Z) (o : os) : os :=
  Os (os_log o) (os_errno o) (os_files o) (os_fds o) (os_timers o) n.

(** ** The monad *)

Definition M (S A : Type) : Type := S -> os -> option (A * S * os).

Definition ret {S A} (a : A) : M S A := fun s o => Some (a, s, o).
Definition bind {S A B} (m : M S A) (k : A -> M S B) : M S B :=
  fun s o => match m s o with Some (a, s', o') => k a s' o' | None => None end.
Definition UB {S A} : M S A := fun _ _ => None.
Definition get {S} : M S S := fun s o => Some (s, s, o).
Definition put {S} (s : S) : M S () := fun _ o => Some (tt, s, o).
Definition modify {S} (f : S -> S) : M S () := fun s o => Some (tt, f s, o).
Definition get_os {S} : M S os := fun s o => Some (o, s, o).
Definition modify_os {S} (f : os -> os) : M S () := fun s o => Some (tt, s, f o).

Notation "'let!' x := m 'in' k" := (bind m (fun x => k))
  (at level 10, x name, m at level 100, k at level 200) : vt_scope.
Notation "'let!' ' p := m 'in' k" := (bind m (fun p => k))
  (at level 10, p strict pattern, m at level 100, k at level 200) : vt_scope.
Notation "m ;; k" := (bind m (fun _ => k))
  (at level 100, right associativity) : vt_scope.
#[global] Open Scope vt_scope.

(** [if (c) m;] *)
Definition when {S} (c : bool) (m : M S ()) : M S () := if c then m else ret tt.

(** A pointer that is dereferenced. *)
Definition deref {S A} (p : option A) : M S A :=
  match p with Some a => ret a | None => UB end.

(** [foreach] over the elements of a container, in the order it visits them. *)
Fixpoint foreach {S A} (f : A -> M S ()) (l : list A) : M S () :=
  match l with
  | [] => ret tt
  | a :: r => f a ;; foreach f r
  end.

(** A component's function run on the state of the whole it is a part of. *)
Record lens (W S : Type) := Lens { lens_get : W -> S; lens_set : S -> W -> W }.
Arguments Lens {W S} _ _.
Arguments lens_get {W S} _ _.
Arguments lens_set {W S} _ _ _.

Class LensLaws {W S} (l : lens W S) : Prop := {
  lens_get_set s w : lens_get l (lens_set l s w) = s;
  lens_set_get w : lens_set l (lens_get l w) w = w;
  lens_set_set s s' w : lens_set l s (lens_set l s' w) = lens_set l s w
}.

Definition zoom {W S A} (l : lens W S) (m : M S A) : M W A :=
  fun w o => match m (lens_get l w) o with
             | Some (a, s, o') => Some (a, lens_set l s w, o')
             | None => None
             end.

(** ** The calls as functions *)

Section Calls.
Context `{E : Env} {S : Type}.

(** Record a call, take its answer and the [errno] it leaves. *)
Definition ext (c : call) : M S answer := fun s o =>
  let h := c :: os_log o in
  let a := env_answer h in
  Some (a, s, Os h (a_errno a) (os_files o) (os_fds o) (os_timers o) (os_next o)).

(** A call whose result is an [int], and one whose result is ignored. *)
Definition ext_rc (c : call) : M S Z := let! a := ext c in ret (a_rc a).
Definition ext_ (c : call) : M S () := ext c ;; ret tt.

(** An allocation: NULL, 0, when the library answers a negative number. *)
Definition ext_alloc (c : call) : M S Z :=
  let! a := ext c in
  if a_rc a <? 0 then ret 0
  else
    let! o := get_os in
    modify_os (with_next (os_next o + 1)) ;;
    ret (os_next o).

Definition errno : M S Z := let! o := get_os in ret (os_errno o).
Definition set_errno (e : Z) : M S () := modify_os (with_errno e).

(** *** Timers *)

Definition new_timer (c : call) (cb : timer_cb) : M S Z :=
  let! to := ext_alloc c in
  when (negb (to =? 0))
    (modify_os (fun o => with_timers (<[to := cb]> (os_timers o)) o)) ;;
  ret to.

Definition l_timeout_create (seconds : Z) (cb : timer_cb) : M S Z :=
  new_timer (C_timeout_create seconds cb) cb.
Definition l_timeout_create_ms (ms : Z) (cb : timer_cb) : M S Z :=
  new_timer (C_timeout_create_ms ms cb) cb.
Definition l_timeout_modify (to seconds : Z) : M S () := ext_ (C_timeout_modify to seconds).
Definition l_timeout_remove (to : Z) : M S () :=
  ext_ (C_timeout_remove to) ;;
  modify_os (fun o => with_timers (delete to (os_timers o)) o).

(** *** Files

    [open] with [O_CREAT] creates a missing file; the descriptor is the one the system names when it is
    free, else one above every open descriptor.  [pwrite] at offset 0 stores as many bytes as
    it returns, at most those it was given. *)

Definition free_fd (fds : gmap Z string) : Z :=
  Z.succ (foldr Z.max 2 (map_to_list fds).*1).

Definition pick_fd (fds : gmap Z string) (wish : Z) : Z :=
  if decide (0 <= wish /\ fds !! wish = None) then wish else free_fd fds.

Definition open_fd (c : call) (path : string) : M S Z :=
  let! a := ext c in
  if a_rc a <? 0 then ret (-1)
  else
    let! o := get_os in
    let fd := pick_fd (os_fds o) (a_rc a) in
    modify_os (with_fds (<[fd := path]> (os_fds o))) ;;
    ret fd.

(** [open(path, O_RDWR)] *)
Definition c_open_rdwr (path : string) : M S Z := open_fd (C_open_rdwr path) path.

(** [open(path, O_RDWR | O_CREAT, ..)] *)
Definition c_open (path : string) : M S Z :=
  let! fd := open_fd (C_open path) path in
  if fd <? 0 then ret fd
  else
    modify_os (fun o => with_files
      (<[path := default EmptyString (os_files o !! path)]> (os_files o)) o) ;;
    ret fd.

Definition write_file (fd : Z) (f : string -> string) : M S () :=
  modify_os (fun o =>
    match os_fds o !! fd with
    | Some path => with_files (alter f path (os_files o)) o
    | None => o
    end).

Definition c_ftruncate (fd : Z) : M S Z :=
  let! rc := ext_rc (C_ftruncate fd) in
  if rc <? 0 then ret (-1)
  else write_file fd (fun _ => EmptyString) ;; ret 0.

(** The first [n] bytes of [old] replaced by those of [data]. *)
Definition overwrite (n : nat) (data old : string) : string :=
  String.string_of_list_ascii (take n (chars data) ++ drop n (chars old)).

Definition c_pwrite (fd : Z) (data : string) : M S Z :=
  let! rc := ext_rc (C_pwrite fd data) in
  if rc <? 0 then ret (-1)
  else
    let n := Z.min rc (strlen data) in
    write_file fd (overwrite (Z.to_nat n) data) ;;
    ret n.

Definition c_close (fd : Z) : M S Z :=
  let! rc := ext_rc (C_close fd) in
  modify_os (fun o => with_fds (delete fd (os_fds o)) o) ;;
  ret rc.
End Calls.

Arguments Env : simpl never.
#[global] Typeclasses Opaque Env.

(** ** Reasoning about the functions

    [post P m Q s o]: run on [s] and [o], [m] ends in a state where [Q] holds of its result;
    [P] is what undefined behaviour means, [False] in [wp] (it does not happen), [True] in
    [wlp] (a property of the runs where it does not). *)

Definition post {S A} (P : Prop) (m : M S A) (Q : A -> S -> os -> Prop) (s : S) (o : os) : Prop :=
  match m s o with Some (a, s', o') => Q a s' o' | None => P end.

Abbreviation wp := (post False).
Abbreviation wlp := (post True).

(** The state after call [c] was answered with [a]. *)
Definition logged (c : call) (a : answer) (o : os) : os :=
  Os (c :: os_log o) (a_errno a) (os_files o) (os_fds o) (os_timers o) (os_next o).

Section Post.
Context `{E : Env} {S : Type} (P : Prop).

Lemma post_mono {A} (m : M S A) (Q R : A -> S -> os -> Prop) s o :
  post P m Q s o -> (forall a s' o', Q a s' o' -> R a s' o') -> post P m R s o.
Proof. unfold post. destruct (m s o) as [[[a s'] o']|]; auto. Qed.

Lemma post_ret {A} (a : A) (Q : A -> S -> os -> Prop) s o : Q a s o -> post P (ret a) Q s o.
Proof. done. Qed.

Lemma post_bind {A B} (m : M S A) (k : A -> M S B) Q s o :
  post P m (fun a s' o' => post P (k a) Q s' o') s o -> post P (bind m k) Q s o.
Proof. unfold post, bind. by destruct (m s o) as [[[a s'] o']|]. Qed.

Lemma post_get (Q : S -> S -> os -> Prop) s o : Q s s o -> post P get Q s o.
Proof. done. Qed.

Lemma post_put x (Q : () -> S -> os -> Prop) s o : Q tt x o -> post P (put x) Q s o.
Proof. done. Qed.

Lemma post_modify f (Q : () -> S -> os -> Prop) s o : Q tt (f s) o -> post P (modify f) Q s o.
Proof. done. Qed.

Lemma post_get_os (Q : os -> S -> os -> Prop) s o : Q o s o -> post P get_os Q s o.
Proof. done. Qed.

Lemma post_modify_os f (Q : () -> S -> os -> Prop) s o :
  Q tt s (f o) -> post P (modify_os f) Q s o.
Proof. done. Qed.

Lemma post_errno (Q : Z -> S -> os -> Prop) s o : Q (os_errno o) s o -> post P errno Q s o.
Proof. done. Qed.

Lemma post_set_errno e (Q : () -> S -> os -> Prop) s o :
  Q tt s (with_errno e o) -> post P (set_errno e) Q s o.
Proof. done. Qed.

Lemma post_when c (m : M S ()) (Q : () -> S -> os -> Prop) s o :
  (c = true -> post P m Q s o) -> (c = false -> Q tt s o) -> post P (when c m) Q s o.
Proof. intros H1 H2. destruct c; [by apply H1|by apply H2]. Qed.

Lemma post_ext c (Q : answer -> S -> os -> Prop) s o :
  (forall a, a = env_answer (c :: os_log o) -> Q a s (logged c a o)) -> post P (ext c) Q s o.
Proof. intros H. by apply H. Qed.

Lemma post_ext_rc c (Q : Z -> S -> os -> Prop) s o :
  (forall a, a = env_answer (c :: os_log o) -> Q (a_rc a) s (logged c a o)) ->
  post P (ext_rc c) Q s o.
Proof. intros H. by apply H. Qed.

Lemma post_ext_ c (Q : () -> S -> os -> Prop) s o :
  (forall a, a = env_answer (c :: os_log o) -> Q tt s (logged c a o)) -> post P (ext_ c) Q s o.
Proof. intros H. by apply H. Qed.

Lemma post_foreach {A} (f : A -> M S ()) l (I : S -> os -> Prop) s o :
  I s o ->
  (forall a s' o', a ∈ l -> I s' o' -> post P (f a) (fun _ => I) s' o') ->
  post P (foreach f l) (fun _ => I) s o.
Proof.
  revert s o. induction l as [|a l IH]; intros s o HI Hf; [done|].
  apply post_bind. eapply post_mono; [apply Hf; [left|done]|].
  intros ? s' o' H. apply IH; [done|]. intros. apply Hf; [by right|done].
Qed.

Lemma post_foreach_snoc {A} (f : A -> M S ()) l a (Q : () -> S -> os -> Prop) s o :
  post P (foreach f l) (fun _ s' o' => post P (f a) Q s' o') s o ->
  post P (foreach f (l ++ [a])) Q s o.
Proof.
  unfold post. revert s o. induction l as [|b l IH]; intros s o; cbn; unfold bind.
  - by destruct (f a s o) as [[[[] s'] o']|].
  - destruct (f b s o) as [[[? s'] o']|]; [apply IH|done].
Qed.

Lemma post_zoom {W A} (l : lens W S) (m : M S A) (Q : A -> W -> os -> Prop) w o :
  post P m (fun a s o' => Q a (lens_set l s w) o') (lens_get l w) o -> post P (zoom l m) Q w o.
Proof. unfold post, zoom. by destruct (m (lens_get l w) o) as [[[a s'] o']|]. Qed.

Lemma post_zoom_get {W} (l : lens W S) `{!LensLaws l} (Q : S -> W -> os -> Prop) w o :
  Q (lens_get l w) w o -> post P (zoom l get) Q w o.
Proof. intros H. apply post_zoom, post_get. by rewrite lens_set_get. Qed.

Lemma post_zoom_modify {W} (l : lens W S) f (Q : () -> W -> os -> Prop) w o :
  Q tt (lens_set l (f (lens_get l w)) w) o -> post P (zoom l (modify f)) Q w o.
Proof. intros H. by apply post_zoom, post_modify. Qed.
End Post.

(** Use of a specification proved for another meaning of undefined behaviour. *)
Lemma post_use {S A} (P P' : Prop) (m : M S A) (Q R : A -> S -> os -> Prop) s o :
  post P m Q s o -> (P -> P') -> (forall a s' o', Q a s' o' -> R a s' o') -> post P' m R s o.
Proof. unfold post. destruct (m s o) as [[[a s'] o']|]; auto. Qed.

Lemma post_eq {S A} P (m m' : M S A) (Q : A -> S -> os -> Prop) s o :
  m s o = m' s o -> post P m' Q s o -> post P m Q s o.
Proof. unfold post. by intros ->. Qed.

Lemma wlp_any {S A} (m : M S A) s o : wlp m (fun _ _ _ => True) s o.
Proof. unfold post. by destruct (m s o) as [[[? ?] ?]|]. Qed.

Lemma wp_wlp {S A} (m : M S A) (Q : A -> S -> os -> Prop) s o : wp m Q s o -> wlp m Q s o.
Proof. intros H. by eapply post_use; [exact H|..]. Qed.

Lemma wlp_imp {S A} (A' : Prop) (m : M S A) (Q : A -> S -> os -> Prop) s o :
  (A' -> wlp m Q s o) -> wlp m (fun a s' o' => A' -> Q a s' o') s o.
Proof. unfold post. destruct (m s o) as [[[]]|]; auto. Qed.

(** One step through a function's body. *)
Ltac post_step :=
  match goal with
  | |- post _ (bind _ _) _ _ _ => apply post_bind
  | |- post _ (ret _) _ _ _ => apply post_ret
  | |- post _ (deref (Some _)) _ _ _ => apply post_ret
  | |- post _ get _ _ _ => apply post_get
  | |- post _ (put _) _ _ _ => apply post_put
  | |- post _ (modify _) _ _ _ => apply post_modify
  | |- post _ get_os _ _ _ => apply post_get_os
  | |- post _ (modify_os _) _ _ _ => apply post_modify_os
  | |- post _ errno _ _ _ => apply post_errno
  | |- post _ (set_errno _) _ _ _ => apply post_set_errno
  | |- post _ (when _ _) _ _ _ => apply post_when; [intros ?Hc|intros ?Hc]
  | |- post _ (ext _) _ _ _ => apply post_ext; intros ?a ?Ha
  | |- post _ (ext_rc _) _ _ _ => apply post_ext_rc; intros ?a ?Ha
  | |- post _ (ext_ _) _ _ _ => apply post_ext_; intros ?a ?Ha
  | |- post _ (zoom _ get) _ _ _ => apply post_zoom_get; [exact _|]
  | |- post _ (zoom _ (modify _)) _ _ _ => apply post_zoom_modify
  | |- post _ (zoom _ _) _ _ _ => apply post_zoom
  | |- post _ (if ?c then _ else _) _ _ _ => destruct c eqn:?Hc
  | |- post _ (match ?c with _ => _ end) _ _ _ => destruct c eqn:?Hc
  | |- post True UB _ _ _ => exact I
  end; cbn beta iota.

Ltac post_steps := repeat post_step.

(** A run from its result. *)
Lemma post_intro {S A} P (m : M S A) (Q : A -> S -> os -> Prop) s o a s' o' :
  m s o = Some (a, s', o') -> Q a s' o' -> post P m Q s o.
Proof. unfold post. by intros ->. Qed.

(** The result a computation has, along with what holds of it. *)
Lemma post_run {S A} P (m : M S A) (Q : A -> S -> os -> Prop) s o :
  post P m Q s o -> post P m (fun a s' o' => m s o = Some (a, s', o') /\ Q a s' o') s o.
Proof. unfold post. by destruct (m s o) as [[[]]|]. Qed.

Lemma wlp_elim {S A} (m : M S A) (Q : A -> S -> os -> Prop) s o a s' o' :
  wlp m Q s o -> m s o = Some (a, s', o') -> Q a s' o'.
Proof. unfold post. by intros H E; rewrite E in H. Qed.

Lemma wp_run {S A} (m : M S A) (Q : A -> S -> os -> Prop) s o :
  wp m Q s o <-> exists a s' o', m s o = Some (a, s', o') /\ Q a s' o'.
Proof.
  unfold post. destruct (m s o) as [[[a s'] o']|]; split.
  - eauto 10.
  - by intros (? & ? & ? & [= <- <- <-] & ?).
  - done.
  - by intros (? & ? & ? & ? & ?).
Qed.

(** ** Live timers

    A timer the program holds is a pointer of an earlier allocation. *)

Definition os_wf (o : os) : Prop :=
  0 < os_next o /\ forall to, is_Some (os_timers o !! to) -> 0 < to < os_next o.

Lemma os_init_wf files : os_wf (os_init files).
Proof. split; [done|]. intros to [cb H]. done. Qed.

Lemma os_wf_fresh o : os_wf o -> os_timers o !! os_next o = None.
Proof.
  intros [_ H]. destruct (os_timers o !! os_next o) eqn:E; [|done].
  assert (0 < os_next o < os_next o) by (apply H; eauto). lia.
Qed.

Section Timers.
Context `{E : Env} {S : Type} (P : Prop).

(** The state after a timer was created. *)
Definition timer_added (c : call) (a : answer) (cb : timer_cb) (o : os) : os :=
  Os (c :: os_log o) (a_errno a) (os_files o) (os_fds o)
    (<[os_next o := cb]> (os_timers o)) (os_next o + 1).

Lemma post_new_timer c cb (Q : Z -> S -> os -> Prop) s o :
  os_wf o ->
  (forall a, a = env_answer (c :: os_log o) -> a_rc a < 0 -> Q 0 s (logged c a o)) ->
  (forall a, a = env_answer (c :: os_log o) -> 0 <= a_rc a ->
     os_next o <> 0 -> Q (os_next o) s (timer_added c a cb o)) ->
  post P (new_timer c cb) Q s o.
Proof.
  intros [Hn _] H0 H1. unfold new_timer, ext_alloc. post_steps.
  - done.
  - apply H0; [done|lia].
  - apply H1; [done|lia|lia].
  - cbn in *. apply negb_false_iff in Hc0. lia.
Qed.

Lemma os_wf_logged c a o : os_wf o -> os_wf (logged c a o).
Proof. done. Qed.

Lemma os_wf_timer_added c a cb o : os_wf o -> os_wf (timer_added c a cb o).
Proof.
  intros [Hn H]. split; cbn; [lia|]. intros to.
  rewrite lookup_insert. case_decide; [subst; lia|]. intros Hto. specialize (H _ Hto). lia.
Qed.

Lemma os_wf_delete to o : os_wf o -> os_wf (with_timers (delete to (os_timers o)) o).
Proof.
  intros [Hn H]. split; [done|]. intros t. cbn. rewrite lookup_delete.
  case_decide; [by intros []|]. apply H.
Qed.
End Timers.

#[export] Hint Resolve os_wf_logged os_wf_timer_added os_wf_delete os_init_wf : vthing.

(** ** Descriptors *)

Lemma free_fd_fresh fds : fds !! free_fd fds = None.
Proof.
  destruct (fds !! free_fd fds) as [p|] eqn:Hp; [|done]. exfalso.
  apply elem_of_map_to_list in Hp.
  assert (forall l : list Z, free_fd fds ∈ l -> free_fd fds <= foldr Z.max 2 l) as Hmax.
  { intros l. induction l as [|z l IH]; [by intros ?%elem_of_nil|].
    intros [->|H]%elem_of_cons; cbn; [lia|]. specialize (IH H). lia. }
  assert (free_fd fds <= foldr Z.max 2 (map_to_list fds).*1) as Hle.
  { apply Hmax, list_elem_of_fmap. by exists (free_fd fds, p). }
  unfold free_fd in Hle. lia.
Qed.

Lemma free_fd_pos fds : 0 < free_fd fds.
Proof.
  unfold free_fd. assert (2 <= foldr Z.max 2 (map_to_list fds).*1); [|lia].
  induction (map_to_list fds).*1; cbn; lia.
Qed.

Lemma pick_fd_fresh fds wish : fds !! pick_fd fds wish = None /\ 0 <= pick_fd fds wish.
Proof.
  unfold pick_fd. case_decide as H; [destruct H; by split|].
  split; [apply free_fd_fresh|]. pose proof (free_fd_pos fds). lia.
Qed.

(** ** Timers of a container

    [removed l m] are the live timers [m] without those of [l]. *)

Definition removed (l : list Z) (m : gmap Z timer_cb) : gmap Z timer_cb := foldr delete m l.

Lemma removed_delete to l m : removed l (delete to m) = delete to (removed l m).
Proof.
  unfold removed. induction l as [|x l IH]; cbn; [done|]. rewrite IH. apply delete_delete.
Qed.

Lemma removed_cons to l m : removed (to :: l) m = removed l (delete to m).
Proof. by rewrite removed_delete. Qed.

Lemma removed_insert to cb l m : m !! to = None -> removed (to :: l) (<[to := cb]> m) = removed l m.
Proof.
  intros Hm. rewrite removed_cons. by rewrite delete_insert_id.
Qed.

Lemma removed_0 l o : os_wf o -> removed (0 :: l) (os_timers o) = removed l (os_timers o).
Proof.
  intros [_ Hw]. rewrite removed_cons. rewrite delete_id; [done|].
  destruct (os_timers o !! 0) eqn:E; [|done]. assert (0 < 0 < os_next o) by (apply Hw; eauto). lia.
Qed.

Section Removal.
Context `{E : Env} {S : Type} (P : Prop).

(** What a call leaves of the system outside the program: all of it but the log and [errno]. *)
Record os_same (o o' : os) : Prop := {
  same_files : os_files o' = os_files o;
  same_fds : os_fds o' = os_fds o;
  same_timers : os_timers o' = os_timers o;
  same_next : os_next o' = os_next o
}.

Lemma os_same_refl o : os_same o o.
Proof. by split. Qed.

Lemma os_same_logged o c a o' : os_same o o' -> os_same o (logged c a o').
Proof. by intros []. Qed.

Lemma os_same_wf o o' : os_same o o' -> os_wf o -> os_wf o'.
Proof. intros [_ _ Ht Hn] [Hw1 Hw2]. split; [by rewrite Hn|]. by rewrite Ht, Hn. Qed.

(** Removing every timer of a container. *)
Lemma post_remove_all {A} (f : A -> M S ()) (timer : A -> Z) l (Q : () -> S -> os -> Prop) s o :
  (forall a, f a = l_timeout_remove (timer a)) -> os_wf o ->
  (forall o', os_wf o' -> os_timers o' = removed (timer <$> l) (os_timers o) ->
     os_log o' = rev (C_timeout_remove <$> (timer <$> l)) ++ os_log o ->
     os_files o' = os_files o /\ os_fds o' = os_fds o -> Q tt s o') ->
  post P (foreach f l) Q s o.
Proof.
  intros Hf. revert o. induction l as [|a l IH]; intros o Hw HQ; [by apply HQ|].
  cbn [foreach]. rewrite Hf. unfold l_timeout_remove. post_steps.
  apply IH; [by apply os_wf_delete|]. cbn. intros o' Hw' Ht Hl Hf'. apply HQ; [done|..|done].
  - rewrite Ht. apply removed_delete.
  - rewrite Hl, !fmap_cons. cbn [rev]. by rewrite <- app_assoc.
Qed.
End Removal.

#[export] Hint Resolve os_same_refl os_same_logged : vthing.

(** The data handed to the cloud so far. *)
Definition is_publish (c : call) : bool :=
  match c with C_cloud_publish_data _ _ _ _ _ => true | _ => false end.

Definition published (o : os) : list call := List.filter is_publish (os_log o).

(** What every function but those of the timers and of the publication keeps: the timers, the
    allocations they come from and the data handed to the cloud; the history only grows. *)
Record os_quiet (o o' : os) : Prop := {
  quiet_log : os_log o `suffix_of` os_log o';
  quiet_timers : os_timers o' = os_timers o;
  quiet_next : os_next o' = os_next o;
  quiet_published : published o' = published o
}.

#[export] Instance os_quiet_preorder : PreOrder os_quiet.
Proof.
  split; [by split|]. intros o1 o2 o3 [L1 H1 H2 H3] [L2 K1 K2 K3].
  split; [by etrans|congruence..].
Qed.

Lemma os_quiet_logged o c a o' : is_publish c = false -> os_quiet o o' -> os_quiet o (logged c a o').
Proof.
  intros Hc [Hl Ht Hn Hp]. split; [by apply suffix_cons_r|done|done|].
  unfold published. cbn. by rewrite Hc.
Qed.

Lemma os_quiet_files o f o' : os_quiet o o' -> os_quiet o (with_files f o').
Proof. by intros []. Qed.

Lemma os_quiet_fds o f o' : os_quiet o o' -> os_quiet o (with_fds f o').
Proof. by intros []. Qed.

Lemma os_quiet_wf o o' : os_quiet o o' -> os_wf o -> os_wf o'.
Proof. intros [_ Ht Hn _] [Hw1 Hw2]. split; [by rewrite Hn|]. by rewrite Ht, Hn. Qed.

#[export] Hint Resolve os_quiet_logged os_quiet_files os_quiet_fds : vthing.
#[export] Hint Extern 0 (os_quiet ?o ?o) => reflexivity : vthing.

(** What the code relies on of the calls: a failed call leaves a positive [errno]. *)
Class EnvLaws `{E : Env} : Prop := {
  failed_errno log : a_rc (env_answer log) < 0 -> 0 < a_errno (env_answer log)
}.

(** No write so far was short: each failed or stored all of its data.  [pwrite] promises neither,
    and [save_settings] does not look at the number of bytes, so what a file holds is only stated
    of such histories. *)
Definition whole_writes `{Env} (o : os) : Prop :=
  forall fd data log, C_pwrite fd data :: log `suffix_of` os_log o ->
    0 <= a_rc (env_answer (C_pwrite fd data :: log)) ->
    strlen data <= a_rc (env_answer (C_pwrite fd data :: log)).

Lemma whole_writes_last `{Env} fd data log o :
  whole_writes o -> os_log o = C_pwrite fd data :: log ->
  0 <= a_rc (env_answer (C_pwrite fd data :: log)) ->
  strlen data <= a_rc (env_answer (C_pwrite fd data :: log)).
Proof. intros Hw Hl. apply Hw. by rewrite Hl. Qed.

Lemma whole_writes_before `{Env} o o' : os_quiet o o' -> whole_writes o' -> whole_writes o.
Proof. intros [Hl _ _ _] Hw fd data log Hs. apply Hw. by etrans. Qed.

(** ** Examples

    A system where every call succeeds, and one where every call fails. *)
Definition quiet_env : Env := fun log =>
  match log with
  | C_pwrite _ data :: _ => Answer (strlen data) 0 []
  | _ => Answer 0 0 []
  end.
Definition failing_env : Env := fun _ => Answer (-1) EIO [].

Definition id_lens {S} : lens S S := Lens (fun s => s) (fun s _ => s).

Lemma id_lens_laws {S} : LensLaws (id_lens (S := S)).
Proof. by split. Qed.

Lemma quiet_env_laws : EnvLaws (E := quiet_env).
Proof.
  split. intros [|[]]; cbn; try lia. unfold strlen. lia.
Qed.

Lemma quiet_env_whole o : whole_writes (H := quiet_env) o.
Proof. intros fd data log _ _. cbn. lia. Qed.

Lemma failing_env_laws : EnvLaws (E := failing_env).
Proof. split; cbn; unfold EIO; lia. Qed.
