(* ===== verification/Ell.v ===== *)
(** * The containers of ell

    [l_hashmap], [l_queue] and [l_settings] belong to the Embedded Linux Library, which is not
    part of the repository.  They are classes: the operations the daemon calls, and the laws it
    relies on, the documented behaviour of each operation.  The instances at the end, lists and
    a list of entries per group, show that the laws can hold and let the examples of the
    development be evaluated. *)

From S2P Require Import Prelude.

(** ** [l_hashmap], keyed by integers ([L_INT_TO_PTR])

    The values of the daemon's maps are pointers to structs; [l_hashmap_write] is a write
    through the pointer of an entry. [l_hashmap_entries] lists the entries in the order
    [l_hashmap_foreach] visits them. *)

Class LHashmap (HM : Type -> Type) := {
  l_hashmap_new {V} : HM V;
  l_hashmap_insert {V} : HM V -> Z -> V -> HM V;
  l_hashmap_lookup {V} : HM V -> Z -> option V;
  l_hashmap_remove {V} : HM V -> Z -> option V * HM V;
  l_hashmap_write {V} : HM V -> Z -> V -> HM V;
  l_hashmap_entries {V} : HM V -> list (Z * V)
}.

(** The value of key [k] replaced in a list of entries. *)
Definition write_entry {V} (k : Z) (v : V) (e : Z * V) : Z * V :=
  if decide (e.1 = k) then (k, v) else e.

Class LHashmapLaws (HM : Type -> Type) `{!LHashmap HM} : Prop := {
  entries_new {V} : l_hashmap_entries (l_hashmap_new : HM V) = [];
  entries_insert {V} (h : HM V) k v :
    l_hashmap_entries (l_hashmap_insert h k v) ≡ₚ (k, v) :: l_hashmap_entries h;
  lookup_None_entries {V} (h : HM V) k :
    l_hashmap_lookup h k = None <-> k ∉ (l_hashmap_entries h).*1;
  lookup_Some_entries {V} (h : HM V) k v :
    l_hashmap_lookup h k = Some v -> (k, v) ∈ l_hashmap_entries h;
  remove_fst {V} (h : HM V) k : (l_hashmap_remove h k).1 = l_hashmap_lookup h k;
  entries_remove {V} (h : HM V) k v :
    l_hashmap_lookup h k = Some v ->
    l_hashmap_entries h ≡ₚ (k, v) :: l_hashmap_entries (l_hashmap_remove h k).2;
  remove_None {V} (h : HM V) k :
    l_hashmap_lookup h k = None -> (l_hashmap_remove h k).2 = h;
  entries_write {V} (h : HM V) k v :
    NoDup (l_hashmap_entries h).*1 ->
    l_hashmap_entries (l_hashmap_write h k v) = write_entry k v <$> l_hashmap_entries h
}.

(** The keys of a map are distinct: the daemon inserts a key only when a lookup of it
    failed. *)
Definition hm_uniq {HM V} `{LHashmap HM} (h : HM V) : Prop := NoDup (l_hashmap_entries h).*1.

Section Hashmap.
Context `{HL : LHashmapLaws HM} {V : Type}.
Implicit Types (h : HM V) (k j : Z) (v : V).

Lemma hm_uniq_new : hm_uniq (l_hashmap_new : HM V).
Proof. unfold hm_uniq. rewrite entries_new. constructor. Qed.

Lemma hm_uniq_insert h k v :
  l_hashmap_lookup h k = None -> hm_uniq h -> hm_uniq (l_hashmap_insert h k v).
Proof.
  intros Hk Hu. unfold hm_uniq. rewrite entries_insert. constructor; [|done].
  by apply lookup_None_entries.
Qed.

Lemma write_entry_fst k v (l : list (Z * V)) : (write_entry k v <$> l).*1 = l.*1.
Proof.
  rewrite <- list_fmap_compose. apply list_fmap_ext. intros i [j x] _. cbn.
  unfold write_entry. by case_decide.
Qed.

Lemma hm_uniq_write h k v : hm_uniq h -> hm_uniq (l_hashmap_write h k v).
Proof. intros Hu. unfold hm_uniq. rewrite entries_write by done. by rewrite write_entry_fst. Qed.

Lemma hm_uniq_remove h k : hm_uniq h -> hm_uniq (l_hashmap_remove h k).2.
Proof.
  intros Hu. destruct (l_hashmap_lookup h k) as [v|] eqn:E.
  - unfold hm_uniq in Hu. rewrite (entries_remove h k v E) in Hu. by inversion Hu.
  - by rewrite remove_None.
Qed.

Lemma hm_lookup_spec h k v :
  hm_uniq h -> l_hashmap_lookup h k = Some v <-> (k, v) ∈ l_hashmap_entries h.
Proof.
  intros Hu. split; [apply lookup_Some_entries|]. intros Hin.
  destruct (l_hashmap_lookup h k) as [w|] eqn:E.
  - apply lookup_Some_entries in E. f_equal.
    by apply (NoDup_fst_eq (l_hashmap_entries h) k).
  - exfalso. apply lookup_None_entries in E. apply E, list_elem_of_fmap. by exists (k, v).
Qed.

(** Two maps with the same entries, up to order, have the same lookups. *)
Lemma hm_lookup_entries h h' :
  hm_uniq h -> (forall e, e ∈ l_hashmap_entries h <-> e ∈ l_hashmap_entries h') -> hm_uniq h' ->
  forall k, l_hashmap_lookup h k = l_hashmap_lookup h' k.
Proof.
  intros Hu He Hu' k. apply option_eq. intros v.
  rewrite !hm_lookup_spec by done. apply He.
Qed.

Lemma hm_lookup_new k : l_hashmap_lookup (l_hashmap_new : HM V) k = None.
Proof. apply lookup_None_entries. rewrite entries_new. apply not_elem_of_nil. Qed.

Lemma hm_lookup_insert h k v j :
  hm_uniq h -> l_hashmap_lookup h k = None ->
  l_hashmap_lookup (l_hashmap_insert h k v) j =
    if decide (j = k) then Some v else l_hashmap_lookup h j.
Proof.
  intros Hu Hk. pose proof (hm_uniq_insert h k v Hk Hu) as Hu'.
  apply option_eq. intros w. rewrite hm_lookup_spec by done.
  rewrite entries_insert, elem_of_cons. case_decide as Hj.
  - subst. split; [|intros [= ->]; by left].
    intros [[= ->]|H]; [done|]. apply hm_lookup_spec in H; congruence.
  - rewrite <- hm_lookup_spec by done. split; [|by right]. intros [[= -> ->]|H]; done.
Qed.

Lemma hm_lookup_write h k v j :
  hm_uniq h -> is_Some (l_hashmap_lookup h k) ->
  l_hashmap_lookup (l_hashmap_write h k v) j =
    if decide (j = k) then Some v else l_hashmap_lookup h j.
Proof.
  intros Hu [x Hk]. pose proof (hm_uniq_write h k v Hu) as Hu'.
  apply option_eq. intros w. rewrite hm_lookup_spec by done.
  rewrite entries_write, list_elem_of_fmap by done. unfold write_entry. split.
  - intros ([i y] & Hw & Hin). cbn in Hw. case_decide as Hi; simplify_eq.
    + by rewrite decide_True.
    + rewrite decide_False by done. by apply hm_lookup_spec.
  - case_decide as Hj.
    + intros [= <-]. subst. exists (k, x). cbn. rewrite decide_True by done.
      split; [done|]. by apply hm_lookup_spec.
    + intros Hw. exists (j, w). cbn. rewrite decide_False by done.
      split; [done|]. by apply hm_lookup_spec.
Qed.

Lemma hm_lookup_remove h k j :
  hm_uniq h ->
  l_hashmap_lookup (l_hashmap_remove h k).2 j =
    if decide (j = k) then None else l_hashmap_lookup h j.
Proof.
  intros Hu. pose proof (hm_uniq_remove h k Hu) as Hu'.
  destruct (l_hashmap_lookup h k) as [v|] eqn:E.
  - pose proof (entries_remove h k v E) as Hp. apply option_eq. intros w.
    case_decide as Hj.
    + subst. split; [|done]. intros H%lookup_Some_entries. exfalso.
      unfold hm_uniq in Hu. rewrite Hp in Hu. inversion Hu as [|? ? Hn _]. apply Hn.
      apply list_elem_of_fmap. by exists (k, w).
    + rewrite !hm_lookup_spec by done. rewrite Hp, elem_of_cons.
      split; [by right|]. by intros [[= -> ->]|H].
  - rewrite remove_None by done. case_decide; congruence.
Qed.
End Hashmap.

#[export] Hint Resolve hm_uniq_new hm_uniq_insert hm_uniq_write hm_uniq_remove : vthing.

(** ** [l_queue] *)

Class LQueue (Q : Type -> Type) := {
  l_queue_new {A} : Q A;
  l_queue_push_head {A} : Q A -> A -> Q A;
  l_queue_elems {A} : Q A -> list A   (* in the order l_queue_foreach visits them *)
}.

Class LQueueLaws (Q : Type -> Type) `{!LQueue Q} : Prop := {
  elems_new {A} : l_queue_elems (l_queue_new : Q A) = [];
  elems_push_head {A} (q : Q A) a : l_queue_elems (l_queue_push_head q a) = a :: l_queue_elems q
}.

(** ** [l_settings]

    The typed getters and setters are one operation each, indexed by the kind of value; a
    [float] is its bits (see [Knot]), a [bool] 0 or 1.  [l_settings_load] is
    [l_settings_load_from_file] on a new object, given the contents of the file. *)

Inductive skind := KInt | KFloat | KBool | KInt64 | KUint | KUint64.

Definition skind_range (k : skind) (v : Z) : Prop :=
  match k with
  | KInt => s32 v = v
  | KFloat => u32 v = v
  | KBool => v = 0 \/ v = 1
  | KInt64 => s64 v = v
  | KUint => u32 v = v
  | KUint64 => u64 v = v
  end.

Class LSettings := {
  l_settings : Type;
  l_settings_load : string -> l_settings;
  l_settings_to_data : l_settings -> string;
  l_settings_get_groups : l_settings -> list string;
  l_settings_has_key : l_settings -> string -> string -> bool;
  l_settings_get_string : l_settings -> string -> string -> option string;
  l_settings_get : skind -> l_settings -> string -> string -> option Z;
  (* None: the setter returned false *)
  l_settings_set_string : l_settings -> string -> string -> string -> option l_settings;
  l_settings_set : skind -> l_settings -> string -> string -> Z -> option l_settings;
  l_settings_remove_group : l_settings -> string -> option l_settings;
  l_settings_remove_key : l_settings -> string -> string -> option l_settings
}.

(** What can be read of a settings object. *)
Record settings_equiv `{LSettings} (s t : l_settings) : Prop := {
  equiv_groups : l_settings_get_groups s = l_settings_get_groups t;
  equiv_has_key g k : l_settings_has_key s g k = l_settings_has_key t g k;
  equiv_string g k : l_settings_get_string s g k = l_settings_get_string t g k;
  equiv_get i g k : l_settings_get i s g k = l_settings_get i t g k
}.

(** [s'] differs from [s] in no key other than [(g, k)]. *)
Record settings_agree_off `{LSettings} (g k : string) (s s' : l_settings) : Prop := {
  off_has_key g' k' : (g', k') <> (g, k) -> l_settings_has_key s' g' k' = l_settings_has_key s g' k';
  off_string g' k' :
    (g', k') <> (g, k) -> l_settings_get_string s' g' k' = l_settings_get_string s g' k';
  off_get i g' k' : (g', k') <> (g, k) -> l_settings_get i s' g' k' = l_settings_get i s g' k'
}.

(** The groups of a settings object after one of its keys was set: the group is added when it
    was missing. *)
Definition add_group (g : string) (gs : list string) : list string :=
  if decide (g ∈ gs) then gs else gs ++ [g].

Class LSettingsLaws `{LS : LSettings} : Prop := {
  load_to_data s : settings_equiv (l_settings_load (l_settings_to_data s)) s;
  get_in_range i s g k v : l_settings_get i s g k = Some v -> skind_range i v;
  get_string_group s g k v :
    l_settings_get_string s g k = Some v -> g ∈ l_settings_get_groups s;
  set_string_get s g k v s' :
    l_settings_set_string s g k v = Some s' -> l_settings_get_string s' g k = Some v;
  set_string_has s g k v s' :
    l_settings_set_string s g k v = Some s' -> l_settings_has_key s' g k = true;
  set_string_off s g k v s' :
    l_settings_set_string s g k v = Some s' -> settings_agree_off g k s s';
  set_string_groups s g k v s' :
    l_settings_set_string s g k v = Some s' ->
    l_settings_get_groups s' = add_group g (l_settings_get_groups s);
  (* a float is stored as a decimal text, which need not hold its value *)
  set_get i s g k v s' :
    i <> KFloat -> skind_range i v -> l_settings_set i s g k v = Some s' ->
    l_settings_get i s' g k = Some v;
  set_has i s g k v s' :
    l_settings_set i s g k v = Some s' -> l_settings_has_key s' g k = true;
  set_off i s g k v s' : l_settings_set i s g k v = Some s' -> settings_agree_off g k s s';
  set_groups i s g k v s' :
    l_settings_set i s g k v = Some s' ->
    l_settings_get_groups s' = add_group g (l_settings_get_groups s);
  remove_key_missing s g k : l_settings_has_key s g k = false -> l_settings_remove_key s g k = None;
  remove_key_gone s g k s' :
    l_settings_remove_key s g k = Some s' -> l_settings_has_key s' g k = false;
  remove_key_off s g k s' : l_settings_remove_key s g k = Some s' -> settings_agree_off g k s s';
  remove_key_groups s g k s' :
    l_settings_remove_key s g k = Some s' -> l_settings_get_groups s' = l_settings_get_groups s;
  remove_group_None s g : l_settings_remove_group s g = None <-> g ∉ l_settings_get_groups s;
  (* of a name that occurs several times, one group is removed or all *)
  remove_group_groups s g s' :
    l_settings_remove_group s g = Some s' ->
    filter (fun g' => g' <> g) (l_settings_get_groups s')
      = filter (fun g' => g' <> g) (l_settings_get_groups s) /\
    (length (filter (fun g' => g' = g) (l_settings_get_groups s'))
      < length (filter (fun g' => g' = g) (l_settings_get_groups s)))%nat;
  remove_group_other i s g s' g' k :
    l_settings_remove_group s g = Some s' -> g' <> g ->
    l_settings_has_key s' g' k = l_settings_has_key s g' k /\
    l_settings_get_string s' g' k = l_settings_get_string s g' k /\
    l_settings_get i s' g' k = l_settings_get i s g' k
}.

#[export] Instance settings_equiv_equivalence `{LSettings} : Equivalence settings_equiv.
Proof.
  split.
  - by split.
  - intros s t [H1 H2 H3 H4]. by split.
  - intros s t u [H1 H2 H3 H4] [K1 K2 K3 K4]. split; intros; congruence.
Qed.

#[export] Instance get_groups_proper `{LSettings} :
  Proper (settings_equiv ==> (=)) l_settings_get_groups.
Proof. by intros s t [Heq _ _ _]. Qed.

#[export] Instance get_string_proper `{LSettings} :
  Proper (settings_equiv ==> (=) ==> (=) ==> (=)) l_settings_get_string.
Proof. intros s t [_ _ Heq _] g ? <- k ? <-. apply Heq. Qed.

#[export] Instance get_proper `{LSettings} :
  Proper ((=) ==> settings_equiv ==> (=) ==> (=) ==> (=)) l_settings_get.
Proof. intros i ? <- s t [_ _ _ Heq] g ? <- k ? <-. apply Heq. Qed.

#[export] Instance has_key_proper `{LSettings} :
  Proper (settings_equiv ==> (=) ==> (=) ==> (=)) l_settings_has_key.
Proof. intros s t [_ Heq _ _] g ? <- k ? <-. apply Heq. Qed.

(** ** Instances *)

(** A hash map as the list of its entries. *)
Definition list_hashmap : LHashmap (fun V => list (Z * V)) := {|
  l_hashmap_new V := [];
  l_hashmap_insert V h k v := h ++ [(k, v)];
  l_hashmap_lookup V h k := snd <$> List.find (fun e => e.1 =? k) h;
  l_hashmap_remove V h k :=
    (snd <$> List.find (fun e => e.1 =? k) h,
     (fix go h := match h with
                  | [] => []
                  | e :: r => if e.1 =? k then r else e :: go r
                  end) h);
  l_hashmap_write V h k v := write_entry k v <$> h;
  l_hashmap_entries V h := h
|}.

Lemma list_hashmap_laws : LHashmapLaws (fun V => list (Z * V)) (LHashmap0 := list_hashmap).
Proof.
  split; intros V; cbn -[Z.eqb]; try done.
  - intros h k v. by rewrite <- Permutation_cons_append.
  - intros h k. induction h as [|[j x] h IH]; cbn; [by split; [intros _ ?%elem_of_nil|]|].
    rewrite not_elem_of_cons. destruct (Z.eqb_spec j k); cbn.
    + split; [done|]. intros [? _]. congruence.
    + rewrite IH. split; [|tauto]. split; [congruence|done].
  - intros h k v. induction h as [|[j x] h IH]; cbn; [done|].
    destruct (Z.eqb_spec j k); cbn; [intros [= ->]; subst; left|].
    intros Hx. right. auto.
  - intros h k v. induction h as [|[j x] h IH]; cbn; [done|].
    destruct (Z.eqb_spec j k); cbn; [intros [= ->]; by subst|].
    intros Hx. rewrite (IH Hx) at 1. apply perm_swap.
  - intros h k. induction h as [|[j x] h IH]; cbn; [done|].
    destruct (Z.eqb_spec j k); cbn; [done|]. intros Hx. f_equal. auto.
Qed.

Definition list_queue : LQueue list := {|
  l_queue_new A := []; l_queue_push_head A q a := a :: q; l_queue_elems A q := q
|}.

Lemma list_queue_laws : LQueueLaws list (LQueue0 := list_queue).
Proof. by split. Qed.

(** Settings as the list of groups and the value of each key; the data are the binary digits of
    an encoding. *)
Fixpoint pos_digits (p : positive) : string :=
  match p with
  | xH => EmptyString
  | xO q => String (Ascii.ascii_of_nat 48) (pos_digits q)
  | xI q => String (Ascii.ascii_of_nat 49) (pos_digits q)
  end.

Fixpoint digits_pos (s : string) : positive :=
  match s with
  | EmptyString => xH
  | String c r => if decide (c = Ascii.ascii_of_nat 48) then xO (digits_pos r)
                  else xI (digits_pos r)
  end.

Lemma digits_pos_digits p : digits_pos (pos_digits p) = p.
Proof.
  induction p as [p IH|p IH|]; cbn -[decide].
  - rewrite decide_False by done. by rewrite IH.
  - rewrite decide_True by done. by rewrite IH.
  - done.
Qed.

#[export] Instance skind_range_dec k v : Decision (skind_range k v).
Proof.
  destruct k; cbn.
  all: first [exact (Z.eq_dec _ _)|exact (or_dec _ _)].
Defined.

Definition map_settings : Type := list string * gmap (string * string) (string + Z).

(** The entries of a group that is not there are not seen. *)
Definition ms_lookup (s : map_settings) (g k : string) : option (string + Z) :=
  if decide (g ∈ s.1) then s.2 !! (g, k) else None.

Definition ms_without (g : string) (m : gmap (string * string) (string + Z))
    : gmap (string * string) (string + Z) :=
  filter (fun e => e.1.1 <> g) m.

Definition ms_set (s : map_settings) (g k : string) (v : string + Z) : map_settings :=
  (add_group g s.1, <[(g, k) := v]> (if decide (g ∈ s.1) then s.2 else ms_without g s.2)).

Definition example_settings : LSettings := {|
  l_settings := map_settings;
  l_settings_load d := default ([], ∅) (decode (digits_pos d) : option map_settings);
  l_settings_to_data s := pos_digits (encode (s : map_settings));
  l_settings_get_groups s := s.1;
  l_settings_has_key s g k := bool_decide (is_Some (ms_lookup s g k));
  l_settings_get_string s g k :=
    match ms_lookup s g k with Some (inl v) => Some v | _ => None end;
  l_settings_get i s g k :=
    match ms_lookup s g k with
    | Some (inr v) => if decide (skind_range i v) then Some v else None
    | _ => None
    end;
  l_settings_set_string s g k v := Some (ms_set s g k (inl v));
  l_settings_set i s g k v := Some (ms_set s g k (inr v));
  l_settings_remove_group s g :=
    if decide (g ∈ s.1)
    then Some (filter (fun g' => g' <> g) s.1, s.2)
    else None;
  l_settings_remove_key s g k :=
    if decide (is_Some (ms_lookup s g k)) then Some (s.1, delete (g, k) s.2) else None
|}.

Lemma ms_without_lookup g m g' k :
  ms_without g m !! (g', k) = if decide (g' = g) then None else m !! (g', k).
Proof.
  unfold ms_without. case_decide as Hg.
  - apply map_lookup_filter_None. right. intros v _ Hn. by apply Hn.
  - destruct (m !! (g', k)) as [v|] eqn:E.
    + by apply map_lookup_filter_Some.
    + apply map_lookup_filter_None. by left.
Qed.

Lemma elem_of_add_group g g' gs : g' ∈ add_group g gs <-> g' = g \/ g' ∈ gs.
Proof.
  unfold add_group. case_decide; [split; [by right|by intros [->|]]|].
  rewrite elem_of_app, list_elem_of_singleton. tauto.
Qed.

Lemma ms_lookup_set s g k v g' k' :
  ms_lookup (ms_set s g k v) g' k' =
    if decide ((g', k') = (g, k)) then Some v else ms_lookup s g' k'.
Proof.
  unfold ms_lookup, ms_set. cbn [fst snd].
  destruct (decide ((g', k') = (g, k))) as [[= -> ->]|H1].
  - rewrite decide_True by (apply elem_of_add_group; by left). apply lookup_insert_eq.
  - rewrite lookup_insert_ne by congruence. destruct (decide (g' ∈ s.1)) as [Hg'|Hg'].
    + rewrite decide_True by (apply elem_of_add_group; by right).
      destruct (decide (g ∈ s.1)); [done|]. rewrite ms_without_lookup.
      destruct (decide (g' = g)); [congruence|done].
    + destruct (decide (g' ∈ add_group g s.1)) as [Ha|]; [|done].
      apply elem_of_add_group in Ha as [->|?]; [|done].
      rewrite decide_False by done. rewrite ms_without_lookup. by rewrite decide_True.
Qed.

Lemma example_settings_laws : LSettingsLaws (LS := example_settings).
Proof.
  assert (forall (s s' : map_settings) g k,
    (forall g' k', (g', k') <> (g, k) -> ms_lookup s' g' k' = ms_lookup s g' k') ->
    settings_agree_off (H := example_settings) g k s s') as Hoff.
  { intros s s' g k H. split; intros; cbn; by rewrite H. }
  split; cbn.
  - intros [gs m]. unfold l_settings_load, example_settings. cbn.
    rewrite digits_pos_digits, decode_encode. done.
  - intros i s g k v. by destruct (ms_lookup s g k) as [[]|]; [|case_decide; intros [= <-]|].
  - intros s g k v. unfold ms_lookup. destruct (decide (g ∈ s.1)); [done|discriminate].
  - intros s g k v s' [= <-]. by rewrite ms_lookup_set, decide_True.
  - intros s g k v s' [= <-]. rewrite ms_lookup_set, decide_True by done.
    by apply bool_decide_eq_true.
  - intros s g k v s' [= <-]. apply Hoff. intros. by rewrite ms_lookup_set, decide_False.
  - by intros s g k v s' [= <-].
  - intros i s g k v s' _ Hv [= <-]. by rewrite ms_lookup_set, decide_True, decide_True.
  - intros i s g k v s' [= <-]. rewrite ms_lookup_set, decide_True by done.
    by apply bool_decide_eq_true.
  - intros i s g k v s' [= <-]. apply Hoff. intros. by rewrite ms_lookup_set, decide_False.
  - by intros i s g k v s' [= <-].
  - intros s g k H%bool_decide_eq_false. by rewrite decide_False.
  - intros s g k s'. case_decide; [|done]. intros [= <-].
    apply bool_decide_eq_false. unfold ms_lookup. cbn. rewrite lookup_delete_eq.
    case_decide; by intros [].
  - intros s g k s'. case_decide; [|done]. intros [= <-]. apply Hoff. intros.
    unfold ms_lookup. cbn. by rewrite lookup_delete_ne.
  - intros s g k s'. case_decide; [|done]. by intros [= <-].
  - intros s g. case_decide; [by split|done].
  - intros s g s'. case_decide as Hg; [|done]. intros [= <-]. cbn. rewrite !list_filter_filter.
    split; [apply list_filter_iff; tauto|].
    assert (forall l : list string, filter (fun g' => g' = g /\ g' <> g) l = []) as Hnone.
    { intros l. induction l as [|x l IH]; [done|]. by rewrite filter_cons_False by tauto. }
    rewrite Hnone.
    apply list_elem_of_split in Hg as (l1 & l2 & ->).
    rewrite filter_app, length_app, filter_cons_True by done. cbn. lia.
  - intros i s g s' g' k. case_decide; [|done]. intros [= <-] Hg.
    assert (forall x : option (string + Z),
      (if decide (g' ∈ filter (fun g'' => g'' <> g) s.1) then x else None)
      = if decide (g' ∈ s.1) then x else None) as Hd.
    { intros x. destruct (decide (g' ∈ s.1)) as [Hin|Hin].
      - by rewrite decide_True by by apply list_elem_of_filter.
      - rewrite decide_False; [done|]. by intros [_ ?]%list_elem_of_filter. }
    unfold ms_lookup. cbn. by rewrite Hd.
Qed.
