(* ===== verification/Sm.v ===== *)
(** * The state machine (src/sm.c, src/sm.h, src/sm-pvt.h)

    The functions of [sm.c] over any implementation of the functions of [device.h] they call,
    the class [Device].  [DeviceSpec] is what the state machine relies on of an implementation;
    the invariants of the state machine are proved from it, and [Daemon] proves it of
    [device.c]. *)

From S2P Require Import Prelude Knot Ext.

(** ** Events and states *)

(** [enum EVENTS]; [EVT_UNEXPECTED] is a value of the type that is none of its enumerators. *)
Inductive EVENTS :=
| EVT_READY
| EVT_NOT_READY
| EVT_TIMEOUT
| EVT_AUTH_OK
| EVT_AUTH_NOT_OK
| EVT_REG_OK
| EVT_REG_NOT_OK
| EVT_CFG_UPT_OK
| EVT_CFG_UPT_NOT_OK
| EVT_UNREG_REQ
| EVT_REG_PERM
| EVT_PUB_DATA
| EVT_DATA_UPDT
| EVT_UNEXPECTED (n : Z).

(** [enum STATES]; [N_OF_STATES] only counts the others. *)
Inductive STATES :=
| ST_DISCONNECTED
| ST_AUTH
| ST_REGISTER
| ST_CONFIG
| ST_ONLINE
| ST_UNREGISTER
| ST_ERROR.

#[export] Instance EVENTS_eq_dec : EqDecision EVENTS.
Proof. solve_decision. Defined.
#[export] Instance STATES_eq_dec : EqDecision STATES.
Proof. solve_decision. Defined.

(** The [void *user_data] of an event: NULL, a token, a queue of sensor ids, a queue of
    configurations, or the data items of an update, which no state reads. *)
Inductive user_data_t :=
| UD_null
| UD_token (token : string)
| UD_sensor_ids (ids : list Z)
| UD_configs (configs : list knot_msg_config)
| UD_data.

(** [user_data] used as a [char *] and as the two queues. *)
Definition as_token (u : user_data_t) : option string :=
  match u with UD_token t => Some t | _ => None end.
Definition as_sensor_ids (u : user_data_t) : list Z :=
  match u with UD_sensor_ids l => l | _ => [] end.
Definition as_configs (u : user_data_t) : list knot_msg_config :=
  match u with UD_configs l => l | _ => [] end.

Definition DEFAULT_MSG_TIMEOUT : Z := 3.

(** ** The functions of device.h the state machine calls *)

Class Device (W : Type) := {
  device_has_thing_token : M W Z;
  device_generate_thing_id : M W ();
  device_start_read_cloud : M W Z;
  device_msg_timeout_create (seconds : Z) : M W ();
  device_msg_timeout_modify (seconds : Z) : M W ();
  device_msg_timeout_remove : M W ();
  device_check_schema_change : M W Z;
  device_send_auth_request : M W Z;
  device_send_register_request : M W Z;
  device_send_config : M W Z;
  device_store_credentials_on_file (token : option string) : M W Z;
  device_clear_credentials_on_file : M W Z;
  device_start_event : M W Z;
  device_stop_event : M W ();
  device_update_config (configs : list knot_msg_config) : M W Z;
  device_publish_data_list (ids : list Z) : M W ();
  device_publish_data_all : M W ()
}.

(** The static variable of sm.c beside the state of the device; NULL before [sm_start]. *)
Record sm (W : Type) := Sm { current_state : option STATES; sm_device : W }.
Arguments Sm {W} _ _.
Arguments current_state {W} _.
Arguments sm_device {W} _.

Definition sm_lens {W} : lens (sm W) W :=
  Lens sm_device (fun w s => Sm (current_state s) w).

Section StateMachine.
Context {W : Type} `{D : Device W}.

Definition event_to_str (event : EVENTS) : string :=
  match event with
  | EVT_REG_PERM => "EVT_REG_PERM"
  | EVT_NOT_READY => "EVT_NOT_READY"
  | EVT_PUB_DATA => "EVT_PUB_DATA"
  | EVT_DATA_UPDT => "EVT_DATA_UPDT"
  | EVT_TIMEOUT => "EVT_TIMEOUT"
  | EVT_CFG_UPT_OK => "EVT_CFG_UPT_OK"
  | EVT_CFG_UPT_NOT_OK => "EVT_CFG_UPT_NOT_OK"
  | EVT_UNREG_REQ => "EVT_UNREG_REQ"
  | EVT_READY => "EVT_READY"
  | EVT_AUTH_OK => "EVT_AUTH_OK"
  | EVT_AUTH_NOT_OK => "EVT_AUTH_NOT_OK"
  | EVT_REG_OK => "EVT_REG_OK"
  | EVT_REG_NOT_OK => "EVT_REG_NOT_OK"
  | EVT_UNEXPECTED _ => "Unexpected Event"
  end.

Definition state_to_str (state : STATES) : string :=
  match state with
  | ST_DISCONNECTED => "ST_DISCONNECTED"
  | ST_AUTH => "ST_AUTH"
  | ST_REGISTER => "ST_REGISTER"
  | ST_CONFIG => "ST_CONFIG"
  | ST_ONLINE => "ST_ONLINE"
  | ST_UNREGISTER => "ST_UNREGISTER"
  | ST_ERROR => "ST_ERROR"
  end.

(** *** DISCONNECTED *)

Definition get_next_disconnected (event : EVENTS) (user_data : user_data_t) : M W STATES :=
  match event with
  | EVT_READY =>
      let! has_token := device_has_thing_token in
      let! next_state :=
        if c_true has_token then ret ST_AUTH
        else device_generate_thing_id ;; ret ST_REGISTER in
      let! rc := device_start_read_cloud in
      ret next_state
  | EVT_UNEXPECTED _ => ret ST_ERROR
  | _ => ret ST_DISCONNECTED
  end.

Definition enter_disconnected : M W () := ret tt.

(** *** AUTH *)

Definition get_next_auth (event : EVENTS) (user_data : user_data_t) : M W STATES :=
  match event with
  | EVT_NOT_READY =>
      device_msg_timeout_remove ;;
      ret ST_DISCONNECTED
  | EVT_AUTH_OK =>
      device_msg_timeout_remove ;;
      let! changed := device_check_schema_change in
      ret (if c_true changed then ST_CONFIG else ST_ONLINE)
  | EVT_AUTH_NOT_OK | EVT_UNREG_REQ =>
      device_msg_timeout_remove ;;
      ret ST_UNREGISTER
  | EVT_TIMEOUT =>
      let! rc := device_send_auth_request in
      device_msg_timeout_modify DEFAULT_MSG_TIMEOUT ;;
      ret ST_AUTH
  | EVT_UNEXPECTED _ => ret ST_ERROR
  | _ => ret ST_AUTH
  end.

Definition enter_auth : M W () :=
  let! rc := device_send_auth_request in
  device_msg_timeout_create DEFAULT_MSG_TIMEOUT.

(** *** REGISTER *)

Definition get_next_register (event : EVENTS) (user_data : user_data_t) : M W STATES :=
  match event with
  | EVT_NOT_READY =>
      device_msg_timeout_remove ;;
      ret ST_DISCONNECTED
  | EVT_REG_OK =>
      device_msg_timeout_remove ;;
      let! rc := device_store_credentials_on_file (as_token user_data) in
      if rc <? 0 then ret ST_ERROR else ret ST_AUTH
  | EVT_REG_NOT_OK =>
      device_generate_thing_id ;;
      let! rc := device_start_read_cloud in
      ret ST_REGISTER
  | EVT_TIMEOUT =>
      let! rc := device_send_register_request in
      device_msg_timeout_modify DEFAULT_MSG_TIMEOUT ;;
      ret ST_REGISTER
  | EVT_UNEXPECTED _ => ret ST_ERROR
  | _ => ret ST_REGISTER
  end.

Definition enter_register : M W () :=
  let! rc := device_send_register_request in
  device_msg_timeout_create DEFAULT_MSG_TIMEOUT.

(** *** CONFIG *)

Definition get_next_config (event : EVENTS) (user_data : user_data_t) : M W STATES :=
  match event with
  | EVT_NOT_READY =>
      device_msg_timeout_remove ;;
      ret ST_DISCONNECTED
  | EVT_CFG_UPT_OK =>
      device_msg_timeout_remove ;;
      ret ST_ONLINE
  | EVT_CFG_UPT_NOT_OK =>
      device_msg_timeout_remove ;;
      ret ST_ERROR
  | EVT_UNREG_REQ =>
      device_msg_timeout_remove ;;
      ret ST_UNREGISTER
  | EVT_TIMEOUT =>
      let! rc := device_send_config in
      device_msg_timeout_modify DEFAULT_MSG_TIMEOUT ;;
      ret ST_CONFIG
  | EVT_UNEXPECTED _ => ret ST_ERROR
  | _ => ret ST_CONFIG
  end.

Definition enter_config : M W () :=
  let! rc := device_send_config in
  device_msg_timeout_create DEFAULT_MSG_TIMEOUT.

(** *** ONLINE *)

Definition get_next_online (event : EVENTS) (user_data : user_data_t) : M W STATES :=
  match event with
  | EVT_NOT_READY =>
      device_stop_event ;;
      ret ST_DISCONNECTED
  | EVT_PUB_DATA =>
      device_publish_data_list (as_sensor_ids user_data) ;;
      ret ST_ONLINE
  | EVT_DATA_UPDT => ret ST_ONLINE
  | EVT_UNREG_REQ => ret ST_UNREGISTER
  | EVT_CFG_UPT_OK =>
      let! rc := device_update_config (as_configs user_data) in
      if c_true rc then ret ST_CONFIG else ret ST_ONLINE
  | EVT_UNEXPECTED _ => ret ST_ERROR
  | _ => ret ST_ONLINE
  end.

Definition enter_online : M W () :=
  device_publish_data_all ;;
  let! err := device_start_event in
  ret tt.

(** *** UNREGISTER *)

Definition get_next_unregister (event : EVENTS) (user_data : user_data_t) : M W STATES :=
  match event with
  | EVT_REG_PERM =>
      device_generate_thing_id ;;
      let! rc := device_start_read_cloud in
      ret ST_REGISTER
  | EVT_UNEXPECTED _ => ret ST_ERROR
  | _ => ret ST_UNREGISTER
  end.

Definition enter_unregister : M W () :=
  let! rc := device_clear_credentials_on_file in
  ret tt.

(** *** ERROR *)

Definition get_next_error (event : EVENTS) (user_data : user_data_t) : M W STATES :=
  ret ST_ERROR.

Definition enter_error : M W () := ret tt.

(** *** State independent *)

Record state := State {
  enter : M W ();
  get_next : EVENTS -> user_data_t -> M W STATES
}.

(** The array [states] as [sm_start] fills it. *)
Definition states (id : STATES) : state :=
  match id with
  | ST_DISCONNECTED => State enter_disconnected get_next_disconnected
  | ST_AUTH => State enter_auth get_next_auth
  | ST_REGISTER => State enter_register get_next_register
  | ST_CONFIG => State enter_config get_next_config
  | ST_ONLINE => State enter_online get_next_online
  | ST_UNREGISTER => State enter_unregister get_next_unregister
  | ST_ERROR => State enter_error get_next_error
  end.

Definition sm_input_event (event : EVENTS) (user_data : user_data_t) : M (sm W) () :=
  let! s := get in
  let! current := deref (current_state s) in
  let! id := zoom sm_lens (get_next (states current) event user_data) in
  when (negb (bool_decide (id = current)))
    (zoom sm_lens (enter (states id)) ;;
     modify (fun s => Sm (Some id) (sm_device s))).

Definition sm_start : M (sm W) () :=
  modify (fun s => Sm (Some ST_DISCONNECTED) (sm_device s)).
End StateMachine.

(** ** The transition table

    A device that answers every question with a constant and records what it is asked.  On it
    the state machine is a table: for a state and an event, the calls in order and the next
    state.  This is the reading of [sm.c] the unit tests of the repository (a fake device with
    constant answers) rely on. *)

Inductive action :=
| A_has_thing_token
| A_generate_thing_id
| A_start_read_cloud
| A_msg_timeout_create (seconds : Z)
| A_msg_timeout_modify (seconds : Z)
| A_msg_timeout_remove
| A_check_schema_change
| A_send_auth_request
| A_send_register_request
| A_send_config
| A_store_credentials_on_file (token : option string)
| A_clear_credentials_on_file
| A_start_event
| A_stop_event
| A_update_config (configs : list knot_msg_config)
| A_publish_data_list (ids : list Z)
| A_publish_data_all.

Record replies := Replies {
  r_has_thing_token : Z; r_start_read_cloud : Z; r_check_schema_change : Z;
  r_send_auth_request : Z; r_send_register_request : Z; r_send_config : Z;
  r_store_credentials : Z; r_clear_credentials : Z; r_start_event : Z; r_update_config : Z
}.

Definition record {A} (a : action) (r : A) : M (list action) A :=
  modify (fun l => l ++ [a]) ;; ret r.

Definition fake_device (q : replies) : Device (list action) := {|
  device_has_thing_token := record A_has_thing_token (r_has_thing_token q);
  device_generate_thing_id := record A_generate_thing_id tt;
  device_start_read_cloud := record A_start_read_cloud (r_start_read_cloud q);
  device_msg_timeout_create n := record (A_msg_timeout_create n) tt;
  device_msg_timeout_modify n := record (A_msg_timeout_modify n) tt;
  device_msg_timeout_remove := record A_msg_timeout_remove tt;
  device_check_schema_change := record A_check_schema_change (r_check_schema_change q);
  device_send_auth_request := record A_send_auth_request (r_send_auth_request q);
  device_send_register_request := record A_send_register_request (r_send_register_request q);
  device_send_config := record A_send_config (r_send_config q);
  device_store_credentials_on_file t :=
    record (A_store_credentials_on_file t) (r_store_credentials q);
  device_clear_credentials_on_file :=
    record A_clear_credentials_on_file (r_clear_credentials q);
  device_start_event := record A_start_event (r_start_event q);
  device_stop_event := record A_stop_event tt;
  device_update_config l := record (A_update_config l) (r_update_config q);
  device_publish_data_list l := record (A_publish_data_list l) tt;
  device_publish_data_all := record A_publish_data_all tt
|}.

(** What entering a state does. *)
Definition entry_actions (s : STATES) : list action :=
  match s with
  | ST_AUTH => [A_send_auth_request; A_msg_timeout_create 3]
  | ST_REGISTER => [A_send_register_request; A_msg_timeout_create 3]
  | ST_CONFIG => [A_send_config; A_msg_timeout_create 3]
  | ST_ONLINE => [A_publish_data_all; A_start_event]
  | ST_UNREGISTER => [A_clear_credentials_on_file]
  | ST_DISCONNECTED | ST_ERROR => []
  end.

(** The arcs that leave a state or act in it; every other event is ignored. *)
Definition arc (q : replies) (s : STATES) (e : EVENTS) (u : user_data_t)
    : list action * STATES :=
  match e, s with
  | EVT_UNEXPECTED _, _ => ([], ST_ERROR)
  | EVT_READY, ST_DISCONNECTED =>
      if r_has_thing_token q =? 0
      then ([A_has_thing_token; A_generate_thing_id; A_start_read_cloud], ST_REGISTER)
      else ([A_has_thing_token; A_start_read_cloud], ST_AUTH)
  | EVT_NOT_READY, (ST_AUTH | ST_REGISTER | ST_CONFIG) =>
      ([A_msg_timeout_remove], ST_DISCONNECTED)
  | EVT_NOT_READY, ST_ONLINE => ([A_stop_event], ST_DISCONNECTED)
  | EVT_TIMEOUT, ST_AUTH => ([A_send_auth_request; A_msg_timeout_modify 3], ST_AUTH)
  | EVT_TIMEOUT, ST_REGISTER =>
      ([A_send_register_request; A_msg_timeout_modify 3], ST_REGISTER)
  | EVT_TIMEOUT, ST_CONFIG => ([A_send_config; A_msg_timeout_modify 3], ST_CONFIG)
  | EVT_AUTH_OK, ST_AUTH =>
      ([A_msg_timeout_remove; A_check_schema_change],
       if r_check_schema_change q =? 0 then ST_ONLINE else ST_CONFIG)
  | EVT_AUTH_NOT_OK, ST_AUTH
  | EVT_UNREG_REQ, (ST_AUTH | ST_CONFIG) => ([A_msg_timeout_remove], ST_UNREGISTER)
  | EVT_UNREG_REQ, ST_ONLINE => ([], ST_UNREGISTER)
  | EVT_REG_OK, ST_REGISTER =>
      ([A_msg_timeout_remove; A_store_credentials_on_file (as_token u)],
       if r_store_credentials q <? 0 then ST_ERROR else ST_AUTH)
  | EVT_REG_NOT_OK, ST_REGISTER => ([A_generate_thing_id; A_start_read_cloud], ST_REGISTER)
  | EVT_REG_PERM, ST_UNREGISTER => ([A_generate_thing_id; A_start_read_cloud], ST_REGISTER)
  | EVT_CFG_UPT_OK, ST_CONFIG => ([A_msg_timeout_remove], ST_ONLINE)
  | EVT_CFG_UPT_NOT_OK, ST_CONFIG => ([A_msg_timeout_remove], ST_ERROR)
  | EVT_CFG_UPT_OK, ST_ONLINE =>
      ([A_update_config (as_configs u)],
       if r_update_config q =? 0 then ST_ONLINE else ST_CONFIG)
  | EVT_PUB_DATA, ST_ONLINE => ([A_publish_data_list (as_sensor_ids u)], ST_ONLINE)
  | _, _ => ([], s)
  end.

(** The row of the table: the arc, and the entry of the next state when it is another one. *)
Definition table (q : replies) (s : STATES) (e : EVENTS) (u : user_data_t)
    : list action * STATES :=
  let '(acts, s') := arc q s e u in
  (acts ++ (if bool_decide (s' = s) then [] else entry_actions s'), s').

(** ** What the state machine relies on *)

Class DeviceSpec (W : Type) `{D : Device W} := {
  dev_ok : W -> os -> Prop;          (* the invariant of the implementation *)
  dev_timer : W -> bool;             (* the message timeout is pending *)
  dev_events : W -> bool;            (* the detection of events is active *)
  dev_timers_available : Prop;       (* the creation of a timer never fails *)
  dev_frame (s s' : W) (o o' : os) : Prop :=
    dev_ok s' o' /\ dev_timer s' = dev_timer s /\ dev_events s' = dev_events s /\
    published o' = published o;
  spec_has_thing_token s o :
    dev_ok s o -> wp device_has_thing_token (fun _ s' o' => dev_frame s s' o o') s o;
  spec_generate_thing_id s o :
    dev_ok s o -> wp device_generate_thing_id (fun _ s' o' => dev_frame s s' o o') s o;
  spec_start_read_cloud s o :
    dev_ok s o -> wp device_start_read_cloud (fun _ s' o' => dev_frame s s' o o') s o;
  spec_check_schema_change s o :
    dev_ok s o -> wp device_check_schema_change (fun _ s' o' => dev_frame s s' o o') s o;
  spec_send_auth_request s o :
    dev_ok s o -> wp device_send_auth_request (fun _ s' o' => dev_frame s s' o o') s o;
  spec_send_register_request s o :
    dev_ok s o -> wp device_send_register_request (fun _ s' o' => dev_frame s s' o o') s o;
  spec_send_config s o :
    dev_ok s o -> wp device_send_config (fun _ s' o' => dev_frame s s' o o') s o;
  spec_store_credentials_on_file t s o :
    dev_ok s o ->
    post (t = None) (device_store_credentials_on_file t) (fun _ s' o' => dev_frame s s' o o') s o;
  spec_clear_credentials_on_file s o :
    dev_ok s o -> wp device_clear_credentials_on_file (fun _ s' o' => dev_frame s s' o o') s o;
  spec_msg_timeout_modify n s o :
    dev_ok s o -> wp (device_msg_timeout_modify n) (fun _ s' o' => dev_frame s s' o o') s o;
  spec_msg_timeout_create n s o :
    dev_ok s o ->
    wp (device_msg_timeout_create n) (fun _ s' o' =>
      dev_ok s' o' /\ (dev_timers_available -> dev_timer s' = true) /\
      dev_events s' = dev_events s /\ published o' = published o) s o;
  spec_msg_timeout_remove s o :
    dev_ok s o ->
    wp device_msg_timeout_remove (fun _ s' o' =>
      dev_ok s' o' /\ dev_timer s' = false /\
      dev_events s' = dev_events s /\ published o' = published o) s o;
  spec_start_event s o :
    dev_ok s o -> dev_events s = false ->
    wp device_start_event (fun _ s' o' =>
      dev_ok s' o' /\ dev_timer s' = dev_timer s /\ published o' = published o) s o;
  spec_stop_event s o :
    dev_ok s o ->
    wp device_stop_event (fun _ s' o' =>
      dev_ok s' o' /\ dev_timer s' = dev_timer s /\ dev_events s' = false /\
      published o' = published o) s o;
  spec_update_config l s o :
    dev_ok s o ->
    wlp (device_update_config l) (fun rc s' o' =>
      dev_ok s' o' /\ dev_timer s' = dev_timer s /\
      (c_true rc = true -> dev_events s' = false) /\ published o' = published o) s o;
  spec_publish_data_list l s o :
    dev_ok s o ->
    wp (device_publish_data_list l) (fun _ s' o' =>
      dev_ok s' o' /\ dev_timer s' = dev_timer s /\ dev_events s' = dev_events s) s o;
  spec_publish_data_all s o :
    dev_ok s o ->
    wp device_publish_data_all (fun _ s' o' =>
      dev_ok s' o' /\ dev_timer s' = dev_timer s /\ dev_events s' = dev_events s) s o
}.

(** The states that wait for an answer of the cloud. *)
Definition waiting (s : STATES) : bool :=
  match s with ST_AUTH | ST_REGISTER | ST_CONFIG => true | _ => false end.

(** The message timeout is pending in the states that wait for an answer and in no other; the
    detection of events is active at most in ONLINE, and in UNREGISTER, which does not stop
    it. *)
Definition sm_inv {W} `{DeviceSpec W} (s : sm W) (o : os) : Prop :=
  dev_ok (sm_device s) o /\
  match current_state s with
  | None => dev_timer (sm_device s) = false /\ dev_events (sm_device s) = false
  | Some st =>
      (dev_timer (sm_device s) = true -> waiting st = true) /\
      (dev_timers_available -> waiting st = true -> dev_timer (sm_device s) = true) /\
      (dev_events (sm_device s) = true -> st = ST_ONLINE \/ st = ST_UNREGISTER)
  end.

(** The events device.c raises: the enumerators of [EVENTS] except [EVT_REG_PERM]. *)
Definition raised (e : EVENTS) : bool :=
  match e with EVT_UNEXPECTED _ | EVT_REG_PERM => false | _ => true end.

(** The events whose handling keeps [sm_inv]: those the daemon raises, and [EVT_REG_PERM], which
    the tests of the state machine raise, but in UNREGISTER with the detection of events on. *)
Definition keeps_timers {W} `{DeviceSpec W} (s : sm W) (e : EVENTS) : Prop :=
  raised e = true \/
  (e = EVT_REG_PERM /\
   (current_state s = Some ST_UNREGISTER -> dev_events (sm_device s) = false)).

(** A sequence of events. *)
Definition sm_run {W} `{Device W} (es : list (EVENTS * user_data_t)) : M (sm W) () :=
  foreach (fun e => sm_input_event e.1 e.2) es.

(** The successors of a state in the table, whatever the device answers. *)
Definition edge (s : STATES) (e : EVENTS) (s' : STATES) : Prop :=
  exists q u, (arc q s e u).2 = s'.

(** The events whose handling reads a pointer the daemon does not check: the token of a
    registration and the groups of the device file while a configuration is updated. *)
Definition unchecked (s : STATES) (e : EVENTS) (u : user_data_t) : Prop :=
  (s = ST_REGISTER /\ e = EVT_REG_OK /\ as_token u = None) \/
  (s = ST_ONLINE /\ e = EVT_CFG_UPT_OK).

(** The paths of the table, last event last. *)
Inductive path (s : STATES) : list EVENTS -> STATES -> Prop :=
| path_nil : path s [] s
| path_snoc es e s1 s2 : path s es s1 -> edge s1 e s2 -> path s (es ++ [e]) s2.

(** ** Lemmas *)

Create HintDb device_spec.

#[export] Hint Resolve spec_has_thing_token spec_generate_thing_id spec_start_read_cloud
  spec_check_schema_change spec_send_auth_request spec_send_register_request spec_send_config
  spec_store_credentials_on_file spec_clear_credentials_on_file spec_msg_timeout_modify
  spec_msg_timeout_create spec_msg_timeout_remove spec_start_event spec_stop_event
  spec_update_config spec_publish_data_list spec_publish_data_all : device_spec.

(** Replies that lead to each of the successors the device chooses. *)
Definition some_replies (b : bool) : replies :=
  let z := if b then 1 else 0 in Replies z 0 z 0 0 0 (-z) 0 0 z.

Lemma edge_intro b u s e s' : (arc (some_replies b) s e u).2 = s' -> edge s e s'.
Proof. intros <-. by exists (some_replies b), u. Qed.

Ltac solve_edge :=
  first [by apply (edge_intro true UD_null) | by apply (edge_intro false UD_null)].

(** What is known of the device's view after its calls. *)
Ltac view_rewrite :=
  repeat match goal with
  | H : dev_events ?s = _ |- context [dev_events ?s] => rewrite H
  | H : dev_timer ?s = _ |- context [dev_timer ?s] => rewrite H
  | Hc : ?c = true, H : ?c = true -> dev_events _ = false |- _ => specialize (H Hc)
  | H : dev_timers_available -> dev_timer ?s = true |- dev_timers_available -> _ =>
      intros ?Hav; specialize (H Hav)
  end.

(** The detection of events is not active in a state that is neither ONLINE nor UNREGISTER. *)
Ltac solve_idle :=
  view_rewrite;
  match goal with
  | Hv : dev_events ?s = true -> _ |- dev_events ?s = false =>
      destruct (dev_events s); [by destruct (Hv eq_refl)|done]
  end.

(** One call of a function of the device, by its specification. *)
Ltac dev_step :=
  match goal with
  | |- post _ (zoom _ _) _ _ _ => apply post_zoom; cbn [sm_lens lens_get lens_set]
  | |- post _ (bind _ _) _ _ _ => apply post_bind
  | |- post _ (when (negb (bool_decide ((if ?c then _ else _) = _))) _) _ _ _ => destruct c
  | |- post _ (when ?c _) _ _ _ =>
      let b := eval vm_compute in c in change c with b; cbn [when]
  | Hok : dev_ok ?s ?o |- post _ _ _ ?s ?o =>
      eapply post_use;
      [ solve [eauto with device_spec | eapply spec_start_event; [eassumption|solve_idle]]
      | unfold unchecked; tauto
      | let r := fresh "r" in let s' := fresh "s" in let o' := fresh "o" in
        let H := fresh "H" in
        intros r s' o' H; cbn beta in H; unfold dev_frame in H; clear Hok;
        destruct H as (Hok & H); destruct_and? H ]
  | |- post _ _ _ _ _ => post_step
  end;
  cbn [sm_device current_state states enter get_next];
  try unfold enter_disconnected, enter_auth, enter_register, enter_config, enter_online,
    enter_unregister, enter_error.

Section Invariant.
Context {W : Type} `{DS : DeviceSpec W}.
Implicit Types (s : sm W) (o : os).

(** The step of the invariant, with the arc taken and the states in which data are
    published. *)
Lemma sm_input_event_step e u st s o :
  keeps_timers s e -> sm_inv s o -> current_state s = Some st ->
  post (unchecked st e u) (sm_input_event e u)
    (fun _ s' o' => sm_inv s' o' /\
       exists st', current_state s' = Some st' /\ edge st e st' /\
         (published o' = published o \/ st = ST_ONLINE \/ st' = ST_ONLINE)) s o.
Proof.
  destruct s as [c w]. unfold sm_inv, keeps_timers. cbn. intros He Hinv ->.
  destruct Hinv as (Hok & Ht & Ha & Hv).
  unfold sm_input_event. do 2 post_step. cbn. post_step. post_step.
  assert (st = ST_UNREGISTER -> e = EVT_REG_PERM -> dev_events w = false) as Hoff.
  { intros -> ->. destruct He as [?|[_ He]]; [done|by apply He]. }
  destruct st; destruct e; try (by destruct He as [?|[? _]]); clear He;
    first [specialize (Hoff eq_refl eq_refl)|clear Hoff]; cbn [states enter get_next];
    unfold get_next_disconnected, get_next_auth, get_next_register, get_next_config,
      get_next_online, get_next_unregister, get_next_error; cbn [waiting] in *.
  all: repeat dev_step.
  all: split;
    [ split; [done|]; cbn [waiting]; repeat split; view_rewrite; intuition congruence
    | eexists; split; [done|]; split; [solve_edge|]; intuition congruence ].
Qed.

(** A run of the state machine follows a path, keeps the invariant, and hands data to the cloud
    only on a path through ONLINE. *)
Lemma sm_run_path es : forall st s o,
  Forall (fun e => raised e.1 = true) es -> sm_inv s o -> current_state s = Some st ->
  wlp (sm_run es)
    (fun _ s' o' => sm_inv s' o' /\ (exists st', current_state s' = Some st' /\ path st es.*1 st') /\
       (published o' = published o \/
        exists es1 es2, es = es1 ++ es2 /\ path st es1.*1 ST_ONLINE)) s o.
Proof.
  induction es as [|[e u] es IH] using rev_ind; intros st s o Hes Hinv Hst.
  { cbn. split; [done|]. split; [|by left]. eexists. split; [done|constructor]. }
  apply Forall_app in Hes as [Hes [He _]%Forall_cons].
  apply post_foreach_snoc. eapply post_mono; [by apply (IH st)|].
  intros [] s1 o1 (Hinv1 & (st1 & Hst1 & Hp1) & Hpub1). cbn.
  eapply post_use; [by apply (sm_input_event_step e u st1 s1 o1); [left|..]|done|].
  intros [] s2 o2 (Hinv2 & st2 & Hst2 & He2 & Hpub2).
  assert (path st (es ++ [(e, u)]).*1 st2) as Hp2 by (rewrite fmap_app; by econstructor).
  split; [done|]. split; [by exists st2|].
  destruct Hpub1 as [Hpub1|(es1 & es2 & -> & Hp)].
  - destruct Hpub2 as [->|[->| ->]]; [by left|right..].
    + by exists es, [(e, u)].
    + exists (es ++ [(e, u)]), []. by rewrite app_nil_r.
  - right. exists es1, (es2 ++ [(e, u)]). by rewrite app_assoc.
Qed.
End Invariant.

(** An arc into ONLINE or CONFIG comes from AUTH on a successful authentication, or stays there. *)
Lemma edge_online s e s' :
  edge s e s' -> s' = ST_ONLINE \/ s' = ST_CONFIG ->
  e = EVT_AUTH_OK \/ (s = ST_ONLINE \/ s = ST_CONFIG) /\ e <> EVT_NOT_READY.
Proof.
  intros (q & u & <-). destruct s, e; cbn; repeat case_match; cbn; intros [?|?];
    first [discriminate | by left | right; split; [by auto|done]].
Qed.

Lemma path_online s es s' :
  path s es s' -> s <> ST_ONLINE -> s <> ST_CONFIG -> s' = ST_ONLINE \/ s' = ST_CONFIG ->
  exists es1 es2, es = es1 ++ EVT_AUTH_OK :: es2 /\ EVT_NOT_READY ∉ es2.
Proof.
  intros Hp Hs1 Hs2. induction Hp as [|es e s1 s2 Hp IH He]; [tauto|].
  intros [->|[Hs He']]%(edge_online _ _ _ He).
  - exists es, []. split; [done|]. apply not_elem_of_nil.
  - destruct (IH Hs) as (es1 & es2 & -> & Hn). exists es1, (es2 ++ [e]).
    split; [by rewrite <- app_assoc|]. rewrite elem_of_app, list_elem_of_singleton. by intros [?|<-].
Qed.

(** A device that only keeps its view: it shows the interface can be implemented. *)
Definition flag_device : Device (bool * bool) := {|
  device_has_thing_token := ret 1;
  device_generate_thing_id := ret tt;
  device_start_read_cloud := ret 0;
  device_msg_timeout_create _ := modify (fun w => (true, w.2));
  device_msg_timeout_modify _ := ret tt;
  device_msg_timeout_remove := modify (fun w => (false, w.2));
  device_check_schema_change := ret 1;
  device_send_auth_request := ret 0;
  device_send_register_request := ret 0;
  device_send_config := ret 0;
  device_store_credentials_on_file t := deref t ;; ret 0;
  device_clear_credentials_on_file := ret 0;
  device_start_event := modify (fun w => (w.1, true)) ;; ret 0;
  device_stop_event := modify (fun w => (w.1, false));
  device_update_config _ := ret 0;
  device_publish_data_list _ := ret tt;
  device_publish_data_all := ret tt
|}.

Definition flag_device_spec : DeviceSpec (bool * bool) (D := flag_device).
Proof.
  refine {|
    dev_ok _ _ := True;
    dev_timer w := w.1;
    dev_events w := w.2;
    dev_timers_available := True
  |}; intros; try destruct t; cbn; unfold post; cbn; repeat split; done.
Defined.

(** ** Properties *)

(** C10: The state machine on a device that answers [q] is the table. *)
Theorem sm_input_event_table q s e u l o :
  sm_input_event (D := fake_device q) e u (Sm (Some s) l) o =
    Some (tt, Sm (Some (table q s e u).2) (l ++ (table q s e u).1), o).
Proof.
  destruct s, e; cbv -[Z.eqb Z.ltb app];
    repeat match goal with
    | |- context [Z.eqb ?a ?b] => destruct (Z.eqb a b)
    | |- context [Z.ltb ?a ?b] => destruct (Z.ltb a b)
    end; rewrite <- ?app_assoc, ?app_nil_r; reflexivity.
Qed.

Section Properties.
Context {W : Type} `{D : Device W}.

(** C39: UNREGISTER and ERROR have no way out: on the events the daemon raises nothing is called and
    nothing changes. *)
Theorem sm_run_stuck es st (w : W) o :
  st = ST_UNREGISTER \/ st = ST_ERROR -> Forall (fun e => raised e.1 = true) es ->
  sm_run es (Sm (Some st) w) o = Some (tt, Sm (Some st) w, o).
Proof.
  intros Hst Hes. unfold sm_run. induction Hes as [|[e u] es He _ IH]; [done|].
  cbn. unfold bind at 1. enough (sm_input_event e u (Sm (Some st) w) o
    = Some (tt, Sm (Some st) w, o)) as -> by done.
  by destruct Hst as [->| ->]; destruct e.
Qed.

Context {DS : DeviceSpec W}.

(** C11: The handling of an event keeps the invariant of the timers: the message timeout is pending
    exactly in the states that wait for an answer, the detection of events is on at most in ONLINE
    and in UNREGISTER. The events are those the daemon raises, and [EVT_REG_PERM], which only the
    tests raise, in any state but UNREGISTER with the detection on; the two messages the daemon
    does not check (a registration without a token, an update of the configuration) may end in
    undefined behaviour instead. *)
Theorem sm_input_event_inv e u st (s : sm W) o :
  keeps_timers s e -> sm_inv s o -> current_state s = Some st ->
  post (unchecked st e u) (sm_input_event e u) (fun _ s' o' => sm_inv s' o') s o.
Proof.
  intros He Hinv Hst.
  eapply post_mono; [by apply sm_input_event_step|]. by intros [] s' o' [H _].
Qed.

(** The daemon is ONLINE or in CONFIG only after a successful authentication, with no loss of
    connection since. *)
Theorem sm_run_online es (s : sm W) o :
  Forall (fun e => raised e.1 = true) es -> sm_inv s o ->
  current_state s = Some ST_DISCONNECTED ->
  wlp (sm_run es)
    (fun _ s' _ => current_state s' = Some ST_ONLINE \/ current_state s' = Some ST_CONFIG ->
       exists es1 es2, es.*1 = es1 ++ EVT_AUTH_OK :: es2 /\ EVT_NOT_READY ∉ es2) s o.
Proof.
  intros Hes Hinv Hst. eapply post_mono; [by eapply sm_run_path|].
  intros [] s' o' (_ & (st' & Hst' & Hp) & _) Hon. rewrite Hst' in Hon.
  apply (path_online _ _ _ Hp); [done..|]. destruct Hon as [[= ->]|[= ->]]; auto.
Qed.

(** Data are handed to the cloud only after a successful authentication. *)
Theorem sm_run_publishes es (s : sm W) o :
  Forall (fun e => raised e.1 = true) es -> sm_inv s o ->
  current_state s = Some ST_DISCONNECTED ->
  wlp (sm_run es)
    (fun _ _ o' => published o' = published o \/ EVT_AUTH_OK ∈ es.*1) s o.
Proof.
  intros Hes Hinv Hst. eapply post_mono; [by eapply sm_run_path|].
  intros [] s' o' (_ & _ & [Hp|(es1 & es2 & -> & Hp)]); [by left|right].
  destruct (path_online _ _ _ Hp) as (p1 & p2 & Heq & _); [done|done|by left|].
  rewrite fmap_app, Heq. set_solver.
Qed.
End Properties.

(** ** Witnesses *)

Definition example_run : list (EVENTS * user_data_t) :=
  [(EVT_READY, UD_null); (EVT_AUTH_OK, UD_null); (EVT_CFG_UPT_OK, UD_configs [])].

Definition example_sm : sm (bool * bool) := Sm (Some ST_DISCONNECTED) (false, false).

Lemma sm_run_stuck_witness :
  sm_run (H := flag_device) example_run (Sm (Some ST_ERROR) (false, false)) (os_init ∅)
  = Some (tt, Sm (Some ST_ERROR) (false, false), os_init ∅).
Proof. apply (sm_run_stuck (D := flag_device)); [by right|by repeat constructor]. Defined.

Lemma sm_input_event_inv_witness :
  post (unchecked ST_DISCONNECTED EVT_READY UD_null)
    (sm_input_event (D := flag_device) EVT_READY UD_null)
    (fun _ s' o' => sm_inv (H := flag_device_spec) s' o') example_sm (os_init ∅).
Proof.
  apply (sm_input_event_inv (DS := flag_device_spec)); [by left| |done].
  repeat split; try done. all: cbn; intros; congruence.
Defined.

Lemma example_sm_inv : sm_inv (H := flag_device_spec) example_sm (os_init ∅).
Proof. repeat split; try done. all: cbn; intros; congruence. Qed.

Lemma sm_run_online_witness :
  wlp (sm_run (H := flag_device) example_run)
    (fun _ s' _ => current_state s' = Some ST_ONLINE \/ current_state s' = Some ST_CONFIG ->
       exists es1 es2, example_run.*1 = es1 ++ EVT_AUTH_OK :: es2 /\ EVT_NOT_READY ∉ es2)
    example_sm (os_init ∅) /\
  (exists w o, sm_run (H := flag_device) example_run example_sm (os_init ∅)
               = Some (tt, Sm (Some ST_ONLINE) w, o)).
Proof.
  split; [|by eexists _, _].
  apply (sm_run_online (DS := flag_device_spec)); [by repeat constructor|apply example_sm_inv|done].
Defined.

Lemma sm_run_publishes_witness :
  wlp (sm_run (H := flag_device) example_run)
    (fun _ _ o' => published o' = published (os_init ∅) \/ EVT_AUTH_OK ∈ example_run.*1)
    example_sm (os_init ∅).
Proof.
  apply (sm_run_publishes (DS := flag_device_spec)); [by repeat constructor|apply example_sm_inv|done].
Defined.
