(* ===== verification/Endian.v ===== *)
(** * Byte orders of Modbus values (src/iface-modbus.c)

    The two functions that bring the words [modbus_read_registers] stored in memory, on a
    little-endian host, to the value the configured byte order means; their specification
    reads the bytes in the order the wire carries them. *)

From S2P Require Import Prelude.

(** ** The code *)

(* src/conf-parameters.h *)
Definition MODBUS_ENDIANNESS_TYPE_BIG_ENDIAN : Z := 0x01.
Definition MODBUS_ENDIANNESS_TYPE_MID_BIG_ENDIAN : Z := 0x02.
Definition MODBUS_ENDIANNESS_TYPE_LITTLE_ENDIAN : Z := 0x03.
Definition MODBUS_ENDIANNESS_TYPE_MID_LITTLE_ENDIAN : Z := 0x04.

(** One term [(src & mask) >> n] or [(src & mask) << n]: a shift left when [n] is positive, in
    an unsigned type of [w] bits. *)
Definition masked (w src mask n : Z) : Z :=
  if 0 <=? n then wrap w (Z.shiftl (Z.land src mask) n)
  else Z.shiftr (Z.land src mask) (- n).

Definition iface_modbus_config_endianness_type_recv_32_bits (src endianness_type : Z) : Z :=
  if endianness_type =? MODBUS_ENDIANNESS_TYPE_BIG_ENDIAN then
    Z.lor (masked 32 src 0xffff0000 (-16))
          (masked 32 src 0x0000ffff 16)
  else if endianness_type =? MODBUS_ENDIANNESS_TYPE_MID_BIG_ENDIAN then
    Z.lor (Z.lor (Z.lor (masked 32 src 0xff000000 (-24))
                        (masked 32 src 0x00ff0000 (-8)))
                 (masked 32 src 0x0000ff00 8))
          (masked 32 src 0x000000ff 24)
  else if endianness_type =? MODBUS_ENDIANNESS_TYPE_LITTLE_ENDIAN then
    Z.lor (Z.lor (Z.lor (masked 32 src 0xff000000 (-8))
                        (masked 32 src 0x00ff0000 8))
                 (masked 32 src 0x0000ff00 (-8)))
          (masked 32 src 0x000000ff 8)
  else src.

Definition swap_bytes_64 (src : Z) : Z :=
  Z.lor (Z.lor (Z.lor (Z.lor (Z.lor (Z.lor (Z.lor
    (masked 64 src 0xff00000000000000 (-8))
    (masked 64 src 0x00ff000000000000 8))
    (masked 64 src 0x0000ff0000000000 (-8)))
    (masked 64 src 0x000000ff00000000 8))
    (masked 64 src 0x00000000ff000000 (-8)))
    (masked 64 src 0x0000000000ff0000 8))
    (masked 64 src 0x000000000000ff00 (-8)))
    (masked 64 src 0x00000000000000ff 8).

Definition swap_words_64 (src : Z) : Z :=
  Z.lor (Z.lor (Z.lor
    (masked 64 src 0xffff000000000000 (-48))
    (masked 64 src 0x0000ffff00000000 (-16)))
    (masked 64 src 0x00000000ffff0000 16))
    (masked 64 src 0x000000000000ffff 48).

Definition iface_modbus_config_endianness_type_recv_64_bits (src endianness_type : Z) : Z :=
  let src :=
    if (endianness_type =? MODBUS_ENDIANNESS_TYPE_MID_BIG_ENDIAN)
       || (endianness_type =? MODBUS_ENDIANNESS_TYPE_LITTLE_ENDIAN)
    then swap_bytes_64 src else src in
  if (endianness_type =? MODBUS_ENDIANNESS_TYPE_MID_BIG_ENDIAN)
     || (endianness_type =? MODBUS_ENDIANNESS_TYPE_BIG_ENDIAN)
  then swap_words_64 src else src.

(** ** The specification

    A register is sixteen bits; the wire carries its high byte first.  [modbus_read_registers]
    stores each as a [uint16_t] of the host, register [i] at address [2 * i]. *)

(** The number whose base-[2^w] digits are [l], the lowest first. *)
Fixpoint le_word (w : Z) (l : list Z) : Z :=
  match l with
  | [] => 0
  | d :: r => d + 2 ^ w * le_word w r
  end.

(** The memory of a little-endian host as the integer it holds. *)
Definition host_word (regs : list Z) : Z := le_word 16 regs.

(** The bytes of the registers as the wire carries them. *)
Definition wire_bytes (regs : list Z) : list Z :=
  flat_map (fun r => [Z.shiftr r 8; Z.land r 0xff]) regs.

(** Every two bytes exchanged. *)
Fixpoint swap_pairs (l : list Z) : list Z :=
  match l with
  | a :: b :: r => b :: a :: swap_pairs r
  | _ => l
  end.

(** The value the bytes [b0 b1 b2 ..] of the wire mean in each order; any other configured
    order means [MID_LITTLE_ENDIAN]. *)
Definition wire_value (endianness_type : Z) (bytes : list Z) : Z :=
  if endianness_type =? MODBUS_ENDIANNESS_TYPE_BIG_ENDIAN then le_word 8 (rev bytes)
  else if endianness_type =? MODBUS_ENDIANNESS_TYPE_MID_BIG_ENDIAN then
    le_word 8 (rev (swap_pairs bytes))
  else if endianness_type =? MODBUS_ENDIANNESS_TYPE_LITTLE_ENDIAN then le_word 8 bytes
  else le_word 8 (swap_pairs bytes).

(** ** Bits *)

Lemma testbit_masked w src mask n i : 0 <= w -> 0 <= i ->
  Z.testbit (masked w src mask n) i =
    (if 0 <=? n then i <? w else true) && Z.testbit mask (i - n) && Z.testbit src (i - n).
Proof.
  intros. unfold masked. destruct (Z.leb_spec 0 n).
  - rewrite testbit_wrap, Z.shiftl_spec, Z.land_spec by lia.
    rewrite (andb_comm (Z.testbit src _)). by rewrite andb_assoc.
  - rewrite Z.shiftr_spec, Z.land_spec by lia. replace (i + - n) with (i - n) by lia.
    by rewrite (andb_comm (Z.testbit src _)).
Qed.

(** The digits of [le_word 8 l] are bytes. *)
Definition byte_list (l : list Z) : Prop := Forall (fun b => 0 <= b < 2 ^ 8) l.

Lemma le_word_range w l :
  0 <= w -> Forall (fun d => 0 <= d < 2 ^ w) l -> 0 <= le_word w l < 2 ^ (w * Z.of_nat (length l)).
Proof.
  intros Hw. induction 1 as [|d l Hd _ IH]; cbn [le_word length].
  { rewrite Z.mul_0_r. lia. }
  replace (w * Z.of_nat (S (length l))) with (w + w * Z.of_nat (length l)) by lia.
  rewrite Z.pow_add_r by lia. nia.
Qed.

Lemma testbit_le_word w l i :
  0 < w -> Forall (fun d => 0 <= d < 2 ^ w) l -> 0 <= i ->
  Z.testbit (le_word w l) i = Z.testbit (nth (Z.to_nat (i / w)) l 0) (i mod w).
Proof.
  intros Hw Hl. revert i. induction Hl as [|d l Hd _ IH]; intros i Hi; cbn [le_word].
  { by destruct (Z.to_nat (i / w)); rewrite !Z.bits_0. }
  destruct (Z.lt_ge_cases i w) as [Hiw|Hiw].
  - rewrite Z.div_small, Z.mod_small by lia. cbn.
    rewrite <- (Z.mod_pow2_bits_low _ w) by lia.
    rewrite Z.mul_comm, Z.mod_add by lia. by rewrite Z.mod_small.
  - replace i with ((i - w) + w) at 1 by lia.
    rewrite <- Z.shiftr_spec, Z.shiftr_div_pow2 by lia.
    rewrite Z.add_comm, Z.mul_comm, Z.div_add_l, Z.div_small, Z.add_0_r, IH by lia.
    replace (Z.to_nat (i / w)) with (S (Z.to_nat ((i - w) / w))).
    + cbn [nth]. f_equal. rewrite <- (Z.mod_add (i - w) 1) by lia. f_equal. lia.
    + replace (i / w) with ((i - w) / w + 1).
      { assert (0 <= (i - w) / w) by (apply Z.div_pos; lia). lia. }
      rewrite <- Z.div_add by lia. f_equal. lia.
Qed.

Lemma testbit_le_word_if w l i :
  0 < w -> Forall (fun d => 0 <= d < 2 ^ w) l ->
  Z.testbit (le_word w l) i =
    (0 <=? i) && Z.testbit (nth (Z.to_nat (i / w)) l 0) (i mod w).
Proof.
  intros Hw Hl. destruct (Z.leb_spec 0 i); [by apply testbit_le_word|].
  by rewrite Z.testbit_neg_r by lia.
Qed.

(** Equality of two numbers below [2 ^ n] from their bits, one by one. *)
Lemma bits_inj_below n x y :
  0 <= x < 2 ^ Z.of_nat n -> 0 <= y < 2 ^ Z.of_nat n ->
  Forall (fun i => Z.testbit x i = Z.testbit y i) (seqZ 0 (Z.of_nat n)) -> x = y.
Proof.
  intros Hx Hy Hb. apply Z.bits_inj'. intros i Hi.
  destruct (Z.lt_ge_cases i (Z.of_nat n)) as [Hin|Hin].
  - rewrite Forall_forall in Hb. apply Hb, elem_of_seqZ. lia.
  - rewrite <- (Z.mod_small x (2 ^ Z.of_nat n)), <- (Z.mod_small y (2 ^ Z.of_nat n)) by lia.
    by rewrite !Z.mod_pow2_bits_high by lia.
Qed.

Lemma lor_range n x y : 0 <= n -> 0 <= x < 2 ^ n -> 0 <= y < 2 ^ n -> 0 <= Z.lor x y < 2 ^ n.
Proof.
  intros Hn Hx Hy. enough (wrap n (Z.lor x y) = Z.lor x y) as <- by by apply wrap_range.
  rewrite <- (wrap_small n x), <- (wrap_small n y) by done.
  apply Z.bits_inj'. intros i Hi. rewrite testbit_wrap, !Z.lor_spec, !testbit_wrap by lia.
  by destruct (i <? n).
Qed.

Lemma masked_range w src mask n :
  0 <= w -> 0 <= mask < 2 ^ w -> 0 <= masked w src mask n < 2 ^ w.
Proof.
  intros Hw Hm. unfold masked. destruct (0 <=? n) eqn:E; [by apply wrap_range|].
  enough (wrap w (Z.shiftr (Z.land src mask) (- n)) = Z.shiftr (Z.land src mask) (- n)) as <-
    by by apply wrap_range.
  rewrite <- (wrap_small w mask) by done. apply Z.bits_inj'. intros i Hi.
  rewrite testbit_wrap, Z.shiftr_spec, Z.land_spec, testbit_wrap by lia.
  destruct (Z.ltb_spec i w); [done|]. destruct (Z.ltb_spec (i + - n) w); [lia|].
  by rewrite andb_false_r.
Qed.

#[export] Hint Resolve lor_range masked_range : vthing.

(** *** Registers *)

Definition reg_ok (r : Z) : Prop := 0 <= r < 2 ^ 16.

Lemma reg_bytes r : reg_ok r ->
  exists hi lo, 0 <= hi < 2 ^ 8 /\ 0 <= lo < 2 ^ 8 /\ r = lo + 2 ^ 8 * hi /\
    Z.shiftr r 8 = hi /\ Z.land r 0xff = lo.
Proof.
  intros Hr. unfold reg_ok in Hr. exists (r / 2 ^ 8), (r mod 2 ^ 8).
  rewrite Z.shiftr_div_pow2 by lia. change 0xff with (Z.ones 8). rewrite Z.land_ones by lia.
  pose proof (Z.mod_pos_bound r (2 ^ 8)). pose proof (Z.div_mod r (2 ^ 8)).
  repeat split; lia.
Qed.

(** An equation between a term of the code and a list of bytes, bit by bit. *)
Ltac bits_of_bytes n :=
  match goal with
  | Hb : byte_list _ |- _ = le_word 8 ?l =>
      assert (byte_list l) as Hb' by (unfold byte_list in *; rewrite ?Forall_cons in *; tauto)
  end;
  cbv beta iota zeta delta [iface_modbus_config_endianness_type_recv_32_bits
    swap_bytes_64 swap_words_64
    MODBUS_ENDIANNESS_TYPE_BIG_ENDIAN MODBUS_ENDIANNESS_TYPE_MID_BIG_ENDIAN
    MODBUS_ENDIANNESS_TYPE_LITTLE_ENDIAN Z.eqb Pos.eqb orb];
  apply (bits_inj_below n);
  [ repeat (apply lor_range; [lia|..]); apply masked_range; lia
  | by apply (le_word_range 8)
  | let l := eval vm_compute in (seqZ 0 (Z.of_nat n)) in change (seqZ 0 (Z.of_nat n)) with l;
    repeat apply Forall_cons_2; [..|apply Forall_nil_2];
    rewrite ?Z.lor_spec, ?testbit_masked by lia;
    rewrite ?testbit_le_word_if by (first [exact eq_refl|eassumption]);
    repeat match goal with
    | |- context [Z.testbit (Z.pos ?m) ?i] =>
        let b := eval vm_compute in (Z.testbit (Z.pos m) i) in
        change (Z.testbit (Z.pos m) i) with b
    | |- context [?x <=? ?y] => let b := eval vm_compute in (x <=? y) in change (x <=? y) with b
    | |- context [?x <? ?y] => let b := eval vm_compute in (x <? y) in change (x <? y) with b
    end; cbn [andb orb]; rewrite ?orb_false_r; reflexivity ].

(** [reg_bytes] for every register in sight. *)
Ltac split_regs :=
  repeat match goal with
  | H : reg_ok ?r |- _ =>
      let hi := fresh "hi" in let lo := fresh "lo" in
      destruct (reg_bytes r H) as (hi & lo & ? & ? & ? & ? & ?); clear H
  end.

(** The wire's bytes of registers given by their bytes. *)
Ltac regs_of_bytes :=
  unfold wire_bytes, wire_value, MODBUS_ENDIANNESS_TYPE_BIG_ENDIAN,
    MODBUS_ENDIANNESS_TYPE_MID_BIG_ENDIAN, MODBUS_ENDIANNESS_TYPE_LITTLE_ENDIAN;
  cbn [flat_map app];
  repeat match goal with
  | H : Z.shiftr _ 8 = _ |- _ => rewrite H; clear H
  | H : Z.land _ 255 = _ |- _ => rewrite H; clear H
  end;
  repeat case_match.

Lemma host_bytes_32 l0 h0 l1 h1 :
  host_word [l0 + 2 ^ 8 * h0; l1 + 2 ^ 8 * h1] = le_word 8 [l0; h0; l1; h1].
Proof. unfold host_word. cbn [le_word]. ring. Qed.

Lemma host_bytes_64 l0 h0 l1 h1 l2 h2 l3 h3 :
  host_word [l0 + 2 ^ 8 * h0; l1 + 2 ^ 8 * h1; l2 + 2 ^ 8 * h2; l3 + 2 ^ 8 * h3]
  = le_word 8 [l0; h0; l1; h1; l2; h2; l3; h3].
Proof. unfold host_word. cbn [le_word]. ring. Qed.

Lemma recv_32_bytes b0 b1 b2 b3 e :
  byte_list [b0; b1; b2; b3] ->
  iface_modbus_config_endianness_type_recv_32_bits (le_word 8 [b0; b1; b2; b3]) e =
    le_word 8 (if e =? 1 then [b2; b3; b0; b1]
               else if e =? 2 then [b3; b2; b1; b0]
               else if e =? 3 then [b1; b0; b3; b2]
               else [b0; b1; b2; b3]).
Proof.
  intros Hb.
  destruct (Z.eqb_spec e 1) as [->|H1]; [bits_of_bytes 32%nat|].
  destruct (Z.eqb_spec e 2) as [->|H2]; [bits_of_bytes 32%nat|].
  destruct (Z.eqb_spec e 3) as [->|H3]; [bits_of_bytes 32%nat|].
  unfold iface_modbus_config_endianness_type_recv_32_bits,
    MODBUS_ENDIANNESS_TYPE_BIG_ENDIAN, MODBUS_ENDIANNESS_TYPE_MID_BIG_ENDIAN,
    MODBUS_ENDIANNESS_TYPE_LITTLE_ENDIAN.
  by rewrite (proj2 (Z.eqb_neq e _) H1), (proj2 (Z.eqb_neq e _) H2), (proj2 (Z.eqb_neq e _) H3).
Qed.

Lemma swap_bytes_64_bytes b0 b1 b2 b3 b4 b5 b6 b7 :
  byte_list [b0; b1; b2; b3; b4; b5; b6; b7] ->
  swap_bytes_64 (le_word 8 [b0; b1; b2; b3; b4; b5; b6; b7])
  = le_word 8 [b1; b0; b3; b2; b5; b4; b7; b6].
Proof. intros Hb. bits_of_bytes 64%nat. Qed.

Lemma swap_words_64_bytes b0 b1 b2 b3 b4 b5 b6 b7 :
  byte_list [b0; b1; b2; b3; b4; b5; b6; b7] ->
  swap_words_64 (le_word 8 [b0; b1; b2; b3; b4; b5; b6; b7])
  = le_word 8 [b6; b7; b4; b5; b2; b3; b0; b1].
Proof. intros Hb. bits_of_bytes 64%nat. Qed.

Lemma recv_64_bytes b0 b1 b2 b3 b4 b5 b6 b7 e :
  byte_list [b0; b1; b2; b3; b4; b5; b6; b7] ->
  iface_modbus_config_endianness_type_recv_64_bits
    (le_word 8 [b0; b1; b2; b3; b4; b5; b6; b7]) e =
    le_word 8 (if e =? 1 then [b6; b7; b4; b5; b2; b3; b0; b1]
               else if e =? 2 then [b7; b6; b5; b4; b3; b2; b1; b0]
               else if e =? 3 then [b1; b0; b3; b2; b5; b4; b7; b6]
               else [b0; b1; b2; b3; b4; b5; b6; b7]).
Proof.
  intros Hb. unfold iface_modbus_config_endianness_type_recv_64_bits,
    MODBUS_ENDIANNESS_TYPE_BIG_ENDIAN, MODBUS_ENDIANNESS_TYPE_MID_BIG_ENDIAN,
    MODBUS_ENDIANNESS_TYPE_LITTLE_ENDIAN.
  destruct (Z.eqb_spec e 1) as [->|H1]; [by apply swap_words_64_bytes|].
  destruct (Z.eqb_spec e 2) as [->|H2]; cbn [orb].
  { rewrite swap_bytes_64_bytes by done. apply swap_words_64_bytes.
    unfold byte_list in *. rewrite ?Forall_cons in *. tauto. }
  destruct (Z.eqb_spec e 3) as [->|H3]; [by apply swap_bytes_64_bytes|done].
Qed.

(** ** Properties *)

(** A 32-bit value is the bytes of its two registers in the configured order. *)
Lemma recv_32_bits_wire r0 r1 e :
  reg_ok r0 -> reg_ok r1 ->
  iface_modbus_config_endianness_type_recv_32_bits (host_word [r0; r1]) e
  = wire_value e (wire_bytes [r0; r1]).
Proof.
  intros H0 H1. split_regs. subst r0 r1. rewrite host_bytes_32, recv_32_bytes.
  - by regs_of_bytes.
  - repeat constructor; lia.
Qed.

(** A 64-bit value is the bytes of its four registers in the configured order: the same four
    orders as for 32 bits. *)
Lemma recv_64_bits_wire r0 r1 r2 r3 e :
  reg_ok r0 -> reg_ok r1 -> reg_ok r2 -> reg_ok r3 ->
  iface_modbus_config_endianness_type_recv_64_bits (host_word [r0; r1; r2; r3]) e
  = wire_value e (wire_bytes [r0; r1; r2; r3]).
Proof.
  intros H0 H1 H2 H3. split_regs. subst r0 r1 r2 r3. rewrite host_bytes_64, recv_64_bytes.
  - by regs_of_bytes.
  - repeat constructor; lia.
Qed.
