(* ===== verification/Event.v ===== *)
(** * Detection of the events of data items (src/event.c)

    The comparison of a new value with the last one sent and with the limits of the item, and
    the timers of the items that are sent periodically. *)

From S2P Require Import Prelude Knot Ext Ell.

(** The one function [event_start] is handed, [on_event_timeout] of device.c. *)
Inductive timeout_cb_t := on_event_timeout_cb.

(** ** State *)

Section Event.
Context `{KP : KnotProtocol} `{E : Env} {Q : Type -> Type} `{LQ : !LQueue Q}.

Record event_state := EventState {
  sensor_timeouts : option (Q Z);          (* NULL or the queue of the timers *)
  timeout_cb : option timeout_cb_t;
  active : bool
}.

Definition event_init : event_state := EventState None None false.

(** ** Comparison of values *)

Definition compare_int (val1 val2 : Z) : Z :=
  if val1 <? val2 then -1 else if val2 <? val1 then 1 else 0.

Definition compare_float (val1 val2 : Z) : Z :=
  if float_lt val1 val2 then -1 else if float_lt val2 val1 then 1 else 0.

Definition compare_bool (val1 val2 : bool) : Z :=
  if negb val1 && val2 then -1 else if val1 && negb val2 then 1 else 0.

Definition compare_raw (val1 val2 : knot_value_type) : Z := 1.

Definition compare_knot_value (val1 val2 : knot_value_type) (value_type : Z) : Z :=
  if value_type =? KNOT_VALUE_TYPE_INT then compare_int (val_i val1) (val_i val2)
  else if value_type =? KNOT_VALUE_TYPE_FLOAT then compare_float (val_f val1) (val_f val2)
  else if value_type =? KNOT_VALUE_TYPE_BOOL then
    compare_bool (c_true (val_b val1)) (c_true (val_b val2))
  else if value_type =? KNOT_VALUE_TYPE_RAW then compare_raw val1 val2
  else 1.

Definition is_value_equal (new_value old_value : knot_value_type) (value_type : Z) : bool :=
  compare_knot_value new_value old_value value_type =? 0.

Definition is_lower_than_threshold (value threshold : knot_value_type) (value_type : Z) : bool :=
  compare_knot_value value threshold value_type <? 0.

Definition is_higher_than_threshold (value threshold : knot_value_type) (value_type : Z) : bool :=
  0 <? compare_knot_value value threshold value_type.

Definition is_timeout_flag_set (a : Z) : bool := flag_set a KNOT_EVT_FLAG_TIME.
Definition is_change_flag_set (a : Z) : bool := flag_set a KNOT_EVT_FLAG_CHANGE.
Definition is_lower_flag_set (a : Z) : bool := flag_set a KNOT_EVT_FLAG_LOWER_THRESHOLD.
Definition is_upper_flag_set (a : Z) : bool := flag_set a KNOT_EVT_FLAG_UPPER_THRESHOLD.

Definition event_check_value (st : event_state) (event : knot_event)
    (current_val sent_val : knot_value_type) (value_type : Z) : Z :=
  if negb (active st) then - ENOMSG
  else if (value_type <? KNOT_VALUE_TYPE_MIN) || (KNOT_VALUE_TYPE_MAX <? value_type)
  then - EINVAL
  else if is_change_flag_set (event_flags event)
          && negb (is_value_equal current_val sent_val value_type) then 1
  else if is_lower_flag_set (event_flags event)
          && is_lower_than_threshold current_val (event_lower_limit event) value_type then 1
  else if is_upper_flag_set (event_flags event)
          && is_higher_than_threshold current_val (event_upper_limit event) value_type then 1
  else 0.

(** ** Timers *)

(** [on_sensor_to], the callback of an item's timer; [call_cb] calls the function the daemon
    registered, on the state of the whole program. *)
Definition on_sensor_to {W} (l : lens W event_state) (call_cb : timeout_cb_t -> Z -> M W ())
    (to id timeout_sec : Z) : M W () :=
  let! st := zoom l get in
  let! cb := deref (timeout_cb st) in
  call_cb cb id ;;
  l_timeout_modify to timeout_sec.

Definition timeout_destroy {S} (to : Z) : M S () := l_timeout_remove to.

Definition event_add_data_item (id : Z) (event : knot_event) : M event_state () :=
  when (is_timeout_flag_set (event_flags event))
    (let! to := l_timeout_create (event_time_sec event)
                  (on_sensor_to_cb id (event_time_sec event)) in
     modify (fun st =>
       EventState
         match sensor_timeouts st with
         | Some q => Some (l_queue_push_head q to)
         | None => None
         end (timeout_cb st) (active st))).

Definition event_start (cb : timeout_cb_t) : M event_state Z :=
  let! rc := ext_rc C_queue_new in
  if rc <? 0 then
    modify (fun st => EventState None (timeout_cb st) (active st)) ;;
    ret (- ENOMSG)
  else
    modify (fun st => EventState (Some l_queue_new) (Some cb) true) ;;
    ret 0.

Definition event_stop : M event_state () :=
  modify (fun st => EventState (sensor_timeouts st) (timeout_cb st) false) ;;
  let! st := get in
  match sensor_timeouts st with
  | Some q =>
      foreach timeout_destroy (l_queue_elems q) ;;
      modify (fun st => EventState None (timeout_cb st) (active st))
  | None => ret tt
  end.
End Event.

Arguments event_state Q : clear implicits.

(** ** The order of the values of a type

    The types whose values the code orders; the others are not comparable. *)

Section Order.
Context `{KL : KnotProtocolLaws}.

Definition ordered_types : list Z :=
  [KNOT_VALUE_TYPE_INT; KNOT_VALUE_TYPE_FLOAT; KNOT_VALUE_TYPE_BOOL].

Definition unordered_types : list Z :=
  [KNOT_VALUE_TYPE_RAW; KNOT_VALUE_TYPE_INT64; KNOT_VALUE_TYPE_UINT; KNOT_VALUE_TYPE_UINT64].

Definition value_lt (value_type : Z) (a b : knot_value_type) : bool :=
  if decide (value_type = KNOT_VALUE_TYPE_INT) then val_i a <? val_i b
  else if decide (value_type = KNOT_VALUE_TYPE_FLOAT) then float_lt (val_f a) (val_f b)
  else if decide (value_type = KNOT_VALUE_TYPE_BOOL) then
    negb (c_true (val_b a)) && c_true (val_b b)
  else false.

(** What the flags of an item ask for: a value is sent when it changed, fell below the lower
    limit or rose above the upper one. *)
Definition event_spec (event : knot_event) (current sent : knot_value_type) (value_type : Z)
    : bool :=
  is_change_flag_set (event_flags event)
    && (value_lt value_type current sent || value_lt value_type sent current)
  || is_lower_flag_set (event_flags event)
    && value_lt value_type current (event_lower_limit event)
  || is_upper_flag_set (event_flags event)
    && value_lt value_type (event_upper_limit event) current.

Lemma float_lt_asym a b : float_lt a b = true -> float_lt b a = false.
Proof. unfold float_lt. destruct (float_val a), (float_val b); try done. lia. Qed.

(** The result of a comparison is the order, both ways. *)
Lemma compare_knot_value_ordered value_type a b :
  value_type ∈ ordered_types ->
  compare_knot_value a b value_type =
    if value_lt value_type a b then -1 else if value_lt value_type b a then 1 else 0.
Proof.
  unfold compare_knot_value, value_lt, ordered_types. rewrite !elem_of_cons, elem_of_nil.
  distinct_types. intros Ht. type_conds; [done|done| |intuition congruence..].
  unfold compare_bool. by destruct (c_true (val_b a)), (c_true (val_b b)).
Qed.

(** Every other type compares as greater, whatever the values. *)
Lemma compare_knot_value_unordered value_type a b :
  value_type ∈ unordered_types -> compare_knot_value a b value_type = 1.
Proof.
  unfold compare_knot_value, unordered_types. rewrite !elem_of_cons, elem_of_nil.
  distinct_types. intros Ht. type_conds; intuition congruence.
Qed.

Lemma value_lt_asym value_type a b :
  value_lt value_type a b = true -> value_lt value_type b a = false.
Proof.
  unfold value_lt. repeat case_decide; [lia|apply float_lt_asym| |done].
  by destruct (c_true (val_b a)), (c_true (val_b b)).
Qed.

Section Ordered.
Context (value_type : Z) (Hordered : value_type ∈ ordered_types) (a b : knot_value_type).

Lemma is_value_equal_ordered :
  is_value_equal a b value_type = negb (value_lt value_type a b || value_lt value_type b a).
Proof.
  unfold is_value_equal. rewrite compare_knot_value_ordered by done.
  by destruct (value_lt value_type a b), (value_lt value_type b a).
Qed.

Lemma is_lower_ordered : is_lower_than_threshold a b value_type = value_lt value_type a b.
Proof.
  unfold is_lower_than_threshold. rewrite compare_knot_value_ordered by done.
  by destruct (value_lt value_type a b), (value_lt value_type b a).
Qed.

Lemma is_higher_ordered : is_higher_than_threshold a b value_type = value_lt value_type b a.
Proof.
  unfold is_higher_than_threshold. rewrite compare_knot_value_ordered by done.
  destruct (value_lt value_type a b) eqn:E; [by rewrite (value_lt_asym _ _ _ E)|].
  by destruct (value_lt value_type b a).
Qed.
End Ordered.

Lemma known_type_range t :
  t ∈ ordered_types ++ unordered_types ->
  (t <? KNOT_VALUE_TYPE_MIN) || (KNOT_VALUE_TYPE_MAX <? t) = false.
Proof.
  intros Ht. pose proof value_types_range as Hr. rewrite Forall_forall in Hr.
  assert (KNOT_VALUE_TYPE_MIN <= t <= KNOT_VALUE_TYPE_MAX) as Hb.
  { apply Hr. unfold ordered_types, unordered_types in Ht. cbn in Ht. set_solver. }
  apply orb_false_iff. lia.
Qed.
End Order.

(** ** The timers of the items

    [event_owns base st o]: the live timers are those of [base] and the ones the queue holds
    (a timer that could not be created is in the queue as a NULL pointer, which is no timer). *)

Section Timers.
Context `{KP : KnotProtocol} `{E : Env} {Q : Type -> Type} `{LQL : LQueueLaws Q}.

Definition event_owns (base : gmap Z timer_cb) (st : event_state Q) (o : os) : Prop :=
  os_wf o /\
  exists q, sensor_timeouts st = Some q /\ removed (l_queue_elems q) (os_timers o) = base.

(** The items that are sent periodically, and the call that starts the timer of one. *)
Definition timed (items : list (Z * knot_event)) : list (Z * knot_event) :=
  List.filter (fun i => is_timeout_flag_set (event_flags i.2)) items.

Definition timer_call (i : Z * knot_event) : call :=
  C_timeout_create (event_time_sec i.2) (on_sensor_to_cb i.1 (event_time_sec i.2)).

Lemma event_add_data_item_owns P base id event st o :
  event_owns base st o ->
  post P (event_add_data_item id event)
    (fun _ st' o' => event_owns base st' o' /\ active st' = active st /\
       timeout_cb st' = timeout_cb st /\
       os_log o' = rev (timer_call <$> timed [(id, event)]) ++ os_log o /\
       os_files o' = os_files o /\ os_fds o' = os_fds o) st o.
Proof.
  intros (Hw & q & Hq & Ht). unfold event_add_data_item, timed. cbn [List.filter snd].
  apply post_when; intros ->; [|by split; [split; [done|]; by exists q|]].
  apply post_bind. apply post_new_timer; [done|..].
  all: intros a Ha Hrc; intros; apply post_modify; cbn; rewrite Hq.
  all: split; [split; [auto with vthing|]; eexists; split; [done|];
               cbn; rewrite elems_push_head|done].
  - by rewrite (removed_0 _ o Hw).
  - rewrite removed_insert by by apply os_wf_fresh. done.
Qed.

Lemma event_stop_owns P base st o :
  event_owns base st o ->
  post P event_stop
    (fun _ st' o' => os_wf o' /\ os_timers o' = base /\ active st' = false /\
       sensor_timeouts st' = None) st o.
Proof.
  intros (Hw & q & Hq & Ht). unfold event_stop. post_step. post_step. cbn. post_step. post_step.
  cbn. rewrite Hq. post_step. eapply (post_remove_all _ _ id); [done|done|].
  intros o' Hw' Ht' _ _. post_step. rewrite list_fmap_id in Ht'. by rewrite Ht', Ht.
Qed.

Lemma event_start_owns P cb st o :
  os_wf o ->
  post P (event_start cb)
    (fun rc st' o' => os_same o o' /\
       ((rc = 0 /\ event_owns (os_timers o) st' o' /\ active st' = true /\
         timeout_cb st' = Some cb) \/
        (rc = - ENOMSG /\ active st' = active st /\ sensor_timeouts st' = None))) st o.
Proof.
  intros Hw. unfold event_start. post_steps.
  - split; [auto with vthing|]. by right.
  - split; [auto with vthing|]. left. split; [done|]. split; [|done].
    split; [auto with vthing|]. eexists. split; [done|]. by rewrite elems_new.
Qed.

Lemma event_add_all_owns P base items st o :
  event_owns base st o ->
  post P (foreach (fun i => event_add_data_item i.1 i.2) items)
    (fun _ st' o' => event_owns base st' o' /\ active st' = active st /\
       os_log o' = rev (timer_call <$> timed items) ++ os_log o) st o.
Proof.
  revert st o. induction items as [|[id event] items IH]; intros st o Ho; [done|].
  cbn [foreach]. apply post_bind. eapply post_mono; [by apply event_add_data_item_owns|].
  intros [] st1 o1 (Ho1 & Ha1 & _ & Hl1 & _). eapply post_mono; [by apply IH|].
  intros [] st2 o2 (Ho2 & Ha2 & Hl2). split; [done|]. split; [congruence|].
  rewrite Hl2, Hl1, app_assoc, <- rev_app_distr, <- fmap_app. unfold timed. cbn [List.filter snd].
  by destruct (is_timeout_flag_set (event_flags event)).
Qed.
End Timers.

(** ** Properties *)

Section Properties.
Context `{KL : KnotProtocolLaws} {Q : Type -> Type}.
Implicit Types (st : event_state Q).

(** The items of an inactive detector and of an unknown type are errors; the other answers are
    0 and 1. *)
Theorem event_check_value_codes st event current sent value_type :
  event_check_value st event current sent value_type =
    if negb (active st) then - ENOMSG
    else if negb (bool_decide (KNOT_VALUE_TYPE_MIN <= value_type <= KNOT_VALUE_TYPE_MAX))
    then - EINVAL
    else c_int
      (is_change_flag_set (event_flags event)
         && negb (compare_knot_value current sent value_type =? 0)
       || is_lower_flag_set (event_flags event)
         && (compare_knot_value current (event_lower_limit event) value_type <? 0)
       || is_upper_flag_set (event_flags event)
         && (0 <? compare_knot_value current (event_upper_limit event) value_type)).
Proof.
  unfold event_check_value. destruct (active st); cbn [negb]; [|done].
  destruct (_ || _) eqn:Hr.
  { rewrite bool_decide_eq_false_2; [done|]. apply orb_true_iff in Hr. lia. }
  rewrite bool_decide_eq_true_2 by (apply orb_false_iff in Hr; lia). cbn [negb].
  unfold is_value_equal, is_lower_than_threshold, is_higher_than_threshold.
  by repeat destruct (_ && _).
Qed.

(** C13: A value of an ordered type is sent exactly when its flags ask for it. *)
Theorem event_check_value_spec st event current sent value_type :
  active st = true -> value_type ∈ ordered_types ->
  event_check_value st event current sent value_type =
    c_int (event_spec event current sent value_type).
Proof.
  intros Ha Ht. unfold event_check_value. rewrite Ha. cbn [negb].
  rewrite known_type_range by (apply elem_of_app; by left).
  rewrite is_value_equal_ordered, is_lower_ordered, is_higher_ordered by done.
  unfold event_spec. rewrite negb_involutive. by repeat destruct (_ && _).
Qed.

(** C37: The values of the other types are not compared: such an item is sent whenever the CHANGE or
    the UPPER flag is set, its values and limits do not matter. *)
Theorem event_check_value_unordered st event current sent value_type :
  active st = true -> value_type ∈ unordered_types ->
  event_check_value st event current sent value_type =
    c_int (is_change_flag_set (event_flags event) || is_upper_flag_set (event_flags event)).
Proof.
  intros Ha Ht. unfold event_check_value. rewrite Ha. cbn [negb].
  rewrite known_type_range by (apply elem_of_app; by right).
  unfold is_value_equal, is_lower_than_threshold, is_higher_than_threshold.
  rewrite !compare_knot_value_unordered by done.
  by destruct (is_change_flag_set _), (is_lower_flag_set _), (is_upper_flag_set _).
Qed.
End Properties.

Section Session.
Context `{KP : KnotProtocol} `{E : Env} {Q : Type -> Type} `{LQL : LQueueLaws Q}.

(** Exactly the items that are sent periodically get a timer, in the order they are added. *)
Theorem event_items_timed base items st o :
  event_owns base st o ->
  wp (foreach (fun i => event_add_data_item i.1 i.2) items)
    (fun _ st' o' => event_owns base st' o' /\
       os_log o' = rev (timer_call <$> timed items) ++ os_log o) st o.
Proof.
  intros Ho. eapply post_mono; [by apply event_add_all_owns|]. by intros [] st' o' (? & _ & ?).
Qed.

(** C25: A session of the detector: started with the items of the device, then stopped. After it
    the live timers are those of before, whatever the answers of the system in it. *)
Theorem event_session_timers cb items st o :
  os_wf o ->
  wp (let! rc := event_start (Q := Q) cb in
      if rc <? 0 then ret rc
      else foreach (fun i => event_add_data_item i.1 i.2) items ;; event_stop ;; ret rc)
    (fun rc st' o' => os_wf o' /\ os_timers o' = os_timers o /\ sensor_timeouts st' = None /\
       (rc = 0 -> active st' = false)) st o.
Proof.
  intros Hw. apply post_bind. eapply post_mono; [by apply event_start_owns|].
  intros rc st1 o1 [Hsame [(-> & Ho1 & _)|(-> & _ & Hq)]]; cbn.
  - apply post_bind. eapply post_mono; [by apply event_add_all_owns|].
    intros [] st2 o2 (Ho2 & _). apply post_bind. eapply post_mono; [by apply event_stop_owns|].
    by intros [] st3 o3 (? & ? & ? & ?).
  - split; [by eapply os_same_wf|]. split; [by destruct Hsame|]. done.
Qed.
End Session.

(** ** Witnesses *)

Definition example_event (flags : Z) : knot_event := KnotEvent flags 5 10 20.
Definition example_event_state : event_state list := EventState (Some []) None true.

Lemma event_check_value_spec_witness :
  event_check_value (KP := example_knot) example_event_state (example_event 4) 21 0 1
  = c_int (event_spec (KP := example_knot) (example_event 4) 21 0 1) /\
  event_spec (KP := example_knot) (example_event 4) 21 0 1 = true.
Proof.
  split; [|done].
  apply (event_check_value_spec (KL := example_knot_laws)); [done|]. cbn. left.
Defined.

Lemma event_check_value_unordered_witness :
  event_check_value (KP := example_knot) example_event_state (example_event 8) 15 15 5 = 1.
Proof.
  apply (event_check_value_unordered (KL := example_knot_laws) example_event_state
           (example_event 8) 15 15 5); [done|]. cbn. right. left.
Defined.

Definition example_items : list (Z * knot_event) :=
  [(1, example_event 1); (2, example_event 8); (3, example_event 9)].

Lemma event_items_timed_witness :
  wp (foreach (fun i => event_add_data_item (KP := example_knot) (E := quiet_env)
                          (LQ := list_queue) i.1 i.2) example_items)
    (fun _ st' o' => event_owns (LQueue0 := list_queue) ∅ st' o' /\
       os_log o' = [C_timeout_create 5 (on_sensor_to_cb 3 5);
                    C_timeout_create 5 (on_sensor_to_cb 1 5)])
    example_event_state (os_init ∅).
Proof.
  apply (event_items_timed (KP := example_knot) (LQL := list_queue_laws)).
  split; [apply os_init_wf|]. by exists [].
Defined.

Lemma event_session_timers_witness :
  wp (let! rc := event_start (E := quiet_env) (LQ := list_queue) on_event_timeout_cb in
      if rc <? 0 then ret rc
      else
        foreach (fun i => event_add_data_item (KP := example_knot) (E := quiet_env)
                            (LQ := list_queue) i.1 i.2) example_items ;;
        event_stop (E := quiet_env) (LQ := list_queue) ;; ret rc)
    (fun rc st' o' => os_wf o' /\ os_timers o' = os_timers (os_init ∅) /\
       sensor_timeouts st' = None /\ (rc = 0 -> active st' = false))
    event_init (os_init ∅).
Proof.
  apply (event_session_timers (KP := example_knot) (LQL := list_queue_laws)). apply os_init_wf.
Defined.
