(* ===== verification/Poll.v ===== *)
(** * The timers that poll the data items (src/poll.c) *)

From S2P Require Import Prelude Knot Ext Ell.

Section Poll.
Context `{E : Env} {Q : Type -> Type} `{LQ : !LQueue Q}.

Record poll_data := PollData { pd_id : Z; pd_interval : Z; pd_read_cb : poll_read_cb }.

Record poll_entry := PollEntry { pe_data : poll_data; pe_to : Z }.

Record poll_state := PollState {
  poll_entries : option (Q poll_entry);   (* NULL or the queue *)
  poll_active : bool
}.

Definition poll_init : poll_state := PollState None false.

(** [on_poll_timeout]; [call_cb] calls the function the timer was created with, on the state of
    the whole program. *)
Definition on_poll_timeout {W} (l : lens W poll_state) (call_cb : poll_read_cb -> Z -> M W Z)
    (to : Z) (data : poll_data) : M W () :=
  let! st := zoom l get in
  when (poll_active st)
    (let! rc := call_cb (pd_read_cb data) (pd_id data) in
     l_timeout_modify to (pd_interval data)).

Definition entry_destroy {S} (entry : poll_entry) : M S () := l_timeout_remove (pe_to entry).

Definition poll_timer_start {S} (entry : poll_entry) : M S () :=
  l_timeout_modify (pe_to entry) (pd_interval (pe_data entry)).

(** The elements [l_queue_foreach] visits; none when the queue is NULL. *)
Definition entries (st : poll_state) : list poll_entry :=
  match poll_entries st with Some q => l_queue_elems q | None => [] end.

Definition poll_start : M poll_state () :=
  modify (fun st => PollState (poll_entries st) true) ;;
  let! st := get in
  foreach poll_timer_start (entries st).

Definition poll_stop : M poll_state () :=
  modify (fun st => PollState (poll_entries st) false).

Definition poll_create (interval id : Z) (read_cb : poll_read_cb) : M poll_state Z :=
  let data := PollData id interval read_cb in
  let! to := l_timeout_create 0 (on_poll_timeout_cb id interval read_cb) in
  if to =? 0 then ret (- ENOMSG)
  else
    modify (fun st =>
      let q := default l_queue_new (poll_entries st) in
      PollState (Some (l_queue_push_head q (PollEntry data to))) (poll_active st)) ;;
    ret 0.

Definition poll_destroy : M poll_state () :=
  let! st := get in
  match poll_entries st with
  | Some q =>
      foreach entry_destroy (l_queue_elems q) ;;
      modify (fun st => PollState None (poll_active st))
  | None => ret tt
  end.
End Poll.

Arguments poll_state Q : clear implicits.

(** ** The timers of the entries *)

Section Timers.
Context `{E : Env} {Q : Type -> Type} `{LQL : LQueueLaws Q} (P : Prop).
Implicit Types (st : poll_state Q).

(** The live timers are those of [base] and the ones of the entries, each carrying the data of
    its entry. *)
Definition poll_owns (base : gmap Z timer_cb) st (o : os) : Prop :=
  os_wf o /\ removed (pe_to <$> entries st) (os_timers o) = base /\
  forall e, e ∈ entries st ->
    os_timers o !! pe_to e =
      Some (on_poll_timeout_cb (pd_id (pe_data e)) (pd_interval (pe_data e))
              (pd_read_cb (pe_data e))).

Lemma entries_push st e :
  entries (PollState (Some (l_queue_push_head (default l_queue_new (poll_entries st)) e))
             (poll_active st)) = e :: entries st.
Proof.
  unfold entries. cbn. rewrite elems_push_head.
  destruct (poll_entries st); cbn; [done|]. by rewrite elems_new.
Qed.

Lemma poll_create_owns base interval id cb st o :
  poll_owns base st o ->
  post P (poll_create interval id cb)
    (fun rc st' o' => poll_owns base st' o' /\ poll_active st' = poll_active st /\
       ((rc = 0 /\ exists to, entries st' = PollEntry (PollData id interval cb) to :: entries st) \/
        (rc = - ENOMSG /\ st' = st))) st o.
Proof.
  intros (Hw & Hr & He). unfold poll_create. apply post_bind. apply post_new_timer; [done|..].
  all: intros a Ha Hrc; intros; post_step.
  - post_step. split; [by split|]. split; [done|]. by right.
  - done.
  - lia.
  - post_steps. split; [|split; [done|left; split; [done|]; eexists; apply entries_push]].
    split; [auto with vthing|]. rewrite entries_push. cbn. split.
    + unfold removed in *. cbn. rewrite <- Hr. fold (removed (pe_to <$> entries st)
        (<[os_next o:=on_poll_timeout_cb id interval cb]> (os_timers o))).
      fold (removed (pe_to <$> entries st) (os_timers o)).
      pose proof (removed_insert (os_next o) (on_poll_timeout_cb id interval cb)
        (pe_to <$> entries st) (os_timers o) (os_wf_fresh o Hw)) as Hi. exact Hi.
    + intros e [->|Hin]%elem_of_cons; cbn; [apply lookup_insert_eq|].
      rewrite lookup_insert_ne; [by apply He|]. intros Heq.
      pose proof (He e Hin) as Hl. rewrite <- Heq, os_wf_fresh in Hl by done. done.
Qed.

Definition timer_start_call (e : poll_entry) : call :=
  C_timeout_modify (pe_to e) (pd_interval (pe_data e)).

Lemma poll_timers_start {S} l (s : S) o :
  post P (foreach poll_timer_start l)
    (fun _ s' o' => s' = s /\ os_same o o' /\
       os_log o' = rev (timer_start_call <$> l) ++ os_log o) s o.
Proof.
  revert o. induction l as [|e l IH]; intros o; cbn [foreach]; [done|].
  unfold poll_timer_start at 1, l_timeout_modify. do 2 post_step.
  eapply post_mono; [apply IH|]. intros [] s' o' (-> & Hs & Hl). split; [done|].
  split; [by destruct Hs|]. rewrite Hl. cbn. by rewrite <- app_assoc.
Qed.

Lemma poll_destroy_owns base st o :
  poll_owns base st o ->
  post P poll_destroy
    (fun _ st' o' => os_wf o' /\ os_timers o' = base /\ poll_entries st' = None /\
       poll_active st' = poll_active st) st o.
Proof.
  intros (Hw & Hr & _). unfold poll_destroy. unfold entries in Hr. post_step. post_step.
  destruct (poll_entries st) as [q|] eqn:Hq; post_step; [|by rewrite <- Hr].
  eapply (post_remove_all _ _ pe_to); [done|done|]. intros o' Hw' Ht' _ _. post_step.
  by rewrite Ht', Hr.
Qed.
End Timers.

(** ** Properties *)

Section Properties.
Context `{E : Env} {Q : Type -> Type} `{LQL : LQueueLaws Q}.
Implicit Types (st : poll_state Q).

(** A new entry has a live timer of its own and is the first of the queue; when no timer can be
    had the error is reported and nothing is added. *)
Theorem poll_create_spec base interval id cb st o :
  poll_owns base st o ->
  wp (poll_create interval id cb)
    (fun rc st' o' => poll_owns base st' o' /\
       ((rc = 0 /\ exists to, entries st' = PollEntry (PollData id interval cb) to :: entries st) \/
        (rc = - ENOMSG /\ st' = st))) st o.
Proof.
  intros Ho. eapply post_mono; [by apply poll_create_owns|]. by intros rc st' o' (? & _ & ?).
Qed.

(** Starting the polling arms the timer of every entry with the interval of the entry. *)
Theorem poll_start_arms st o :
  wp poll_start (fun _ st' o' => st' = PollState (poll_entries st) true /\ os_same o o' /\
       os_log o' = rev (timer_start_call <$> entries st) ++ os_log o) st o.
Proof.
  unfold poll_start. do 4 post_step.
  eapply post_mono; [by apply poll_timers_start|]. by intros [] st' o' (-> & ? & ?).
Qed.

(** A timer that expires reads its item and is armed again; while the polling is stopped it does
    neither. *)
Theorem on_poll_timeout_spec {W} (l : lens W (poll_state Q)) call_cb to data w o :
  on_poll_timeout l call_cb to data w o =
    if poll_active (lens_get l w) then
      (call_cb (pd_read_cb data) (pd_id data) ;;
       l_timeout_modify to (pd_interval data)) (lens_set l (lens_get l w) w) o
    else Some (tt, lens_set l (lens_get l w) w, o).
Proof.
  unfold on_poll_timeout, zoom, bind at 1, get. by destruct (poll_active (lens_get l w)).
Qed.

(** A session of the polling: the entries of the items created, then destroyed. After it the
    live timers are those of before. *)
Theorem poll_session_timers items st o :
  os_wf o -> poll_entries st = None ->
  wp (foreach (fun i => poll_create i.1.1 i.1.2 i.2 ;; ret tt) items ;; poll_destroy)
    (fun _ st' o' => os_wf o' /\ os_timers o' = os_timers o /\ poll_entries st' = None) st o.
Proof.
  intros Hw Hst. apply post_bind. eapply post_mono.
  - apply (post_foreach _ _ _ (fun st' o' => poll_owns (os_timers o) st' o')).
    { split; [done|]. unfold entries. rewrite Hst. split; [done|]. by intros ? ?%elem_of_nil. }
    intros i st' o' _ Ho. apply post_bind. eapply post_mono; [by apply poll_create_owns|].
    by intros rc st2 o2 (? & _).
  - intros [] st' o' Ho. eapply post_mono; [by apply poll_destroy_owns|].
    by intros [] st2 o2 (? & ? & ? & _).
Qed.
End Properties.

(** ** Witnesses *)

Lemma poll_create_spec_witness :
  wp (poll_create (E := quiet_env) (LQ := list_queue) 1 7 on_modbus_poll_receive_cb)
    (fun rc st' o' => poll_owns (LQueue0 := list_queue) ∅ st' o' /\
       ((rc = 0 /\ exists to, entries (LQ := list_queue) st'
                    = [PollEntry (PollData 7 1 on_modbus_poll_receive_cb) to]) \/
        (rc = - ENOMSG /\ st' = poll_init)))
    poll_init (os_init ∅).
Proof.
  apply (poll_create_spec (LQL := list_queue_laws)).
  split; [apply os_init_wf|]. split; [done|]. by intros ? ?%elem_of_nil.
Defined.

Lemma poll_session_timers_witness :
  wp (foreach (fun i => poll_create (E := quiet_env) (LQ := list_queue) i.1.1 i.1.2 i.2 ;; ret tt)
        [(1, 7, on_modbus_poll_receive_cb); (1, 8, on_modbus_poll_receive_cb)] ;;
      poll_destroy (E := quiet_env) (LQ := list_queue))
    (fun _ st' o' => os_wf o' /\ os_timers o' = os_timers (os_init ∅) /\
       poll_entries st' = None) poll_init (os_init ∅).
Proof. by apply (poll_session_timers (LQL := list_queue_laws)); [apply os_init_wf|]. Defined.
