(* ===== verification/Modbus.v ===== *)
(** * The Modbus interface (src/iface-modbus.c)

    The creation of the libmodbus context from the URL of the device file, the connection and
    its retries, and the reading of a data item. libmodbus and the I/O watch of ell are calls;
    [l_io_destroy] is taken not to run callbacks. *)

From S2P Require Import Prelude Scan Knot Ext Endian.

Definition TCP_PREFIX : string := "tcp://".
Definition RTU_PREFIX : string := "serial://".
Definition RECONNECT_TIMEOUT : Z := 5.

Definition TYPE_BOOL : Z := 1.
Definition TYPE_BYTE : Z := 8.
Definition TYPE_U16 : Z := 16.
Definition TYPE_U32 : Z := 32.
Definition TYPE_U64 : Z := 64.

(** The functions [iface_modbus_start] is handed by device.c. *)
Inductive modbus_connected_cb_t := on_modbus_connected_cb.
Inductive modbus_disconnected_cb_t := on_modbus_disconnected_cb.

(** ** State: the static variables, 0 for a NULL pointer *)

Record modbus_state := ModbusState {
  connect_to : Z;
  modbus_io : Z;
  modbus_ctx : Z;
  conn_cb : option modbus_connected_cb_t;
  disconn_cb : option modbus_disconnected_cb_t
}.

Definition modbus_init : modbus_state := ModbusState 0 0 0 None None.

Definition set_connect_to (p : Z) (s : modbus_state) : modbus_state :=
  ModbusState p (modbus_io s) (modbus_ctx s) (conn_cb s) (disconn_cb s).
Definition set_modbus_io (p : Z) (s : modbus_state) : modbus_state :=
  ModbusState (connect_to s) p (modbus_ctx s) (conn_cb s) (disconn_cb s).
Definition set_modbus_ctx (p : Z) (s : modbus_state) : modbus_state :=
  ModbusState (connect_to s) (modbus_io s) p (conn_cb s) (disconn_cb s).
Definition set_modbus_cbs (c : modbus_connected_cb_t) (d : modbus_disconnected_cb_t)
    (s : modbus_state) : modbus_state :=
  ModbusState (connect_to s) (modbus_io s) (modbus_ctx s) (Some c) (Some d).

(** ** The context *)

(** The format ["%255[^:]:%d , %c , %d , %d"]; the address has all five fields or none. *)
Record rtu_address := RtuAddress {
  rtu_port : string; rtu_baud_rate : Z; rtu_parity : ascii; rtu_data_bit : Z; rtu_stop_bit : Z
}.

Definition scan_comma (l : list ascii) : option (list ascii) :=
  scan_lit "," (skip_ws l) ≫= (fun l => Some (skip_ws l)).

Definition scan_rtu (l : list ascii) : option rtu_address :=
  '(port, l) ← scan_until ":" 255 l;
  l ← scan_lit ":" l;
  '(baud_rate, l) ← scan_int l;
  l ← scan_comma l;
  '(parity, l) ← scan_char l;
  l ← scan_comma l;
  '(data_bit, l) ← scan_int l;
  l ← scan_comma l;
  '(stop_bit, l) ← scan_int l;
  Some (RtuAddress (String.string_of_list_ascii port) baud_rate parity data_bit stop_bit).

(** The format ["%127[^:]:%7s"]. *)
Definition scan_tcp (l : list ascii) : option (string * string) :=
  '(hostname, l) ← scan_until ":" 127 l;
  l ← scan_lit ":" l;
  '(port, l) ← scan_word 7 l;
  Some (String.string_of_list_ascii hostname, String.string_of_list_ascii port).

(** [&url[n]] *)
Definition url_from (n : nat) (url : string) : string :=
  String.string_of_list_ascii (drop n (chars url)).

Section Modbus.
Context `{E : Env}.

Definition create_rtu {S} (url : string) : M S Z :=
  match scan_rtu (chars (url_from 8 url)) with
  | None => ret 0
  | Some a =>
      let! fd := c_open_rdwr (url_from 8 url) in
      if fd <? 0 then ret 0
      else
        let! rc := ext_rc (C_ioctl_get_rs485 fd) in
        let rs485 := negb (rc <? 0) in
        let! rc := c_close fd in
        let! ctx := ext_alloc (C_modbus_new_rtu (rtu_port a) (rtu_baud_rate a) (rtu_parity a)
                                 (rtu_data_bit a) (rtu_stop_bit a)) in
        if ctx =? 0 then ret 0
        else
          ext_ (C_modbus_rtu_set_serial_mode ctx rs485) ;;
          ext_ (C_modbus_rtu_set_rts_none ctx) ;;
          ret ctx
  end.

Definition create_tcp {S} (url : string) : M S Z :=
  match scan_tcp (chars (url_from 6 url)) with
  | None => ret 0
  | Some (hostname, port) => ext_alloc (C_modbus_new_tcp_pi hostname port)
  end.

Definition create_ctx {S} (url : string) : M S Z :=
  if has_prefix TCP_PREFIX url then create_tcp url
  else if has_prefix RTU_PREFIX url then create_rtu url
  else set_errno (- EINVAL) ;; ret 0.

(** ** The connection *)

Definition on_disconnected {W} (l : lens W modbus_state)
    (call_disconn : modbus_disconnected_cb_t -> M W ()) : M W () :=
  let! s := zoom l get in
  match disconn_cb s with Some cb => call_disconn cb | None => ret tt end ;;
  let! s := zoom l get in
  when (negb (connect_to s =? 0)) (l_timeout_modify (connect_to s) RECONNECT_TIMEOUT).

Section Connect.
Context {W : Type} (l : lens W modbus_state) (call_conn : modbus_connected_cb_t -> M W ()).

(** The labels of [attempt_connect], each falling through to the next. *)
Definition retry (to : Z) : M W () := l_timeout_modify to RECONNECT_TIMEOUT.

Definition connection_close (to : Z) : M W () :=
  let! s := zoom l get in
  ext_ (C_modbus_close (modbus_ctx s)) ;;
  retry to.

Definition io_destroy (to : Z) : M W () :=
  let! s := zoom l get in
  ext_ (C_io_destroy (modbus_io s)) ;;
  zoom l (modify (set_modbus_io 0)) ;;
  connection_close to.

Definition attempt_connect (to : Z) : M W () :=
  let! s := zoom l get in
  let! sock := ext_rc (C_modbus_get_socket (modbus_ctx s)) in
  when (negb (sock =? -1)) (ext_ (C_modbus_close (modbus_ctx s))) ;;
  when (negb (modbus_io s =? 0))
    (ext_ (C_io_destroy (modbus_io s)) ;;
     zoom l (modify (set_modbus_io 0))) ;;
  let! rc := ext_rc (C_modbus_connect (modbus_ctx s)) in
  if rc <? 0 then retry to
  else
    let! sock := ext_rc (C_modbus_get_socket (modbus_ctx s)) in
    let! io := ext_alloc (C_io_new sock) in
    zoom l (modify (set_modbus_io io)) ;;
    if io =? 0 then connection_close to
    else
      let! ok := ext_rc (C_io_set_disconnect_handler io) in
      if negb (c_true ok) then io_destroy to
      else match conn_cb s with Some cb => call_conn cb | None => ret tt end.
End Connect.

(** ** Reading *)

(** What a read leaves at the start of a buffer of zeros. *)
Definition data_at (a : answer) (i : nat) : Z := default 0 (a_data a !! i).
Definition byte_at (a : answer) (i : nat) : Z := u8 (data_at a i).
Definition reg_at (a : answer) (i : nat) : Z := u16 (data_at a i).

(** [for (i = 0; i < sizeof(byte_tmp); i++) tmp.val_byte |= byte_tmp[i] << i;] *)
Definition pack_bits (byte_tmp : list Z) : Z :=
  foldl (fun val_byte '(i, b) => u8 (Z.lor val_byte (Z.shiftl b i)))
    0 (imap (fun i b => (Z.of_nat i, b)) byte_tmp).

(** The result and the value at [out]; [tmp] is the union, its eight bytes a number. *)
Definition iface_modbus_read_data (reg_addr bit_offset : Z) (out : knot_value_type)
    (endianness_type : Z) : M modbus_state (Z * knot_value_type) :=
  let! s := get in
  let ctx := modbus_ctx s in
  let! '(rc, tmp) :=
    if bit_offset =? TYPE_BOOL then
      let! a := ext (C_modbus_read_input_bits ctx reg_addr 1) in
      ret (a_rc a, byte_at a 0)
    else if bit_offset =? TYPE_BYTE then
      let! a := ext (C_modbus_read_input_bits ctx reg_addr 8) in
      ret (a_rc a, pack_bits (map (byte_at a) (seq 0 8)))
    else if bit_offset =? TYPE_U16 then
      let! a := ext (C_modbus_read_registers ctx reg_addr 1) in
      ret (a_rc a, reg_at a 0)
    else if bit_offset =? TYPE_U32 then
      let! a := ext (C_modbus_read_registers ctx reg_addr 2) in
      ret (a_rc a, iface_modbus_config_endianness_type_recv_32_bits
                     (host_word (map (reg_at a) (seq 0 2))) endianness_type)
    else if bit_offset =? TYPE_U64 then
      let! a := ext (C_modbus_read_registers ctx reg_addr 4) in
      ret (a_rc a, iface_modbus_config_endianness_type_recv_64_bits
                     (host_word (map (reg_at a) (seq 0 4))) endianness_type)
    else ret (- EINVAL, 0) in
  if rc <? 0 then
    let! e := errno in
    ret (- e, out)
  else ret (rc, set_low 64 out tmp).

(** ** Start and stop *)

Definition iface_modbus_start (url : string) (slave_id : Z)
    (connected_cb : modbus_connected_cb_t) (disconnected_cb : modbus_disconnected_cb_t)
    : M modbus_state Z :=
  let! ctx := create_ctx url in
  modify (set_modbus_ctx ctx) ;;
  if ctx =? 0 then let! e := errno in ret (- e)
  else
    let! rc := ext_rc (C_modbus_set_slave ctx slave_id) in
    if rc <? 0 then let! e := errno in ret (- e)
    else
      modify (set_modbus_cbs connected_cb disconnected_cb) ;;
      let! to := l_timeout_create_ms 1 attempt_connect_cb in
      modify (set_connect_to to) ;;
      ret 0.

Definition iface_modbus_stop : M modbus_state () :=
  let! s := get in
  l_timeout_remove (connect_to s) ;;
  modify (set_connect_to 0) ;;
  ext_ (C_io_destroy (modbus_io s)) ;;
  modify (set_modbus_io 0) ;;
  ext_ (C_modbus_close (modbus_ctx s)) ;;
  ext_ (C_modbus_free (modbus_ctx s)).
End Modbus.

(** ** Specification *)

(** The value a successful read of an item has: a bit, eight bits with the first coil lowest,
    a register, or the bytes of two or four registers in the configured order. *)
Definition read_value (bit_offset endianness_type : Z) (a : answer) : option Z :=
  if decide (bit_offset = TYPE_BOOL) then Some (byte_at a 0)
  else if decide (bit_offset = TYPE_BYTE) then Some (le_word 1 (map (byte_at a) (seq 0 8)))
  else if decide (bit_offset = TYPE_U16) then Some (reg_at a 0)
  else if decide (bit_offset = TYPE_U32) then
    Some (wire_value endianness_type (wire_bytes (map (reg_at a) (seq 0 2))))
  else if decide (bit_offset = TYPE_U64) then
    Some (wire_value endianness_type (wire_bytes (map (reg_at a) (seq 0 4))))
  else None.

(** The call that reads an item. *)
Definition read_call (ctx reg_addr bit_offset : Z) : call :=
  if bit_offset <=? TYPE_BYTE then C_modbus_read_input_bits ctx reg_addr bit_offset
  else C_modbus_read_registers ctx reg_addr (bit_offset / 16).

(** [modbus_read_input_bits] stores each bit as 0 or 1. *)
Definition bits_answer (a : answer) : Prop := Forall (fun b => b = 0 \/ b = 1) (a_data a).

(** The answer to the next call. *)
Definition answer_to `{Env} (c : call) (o : os) : answer := env_answer (c :: os_log o).

(** The last calls made and watched a connection: libmodbus connected, the socket became an IO of
    the event loop, and the event loop took the handler of its disconnection. *)
Definition watched `{Env} (ctx io : Z) (o : os) : Prop := exists sock log,
  os_log o = [C_io_set_disconnect_handler io; C_io_new sock; C_modbus_get_socket ctx;
              C_modbus_connect ctx] ++ log /\
  0 <= a_rc (env_answer (C_modbus_connect ctx :: log)) /\
  sock = a_rc (env_answer (C_modbus_get_socket ctx :: C_modbus_connect ctx :: log)) /\
  a_rc (env_answer (os_log o)) <> 0.

(** ** Lemmas *)

Lemma pack_bits_word (b0 b1 b2 b3 b4 b5 b6 b7 : bool) :
  let l := map c_int [b0; b1; b2; b3; b4; b5; b6; b7] in pack_bits l = le_word 1 l.
Proof. by destruct b0, b1, b2, b3, b4, b5, b6, b7. Qed.

Lemma byte_at_bit a i : bits_answer a -> exists b, byte_at a i = c_int b.
Proof.
  intros Ha. unfold byte_at, data_at. destruct (a_data a !! i) as [z|] eqn:E; cbn.
  - apply (Forall_lookup_1 _ _ _ _ Ha) in E as [-> | ->]; [by exists false|by exists true].
  - by exists false.
Qed.

Lemma pack_bits_answer a :
  bits_answer a -> pack_bits (map (byte_at a) (seq 0 8)) = le_word 1 (map (byte_at a) (seq 0 8)).
Proof.
  intros Ha. cbn [seq map].
  destruct (byte_at_bit a 0 Ha) as [b0 ->], (byte_at_bit a 1 Ha) as [b1 ->],
    (byte_at_bit a 2 Ha) as [b2 ->], (byte_at_bit a 3 Ha) as [b3 ->],
    (byte_at_bit a 4 Ha) as [b4 ->], (byte_at_bit a 5 Ha) as [b5 ->],
    (byte_at_bit a 6 Ha) as [b6 ->], (byte_at_bit a 7 Ha) as [b7 ->].
  apply pack_bits_word.
Qed.

Lemma reg_at_ok a i : reg_ok (reg_at a i).
Proof. apply wrap_range. lia. Qed.

#[export] Hint Resolve reg_at_ok : vthing.

(** An address that parses is longer than the port it starts with. *)
Lemma scan_rtu_port l a :
  scan_rtu l = Some a -> exists r, l = chars (rtu_port a) ++ ":"%char :: r.
Proof.
  unfold scan_rtu. destruct (scan_until ":" 255 l) as [[port l1]|] eqn:E1; [|done]. cbn.
  unfold scan_lit at 1. destruct l1 as [|c l1]; [done|].
  destruct (Ascii.eqb_spec ":" c) as [<-|]; [|done]. cbn. intros H.
  apply scan_span_split in E1. exists l1. rewrite E1. f_equal.
  repeat match type of H with
  | (?x ≫= _) = Some _ => destruct x as [[]|]; [cbn in H|done]
  | (?x ≫= _) = Some _ => destruct x as [?|]; [cbn in H|done]
  end.
  injection H as <-. cbn. by rewrite chars_of_chars.
Qed.

Lemma not_refused rc : negb (c_true rc) = false -> rc <> 0.
Proof. by intros H ->. Qed.

(** ** Properties *)

Section Properties.
Context `{E : Env}.

Lemma reg_read_value_32 e a :
  iface_modbus_config_endianness_type_recv_32_bits (host_word (map (reg_at a) (seq 0 2))) e
  = wire_value e (wire_bytes (map (reg_at a) (seq 0 2))).
Proof. apply recv_32_bits_wire; auto with vthing. Qed.

Lemma reg_read_value_64 e a :
  iface_modbus_config_endianness_type_recv_64_bits (host_word (map (reg_at a) (seq 0 4))) e
  = wire_value e (wire_bytes (map (reg_at a) (seq 0 4))).
Proof. apply recv_64_bits_wire; auto with vthing. Qed.

(** Making the context touches no timer. *)
Lemma create_ctx_timers {S} P url (s : S) o :
  os_wf o ->
  post P (create_ctx url) (fun _ s' o' => s' = s /\ os_wf o' /\ os_timers o' = os_timers o) s o.
Proof.
  intros [Hn Ht]. unfold create_ctx, create_rtu, create_tcp, c_open_rdwr, open_fd, c_close, ext_alloc.
  post_steps; (split; [done|]; split; [split; cbn; [lia|]|done]).
  all: intros to Hto; specialize (Ht to Hto); lia.
Qed.

(** C12: A read of an item is one request of libmodbus. When it succeeds the low eight bytes of the
    item's value are the value of the answer, else the result is the negated [errno] and the
    value is what it was. *)
Theorem iface_modbus_read_data_spec reg_addr bit_offset out e s o v :
  let c := read_call (modbus_ctx s) reg_addr bit_offset in
  let a := env_answer (c :: os_log o) in
  read_value bit_offset e a = Some v -> bits_answer a \/ bit_offset <> TYPE_BYTE ->
  iface_modbus_read_data reg_addr bit_offset out e s o =
    Some (if a_rc a <? 0 then (- a_errno a, out) else (a_rc a, set_low 64 out v), s,
          logged c a o).
Proof.
  cbn zeta. unfold read_value, read_call, iface_modbus_read_data, bind, get, ext, ret, errno, bind,
    get_os, TYPE_BOOL, TYPE_BYTE, TYPE_U16, TYPE_U32, TYPE_U64, logged.
  intros Hv Hb.
  repeat case_decide; [subst bit_offset; injection Hv as <-..|discriminate Hv]; cbn -[seq map set_low].
  - by destruct (a_rc _ <? 0).
  - rewrite pack_bits_answer by (destruct Hb; done). by destruct (a_rc _ <? 0).
  - by destruct (a_rc _ <? 0).
  - rewrite reg_read_value_32. by destruct (a_rc _ <? 0).
  - rewrite reg_read_value_64. by destruct (a_rc _ <? 0).
Qed.

(** C35: A size that is not one of a Modbus type is an error before any request is made, and the
    result is the negated [errno] of an earlier call. *)
Theorem iface_modbus_read_data_size reg_addr bit_offset out e s o :
  bit_offset ∉ [TYPE_BOOL; TYPE_BYTE; TYPE_U16; TYPE_U32; TYPE_U64] ->
  iface_modbus_read_data reg_addr bit_offset out e s o = Some ((- os_errno o, out), s, o).
Proof.
  rewrite !not_elem_of_cons. intros (H1 & H2 & H3 & H4 & H5 & _).
  unfold iface_modbus_read_data, bind, get, ret, errno, bind, get_os.
  by rewrite !(proj2 (Z.eqb_neq _ _)) by done.
Qed.

(** C14: An attempt to connect either ends in the callback of the daemon, with the connection up and
    watched, or leaves no watch and as its last call arms the timer of the next attempt; no answer
    of libmodbus or of the event loop leads anywhere else. *)
Theorem attempt_connect_retries {W} P (l : lens W modbus_state) (call_conn : _ -> M W ())
    (R : W -> os -> Prop) to w o :
  LensLaws l -> os_wf o -> conn_cb (lens_get l w) = Some on_modbus_connected_cb ->
  (forall w1 o1, modbus_io (lens_get l w1) <> 0 ->
     watched (modbus_ctx (lens_get l w)) (modbus_io (lens_get l w1)) o1 ->
     post P (call_conn on_modbus_connected_cb) (fun _ => R) w1 o1) ->
  post P (attempt_connect l call_conn to)
    (fun _ w' o' => R w' o' \/
       (modbus_io (lens_get l w') = 0 /\
        exists log, os_log o' = C_timeout_modify to RECONNECT_TIMEOUT :: log)) w o.
Proof.
  intros Hl [Hw _] Hcb HR. unfold attempt_connect, io_destroy, connection_close, retry,
    l_timeout_modify, ext_alloc.
  repeat (post_step; rewrite ?lens_get_set, ?lens_set_set in * ).
  all: cbn in *; rewrite ?lens_get_set, ?lens_set_set in *; cbn in *; simplify_eq.
  all: first
    [ eapply post_mono; [apply HR; rewrite lens_get_set; cbn; [lia|]; do 2 eexists;
       split; [reflexivity|]; cbn; split_and!; [lia|congruence|]; by apply not_refused|by left]
    | right; rewrite ?lens_get_set; split; [cbn; first [done|lia]|eexists; reflexivity]
    | congruence | lia ].
Qed.
(** C33: A TCP URL is read back as the host and the port it was made of, as long as they fit the
    buffers and the host has no colon. *)
Theorem create_tcp_url {S} host port (s : S) o :
  host <> EmptyString -> (String.length host <= 127)%nat ->
  Forall (fun c => c <> ":"%char) (chars host) ->
  port <> EmptyString -> (String.length port <= 7)%nat ->
  Forall (fun c => is_space c = false) (chars port) ->
  create_ctx (TCP_PREFIX +:+ host +:+ String ":" port)%string s o =
    ext_alloc (C_modbus_new_tcp_pi host port) s o.
Proof.
  intros Hh Hhl Hhc Hp Hpl Hps. unfold create_ctx.
  assert (has_prefix TCP_PREFIX (TCP_PREFIX +:+ host +:+ String ":" port)%string = true) as ->
    by (cbn; by destruct (host +:+ _)%string).
  unfold create_tcp, url_from. rewrite chars_app, drop_app_length' by done.
  rewrite chars_of_chars, chars_app. unfold scan_tcp, scan_until.
  rewrite scan_span_app; cbn; cycle 1.
  - by destruct host.
  - eapply Forall_impl; [exact Hhc|]. intros c Hc. cbn.
    apply negb_true_iff. by apply Ascii.eqb_neq.
  - by rewrite length_chars.
  - by left.
  - fold (chars port). unfold scan_word. rewrite skip_ws_none by (inversion Hps; done).
    rewrite <- (app_nil_r (chars port)), scan_span_app; cbn; [..|by left].
    + by rewrite !string_of_chars.
    + by destruct port.
    + eapply Forall_impl; [exact Hps|]. cbn. by intros c ->.
    + by rewrite length_chars.
Qed.

(** C34: For a serial URL the file opened is not the port but all of the address, the port followed
    by a colon and the parameters of the line. *)
Theorem create_rtu_opens_address {S} url a (s : S) o :
  scan_rtu (chars (url_from 8 url)) = Some a ->
  wlp (create_rtu url)
    (fun _ _ o' => exists rest,
       C_open_rdwr (rtu_port a +:+ String ":" rest)%string :: os_log o `suffix_of` os_log o') s o.
Proof.
  intros Ha. unfold create_rtu. rewrite Ha.
  assert (exists r, url_from 8 url = (rtu_port a +:+ String ":" r)%string) as [r Hr].
  { destruct (scan_rtu_port _ _ Ha) as [r Hr]. exists (String.string_of_list_ascii r).
    rewrite <- (string_of_chars (url_from 8 url)), Hr, string_of_chars_app.
    by rewrite string_of_chars. }
  unfold c_open_rdwr, open_fd, c_close, ext_alloc. rewrite Hr. post_steps; cbn.
  all: exists r; repeat first [reflexivity|apply suffix_cons_r].
Qed.

(** C32: The start of the interface, case by case. Without a context, or when the context does not
    take the slave id, the result is the negated [errno] and neither the callbacks nor a timer are
    set. Else, and only then, the result is 0 by success: the callbacks are set and the first
    attempt to connect is scheduled in a millisecond, on a timer that is live unless its creation
    failed. *)
Theorem iface_modbus_start_spec url slave_id s o :
  os_wf o ->
  wp (iface_modbus_start url slave_id on_modbus_connected_cb on_modbus_disconnected_cb)
    (fun rc s' o' => exists o1,
       let ctx := modbus_ctx s' in
       let slave := answer_to (C_modbus_set_slave ctx slave_id) o1 in
       create_ctx url s o = Some (ctx, s, o1) /\ os_timers o1 = os_timers o /\
       if decide (ctx = 0) then
         rc = - os_errno o1 /\ s' = set_modbus_ctx ctx s /\ o' = o1
       else if decide (a_rc slave < 0) then
         rc = - a_errno slave /\ s' = set_modbus_ctx ctx s /\
         o' = logged (C_modbus_set_slave ctx slave_id) slave o1
       else
         rc = 0 /\ conn_cb s' = Some on_modbus_connected_cb /\
         disconn_cb s' = Some on_modbus_disconnected_cb /\ modbus_io s' = modbus_io s /\
         os_log o' = C_timeout_create_ms 1 attempt_connect_cb
                       :: C_modbus_set_slave ctx slave_id :: os_log o1 /\
         (if decide (connect_to s' = 0)
          then a_rc (env_answer (os_log o')) < 0 /\ os_timers o' = os_timers o
          else os_timers o' = <[connect_to s' := attempt_connect_cb]> (os_timers o) /\
               os_timers o !! connect_to s' = None)) s o.
Proof.
  intros Hw. unfold iface_modbus_start. post_step.
  eapply post_mono; [apply post_run, create_ctx_timers; done|].
  intros ctx s1 o1 (Hctx & -> & Hw1 & Ht1). post_steps; [..|apply post_new_timer; [done|..]].
  - exists o1. cbn. split; [done|]. split; [done|]. by rewrite decide_True by lia.
  - exists o1. cbn. split; [done|]. split; [done|]. unfold answer_to.
    rewrite <- Ha, (decide_False (P := ctx = 0)), (decide_True (P := a_rc a < 0)) by lia. done.
  - intros a' Ha' Hrc. post_steps. exists o1. cbn. split; [done|]. split; [done|].
    unfold answer_to. rewrite <- Ha, (decide_False (P := ctx = 0)), (decide_False (P := a_rc a < 0)) by lia.
    cbn in Ha'. by rewrite <- Ha'.
  - intros a' Ha' Hrc Hn. post_steps. exists o1. cbn. split; [done|]. split; [done|].
    unfold answer_to. rewrite <- Ha, !decide_False by done || lia. rewrite <- Ht1. split_and!; try done.
    by apply os_wf_fresh.
Qed.

(** A URL of neither kind is reported as success to a caller that tests for a negative result:
    the negated [errno] is positive, and there is no context. *)
Theorem iface_modbus_start_bad_url url slave_id c d s o :
  has_prefix TCP_PREFIX url = false -> has_prefix RTU_PREFIX url = false ->
  iface_modbus_start url slave_id c d s o =
    Some (EINVAL, set_modbus_ctx 0 s, with_errno (- EINVAL) o).
Proof. intros H1 H2. unfold iface_modbus_start, create_ctx. by rewrite H1, H2. Qed.

(** Stopping the interface leaves no timer and no watch of its own, and frees the context. *)
Theorem iface_modbus_stop_spec s o :
  os_wf o ->
  wp iface_modbus_stop
    (fun _ s' o' => connect_to s' = 0 /\ modbus_io s' = 0 /\
       os_timers o' = removed [connect_to s] (os_timers o) /\
       os_log o' = [C_modbus_free (modbus_ctx s); C_modbus_close (modbus_ctx s);
                    C_io_destroy (modbus_io s); C_timeout_remove (connect_to s)] ++ os_log o) s o.
Proof. done. Qed.
End Properties.

(** ** Witnesses *)

(** A Modbus device whose registers hold 1, 2, 3 and so on. *)
Definition example_modbus : Env := fun log =>
  match log with
  | C_modbus_read_registers _ _ nb :: _ => Answer nb 0 (map Z.of_nat (seq 1 (Z.to_nat nb)))
  | _ => Answer 0 0 []
  end.

Lemma iface_modbus_read_data_spec_witness :
  iface_modbus_read_data (E := example_modbus) 100 32 0 1 modbus_init (os_init ∅)
  = Some ((2, 0x00010002), modbus_init,
          logged (C_modbus_read_registers 0 100 2) (Answer 2 0 [1; 2]) (os_init ∅)).
Proof.
  apply (iface_modbus_read_data_spec (E := example_modbus) 100 32 0 1 modbus_init (os_init ∅)
           0x00010002); [done|by right].
Defined.

Lemma iface_modbus_read_data_size_witness :
  iface_modbus_read_data (E := quiet_env) 100 24 5 1 modbus_init (os_init ∅)
  = Some ((- 0, 5), modbus_init, os_init ∅).
Proof.
  apply (iface_modbus_read_data_size (E := quiet_env)). by apply (bool_decide_unpack _); vm_compute.
Defined.

(** A slave that answers, the callback leaving the connection as it is. *)
Definition example_slave : Env := fun log =>
  match log with C_io_set_disconnect_handler _ :: _ => Answer 1 0 [] | _ => Answer 0 0 [] end.

Lemma attempt_connect_retries_witness :
  let connected s o := modbus_io s <> 0 /\ watched (H := example_slave) 1 (modbus_io s) o in
  match attempt_connect (E := example_slave) id_lens (fun _ => ret tt) 3
          (ModbusState 3 0 1 (Some on_modbus_connected_cb) None) (os_init ∅) with
  | Some (_, s, o) => connected s o
  | None => False
  end /\
  wp (attempt_connect (E := example_slave) id_lens (fun _ => ret tt) 3)
    (fun _ w' o' => connected w' o' \/
       (modbus_io (lens_get id_lens w') = 0 /\
        exists log, os_log o' = C_timeout_modify 3 RECONNECT_TIMEOUT :: log))
    (ModbusState 3 0 1 (Some on_modbus_connected_cb) None) (os_init ∅).
Proof.
  intros connected. split.
  { split; [done|]. do 2 eexists. split; [reflexivity|]. by split_and!. }
  apply (attempt_connect_retries (E := example_slave) False id_lens (fun _ => ret tt) connected);
    [apply id_lens_laws|apply os_init_wf|done|].
  intros w1 o1 H0 Hw. by split.
Defined.

Lemma create_tcp_url_witness :
  create_ctx (E := quiet_env) "tcp://localhost:502" tt (os_init ∅) =
    ext_alloc (E := quiet_env) (C_modbus_new_tcp_pi "localhost" "502") tt (os_init ∅).
Proof.
  apply (create_tcp_url (E := quiet_env) "localhost" "502"); try done; try (cbn; lia).
  all: by repeat constructor.
Defined.

Lemma create_rtu_opens_address_witness :
  wlp (create_rtu (E := quiet_env) "serial://dev/ttyUSB0:115200,N,8,1")
    (fun _ _ o' => exists rest,
       C_open_rdwr ("/dev/ttyUSB0" +:+ String ":" rest)%string :: os_log (os_init ∅)
         `suffix_of` os_log o') tt (os_init ∅).
Proof.
  apply (create_rtu_opens_address (E := quiet_env) "serial://dev/ttyUSB0:115200,N,8,1"
           (RtuAddress "/dev/ttyUSB0" 115200 "N" 8 1)).
  by vm_compute.
Defined.

(** The slave id is refused: the start fails and schedules nothing. *)
Definition refusing_slave : Env := fun log =>
  match log with C_modbus_set_slave _ _ :: _ => Answer (-1) 22 [] | _ => Answer 0 0 [] end.

Lemma iface_modbus_start_spec_witness :
  match iface_modbus_start (E := refusing_slave) "tcp://localhost:502" 300
          on_modbus_connected_cb on_modbus_disconnected_cb modbus_init (os_init ∅) with
  | Some (rc, s, o) => rc = -22 /\ conn_cb s = None /\ os_timers o = ∅
  | None => False
  end /\
  wp (iface_modbus_start (E := refusing_slave) "tcp://localhost:502" 300
        on_modbus_connected_cb on_modbus_disconnected_cb)
    (fun rc s' o' => rc = 0 -> conn_cb s' = Some on_modbus_connected_cb \/ modbus_ctx s' = 0)
    modbus_init (os_init ∅).
Proof.
  split; [by vm_compute|].
  eapply post_mono;
    [apply (iface_modbus_start_spec (E := refusing_slave) "tcp://localhost:502" 300), os_init_wf|].
  intros rc s' o' (o1 & _ & _ & H) Hrc. repeat case_decide; [by right| |by left; apply H..].
  destruct H as [-> _]. discriminate Hrc.
Defined.

Lemma iface_modbus_start_bad_url_witness :
  iface_modbus_start (E := quiet_env) "udp://localhost" 1
    on_modbus_connected_cb on_modbus_disconnected_cb modbus_init (os_init ∅)
  = Some (22, modbus_init, with_errno (-22) (os_init ∅)).
Proof. by apply (iface_modbus_start_bad_url (E := quiet_env)). Defined.

Lemma iface_modbus_stop_spec_witness :
  wp (iface_modbus_stop (E := quiet_env))
    (fun _ s' o' => connect_to s' = 0 /\ modbus_io s' = 0 /\
       os_timers o' = removed [1] (os_timers (os_init ∅)) /\
       os_log o' = [C_modbus_free 3; C_modbus_close 3; C_io_destroy 2; C_timeout_remove 1])
    (ModbusState 1 2 3 None None) (os_init ∅).
Proof.
  apply (iface_modbus_stop_spec (E := quiet_env) (ModbusState 1 2 3 None None)), os_init_wf.
Defined.
