(* ===== verification/Timers.v ===== *)
(** * Who owns a timer

    The program holds timers in four places: the message timeout of the thing, the queue of
    event.c, the entries of poll.c and the reconnection of iface-modbus.c. A timer is known by
    the callback it was created with; what a component does to its own timers keeps those of the
    others. The predicates [.._ok] say that the timers a component holds are live and that it
    holds every live timer of its role: none is leaked. *)

From S2P Require Import Prelude Knot Ext Ell Event Poll Modbus.

Inductive role := R_msg | R_event | R_poll | R_connect.

#[export] Instance role_eq_dec : EqDecision role.
Proof. solve_decision. Defined.

Definition role_of (cb : timer_cb) : role :=
  match cb with
  | on_msg_timeout_cb => R_msg
  | on_sensor_to_cb _ _ => R_event
  | on_poll_timeout_cb _ _ _ => R_poll
  | attempt_connect_cb => R_connect
  end.

(** The timers of a role are the same. *)
Definition same (r : role) (m m' : gmap Z timer_cb) : Prop :=
  forall to cb, role_of cb = r -> m !! to = Some cb <-> m' !! to = Some cb.

#[export] Instance same_equivalence r : Equivalence (same r).
Proof.
  split.
  - by intros m to cb.
  - intros m m' H to cb Hr. symmetry. by apply H.
  - intros m1 m2 m3 H1 H2 to cb Hr. rewrite (H1 to cb Hr). by apply H2.
Qed.

Lemma same_insert r m to cb : m !! to = None -> role_of cb <> r -> same r m (<[to := cb]> m).
Proof.
  intros Hn Hr k c Hc. rewrite lookup_insert. case_decide as Hk; [|done]. subst k.
  rewrite Hn. split; [done|]. by intros [= ->].
Qed.

Lemma same_delete r m to :
  (forall cb, m !! to = Some cb -> role_of cb <> r) -> same r m (delete to m).
Proof.
  intros Hd k c Hc. rewrite lookup_delete. case_decide as Hk; [|done]. subst k.
  split; [|done]. intros Hm. by destruct (Hd c Hm).
Qed.

Lemma removed_lookup l m to :
  removed l m !! to = if decide (to ∈ l) then None else m !! to.
Proof.
  induction l as [|x l IH]; [by rewrite decide_False by apply not_elem_of_nil|].
  rewrite removed_cons, removed_delete, lookup_delete, IH.
  destruct (decide (x = to)) as [->|Hx]; [by rewrite decide_True by left|].
  destruct (decide (to ∈ l)) as [Hl|Hl]; [by rewrite decide_True by by right|].
  rewrite decide_False; [done|]. intros [?|?]%elem_of_cons; congruence.
Qed.

Lemma same_removed r l m :
  (forall to cb, to ∈ l -> m !! to = Some cb -> role_of cb <> r) -> same r m (removed l m).
Proof.
  intros Hl k c Hc. rewrite removed_lookup. case_decide as Hk; [|done].
  split; [|done]. intros Hm. by destruct (Hl k c Hk Hm).
Qed.

Lemma no_timer_0 o cb : os_wf o -> os_timers o !! 0 <> Some cb.
Proof. intros [_ Hw] Hm. assert (0 < 0 < os_next o) by (apply Hw; eauto). lia. Qed.

(** The calls of a loop that hands nothing to the cloud. *)
Lemma published_map {A} (f : A -> call) l log :
  (forall a, is_publish (f a) = false) ->
  List.filter is_publish (rev (f <$> l) ++ log) = List.filter is_publish log.
Proof.
  intros Hf. rewrite List.filter_app. enough (List.filter is_publish (rev (f <$> l)) = []) as -> by done.
  induction l as [|a l IH]; [done|]. rewrite fmap_cons. cbn [rev].
  rewrite List.filter_app, IH. cbn. by rewrite Hf.
Qed.

(** ** The timers of each component *)

Section Roles.
Context `{KP : KnotProtocol} `{E : Env} {Q : Type -> Type} `{LQL : LQueueLaws Q} (P : Prop).
Implicit Types (m : gmap Z timer_cb).

Record msg_ok (to : Z) m : Prop := {
  msg_live : to <> 0 -> m !! to = Some on_msg_timeout_cb;
  msg_owned t : m !! t = Some on_msg_timeout_cb -> t = to
}.

Record connect_ok (s : modbus_state) m : Prop := {
  connect_live : connect_to s <> 0 -> m !! connect_to s = Some attempt_connect_cb;
  connect_owned to : m !! to = Some attempt_connect_cb -> to = connect_to s
}.

(** The handles in the queue of event.c. *)
Definition event_timers (s : event_state Q) : list Z :=
  match sensor_timeouts s with Some q => l_queue_elems q | None => [] end.

Record event_ok (s : event_state Q) m : Prop := {
  event_live to : to ∈ event_timers s -> to <> 0 -> exists i n, m !! to = Some (on_sensor_to_cb i n);
  event_owned to i n : m !! to = Some (on_sensor_to_cb i n) -> to ∈ event_timers s;
  event_registered to i n : m !! to = Some (on_sensor_to_cb i n) -> is_Some (timeout_cb s);
  event_idle : active s = false -> sensor_timeouts s = None
}.

Definition poll_timer (e : poll_entry) : timer_cb :=
  on_poll_timeout_cb (pd_id (pe_data e)) (pd_interval (pe_data e)) (pd_read_cb (pe_data e)).

Record poll_ok (s : poll_state Q) m : Prop := {
  poll_live e : e ∈ entries s -> m !! pe_to e = Some (poll_timer e);
  poll_owned to i n cb : m !! to = Some (on_poll_timeout_cb i n cb) -> to ∈ pe_to <$> entries s
}.

Lemma msg_ok_same to m m' : same R_msg m m' -> msg_ok to m -> msg_ok to m'.
Proof.
  intros Hs [Hl Ho]. split.
  - intros H0. apply Hs; [done|]. by apply Hl.
  - intros t Ht. by apply Ho, Hs.
Qed.

Lemma connect_ok_same s m m' : same R_connect m m' -> connect_ok s m -> connect_ok s m'.
Proof.
  intros Hs [Hl Ho]. split.
  - intros H0. apply Hs; [done|]. by apply Hl.
  - intros t Ht. by apply Ho, Hs.
Qed.

Lemma event_ok_same s m m' : same R_event m m' -> event_ok s m -> event_ok s m'.
Proof.
  intros Hs [Hl Ho Hr Hi]. split; [| | |done].
  - intros to Hin H0. destruct (Hl to Hin H0) as (i & n & Hto). exists i, n. by apply Hs.
  - intros to i n Hto. apply (Ho to i n). by apply Hs.
  - intros to i n Hto. apply (Hr to i n). by apply Hs.
Qed.

Lemma poll_ok_same s m m' : same R_poll m m' -> poll_ok s m -> poll_ok s m'.
Proof.
  intros Hs [Hl Ho]. split.
  - intros e He. apply Hs; [done|]. by apply Hl.
  - intros to i n cb Hto. apply (Ho to i n cb). by apply Hs.
Qed.

(** A new timer, and a removed one. *)

Lemma msg_ok_new o :
  os_wf o -> msg_ok 0 (os_timers o) ->
  msg_ok (os_next o) (<[os_next o := on_msg_timeout_cb]> (os_timers o)).
Proof.
  intros Hw [_ Ho]. split; [by rewrite lookup_insert_eq|].
  intros t [[-> _]|[_ Ht]]%lookup_insert_Some; [done|].
  pose proof (Ho t Ht) as ->. by apply no_timer_0 in Ht.
Qed.

Lemma msg_ok_removed to m : msg_ok to m -> msg_ok 0 (delete to m).
Proof.
  intros [_ Ho]. split; [done|]. intros t [Hne Ht]%lookup_delete_Some. by destruct Hne, (Ho t Ht).
Qed.

Lemma connect_ok_new s o :
  os_wf o -> connect_to s = 0 -> connect_ok s (os_timers o) ->
  connect_ok (set_connect_to (os_next o) s) (<[os_next o := attempt_connect_cb]> (os_timers o)).
Proof.
  intros Hw H0 [_ Ho]. split; cbn; [by rewrite lookup_insert_eq|].
  intros t [[-> _]|[_ Ht]]%lookup_insert_Some; [done|].
  pose proof (Ho t Ht) as ->. rewrite H0 in Ht. by apply no_timer_0 in Ht.
Qed.

Lemma connect_ok_removed s m : connect_ok s m -> connect_ok (set_connect_to 0 s) (delete (connect_to s) m).
Proof.
  intros [_ Ho]. split; [done|]. intros t [Hne Ht]%lookup_delete_Some. by destruct Hne, (Ho t Ht).
Qed.

(** ** event.c *)

(** What the functions of one component leave to the others. *)
Record others (r : role) (o o' : os) : Prop := {
  others_wf : os_wf o';
  others_same r' : r' <> r -> same r' (os_timers o) (os_timers o');
  others_files : os_files o' = os_files o;
  others_fds : os_fds o' = os_fds o;
  others_published : published o' = published o
}.

Lemma others_refl r o : os_wf o -> others r o o.
Proof. by split. Qed.

Lemma others_trans r o1 o2 o3 : others r o1 o2 -> others r o2 o3 -> others r o1 o3.
Proof.
  intros [W1 S1 F1 D1 P1] [W2 S2 F2 D2 P2]. split; [done| |congruence..].
  intros r' Hr. etrans; [by apply S1|by apply S2].
Qed.

Lemma others_logged r o c a : os_wf o -> is_publish c = false -> others r o (logged c a o).
Proof. intros Hw Hc. split; try done. unfold published. cbn. by rewrite Hc. Qed.

Lemma others_new r c a cb o :
  os_wf o -> is_publish c = false -> role_of cb = r -> others r o (timer_added c a cb o).
Proof.
  intros Hw Hc Hr. split; try done.
  - by apply os_wf_timer_added.
  - intros r' Hr'. apply same_insert; [by apply os_wf_fresh|]. by rewrite Hr.
  - unfold published. cbn. by rewrite Hc.
Qed.

Lemma event_start_ok cb st o :
  os_wf o -> event_ok st (os_timers o) -> active st = false ->
  post P (event_start cb)
    (fun rc st' o' => others R_event o o' /\ event_ok st' (os_timers o') /\
       (0 <= rc -> is_Some (sensor_timeouts st') /\ is_Some (timeout_cb st'))) st o.
Proof.
  intros Hw [Hl Ho Hr Hi] Hact. specialize (Hi Hact). unfold event_timers in *. rewrite Hi in *.
  assert (forall to i n, os_timers o !! to <> Some (on_sensor_to_cb i n)) as Hno.
  { intros to i n Hto%Ho. by apply elem_of_nil in Hto. }
  unfold event_start. post_steps; (split; [by apply others_logged|]); (split; [|done]); split;
    cbn; unfold event_timers; cbn; rewrite ?elems_new; try done.
  all: first [by intros to i n ?%Hno | by intros to ?%elem_of_nil].
Qed.

Lemma event_add_data_item_ok i ev st o :
  os_wf o -> event_ok st (os_timers o) -> is_Some (sensor_timeouts st) -> is_Some (timeout_cb st) ->
  post P (event_add_data_item i ev)
    (fun _ st' o' => others R_event o o' /\ event_ok st' (os_timers o') /\
       is_Some (sensor_timeouts st') /\ timeout_cb st' = timeout_cb st) st o.
Proof.
  intros Hw Hok [q Hq] Hcb. pose proof Hok as [Hl Ho Hr Hi]. unfold event_timers in *. rewrite Hq in *.
  unfold event_add_data_item.
  apply post_when; intros _; [|split; [by apply others_refl|done]].
  apply post_bind. apply post_new_timer; [done|..].
  - intros a Ha Hrc. post_step. rewrite Hq. split; [by apply others_logged|]. split; [|done].
    split; unfold event_timers; cbn; rewrite ?elems_push_head.
    + intros to [->|Hin]%elem_of_cons; [done|]. by apply Hl.
    + intros to j n Hto. right. by eapply Ho.
    + done.
    + by intros ?%Hi.
  - intros a Ha Hrc Hn. post_step. rewrite Hq. split; [by apply others_new|]. split; [|done].
    split; unfold event_timers; cbn; rewrite ?elems_push_head.
    + intros to [->|Hin]%elem_of_cons H0.
      * exists i, (event_time_sec ev). apply lookup_insert_eq.
      * destruct (Hl to Hin H0) as (j & n & Hto). exists j, n.
        rewrite lookup_insert_ne; [done|]. intros <-. by rewrite os_wf_fresh in Hto.
    + intros to j n [[<- _]|[_ Hto]]%lookup_insert_Some; [left|right]. by eapply Ho.
    + done.
    + by intros ?%Hi.
Qed.

Lemma event_stop_ok st o :
  os_wf o -> event_ok st (os_timers o) ->
  post P event_stop
    (fun _ st' o' => others R_event o o' /\ event_ok st' (os_timers o') /\ active st' = false) st o.
Proof.
  intros Hw Hok. pose proof Hok as [Hl Ho Hr Hi]. unfold event_timers in *.
  unfold event_stop. do 4 post_step. cbn [sensor_timeouts].
  destruct (sensor_timeouts st) as [q|] eqn:Hq.
  - post_step. eapply (post_remove_all _ _ id); [done|done|].
    intros o' Hw' Ht Hlog [Hf Hd]. post_step. rewrite list_fmap_id in Ht, Hlog.
    split; [split; try done|split; [|done]].
    + intros r Hrr. rewrite Ht. apply same_removed. intros to cb Hin Hto.
      destruct (decide (to = 0)) as [->|H0]; [by apply no_timer_0 in Hto|].
      destruct (Hl to Hin H0) as (i & n & Hs). rewrite Hs in Hto. injection Hto as <-. by intros <-.
    + unfold published. rewrite Hlog. by apply published_map.
    + assert (forall to i n, os_timers o' !! to <> Some (on_sensor_to_cb i n)) as Hno.
      { intros to i n. rewrite Ht, removed_lookup. case_decide as Hin; [done|]. intros Hto.
        by apply Hin, (Ho to i n). }
      split; unfold event_timers; cbn; try done.
      all: first [by intros to i n ?%Hno | by intros to ?%elem_of_nil].
  - post_step. split; [by apply others_refl|]. split; [|done]. split; unfold event_timers; cbn; rewrite ?Hq; done.
Qed.

(** ** poll.c *)

Lemma poll_create_ok interval id cb st o :
  os_wf o -> poll_ok st (os_timers o) ->
  post P (poll_create interval id cb)
    (fun rc st' o' => others R_poll o o' /\ poll_ok st' (os_timers o') /\
       poll_active st' = poll_active st /\
       (rc = 0 /\ (exists to, entries st' = PollEntry (PollData id interval cb) to :: entries st) \/
        rc = - ENOMSG /\ entries st' = entries st)) st o.
Proof.
  intros Hw [Hl Ho]. unfold poll_create. apply post_bind.
  apply post_new_timer; [done|..]; intros a Ha Hrc; intros; post_step; [|done|lia|].
  - post_step. split; [by apply others_logged|]. split; [done|]. split; [done|by right].
  - post_steps. split; [by apply others_new|].
    split; [|split; [done|left; split; [done|]; eexists; apply entries_push]].
    split; rewrite entries_push; cbn [timer_added os_timers].
    + intros e [->|He]%elem_of_cons; [apply lookup_insert_eq|].
      rewrite lookup_insert_ne; [by apply Hl|]. intros Heq.
      pose proof (Hl e He) as Hto. by rewrite <- Heq, os_wf_fresh in Hto.
    + intros to i n c [[<- _]|[_ Hto]]%lookup_insert_Some; [left|right]. by eapply Ho.
Qed.

Lemma poll_create_succeeds interval id cb st o :
  (forall log s cb, 0 <= a_rc (env_answer (C_timeout_create s cb :: log))) -> os_wf o ->
  post P (poll_create interval id cb) (fun rc _ o' => rc = 0 /\ os_wf o') st o.
Proof.
  intros Hav Hw. unfold poll_create. apply post_bind. apply post_new_timer; [done|..].
  - intros a -> Hrc. pose proof (Hav (os_log o) 0 (on_poll_timeout_cb id interval cb)). lia.
  - intros a Ha Hrc Hn. post_step; [lia|]. post_steps. split; [done|]. by apply os_wf_timer_added.
Qed.

Lemma poll_start_ok st o :
  post P poll_start
    (fun _ st' o' => st' = PollState (poll_entries st) true /\ os_same o o' /\
       published o' = published o) st o.
Proof.
  unfold poll_start. do 4 post_step. eapply post_mono; [apply poll_timers_start|].
  intros [] st' o' (-> & Hs & Hlog). split; [done|]. split; [done|].
  unfold published. rewrite Hlog. by apply published_map.
Qed.

Lemma poll_destroy_ok st o :
  os_wf o -> poll_ok st (os_timers o) ->
  post P poll_destroy
    (fun _ st' o' => others R_poll o o' /\ poll_ok st' (os_timers o') /\ entries st' = [] /\
       poll_active st' = poll_active st) st o.
Proof.
  intros Hw Hok. pose proof Hok as [Hl Ho]. unfold poll_destroy. unfold entries in *.
  do 2 post_step. destruct (poll_entries st) as [q|] eqn:Hq; post_step; cycle 1.
  { split; [by apply others_refl|]. split; [done|]. by rewrite Hq. }
  eapply (post_remove_all _ _ pe_to); [done|done|]. intros o' Hw' Ht Hlog [Hf Hd]. post_step.
  split; [split; try done|split; [split|done]]; unfold entries; cbn.
  - intros r Hr. rewrite Ht. apply same_removed. intros to cb (e & -> & He)%list_elem_of_fmap Hto.
    rewrite (Hl e He) in Hto. injection Hto as <-. by intros <-.
  - unfold published. rewrite Hlog, <- list_fmap_compose. by apply published_map.
  - by intros e ?%elem_of_nil.
  - intros to i n cb. rewrite Ht, removed_lookup. case_decide as Hin; [done|]. intros Hto.
    by destruct Hin; eapply Ho.
Qed.

(** ** iface-modbus.c *)

(** A URL of neither kind. *)
Definition bad_url (url : string) : Prop :=
  has_prefix TCP_PREFIX url = false /\ has_prefix RTU_PREFIX url = false.

Lemma create_ctx_ok {S} url (s : S) o :
  os_wf o ->
  post P (create_ctx url)
    (fun ctx s' o' => s' = s /\ others R_connect o o' /\ os_timers o' = os_timers o /\
       (bad_url url -> ctx = 0)) s o.
Proof.
  intros Hw. unfold create_ctx, create_tcp, create_rtu, ext_alloc, c_open_rdwr, open_fd, c_close.
  post_steps; cbn; (split; [done|]); (split; [|split; [done|unfold bad_url; intuition congruence]]);
    split; cbn; try done;
    try by (destruct Hw as [? Hw']; split; cbn; [lia|]; intros to Hto; specialize (Hw' to Hto); lia).
  all: first [by apply delete_insert_id, pick_fd_fresh |
    exfalso; pose proof (pick_fd_fresh (os_fds o) (a_rc a)); cbn in *; lia].
Qed.

Lemma iface_modbus_start_ok url slave_id c d s o :
  os_wf o -> connect_ok s (os_timers o) -> connect_to s = 0 ->
  post P (iface_modbus_start url slave_id c d)
    (fun rc s' o' => others R_connect o o' /\ connect_ok s' (os_timers o') /\
       (rc <> 0 -> connect_to s' = 0) /\
       (bad_url url -> connect_to s' = 0 /\ modbus_io s' = modbus_io s)) s o.
Proof.
  intros Hw Hok H0. unfold iface_modbus_start. post_step.
  eapply post_mono; [by apply create_ctx_ok|]. intros ctx s1 o1 (-> & Hoth & Ht1 & Hbad).
  pose proof (others_wf _ _ _ Hoth) as Hw1. rewrite <- Ht1 in Hok.
  assert (connect_ok (set_modbus_ctx ctx s) (os_timers o1)) as Hok1 by by destruct Hok.
  post_steps; cbn; [done| |].
  - split; [|split; [done|split; [done|by intros ?%Hbad; lia]]]. eapply others_trans; [exact Hoth|by apply others_logged].
  - assert (others R_connect o (logged (C_modbus_set_slave ctx slave_id) a o1)) as Hoth2
      by by eapply others_trans, others_logged.
    apply post_new_timer; [done|..]; intros a' Ha' Hrc; intros; post_steps; cbn; (split; [|split; [|split; [done|by intros ?%Hbad; lia]]]).
    + by eapply others_trans, others_logged.
    + destruct Hok as [Hl Ho]. rewrite H0 in *. by split.
    + by eapply others_trans, others_new.
    + apply (connect_ok_new (set_modbus_cbs c d (set_modbus_ctx ctx s)) o1); [done|done|].
      by destruct Hok.
Qed.

Lemma iface_modbus_stop_ok s o :
  os_wf o -> connect_ok s (os_timers o) ->
  post P iface_modbus_stop
    (fun _ s' o' => others R_connect o o' /\ connect_ok s' (os_timers o') /\ connect_to s' = 0) s o.
Proof.
  intros Hw Hok. unfold iface_modbus_stop, l_timeout_remove. post_steps. cbn. split; [|split; [|done]].
  - split; try done; [by apply (os_wf_delete _ o)|]. intros r Hr. apply same_delete. intros cb Hto.
    destruct (decide (connect_to s = 0)) as [H0|H0].
    + rewrite H0 in Hto. by apply no_timer_0 in Hto.
    + rewrite (connect_live _ _ Hok H0) in Hto. injection Hto as <-. by intros <-.
  - by destruct (connect_ok_removed _ _ Hok).
Qed.
End Roles.
