(* ===== verification/Storage.v ===== *)
(** * The configuration files (src/storage.c)

    An open file is a descriptor and the settings object it was loaded into; every write changes
    the object and stores all of it in the file. *)

From S2P Require Import Prelude Scan Knot Ext Ell.

Definition PATH_MAX : nat := 4096.
Definition DATA_ITEM_GROUP : string := "DataItem_".

(** The settings loaded into a new object from a file, if it exists. *)
Definition load_file `{LSettings} (contents : option string) : l_settings :=
  l_settings_load (default EmptyString contents).

(** The regular expression ["^DataItem_[0-9]+$"]. *)
Definition is_data_item_group (s : string) : bool :=
  has_prefix DATA_ITEM_GROUP s &&
  match drop (String.length DATA_ITEM_GROUP) (chars s) with
  | [] => false
  | ds => forallb is_digit ds
  end.

Definition check_valid_groups (group : string) (later : list string) : Z :=
  if negb (is_data_item_group group) then - EINVAL
  else if existsb (String.eqb group) later then - EINVAL
  else 0.

(** The loop of [get_data_item_groups]: the settings and [err] after it. *)
Fixpoint data_item_groups_loop `{LSettings} (settings : l_settings) (err : Z)
    (all_groups : list string) : l_settings * Z :=
  match all_groups with
  | [] => (settings, err)
  | group :: later =>
      if has_prefix DATA_ITEM_GROUP group
      then data_item_groups_loop settings (check_valid_groups group later) later
      else data_item_groups_loop (default settings (l_settings_remove_group settings group))
             err later
  end.

Section Storage.
Context `{E : Env} `{LS : LSettings} {HM : Type -> Type} `{LH : !LHashmap HM}.

(** ** State *)

Record storage := Storage { storage_list : option (HM l_settings) }.

Definition storage_init : storage := Storage None.

(** [l_hashmap_lookup] on the list; NULL when there is none. *)
Definition list_lookup (fd : Z) (st : storage) : option l_settings :=
  match storage_list st with Some h => l_hashmap_lookup h fd | None => None end.

(** The object of an open file changed in place. *)
Definition list_write (fd : Z) (settings : l_settings) (st : storage) : storage :=
  match storage_list st with
  | Some h => Storage (Some (l_hashmap_write h fd settings))
  | None => st
  end.

(** ** Files *)

(** The loop of [make_dirs] on the characters after the first slash: [name] holds those since
    the last slash. *)
Fixpoint make_dirs_loop {S} (dir name l : list ascii) : M S Z :=
  match l with
  | [] => ret 0
  | c :: r =>
      if Ascii.eqb c "/" then
        match name with
        | [] => make_dirs_loop dir [] r
        | _ =>
            let dir := dir ++ name ++ ["/"%char] in
            if (PATH_MAX <? length dir)%nat then UB
            else
              let! rc := ext_rc (C_mkdir (String.string_of_list_ascii dir)) in
              if rc =? -1 then
                let! err := errno in
                if err =? EEXIST then make_dirs_loop dir [] r else ret err
              else make_dirs_loop dir [] r
        end
      else make_dirs_loop dir (name ++ [c]) r
  end.

(** [strchr(filename, '/')], what follows it. *)
Fixpoint after_slash (l : list ascii) : list ascii :=
  match l with
  | [] => []
  | c :: r => if Ascii.eqb c "/" then r else after_slash r
  end.

Definition make_dirs {S} (filename : string) : M S Z :=
  let! st := ext (C_stat filename) in
  if (a_rc st =? 0) && c_true (default 0 (a_data st !! 0%nat)) then ret 0
  else make_dirs_loop ["/"%char] [] (after_slash (chars filename)).

Definition save_settings (fd : Z) (settings : l_settings) : M storage Z :=
  let res := l_settings_to_data settings in
  let! rc := c_ftruncate fd in
  if rc =? -1 then
    let! e := errno in ret (- e)
  else
    let! rc := c_pwrite fd res in
    if rc <? 0 then
      let! e := errno in ret (- e)
    else ret 0.

Definition storage_open (pathname : string) : M storage Z :=
  let! err := make_dirs pathname in
  if err <? 0 then ret err
  else
    let! fd := c_open pathname in
    if fd <? 0 then
      let! e := errno in ret (- e)
    else
      let! o := get_os in
      let settings := load_file (os_files o !! pathname) in
      modify (fun st => Storage (Some (default l_hashmap_new (storage_list st)))) ;;
      modify (fun st =>
        match storage_list st with
        | Some h => Storage (Some (l_hashmap_insert h fd settings))
        | None => st
        end) ;;
      ret fd.

Definition storage_close (fd : Z) : M storage Z :=
  let! st := get in
  match storage_list st with
  | None => ret (- ENOENT)
  | Some h =>
      let '(settings, h') := l_hashmap_remove h fd in
      modify (fun _ => Storage (Some h')) ;;
      match settings with
      | None => ret (- ENOENT)
      | Some _ => c_close fd
      end
  end.

(** ** Keys

    The typed functions are one pair, by the kind of value; a read returns the value it writes
    through its pointer, if it does. *)

Definition storage_read_key_string (fd : Z) (group key : string) : M storage (option string) :=
  let! st := get in
  ret match list_lookup fd st with
      | None => None
      | Some settings => l_settings_get_string settings group key
      end.

Definition storage_write_key_string (fd : Z) (group key value : string) : M storage Z :=
  let! st := get in
  match list_lookup fd st with
  | None => ret (- EIO)
  | Some settings =>
      match l_settings_set_string settings group key value with
      | None => ret (- EINVAL)
      | Some settings' => modify (list_write fd settings') ;; save_settings fd settings'
      end
  end.

Definition storage_read_key (k : skind) (fd : Z) (group key : string) : M storage (Z * option Z) :=
  let! st := get in
  ret match list_lookup fd st with
      | None => (- EINVAL, None)
      | Some settings =>
          match l_settings_get k settings group key with
          | None => (0, None)
          | Some v => (1, Some v)
          end
      end.

Definition storage_write_key (k : skind) (fd : Z) (group key : string) (value : Z)
    : M storage Z :=
  let! st := get in
  match list_lookup fd st with
  | None => ret (- EINVAL)
  | Some settings =>
      match l_settings_set k settings group key value with
      | None => ret (- EINVAL)
      | Some settings' => modify (list_write fd settings') ;; save_settings fd settings'
      end
  end.

Definition storage_read_key_int := storage_read_key KInt.
Definition storage_write_key_int := storage_write_key KInt.
Definition storage_read_key_float := storage_read_key KFloat.
Definition storage_write_key_float := storage_write_key KFloat.
Definition storage_read_key_bool := storage_read_key KBool.
Definition storage_write_key_bool (fd : Z) (group key : string) (value : Z) : M storage Z :=
  storage_write_key KBool fd group key (c_int (c_true value)).
Definition storage_read_key_int64 := storage_read_key KInt64.
Definition storage_write_key_int64 := storage_write_key KInt64.
Definition storage_read_key_uint := storage_read_key KUint.
Definition storage_write_key_uint := storage_write_key KUint.
Definition storage_read_key_uint64 := storage_read_key KUint64.
Definition storage_write_key_uint64 := storage_write_key KUint64.

Definition storage_remove_group (fd : Z) (group : string) : M storage Z :=
  let! st := get in
  match list_lookup fd st with
  | None => ret (- EINVAL)
  | Some settings =>
      match l_settings_remove_group settings group with
      | None => ret (- EINVAL)
      | Some settings' => modify (list_write fd settings') ;; save_settings fd settings'
      end
  end.

Definition storage_remove_key (fd : Z) (group key : string) : M storage Z :=
  let! st := get in
  match list_lookup fd st with
  | None => ret (- EINVAL)
  | Some settings =>
      match l_settings_remove_key settings group key with
      | None => ret (- EINVAL)
      | Some settings' => modify (list_write fd settings') ;; save_settings fd settings'
      end
  end.

Definition storage_has_unit (fd : Z) (group key : string) : M storage bool :=
  let! st := get in
  ret match list_lookup fd st with
      | None => false
      | Some settings => l_settings_has_key settings group key
      end.

(** ** Groups *)

(** NULL, or the groups. *)
Definition get_data_item_groups (fd : Z) : M storage (option (list string)) :=
  let! st := get in
  match list_lookup fd st with
  | None => ret None
  | Some settings =>
      let '(settings', err) :=
        data_item_groups_loop settings 0 (l_settings_get_groups settings) in
      modify (list_write fd settings') ;;
      ret (if err <? 0 then None else Some (l_settings_get_groups settings'))
  end.

(** The callbacks of the two walks are given the store they may change. *)
Definition storage_foreach_slave (fd : Z) (func : string -> Z -> string -> string -> M storage ())
    : M storage () :=
  let! st := get in
  match list_lookup fd st with
  | None => ret tt
  | Some settings =>
      foreach (fun group =>
        let! st := get in
        let settings := default settings (list_lookup fd st) in
        match l_settings_get KInt settings group "Id" with
        | None => ret tt
        | Some id =>
            match l_settings_get_string settings group "Name" with
            | None => ret tt
            | Some name =>
                match l_settings_get_string settings group "URL" with
                | None => ret tt
                | Some url => func group id name url
                end
            end
        end) (l_settings_get_groups settings)
  end.

(** [interval] is declared outside the loop: a group without one keeps that of the group
    before it. *)
Fixpoint foreach_source_loop (fd : Z) (settings0 : l_settings) (interval : Z)
    (func : string -> string -> string -> string -> Z -> M storage ()) (groups : list string)
    : M storage () :=
  match groups with
  | [] => ret tt
  | group :: later =>
      let! st := get in
      let settings := default settings0 (list_lookup fd st) in
      let interval := default interval (l_settings_get KInt settings group "PollingInterval") in
      match l_settings_get_string settings group "Name",
            l_settings_get_string settings group "Type",
            l_settings_get_string settings group "Unit" with
      | Some name, Some type, Some unit => func group name type unit interval
      | _, _, _ => ret tt
      end ;;
      foreach_source_loop fd settings0 interval func later
  end.

Definition storage_foreach_source (fd : Z)
    (func : string -> string -> string -> string -> Z -> M storage ()) : M storage () :=
  let! st := get in
  match list_lookup fd st with
  | None => ret tt
  | Some settings => foreach_source_loop fd settings 1000 func (l_settings_get_groups settings)
  end.
End Storage.

Arguments storage {LS} HM.

(** ** Specifications of the operations *)

Section Specs.
Context `{E : Env} `{LS : LSettings} {HM : Type -> Type} `{HL : LHashmapLaws HM} (P : Prop).
Implicit Types (st : storage HM) (o : os) (fd : Z).

(** The list has one object per open descriptor, each of an existing file. *)
Record storage_wf st o : Prop := {
  wf_uniq h : storage_list st = Some h -> hm_uniq h;
  wf_open fd settings :
    list_lookup fd st = Some settings ->
    exists path, os_fds o !! fd = Some path /\ is_Some (os_files o !! path)
}.

Lemma storage_init_wf o : storage_wf storage_init o.
Proof. by split. Qed.

(** The objects of the other descriptors are the same. *)
Definition same_others fd st st' : Prop :=
  forall j, j <> fd -> list_lookup j st' = list_lookup j st.

(** What writing to [path] keeps. *)
Record file_only (path : string) (o o' : os) : Prop := {
  only_quiet : os_quiet o o';
  only_fds : os_fds o' = os_fds o;
  only_files q : q <> path -> os_files o' !! q = os_files o !! q;
  only_exists : is_Some (os_files o !! path) -> is_Some (os_files o' !! path)
}.

Lemma file_only_refl path o : file_only path o o.
Proof. by split. Qed.

Lemma file_only_trans path o1 o2 o3 :
  file_only path o1 o2 -> file_only path o2 o3 -> file_only path o1 o3.
Proof.
  intros [Q1 F1 K1 X1] [Q2 F2 K2 X2]. split.
  - by etrans.
  - congruence.
  - intros q Hq. by rewrite K2, K1.
  - auto.
Qed.

Lemma storage_wf_lookup_write fd st o settings s' j :
  storage_wf st o -> list_lookup fd st = Some settings ->
  list_lookup j (list_write fd s' st) = if decide (j = fd) then Some s' else list_lookup j st.
Proof.
  intros [Hu _]. unfold list_lookup, list_write.
  destruct (storage_list st) as [h|] eqn:Hh; [|done]. cbn. intros Hfd.
  apply hm_lookup_write; [by apply Hu|by eexists].
Qed.

Lemma storage_wf_write fd st o settings s' :
  storage_wf st o -> list_lookup fd st = Some settings -> storage_wf (list_write fd s' st) o.
Proof.
  intros Hwf Hfd. split.
  - destruct Hwf as [Hu _]. unfold list_write. destruct (storage_list st) as [h|] eqn:Hh; cbn.
    + intros ? [= <-]. apply hm_uniq_write. by apply Hu.
    + by rewrite Hh.
  - intros j t. rewrite (storage_wf_lookup_write fd st o settings) by done.
    destruct Hwf as [_ Ho]. case_decide as Hj; [subst; intros _|]; by eauto.
Qed.

Lemma storage_wf_files st o o' path :
  file_only path o o' -> storage_wf st o -> storage_wf st o'.
Proof.
  intros [_ Hf Hq Hx] [Hu Ho]. split; [done|]. intros fd settings Hl.
  destruct (Ho _ _ Hl) as (p & Hp & He). exists p. rewrite Hf. split; [done|].
  destruct (decide (p = path)) as [->|]; [by apply Hx|by rewrite Hq].
Qed.

(** *** Writing *)

Lemma file_only_logged path c a o o' :
  is_publish c = false -> file_only path o o' -> file_only path o (logged c a o').
Proof. intros Hc [Hq Hf Hk Hx]. split; [by apply os_quiet_logged|done..]. Qed.

Lemma post_write_file fd path f (Q : () -> storage HM -> os -> Prop) st o :
  os_fds o !! fd = Some path ->
  Q tt st (with_files (alter f path (os_files o)) o) -> post P (write_file fd f) Q st o.
Proof. intros Hfd HQ. unfold write_file. apply post_modify_os. by rewrite Hfd. Qed.

Lemma file_only_alter path f o o' :
  file_only path o o' -> file_only path o (with_files (alter f path (os_files o')) o').
Proof.
  intros [Hq Hf Hk Hx]. split; [by apply os_quiet_files|done|..].
  - intros q Hn. cbn. rewrite lookup_alter_ne by done. by apply Hk.
  - intros Hs. cbn. rewrite lookup_alter_eq. destruct (Hx Hs) as [c ->]. by eexists.
Qed.

Lemma overwrite_all n data : (String.length data <= n)%nat -> overwrite n data EmptyString = data.
Proof.
  intros Hn. unfold overwrite. rewrite take_ge by (by rewrite length_chars).
  cbn. rewrite drop_nil, app_nil_r. apply string_of_chars.
Qed.

Lemma post_ftruncate fd path (Q : Z -> storage HM -> os -> Prop) st o :
  os_fds o !! fd = Some path ->
  (forall a, a = env_answer (C_ftruncate fd :: os_log o) -> a_rc a < 0 ->
     Q (-1) st (logged (C_ftruncate fd) a o)) ->
  (forall a, a = env_answer (C_ftruncate fd :: os_log o) -> 0 <= a_rc a ->
     Q 0 st (with_files (alter (fun _ => EmptyString) path (os_files o))
               (logged (C_ftruncate fd) a o))) ->
  post P (c_ftruncate fd) Q st o.
Proof.
  intros Hfd H0 H1. unfold c_ftruncate. post_steps; [apply H0; [done|lia]|].
  apply post_write_file with path; [done|]. apply H1; [done|lia].
Qed.

Lemma post_pwrite fd data path (Q : Z -> storage HM -> os -> Prop) st o :
  os_fds o !! fd = Some path ->
  (forall a, a = env_answer (C_pwrite fd data :: os_log o) -> a_rc a < 0 ->
     Q (-1) st (logged (C_pwrite fd data) a o)) ->
  (forall a n, a = env_answer (C_pwrite fd data :: os_log o) -> 0 <= a_rc a ->
     n = Z.min (a_rc a) (strlen data) ->
     Q n st (with_files (alter (overwrite (Z.to_nat n) data) path (os_files o))
               (logged (C_pwrite fd data) a o))) ->
  post P (c_pwrite fd data) Q st o.
Proof.
  intros Hfd H0 H1. unfold c_pwrite. post_steps; [apply H0; [done|lia]|].
  apply post_write_file with path; [done|]. apply H1; [done|lia|done].
Qed.

Lemma save_settings_spec fd path settings st o :
  os_fds o !! fd = Some path -> is_Some (os_files o !! path) ->
  post P (save_settings fd settings)
    (fun rc st' o' => st' = st /\ file_only path o o' /\
       (EnvLaws -> rc <= 0) /\
       (EnvLaws -> whole_writes o' -> rc = 0 ->
          os_files o' !! path = Some (l_settings_to_data settings))) st o.
Proof.
  intros Hfd [old Hf]. unfold save_settings. apply post_bind.
  assert (forall a c, is_publish c = false -> file_only path o (logged c a o)) as Hlog
    by (intros; apply file_only_logged; [done|apply file_only_refl]).
  apply post_ftruncate with path; [done|..]; intros a Ha Hrc.
  { change (-1 =? -1) with true. cbn iota. post_steps. split; [done|]. split; [by apply Hlog|].
    cbn. subst a.
    split; intros Hlaw; [|intros _]; pose proof (failed_errno _ Hrc); lia. }
  change (0 =? -1) with false. cbn iota. apply post_bind.
  assert (file_only path o (with_files (alter (fun _ => EmptyString) path (os_files o))
            (logged (C_ftruncate fd) a o))) as Ho1.
  { apply (file_only_alter path _ o (logged _ a o)). by apply Hlog. }
  apply post_pwrite with path; [done|..].
  - intros a' Ha' Hrc'. change (-1 <? 0) with true. cbn iota. post_steps. split; [done|].
    split; [by apply file_only_logged|]. cbn. subst a'.
    split; intros Hlaw; [|intros _]; pose proof (failed_errno _ Hrc'); lia.
  - intros a' n Ha' Hrc' Hn. assert (0 <= n) by (unfold strlen in Hn; lia).
    rewrite (proj2 (Z.ltb_ge _ _)) by done. post_step. split; [done|].
    split; [by apply (file_only_alter path _ o (logged _ a' _)), file_only_logged|].
    split; [lia|]. intros _ Hw _. cbn. rewrite lookup_alter_eq, lookup_alter_eq, Hf. cbn.
    f_equal. apply overwrite_all. subst a'.
    pose proof (whole_writes_last fd _ _ _ Hw eq_refl Hrc'). unfold strlen in *. lia.
Qed.

(** Every operation that changes the object of a descriptor has this form. *)
Definition storage_update (err fd : Z) (upd : l_settings -> option l_settings)
    : M (storage HM) Z :=
  let! st := get in
  match list_lookup fd st with
  | None => ret err
  | Some settings =>
      match upd settings with
      | None => ret (- EINVAL)
      | Some settings' => modify (list_write fd settings') ;; save_settings fd settings'
      end
  end.

(** The result of an update of the open file [path]: refused, or made in the object and stored
    in the file, or made in the object but not stored. *)
Record updated (upd : l_settings -> option l_settings) fd path settings (rc : Z)
    st st' o o' : Prop := {
  upd_wf : storage_wf st' o';
  upd_only : file_only path o o';
  upd_others : same_others fd st st';
  upd_object : list_lookup fd st' = Some (default settings (upd settings));
  upd_none : upd settings = None -> rc = - EINVAL /\ o' = o;
  upd_rc : EnvLaws -> rc <= 0;
  upd_stored :
    EnvLaws -> whole_writes o' -> rc = 0 ->
    exists s', upd settings = Some s' /\ os_files o' !! path = Some (l_settings_to_data s')
}.

Lemma storage_update_spec err fd upd path settings st o :
  storage_wf st o -> list_lookup fd st = Some settings -> os_fds o !! fd = Some path ->
  post P (storage_update err fd upd)
    (fun rc st' o' => updated upd fd path settings rc st st' o o') st o.
Proof.
  intros Hwf Hfd Hp. unfold storage_update. do 2 post_step. rewrite Hfd.
  assert (is_Some (os_files o !! path)) as Hx.
  { destruct (wf_open _ _ Hwf _ _ Hfd) as (p & Hp' & Hs). congruence. }
  destruct (upd settings) as [s'|] eqn:Hu; post_step.
  - post_step. eapply post_mono; [by apply (save_settings_spec fd path)|].
    intros rc st' o' (-> & Hf & Hrc & Hd). split.
    + by eapply storage_wf_files, storage_wf_write.
    + done.
    + intros j Hj. rewrite (storage_wf_lookup_write fd st o settings) by done.
      by rewrite decide_False.
    + rewrite (storage_wf_lookup_write fd st o settings) by done.
      rewrite Hu. by rewrite decide_True.
    + by rewrite Hu.
    + done.
    + intros Hl Hw H0. exists s'. split; [done|]. auto.
  - split; rewrite ?Hu; cbn; try done; apply file_only_refl.
Qed.

(** *** Opening and closing *)

Lemma length_after_slash l : (length (after_slash l) <= pred (length l))%nat.
Proof. induction l as [|c l IH]; cbn; [lia|]. case_match; lia. Qed.

(** What the walk of [make_dirs] keeps. *)
Definition dirs_only (o o' : os) : Prop :=
  os_quiet o o' /\ os_files o' = os_files o /\ os_fds o' = os_fds o.

Lemma dirs_only_logged o o' c a :
  is_publish c = false -> dirs_only o o' -> dirs_only o (logged c a o').
Proof. intros Hc (Hq & ? & ?). split; [by apply os_quiet_logged|done]. Qed.

Lemma make_dirs_loop_spec {S} l : forall dir name (s : S) o o0,
  (length dir + length name + length l <= PATH_MAX)%nat -> dirs_only o0 o ->
  post P (make_dirs_loop dir name l)
    (fun rc s' o' => s' = s /\ dirs_only o0 o' /\ (EnvLaws -> 0 <= rc)) s o.
Proof.
  induction l as [|c l IH]; intros dir name s o o0 Hl Ho; cbn [make_dirs_loop].
  { post_step. split; [done|]. split; [done|lia]. }
  cbn in Hl. destruct (Ascii.eqb c "/").
  - destruct name as [|d name]; [apply IH; [cbn in *; lia|done]|].
    rewrite (proj2 (Nat.ltb_ge _ _)) by (rewrite !length_app; cbn in *; lia).
    post_steps.
    1, 3: apply IH; [rewrite !length_app; cbn in *; lia|by apply dirs_only_logged].
    split; [done|]. split; [by apply dirs_only_logged|]. intros Hlaw. cbn. subst a.
    match goal with H : (a_rc _ =? -1) = true |- _ => apply Z.eqb_eq in H end.
    match goal with |- 0 <= a_errno (env_answer ?h) => pose proof (failed_errno h) end. lia.
  - apply IH; [rewrite length_app; cbn; lia|done].
Qed.

Lemma make_dirs_spec {S} filename (s : S) o :
  (String.length filename <= PATH_MAX)%nat ->
  post P (make_dirs filename)
    (fun rc s' o' => s' = s /\ dirs_only o o' /\ (EnvLaws -> 0 <= rc)) s o.
Proof.
  intros Hlen. unfold make_dirs. post_step. post_step.
  assert (dirs_only o (logged (C_stat filename) a o)) as Ho by by apply dirs_only_logged.
  post_step; [by post_step|]. apply make_dirs_loop_spec; [|done].
  pose proof (length_after_slash (chars filename)) as Hs. rewrite length_chars in Hs. cbn.
  unfold PATH_MAX in *. lia.
Qed.

(** The result of opening [path]. *)
Record opened path fd st st' o o' : Prop := {
  opened_quiet : os_quiet o o';
  opened_wf : storage_wf st' o';
  opened_result :
    (fd < 0 /\ st' = st /\ os_files o' = os_files o /\ os_fds o' = os_fds o) \/
    (0 <= fd /\ os_fds o !! fd = None /\ os_fds o' = <[fd := path]> (os_fds o) /\
     os_files o' = <[path := default EmptyString (os_files o !! path)]> (os_files o) /\
     same_others fd st st' /\ list_lookup fd st' = Some (load_file (os_files o !! path)))
}.

Lemma post_open path (Q : Z -> storage HM -> os -> Prop) st o :
  (forall a, a = env_answer (C_open path :: os_log o) -> a_rc a < 0 ->
     Q (-1) st (logged (C_open path) a o)) ->
  (forall a fd, 0 <= fd -> os_fds o !! fd = None ->
     Q fd st (with_files (<[path := default EmptyString (os_files o !! path)]> (os_files o))
                (with_fds (<[fd := path]> (os_fds o)) (logged (C_open path) a o)))) ->
  post P (c_open path) Q st o.
Proof.
  intros H0 H1. unfold c_open, open_fd. do 3 post_step. post_step.
  - post_step. change (-1 <? 0) with true. cbn iota. post_step. apply H0; [done|lia].
  - destruct (pick_fd_fresh (os_fds o) (a_rc a)) as [Hn Hp].
    do 5 post_step. change (os_fds (logged (C_open path) a o)) with (os_fds o) in *.
    rewrite (proj2 (Z.ltb_ge _ _)) by done. do 3 post_step. by apply H1.
Qed.

Lemma storage_wf_insert st o o' fd path settings h :
  storage_wf st o -> h = default l_hashmap_new (storage_list st) ->
  os_fds o !! fd = None -> os_fds o' = <[fd := path]> (os_fds o) ->
  os_files o' = <[path := default EmptyString (os_files o !! path)]> (os_files o) ->
  let st' := Storage (Some (l_hashmap_insert h fd settings)) in
  storage_wf st' o' /\ same_others fd st st' /\ list_lookup fd st' = Some settings.
Proof.
  intros [Hu Ho] -> Hfd Hfds Hfiles st'.
  assert (list_lookup fd st = None) as Hn.
  { destruct (list_lookup fd st) eqn:Hl; [|done]. destruct (Ho _ _ Hl) as (p & Hp & _). congruence. }
  assert (hm_uniq (default l_hashmap_new (storage_list st)) /\
          forall j, l_hashmap_lookup (default l_hashmap_new (storage_list st)) j
                    = list_lookup j st) as [Hu' Hlk].
  { unfold list_lookup. destruct (storage_list st) as [h|]; cbn; [split; [by apply Hu|done]|].
    split; [apply hm_uniq_new|]. intros j. apply hm_lookup_new. }
  assert (forall j, list_lookup j st' = if decide (j = fd) then Some settings else list_lookup j st)
    as Hj.
  { intros j. unfold st'. unfold list_lookup at 1. cbn.
    rewrite hm_lookup_insert by (rewrite ?Hlk; done). by rewrite Hlk. }
  split; [split|split].
  - intros ? [= <-]. apply hm_uniq_insert; [by rewrite Hlk|done].
  - intros j t. rewrite Hj, Hfds, Hfiles. case_decide as Hjfd.
    + subst j. intros _. exists path. by rewrite !lookup_insert_eq.
    + intros Hl. destruct (Ho _ _ Hl) as (p & Hp & Hx). exists p.
      rewrite lookup_insert_ne by done. split; [done|].
      destruct (decide (path = p)) as [->|]; [by rewrite lookup_insert_eq|].
      by rewrite lookup_insert_ne.
  - intros j Hne. rewrite Hj. by rewrite decide_False.
  - rewrite Hj. by rewrite decide_True.
Qed.

Lemma storage_open_spec (Hlaw : EnvLaws) path st o :
  (String.length path <= PATH_MAX)%nat -> storage_wf st o ->
  post P (storage_open path) (fun fd st' o' => opened path fd st st' o o') st o.
Proof.
  intros Hlen Hwf. unfold storage_open. post_step.
  eapply post_mono; [by apply make_dirs_spec|]. intros err st1 o1 (-> & (Hq & Hfiles & Hfds) & Herr).
  cbn beta. rewrite (proj2 (Z.ltb_ge _ _)) by auto.
  assert (storage_wf st o1) as Hwf1.
  { destruct Hwf as [Hu Ho]. split; [done|]. by rewrite Hfiles, Hfds. }
  post_step. apply post_open.
  - intros a Ha Hrc. change (-1 <? 0) with true. cbn iota. post_steps.
    subst a. pose proof (failed_errno (C_open path :: os_log o1) Hrc) as He.
    split; [by apply os_quiet_logged|by destruct Hwf1|]. left. split; [cbn; lia|done].
  - intros a fd Hp Hn. rewrite (proj2 (Z.ltb_ge _ _)) by done. rewrite Hfiles, Hfds in *.
    do 7 post_step. cbn [os_files with_files storage_list]. rewrite lookup_insert_eq. cbn [default].
    match goal with |- opened _ _ _ _ _ ?o2 =>
      destruct (storage_wf_insert st o o2 fd path (load_file (os_files o !! path)) _ Hwf eq_refl Hn)
        as (Hwf' & Hs & Hl); [cbn; by rewrite ?Hfds|cbn; by rewrite ?Hfiles|] end.
    split; [by apply os_quiet_files, os_quiet_fds, os_quiet_logged|exact Hwf'|].
    right. split; [done|]. split; [done|]. cbn. rewrite ?Hfds, ?Hfiles. done.
Qed.

(** Closing leaves the other objects, and neither the descriptor nor its object. *)
Lemma storage_close_spec fd settings st o :
  storage_wf st o -> list_lookup fd st = Some settings ->
  post P (storage_close fd)
    (fun _ st' o' => os_quiet o o' /\ storage_wf st' o' /\ os_files o' = os_files o /\
       os_fds o' = delete fd (os_fds o) /\ same_others fd st st' /\ list_lookup fd st' = None)
    st o.
Proof.
  intros Hwf Hfd. unfold storage_close. do 2 post_step.
  assert (exists h, storage_list st = Some h /\ l_hashmap_lookup h fd = Some settings) as (h & Hh & Hl).
  { unfold list_lookup in Hfd. destruct (storage_list st); [by eexists|done]. }
  rewrite Hh. destruct (l_hashmap_remove h fd) as [r h'] eqn:Hr.
  pose proof (remove_fst h fd) as Hf. rewrite Hr in Hf. cbn in Hf. rewrite Hl in Hf. subst r.
  destruct Hwf as [Hu Ho]. specialize (Hu h Hh).
  assert (forall j, list_lookup j (Storage (Some h')) = if decide (j = fd) then None
                    else list_lookup j st) as Hj.
  { intros j. unfold list_lookup. cbn. rewrite Hh. pose proof (hm_lookup_remove h fd j Hu) as H.
    by rewrite Hr in H. }
  unfold c_close. post_steps. split; [by apply os_quiet_fds, os_quiet_logged|].
  split; [split|split; [done|split; [done|split]]].
  - intros ? [= <-]. pose proof (hm_uniq_remove h fd Hu) as H. by rewrite Hr in H.
  - intros j t. rewrite Hj. case_decide; [done|]. intros (p & Hp & Hx)%Ho. exists p. cbn.
    by rewrite lookup_delete_ne.
  - intros j Hne. rewrite Hj. by rewrite decide_False.
  - rewrite Hj. by rewrite decide_True.
Qed.
End Specs.

(** ** The groups of the data items *)

Section Groups.
Context `{LSL : LSettingsLaws}.

(** The groups whose name starts with the prefix of the data items. *)
Definition data_groups (groups : list string) : list string :=
  filter (fun g => has_prefix DATA_ITEM_GROUP g = true) groups.

(** Nothing of the groups of the data items was changed. *)
Definition data_groups_kept (s s' : l_settings) : Prop :=
  forall i g k, has_prefix DATA_ITEM_GROUP g = true ->
    l_settings_has_key s' g k = l_settings_has_key s g k /\
    l_settings_get_string s' g k = l_settings_get_string s g k /\
    l_settings_get i s' g k = l_settings_get i s g k.

(** What the check of the groups answers: the verdict on the last of them. *)
Definition last_group_error (groups : list string) (err : Z) : Z :=
  match last (data_groups groups) with
  | Some g => if is_data_item_group g then 0 else - EINVAL
  | None => err
  end.

Lemma existsb_notin g (l : list string) : g ∉ l -> existsb (String.eqb g) l = false.
Proof.
  induction l as [|x l IH]; cbn; [done|]. rewrite not_elem_of_cons. intros [Hx Hl].
  rewrite IH by done. rewrite orb_false_r. by apply String.eqb_neq.
Qed.

Lemma check_valid_groups_notin g later :
  g ∉ later -> check_valid_groups g later = if is_data_item_group g then 0 else - EINVAL.
Proof.
  intros Hg. unfold check_valid_groups. rewrite existsb_notin by done.
  by destruct (is_data_item_group g).
Qed.

Lemma data_groups_True g l :
  has_prefix DATA_ITEM_GROUP g = true -> data_groups (g :: l) = g :: data_groups l.
Proof. intros. unfold data_groups. by rewrite filter_cons_True. Qed.

Lemma data_groups_False g l :
  has_prefix DATA_ITEM_GROUP g = false -> data_groups (g :: l) = data_groups l.
Proof. intros H. unfold data_groups. rewrite filter_cons_False; [done|congruence]. Qed.

(** The occurrences of a group. *)
Definition occurrences (g : string) (groups : list string) : nat :=
  length (filter (fun g' => g' = g) groups).

(** Every group that is no data item is still to be visited. *)
Definition to_visit (settings : l_settings) (groups : list string) : Prop :=
  forall g, has_prefix DATA_ITEM_GROUP g = false ->
    (occurrences g (l_settings_get_groups settings) <= occurrences g groups)%nat.

Lemma occurrences_cons g x l :
  occurrences g (x :: l) = if decide (x = g) then S (occurrences g l) else occurrences g l.
Proof.
  unfold occurrences. destruct (decide (x = g)).
  - by rewrite filter_cons_True.
  - by rewrite filter_cons_False.
Qed.

Lemma occurrences_0 g l : occurrences g l = 0%nat <-> g ∉ l.
Proof.
  induction l as [|x l IH]; [split; [intros _ ?%elem_of_nil|]; done|].
  rewrite occurrences_cons, not_elem_of_cons. destruct (decide (x = g)) as [->|].
  - split; [done|tauto].
  - rewrite IH. split; [by split|tauto].
Qed.

Lemma data_groups_ne g l :
  has_prefix DATA_ITEM_GROUP g = false -> data_groups (filter (fun g' => g' <> g) l) = data_groups l.
Proof.
  intros Hg. unfold data_groups. rewrite list_filter_filter. apply list_filter_iff.
  intros x. split; [tauto|]. intros Hx. split; [done|congruence].
Qed.

Lemma occurrences_ne g g' l : g' <> g -> occurrences g' (filter (fun x => x <> g) l) = occurrences g' l.
Proof.
  intros Hg. unfold occurrences. rewrite list_filter_filter. f_equal. apply list_filter_iff.
  intros x. split; [tauto|]. intros ->. by split.
Qed.

Lemma data_groups_all settings : to_visit settings [] ->
  l_settings_get_groups settings = data_groups (l_settings_get_groups settings).
Proof.
  unfold to_visit. generalize (l_settings_get_groups settings) as l. intros l Hv.
  assert (forall g, g ∈ l -> has_prefix DATA_ITEM_GROUP g = true) as Hall.
  { intros g Hg. destruct (has_prefix DATA_ITEM_GROUP g) eqn:Hp; [done|].
    specialize (Hv g Hp). apply Nat.le_0_r, occurrences_0 in Hv. done. }
  clear Hv. induction l as [|x l IH]; [done|]. rewrite data_groups_True by (apply Hall; left).
  f_equal. apply IH. intros g Hg. apply Hall. by right.
Qed.

(** The removal of a visited group that is no data item. *)
Lemma visit_removes settings g groups :
  has_prefix DATA_ITEM_GROUP g = false -> to_visit settings (g :: groups) ->
  let settings1 := default settings (l_settings_remove_group settings g) in
  to_visit settings1 groups /\ data_groups_kept settings settings1 /\
  data_groups (l_settings_get_groups settings1) = data_groups (l_settings_get_groups settings).
Proof.
  intros Hp Hv. cbn zeta. destruct (l_settings_remove_group settings g) as [s1|] eqn:Hr; cbn.
  - destruct (remove_group_groups _ _ _ Hr) as [Hne Hlt]. split; [|split].
    + intros g' Hp'. specialize (Hv g' Hp'). rewrite occurrences_cons in Hv.
      case_decide as Hg; [subst; unfold occurrences in *; lia|].
      rewrite <- (occurrences_ne g g' (l_settings_get_groups s1)), Hne, occurrences_ne by congruence.
      done.
    + intros i g' k Hp'. apply (remove_group_other i _ _ _ _ k Hr). congruence.
    + by rewrite <- (data_groups_ne g (l_settings_get_groups s1)), Hne, data_groups_ne.
  - apply remove_group_None in Hr. split; [|done]. intros g' Hp'. specialize (Hv g' Hp').
    rewrite occurrences_cons in Hv. case_decide; [subst|done].
    apply occurrences_0 in Hr. rewrite Hr. lia.
Qed.

Lemma check_last_group g groups err :
  has_prefix DATA_ITEM_GROUP g = true ->
  last_group_error groups (check_valid_groups g groups) = last_group_error (g :: groups) err.
Proof.
  intros Hp. unfold last_group_error. rewrite data_groups_True, last_cons by done.
  destruct (last (data_groups groups)) eqn:Hl; [done|].
  apply check_valid_groups_notin. intros Hin. apply last_None in Hl.
  assert (g ∈ data_groups groups) as Hg by by apply list_elem_of_filter.
  rewrite Hl in Hg. by apply elem_of_nil in Hg.
Qed.

Lemma data_item_groups_loop_visits (groups : list string) : forall settings err,
  to_visit settings groups ->
  let '(settings', err') := data_item_groups_loop settings err groups in
  l_settings_get_groups settings' = data_groups (l_settings_get_groups settings) /\
  data_groups_kept settings settings' /\ err' = last_group_error groups err.
Proof.
  induction groups as [|g groups IH]; intros settings err Hv; cbn.
  { split; [by apply data_groups_all|]. by split. }
  destruct (has_prefix DATA_ITEM_GROUP g) eqn:Hp.
  - rewrite <- (check_last_group g groups err) by done. apply IH.
    intros g' Hp'. specialize (Hv g' Hp'). rewrite occurrences_cons in Hv.
    case_decide; [congruence|done].
  - unfold last_group_error. rewrite data_groups_False by done.
    destruct (visit_removes settings g groups Hp Hv) as (Hv1 & Hk1 & Hd1).
    set (s1 := default settings _) in *. specialize (IH s1 err Hv1).
    destruct (data_item_groups_loop s1 err groups) as [s2 err'].
    destruct IH as (H1 & H2 & H3). split; [by rewrite H1|]. split; [|done].
    intros i g' k Hp'. destruct (H2 i g' k Hp') as (-> & -> & ->). by apply Hk1.
Qed.

(** The loop on the groups of the object. *)
Lemma data_item_groups_loop_spec settings :
  let groups := l_settings_get_groups settings in
  let '(settings', err') := data_item_groups_loop settings 0 groups in
  l_settings_get_groups settings' = data_groups groups /\
  data_groups_kept settings settings' /\ err' = last_group_error groups 0.
Proof. cbn zeta. apply data_item_groups_loop_visits. by intros g _. Qed.
End Groups.

Lemma settings_agree_off_equiv `{LSettings} g k s s' t :
  settings_agree_off g k s s' -> settings_equiv t s' -> settings_agree_off g k s t.
Proof.
  intros [H1 H2 H3] [_ K2 K3 K4]. split; intros.
  - rewrite K2. by apply H1.
  - rewrite K3. by apply H2.
  - rewrite K4. by apply H3.
Qed.

Section Groups2.
Context `{E : Env} `{LSL : LSettingsLaws} {HM : Type -> Type} `{HL : LHashmapLaws HM} (P : Prop).
Implicit Types (st : storage HM) (o : os) (fd : Z).

(** What [get_data_item_groups] leaves in the object, and what it answers. *)
Definition groups_spec fd settings st st' (r : option (list string)) : Prop :=
  exists settings',
    list_lookup fd st' = Some settings' /\ data_groups_kept settings settings' /\
    l_settings_get_groups settings' = data_groups (l_settings_get_groups settings) /\
    r = if last_group_error (l_settings_get_groups settings) 0 <? 0 then None
        else Some (data_groups (l_settings_get_groups settings)).

Lemma get_data_item_groups_step fd settings st o :
  storage_wf st o -> list_lookup fd st = Some settings ->
  post P (get_data_item_groups fd)
    (fun r st' o' => o' = o /\ storage_wf st' o /\ same_others fd st st' /\
       groups_spec fd settings st st' r) st o.
Proof.
  intros Hwf Hfd. unfold get_data_item_groups. do 2 post_step. rewrite Hfd.
  pose proof (data_item_groups_loop_spec settings) as Hl. cbn zeta in Hl.
  destruct (data_item_groups_loop settings 0 _) as [settings' err]. destruct Hl as (H1 & H2 & ->).
  do 3 post_step. cbn beta. split; [done|].
  split; [by eapply storage_wf_write|]. split.
  - intros j Hj. rewrite (storage_wf_lookup_write fd st o settings) by done.
    by rewrite decide_False.
  - exists settings'. rewrite (storage_wf_lookup_write fd st o settings) by done.
    rewrite decide_True by done. repeat split; [apply H2; done..|done|].
    destruct (_ <? 0); [done|]. by rewrite H1.
Qed.

End Groups2.

(** ** The directories of a path

    A path of three parts: what comes before its first slash, the names between two slashes,
    the name of the file. *)

Section Dirs.
Context `{E : Env} {S : Type}.

Definition slash : ascii := "/"%char.
Definition no_slash (l : list ascii) : Prop := Forall (fun c => Ascii.eqb c slash = false) l.

Definition join_dirs (names : list (list ascii)) : list ascii :=
  concat (map (fun n => n ++ [slash]) names).

Definition path_of (first : list ascii) (names : list (list ascii)) (file : list ascii) : string :=
  String.string_of_list_ascii (first ++ slash :: join_dirs names ++ file).

(** The directories made: those of the names below [dir], the longest last. *)
Fixpoint dirs_below (dir : list ascii) (names : list (list ascii)) : list call :=
  match names with
  | [] => []
  | n :: r => C_mkdir (String.string_of_list_ascii (dir ++ n ++ [slash]))
                :: dirs_below (dir ++ n ++ [slash]) r
  end.

Lemma make_dirs_loop_name n : forall dir name l (s : S) o,
  no_slash n -> make_dirs_loop dir name (n ++ l) s o = make_dirs_loop dir (name ++ n) l s o.
Proof.
  induction n as [|c n IH]; intros dir name l s o Hn; cbn; [by rewrite app_nil_r|].
  apply Forall_cons in Hn as [Hc Hn]. change "/"%char with slash. rewrite Hc, IH by done.
  by rewrite <- app_assoc.
Qed.

Lemma after_slash_first first l : no_slash first -> after_slash (first ++ slash :: l) = l.
Proof.
  intros Hf. induction Hf as [|c first Hc _ IH]; cbn; [done|].
  change "/"%char with slash. by rewrite Hc.
Qed.

Lemma path_of_dirs first names file :
  no_slash first -> after_slash (chars (path_of first names file)) = join_dirs names ++ file.
Proof. intros Hf. unfold path_of. rewrite chars_of_chars. by apply after_slash_first. Qed.

Lemma make_dirs_loop_dirs (Hlaw : EnvLaws) names file : forall dir (s : S) o,
  Forall (fun n => n <> [] /\ no_slash n) names -> no_slash file ->
  wlp (make_dirs_loop dir [] (join_dirs names ++ file))
    (fun rc _ o' => rc = 0 -> os_log o' = rev (dirs_below dir names) ++ os_log o) s o.
Proof.
  intros dir s o Hn Hf. revert dir s o.
  induction Hn as [|n names [Hne Hns] _ IH]; intros dir s o; cbn.
  { pose proof (make_dirs_loop_name file dir [] [] s o Hf) as He. rewrite app_nil_r in He.
    by eapply post_eq. }
  unfold join_dirs. cbn. fold (join_dirs names). rewrite <- !app_assoc.
  eapply post_eq; [by apply make_dirs_loop_name|]. cbn [app make_dirs_loop].
  change (Ascii.eqb slash "/") with true. cbn iota.
  destruct n as [|c n]; [done|].
  match goal with |- context [(?a <? ?b)%nat] => destruct (a <? b)%nat; [done|] end.
  do 2 post_step.
  set (d := C_mkdir (String.string_of_list_ascii (dir ++ (c :: n) ++ [slash]))).
  assert (forall o1, os_log o1 = d :: os_log o ->
    wlp (make_dirs_loop (dir ++ (c :: n) ++ [slash]) [] (join_dirs names ++ file))
      (fun rc _ o' => rc = 0 -> os_log o' =
         rev (dirs_below (dir ++ (c :: n) ++ [slash]) names) ++ d :: os_log o) s o1) as Hrest.
  { intros o1 Ho1. eapply post_mono; [apply IH|]. cbn beta. intros rc s' o' Ho' Hrc.
    by rewrite (Ho' Hrc), Ho1. }
  post_step; [|by apply Hrest]. do 3 post_step; [by apply Hrest|].
  post_step. intros H0. cbn in H0. subst a.
  match goal with H : (a_rc _ =? -1) = true |- _ => apply Z.eqb_eq in H end.
  match goal with H : a_errno (env_answer ?h) = 0 |- _ => pose proof (failed_errno h) end. lia.
Qed.
End Dirs.

(** ** Properties *)

Section Properties.
Context `{E : Env} (Hlaw : EnvLaws) `{LSL : LSettingsLaws} {HM : Type -> Type}
  `{HL : LHashmapLaws HM}.
Implicit Types (st : storage HM) (o : os) (fd : Z).

(** C18: A value of any kind but float that was written to a key is there when the file is closed and
    opened again, and every other key of the file has the value it had, as long as no write was
    short; a float is stored as a decimal text, and nothing is claimed of it. *)
Theorem storage_key_persists k fd path group key v settings st o :
  storage_wf st o -> list_lookup fd st = Some settings -> os_fds o !! fd = Some path ->
  (String.length path <= PATH_MAX)%nat -> k <> KFloat -> skind_range k v ->
  wp (let! rc := storage_write_key k fd group key v in
      storage_close fd ;;
      let! fd' := storage_open path in
      ret (rc, fd'))
    (fun r st' o' => r.1 <= 0 /\ storage_wf st' o' /\
       (whole_writes o' -> r.1 = 0 -> 0 <= r.2 ->
        exists settings', list_lookup r.2 st' = Some settings' /\
          l_settings_get k settings' group key = Some v /\
          settings_agree_off group key settings settings')) st o.
Proof.
  intros Hwf Hfd Hp Hlen Hk Hv. apply post_bind. eapply post_mono.
  { by apply (storage_update_spec False (- EINVAL) fd
                (fun s => l_settings_set k s group key v) path settings). }
  intros rc st1 o1 [Hwf1 [Hq1 Hfds1 _ _] _ Hobj _ Hrc Hst]. apply post_bind. eapply post_mono.
  { by apply (storage_close_spec False fd _ st1 o1 Hwf1 Hobj). }
  intros rc2 st2 o2 (Hq2 & Hwf2 & Hf2 & _). apply post_bind. eapply post_mono.
  { by apply (storage_open_spec False Hlaw path st2 o2). }
  intros fd' st3 o3 [Hq3 Hwf3 Hr]. post_step. cbn. split; [by apply Hrc|]. split; [done|].
  intros Hw Hrc0 Hfd'. pose proof (whole_writes_before _ _ Hq2 (whole_writes_before _ _ Hq3 Hw)) as Hw1.
  destruct (Hst Hlaw Hw1 Hrc0) as (s' & Hs' & Hfile).
  destruct Hr as [[? _]|(_ & _ & _ & _ & _ & Hl)]; [lia|].
  eexists. split; [exact Hl|]. rewrite Hf2, Hfile. unfold load_file. cbn.
  split; [rewrite load_to_data; by eapply set_get|].
  eapply settings_agree_off_equiv; [by eapply set_off|apply load_to_data].
Qed.

(** C19: Opening a file and closing it leaves no descriptor and no object behind, whether or not the
    file could be opened; the contents of every file are what they were. *)
Theorem storage_open_close path st o :
  (String.length path <= PATH_MAX)%nat -> storage_wf st o ->
  wp (let! fd := storage_open path in
      when (0 <=? fd) (storage_close fd ;; ret tt))
    (fun _ st' o' => storage_wf st' o' /\ os_fds o' = os_fds o /\
       (forall j, list_lookup j st' = list_lookup j st) /\
       forall q, default EmptyString (os_files o' !! q) = default EmptyString (os_files o !! q))
    st o.
Proof.
  intros Hlen Hwf. apply post_bind. eapply post_mono; [by apply storage_open_spec|].
  intros fd st1 o1 [_ Hwf1 [(Hfd & -> & Hf & Hd)|(Hfd & Hn & Hd & Hf & Ho & Hl)]]; cbn beta.
  - rewrite (proj2 (Z.leb_gt _ _)) by done. cbn. split; [done|]. split; [done|].
    split; [done|]. by rewrite Hf.
  - rewrite (proj2 (Z.leb_le _ _)) by done. cbn [when]. apply post_bind.
    eapply post_mono; [by eapply storage_close_spec|].
    intros rc st2 o2 (_ & Hwf2 & Hf2 & Hd2 & Ho2 & Hl2). post_step. split; [done|].
    split; [by rewrite Hd2, Hd, delete_insert_id|]. split.
    + intros j. destruct (decide (j = fd)) as [->|Hj]; [|by rewrite Ho2, Ho].
      rewrite Hl2. destruct (list_lookup fd st) eqn:E'; [|done].
      destruct (wf_open _ _ Hwf _ _ E') as (p & Hp & _). congruence.
    + intros q. rewrite Hf2, Hf. destruct (decide (q = path)) as [->|Hq].
      * by rewrite lookup_insert_eq.
      * by rewrite lookup_insert_ne.
Qed.

(** C26: The groups of the data items are found by removing every other group from the object, the
    keys of those that stay untouched, whatever groups the object has; of the names that start
    like the name of a data item only the last one is checked, so that neither a bad name
    before it nor a group that occurs twice is an error. *)
Theorem get_data_item_groups_spec fd settings st o :
  storage_wf st o -> list_lookup fd st = Some settings ->
  wp (get_data_item_groups fd) (fun r st' o' => o' = o /\ groups_spec fd settings st st' r) st o.
Proof.
  intros Hwf Hfd. eapply post_mono; [by apply get_data_item_groups_step|].
  by intros r st' o' (-> & _ & _ & H).
Qed.
(** C36: What saving the settings leaves in the file, case by case. When the file cannot be emptied
    it is what it was; when the write fails the file, emptied already, is left empty; any other
    write is reported as a success, and the file holds as many bytes of the settings as were
    written: a short write cuts them off. No other file and no descriptor is touched. *)
Theorem save_settings_cases fd path old settings st o :
  os_fds o !! fd = Some path -> os_files o !! path = Some old ->
  let data := l_settings_to_data settings in
  let emptied := env_answer (C_ftruncate fd :: os_log o) in
  let written := env_answer (C_pwrite fd data :: C_ftruncate fd :: os_log o) in
  wp (save_settings fd settings)
    (fun rc st' o' => st' = st /\ os_fds o' = os_fds o /\
       (forall q, q <> path -> os_files o' !! q = os_files o !! q) /\
       if decide (a_rc emptied < 0) then
         rc = - a_errno emptied /\ os_files o' !! path = Some old
       else if decide (a_rc written < 0) then
         rc = - a_errno written /\ os_files o' !! path = Some EmptyString
       else
         rc = 0 /\ os_files o' !! path =
           Some (String.string_of_list_ascii (take (Z.to_nat (a_rc written)) (chars data)))) st o.
Proof.
  intros Hfd Hf. cbn zeta. unfold save_settings. apply post_bind.
  apply post_ftruncate with path; [done|..]; intros a Ha Hrc.
  { change (-1 =? -1) with true. cbn iota. post_steps. rewrite <- Ha, decide_True by done. done. }
  change (0 =? -1) with false. cbn iota.
  apply post_bind, post_pwrite with path; [done|..].
  - intros a' Ha' Hrc'. change (-1 <? 0) with true. cbn iota. post_steps.
    cbn in Ha'. rewrite <- Ha, <- Ha', (decide_False (P := a_rc a < 0)), decide_True by lia.
    cbn. rewrite lookup_alter_eq, Hf.
    split_and!; try done. intros q Hq. by rewrite lookup_alter_ne.
  - intros a' n Ha' Hrc' Hn. assert (0 <= n) by (unfold strlen in Hn; lia).
    rewrite (proj2 (Z.ltb_ge _ _)) by done. post_step.
    cbn in Ha'. rewrite <- Ha, <- Ha', !decide_False by lia. cbn. rewrite !lookup_alter_eq, Hf.
    split_and!; try done.
    + intros q Hq. by rewrite !lookup_alter_ne.
    + cbn. f_equal. unfold overwrite. cbn. rewrite drop_nil, app_nil_r. f_equal.
      subst n. unfold strlen. rewrite Z2Nat.inj_min, Nat2Z.id, <- length_chars.
      destruct (Nat.min_spec (Z.to_nat (a_rc a')) (length (chars (l_settings_to_data settings))))
        as [[_ ->]|[Hle ->]]; [done|]. by rewrite firstn_all, take_ge.
Qed.

(** C40: The directories of the path of a file that does not exist are made one below the other; they
    are made below the root, and what comes before the first slash is left out. *)
Theorem make_dirs_makes {S} first names file (s : S) o :
  let filename := path_of first names file in
  no_slash first -> Forall (fun n => n <> [] /\ no_slash n) names -> no_slash file ->
  a_rc (env_answer (C_stat filename :: os_log o)) < 0 ->
  wlp (make_dirs filename)
    (fun rc _ o' => rc = 0 ->
       os_log o' = rev (dirs_below [slash] names) ++ C_stat filename :: os_log o) s o.
Proof.
  cbn zeta. intros Hfirst Hn Hfile Hst. unfold make_dirs. do 2 post_step. subst a.
  rewrite (proj2 (Z.eqb_neq _ _)) by lia. cbn [andb].
  rewrite path_of_dirs by done.
  eapply post_mono; [by apply make_dirs_loop_dirs|]. cbn beta. intros rc s' o' H Hrc.
  by rewrite (H Hrc).
Qed.
End Properties.

(** ** Witnesses *)

(** A system where no file is a directory yet: [stat] fails. *)
Definition empty_system : Env := fun log =>
  match log with
  | C_stat _ :: _ => Answer (-1) ENOENT []
  | _ => quiet_env log
  end.

Lemma empty_system_laws : EnvLaws (E := empty_system).
Proof.
  split. intros [|[]]; cbn; unfold ENOENT, strlen; lia.
Qed.

Definition example_storage : storage (LS := example_settings) (fun V => list (Z * V)) :=
  Storage (Some [(3, ([] : list string, ∅ : gmap (string * string) (string + Z)))]).

Definition example_os : os :=
  Os [] 0 {["device.conf" := ""%string]} {[3 := "device.conf"%string]} ∅ 1.

Lemma example_storage_wf :
  storage_wf (LS := example_settings) (LHashmap0 := list_hashmap) example_storage example_os.
Proof.
  split.
  - intros h [= <-]. unfold hm_uniq. cbn. apply NoDup_singleton.
  - intros fd settings. unfold list_lookup. cbn -[Z.eqb]. destruct (Z.eqb_spec 3 fd) as [<-|]; [|done].
    intros _. exists "device.conf"%string. split; [by vm_compute|].
    exists ""%string. by vm_compute.
Qed.

Lemma storage_key_persists_witness :
  wp (let! rc := storage_write_key (E := quiet_env) (LS := example_settings) (LH := list_hashmap)
                   KInt 3 "DataItem_1" "EventTimeSec" 5 in
      storage_close (E := quiet_env) (LS := example_settings) (LH := list_hashmap) 3 ;;
      let! fd' := storage_open (E := quiet_env) (LS := example_settings) (LH := list_hashmap)
                    "device.conf" in
      ret (rc, fd'))
    (fun r st' o' => r.1 <= 0 /\ storage_wf (LHashmap0 := list_hashmap) st' o' /\
       (whole_writes (H := quiet_env) o' -> r.1 = 0 -> 0 <= r.2 ->
        exists settings', list_lookup (LH := list_hashmap) r.2 st' = Some settings' /\
          l_settings_get (LSettings := example_settings) KInt settings' "DataItem_1" "EventTimeSec"
            = Some 5 /\
          settings_agree_off (H := example_settings) "DataItem_1" "EventTimeSec" ([], ∅) settings'))
    example_storage example_os.
Proof.
  apply (storage_key_persists quiet_env_laws (LSL := example_settings_laws)
           (HL := list_hashmap_laws)); [apply example_storage_wf|done|done| |done|done].
  cbn. unfold PATH_MAX. lia.
Defined.

(** Ten bytes are written, and no error is seen. *)
Definition short_env : Env := fun log =>
  match log with C_pwrite _ _ :: _ => Answer 10 0 [] | _ => Answer 0 0 [] end.

Lemma save_settings_cases_witness :
  let settings := (["Thing"; "DataItem_0"]%string, {[("Thing"%string, "Name"%string) := inl "Tank"%string]}) in
  exists rest, rest <> ""%string /\
  wp (save_settings (E := short_env) (LS := example_settings) 3 settings)
    (fun rc st' o' => rc = 0 /\ exists text, os_files o' !! "device.conf"%string = Some text /\
       (text +:+ rest)%string = l_settings_to_data (LSettings := example_settings) settings)
    example_storage example_os.
Proof.
  intros settings.
  exists (String.string_of_list_ascii
    (drop 10 (chars (l_settings_to_data (LSettings := example_settings) settings)))).
  split; [by vm_compute|]. eapply post_mono.
  - apply (save_settings_cases (E := short_env) (LS := example_settings) 3 "device.conf"
      (default "" (os_files example_os !! "device.conf")) settings); by vm_compute.
  - cbn beta. intros rc st' o' (_ & _ & _ & H).
    destruct (decide (a_rc _ < 0)) as [H1|_] in H; [by vm_compute in H1|].
    destruct (decide (a_rc _ < 0)) as [H1|_] in H; [by vm_compute in H1|].
    destruct H as [-> ->]. split; [done|]. eexists. split; [done|]. by vm_compute.
Defined.

Lemma storage_open_close_witness :
  wp (let! fd := storage_open (E := quiet_env) (LS := example_settings) (LH := list_hashmap)
                   "cloud.conf" in
      when (0 <=? fd)
        (storage_close (E := quiet_env) (LS := example_settings) (LH := list_hashmap) fd ;; ret tt))
    (fun _ st' o' => storage_wf (LHashmap0 := list_hashmap) st' o' /\
       os_fds o' = os_fds example_os /\
       (forall j, list_lookup (LH := list_hashmap) j st'
                  = list_lookup (LH := list_hashmap) j example_storage) /\
       forall q, default EmptyString (os_files o' !! q)
                 = default EmptyString (os_files example_os !! q))
    example_storage example_os.
Proof.
  apply (storage_open_close quiet_env_laws (HL := list_hashmap_laws)); [|apply example_storage_wf].
  cbn. unfold PATH_MAX. lia.
Defined.

(** A device file with a group that is no data item, a data item that occurs twice and one with a
    bad name between them. *)
Definition example_groups : l_settings (LSettings := example_settings) :=
  (["KNoTThing"; "DataItem_1"; "DataItem_x"; "DataItem_1"]%string,
   {[("DataItem_1", "SchemaSensorId")%string := inr 1; ("KNoTThing", "Name")%string := inl "n"%string]}).

Definition groups_storage : storage (LS := example_settings) (fun V => list (Z * V)) :=
  Storage (Some [(3, example_groups)]).

Lemma groups_storage_wf :
  storage_wf (LS := example_settings) (LHashmap0 := list_hashmap) groups_storage example_os.
Proof.
  split.
  - intros h [= <-]. unfold hm_uniq. cbn. apply NoDup_singleton.
  - intros fd settings. unfold list_lookup. cbn -[Z.eqb]. destruct (Z.eqb_spec 3 fd) as [<-|]; [|done].
    intros _. exists "device.conf"%string. split; [by vm_compute|].
    exists ""%string. by vm_compute.
Qed.

Lemma get_data_item_groups_spec_witness :
  fst <$> (fst <$> get_data_item_groups (LS := example_settings) (LH := list_hashmap) 3
                     groups_storage example_os)
    = Some (Some ["DataItem_1"; "DataItem_x"; "DataItem_1"]%string) /\
  wp (get_data_item_groups (LS := example_settings) (LH := list_hashmap) 3)
    (fun r st' o' => o' = example_os /\
       groups_spec (LS := example_settings) (LHashmap0 := list_hashmap) 3 example_groups
         groups_storage st' r) groups_storage example_os.
Proof.
  split; [by vm_compute|].
  apply (get_data_item_groups_spec (LSL := example_settings_laws) (HL := list_hashmap_laws));
    [apply groups_storage_wf|done].
Defined.

(** A relative path: its first directory is left out and the rest made below the
    root. *)
Lemma make_dirs_makes_witness :
  wlp (make_dirs (E := empty_system) "etc/knot/device.conf")
    (fun rc _ o' => rc = 0 -> os_log o' = [C_mkdir "/knot/"; C_stat "etc/knot/device.conf"])
    tt (os_init ∅).
Proof.
  apply (make_dirs_makes empty_system_laws (chars "etc") [chars "knot"] (chars "device.conf") tt
           (os_init ∅)).
  - by repeat constructor.
  - by repeat constructor.
  - by repeat constructor.
  - done.
Defined.
