(* ===== verification/Session.v ===== *)
(** * Sessions on a file: opened, used, closed (clients of src/storage.c)

    What a function keeps that opens one file, works on it and closes it, and what holds while
    it has the file open. *)

From S2P Require Import Prelude Knot Ext Ell Storage.

Section Session.
Context `{E : Env} (Hlaw : EnvLaws) `{LSL : LSettingsLaws} {HM : Type -> Type}
  `{HL : LHashmapLaws HM} (P : Prop).
Implicit Types (st : storage HM) (o : os) (fd : Z) (path : string).

(** A missing file and an empty one read the same. *)
Definition contents (o : os) (q : string) : string := default EmptyString (os_files o !! q).

(** After a session on [path]: no descriptor and no object is left, and no other file was
    touched. *)
Record session path st st' o o' : Prop := {
  session_wf : storage_wf st' o';
  session_quiet : os_quiet o o';
  session_fds : os_fds o' = os_fds o;
  session_lookup j : list_lookup j st' = list_lookup j st;
  session_files q : q <> path -> contents o' q = contents o q
}.

(** During it: [fd] is the descriptor of [path], [settings] its object. *)
Record during path fd settings st st' o o' : Prop := {
  during_wf : storage_wf st' o';
  during_quiet : os_quiet o o';
  during_free : os_fds o !! fd = None;
  during_fds : os_fds o' = <[fd := path]> (os_fds o);
  during_fresh : list_lookup fd st = None;
  during_lookup : list_lookup fd st' = Some settings;
  during_others : same_others fd st st';
  during_files q : q <> path -> contents o' q = contents o q
}.

(** After sessions that only read: nothing is left and every file holds what it held. *)
Record restored st st' o o' : Prop := {
  restored_wf : storage_wf st' o';
  restored_quiet : os_quiet o o';
  restored_fds : os_fds o' = os_fds o;
  restored_lookup j : list_lookup j st' = list_lookup j st;
  restored_files q : contents o' q = contents o q
}.

Lemma restored_refl st o : storage_wf st o -> restored st st o o.
Proof. by split. Qed.

Lemma restored_trans st1 st2 st3 o1 o2 o3 :
  restored st1 st2 o1 o2 -> restored st2 st3 o2 o3 -> restored st1 st3 o1 o3.
Proof.
  intros [W1 Q1 F1 L1 C1] [W2 Q2 F2 L2 C2]. split; [done|by etrans|congruence|..]; intros.
  - by rewrite L2.
  - by rewrite C2.
Qed.

Lemma session_restored path st st' o o' :
  session path st st' o o' -> contents o' path = contents o path -> restored st st' o o'.
Proof.
  intros [W Q F L C] Hp. split; try done. intros q.
  destruct (decide (q = path)) as [->|]; [done|by apply C].
Qed.

Lemma session_refl path st o : storage_wf st o -> session path st st o o.
Proof. by split. Qed.

(** Opening a file: an error, or a session on the settings the file holds. *)
Lemma session_open path st o :
  (String.length path <= PATH_MAX)%nat -> storage_wf st o ->
  post P (storage_open path)
    (fun fd st' o' =>
       (fd < 0 /\ st' = st /\ session path st st' o o' /\ os_files o' = os_files o) \/
       (0 <= fd /\ during path fd (load_file (os_files o !! path)) st st' o o' /\
        contents o' path = contents o path)) st o.
Proof.
  intros Hlen Hwf. eapply post_mono; [by apply storage_open_spec|].
  intros fd st' o' [Hq Hwf' [(Hfd & -> & Hf & Hd)|(Hfd & Hn & Hd & Hf & Ho & Hl)]]; [left|right].
  - split; [done|]. split; [done|]. split; [|done]. split; try done.
    intros q _. unfold contents. by rewrite Hf.
  - split; [done|]. split; cycle 1.
    { unfold contents. rewrite Hf. by rewrite lookup_insert_eq. }
    split; try done.
    + destruct (list_lookup fd st) eqn:El; [|done].
      destruct (wf_open _ _ Hwf _ _ El) as (p & Hp & _). congruence.
    + intros q Hq'. unfold contents. rewrite Hf. by rewrite lookup_insert_ne.
Qed.

Lemma session_close path fd settings st0 o0 st o :
  during path fd settings st0 st o0 o ->
  post P (storage_close fd)
    (fun _ st' o' => session path st0 st' o0 o' /\ os_files o' = os_files o /\ os_quiet o o') st o.
Proof.
  intros [Hwf Hq Hfree Hfds Hfr Hl Ho Hf]. eapply post_mono; [by eapply storage_close_spec|].
  intros rc st' o' (Hq' & Hwf' & Hf' & Hd' & Ho' & Hl'). split; [|done]. split.
  - done.
  - by etrans.
  - by rewrite Hd', Hfds, delete_insert_id.
  - intros j. destruct (decide (j = fd)) as [->|Hj]; [by rewrite Hl', Hfr|].
    by rewrite Ho', Ho.
  - intros q Hq2. unfold contents in *. rewrite Hf'. by apply Hf.
Qed.

(** Changing the settings of the open file. *)
Lemma session_update err fd upd path settings st0 o0 st o :
  during path fd settings st0 st o0 o ->
  post P (storage_update err fd upd)
    (fun rc st' o' =>
       during path fd (default settings (upd settings)) st0 st' o0 o' /\ rc <= 0 /\
       (upd settings = None -> rc = - EINVAL /\ o' = o) /\
       (rc = 0 -> exists s', upd settings = Some s' /\
          (whole_writes o' -> contents o' path = l_settings_to_data s')))
    st o.
Proof.
  intros [Hwf Hq Hfree Hfds Hfr Hl Ho Hf].
  eapply post_mono; [apply (storage_update_spec P err fd upd path settings); [done|done|]|].
  { rewrite Hfds. apply lookup_insert_eq. }
  intros rc st' o' [Hwf' [Hq' Hfds' Hf' _] Ho' Hl' Hnone Hrc Hst]. split; [|split; [|split]].
  - split; try done.
    + by etrans.
    + by rewrite Hfds'.
    + intros j Hj. by rewrite Ho', Ho.
    + intros q Hn. unfold contents in *. rewrite Hf' by done. by apply Hf.
  - by apply Hrc.
  - intros Hn. destruct (Hnone Hn) as [-> ->]. done.
  - intros H0. destruct (upd settings) as [s'|] eqn:Hs; [|by destruct (Hnone eq_refl); subst].
    exists s'. split; [done|]. intros Hw. destruct (Hst Hlaw Hw H0) as (s2 & [= <-] & Hf2).
    unfold contents. by rewrite Hf2.
Qed.

(** The instances of [session_update] for the operations of storage.c are by conversion. *)
Lemma session_write_key k fd group key v path settings st0 o0 st o :
  during path fd settings st0 st o0 o ->
  post P (storage_write_key k fd group key v)
    (fun rc st' o' =>
       during path fd (default settings (l_settings_set k settings group key v)) st0 st' o0 o' /\
       rc <= 0 /\
       (l_settings_set k settings group key v = None ->
          rc = - EINVAL /\ o' = o) /\
       (rc = 0 -> exists s', l_settings_set k settings group key v = Some s' /\
          (whole_writes o' -> contents o' path = l_settings_to_data s'))) st o.
Proof. apply (session_update (- EINVAL) fd (fun s => l_settings_set k s group key v)). Qed.

Lemma session_write_string fd group key v path settings st0 o0 st o :
  during path fd settings st0 st o0 o ->
  post P (storage_write_key_string fd group key v)
    (fun rc st' o' =>
       during path fd (default settings (l_settings_set_string settings group key v))
         st0 st' o0 o' /\
       rc <= 0 /\
       (l_settings_set_string settings group key v = None ->
          rc = - EINVAL /\ o' = o) /\
       (rc = 0 -> exists s', l_settings_set_string settings group key v = Some s' /\
          (whole_writes o' -> contents o' path = l_settings_to_data s'))) st o.
Proof. apply (session_update (- EIO) fd (fun s => l_settings_set_string s group key v)). Qed.

Lemma session_remove_key fd group key path settings st0 o0 st o :
  during path fd settings st0 st o0 o ->
  post P (storage_remove_key fd group key)
    (fun rc st' o' =>
       during path fd (default settings (l_settings_remove_key settings group key))
         st0 st' o0 o' /\
       rc <= 0 /\
       (l_settings_remove_key settings group key = None ->
          rc = - EINVAL /\ o' = o) /\
       (rc = 0 -> exists s', l_settings_remove_key settings group key = Some s' /\
          (whole_writes o' -> contents o' path = l_settings_to_data s'))) st o.
Proof. apply (session_update (- EINVAL) fd (fun s => l_settings_remove_key s group key)). Qed.

Lemma session_groups fd path settings st0 o0 st o :
  during path fd settings st0 st o0 o ->
  post P (get_data_item_groups fd)
    (fun r st' o' => o' = o /\ exists settings',
       during path fd settings' st0 st' o0 o' /\
       (forall groups, r = Some groups -> groups = l_settings_get_groups settings') /\
       data_groups_kept settings settings' /\
       l_settings_get_groups settings' = data_groups (l_settings_get_groups settings) /\
       r = if last_group_error (l_settings_get_groups settings) 0 <? 0 then None
           else Some (data_groups (l_settings_get_groups settings))) st o.
Proof.
  intros [Hwf Hq Hfree Hfds Hfr Hl Ho Hf].
  unfold get_data_item_groups. do 2 post_step. rewrite Hl.
  pose proof (data_item_groups_loop_spec settings) as Hloop. cbn zeta in Hloop.
  destruct (data_item_groups_loop settings 0 _) as [settings' err].
  destruct Hloop as (H1 & H2 & ->). do 3 post_step. cbn beta. split; [done|].
  exists settings'. split.
  - split; try done; [by eapply storage_wf_write| |].
    + rewrite (storage_wf_lookup_write fd st o settings) by done. by rewrite decide_True.
    + intros j Hj. rewrite (storage_wf_lookup_write fd st o settings) by done.
      rewrite decide_False by done. by apply Ho.
  - split; [intros groups; destruct (_ <? 0); [done|by intros [= <-]]|].
    split; [done|]. split; [done|]. rewrite H1. by destruct (_ <? 0).
Qed.
End Session.
