(* ===== verification/Thing.v ===== *)
(** * The virtual thing (struct knot_thing of src/device.c)

    The one object [thing] of device.c, its data items, and the functions of device.c that set
    its fields, which properties.c calls; what an id it generates is. *)

From S2P Require Import Prelude Scan Knot Ext Ell.

(** ** Data *)

Record modbus_source_t := ModbusSource {
  reg_addr : Z; bit_offset : Z; endianness_type_sensor : Z
}.

Record knot_data_item := KnotDataItem {
  sensor_id : Z;
  schema : knot_schema;
  event : knot_event;
  current_val : knot_value_type;
  sent_val : knot_value_type;
  modbus_source : modbus_source_t
}.

Record modbus_slave_t := ModbusSlave { slave_id : Z; slave_url : option string }.

(** [struct device_settings]; the paths are NULL until the device has started. *)
Record device_settings := DeviceSettings {
  credentials_path : option string;
  device_path : option string;
  cloud_path : option string
}.

Record knot_thing (HM : Type -> Type) := KnotThing {
  token : list ascii;      (* char token[KNOT_PROTOCOL_TOKEN_LEN + 1] *)
  id : list ascii;         (* char id[KNOT_PROTOCOL_UUID_LEN + 1] *)
  name : list ascii;       (* char name[KNOT_PROTOCOL_DEVICE_NAME_LEN] *)
  user_token : option string;
  modbus_slave : modbus_slave_t;
  rabbitmq_url : option string;
  conf_files : device_settings;
  data_items : option (HM knot_data_item);
  msg_to : Z
}.
Arguments KnotThing {HM} _ _ _ _ _ _ _ _ _.
Arguments token {HM} _.
Arguments id {HM} _.
Arguments name {HM} _.
Arguments user_token {HM} _.
Arguments modbus_slave {HM} _.
Arguments rabbitmq_url {HM} _.
Arguments conf_files {HM} _.
Arguments data_items {HM} _.
Arguments msg_to {HM} _.

Section Fields.
Context {HM : Type -> Type}.
Implicit Types (t : knot_thing HM).

Definition set_token v t := KnotThing v (id t) (name t) (user_token t) (modbus_slave t)
  (rabbitmq_url t) (conf_files t) (data_items t) (msg_to t).
Definition set_id v t := KnotThing (token t) v (name t) (user_token t) (modbus_slave t)
  (rabbitmq_url t) (conf_files t) (data_items t) (msg_to t).
Definition set_name v t := KnotThing (token t) (id t) v (user_token t) (modbus_slave t)
  (rabbitmq_url t) (conf_files t) (data_items t) (msg_to t).
Definition set_user_token v t := KnotThing (token t) (id t) (name t) v (modbus_slave t)
  (rabbitmq_url t) (conf_files t) (data_items t) (msg_to t).
Definition set_modbus_slave v t := KnotThing (token t) (id t) (name t) (user_token t) v
  (rabbitmq_url t) (conf_files t) (data_items t) (msg_to t).
Definition set_rabbitmq_url v t := KnotThing (token t) (id t) (name t) (user_token t)
  (modbus_slave t) v (conf_files t) (data_items t) (msg_to t).
Definition set_conf_files v t := KnotThing (token t) (id t) (name t) (user_token t)
  (modbus_slave t) (rabbitmq_url t) v (data_items t) (msg_to t).
Definition set_items (v : option (HM knot_data_item)) t := KnotThing (token t) (id t) (name t) (user_token t)
  (modbus_slave t) (rabbitmq_url t) (conf_files t) v (msg_to t).
Definition set_msg_to v t := KnotThing (token t) (id t) (name t) (user_token t)
  (modbus_slave t) (rabbitmq_url t) (conf_files t) (data_items t) v.
End Fields.

Definition set_current_val (v : knot_value_type) (i : knot_data_item) : knot_data_item :=
  KnotDataItem (sensor_id i) (schema i) (event i) v (sent_val i) (modbus_source i).
Definition set_sent_val (v : knot_value_type) (i : knot_data_item) : knot_data_item :=
  KnotDataItem (sensor_id i) (schema i) (event i) (current_val i) v (modbus_source i).

Section Thing.
Context `{KP : KnotProtocol} `{E : Env} {HM : Type -> Type} `{LH : !LHashmap HM}.
Implicit Types (t : knot_thing HM).

(** The static object before the device starts. *)
Definition thing_init : knot_thing HM :=
  KnotThing (replicate (S KNOT_PROTOCOL_TOKEN_LEN) NUL) (replicate (S KNOT_PROTOCOL_UUID_LEN) NUL)
    (replicate KNOT_PROTOCOL_DEVICE_NAME_LEN NUL) None (ModbusSlave 0 None) None
    (DeviceSettings None None None) None 0.

(** The entries of the map, in the order [l_hashmap_foreach] visits them; none when it is
    NULL. *)
Definition items t : list (Z * knot_data_item) :=
  match data_items t with Some h => l_hashmap_entries h | None => [] end.

(** A string copied into an array it has to fit. *)
Definition strcpy_to (field : knot_thing HM -> list ascii)
    (set_field : list ascii -> knot_thing HM -> knot_thing HM) (s : string)
    : M (knot_thing HM) () :=
  let! t := get in
  if (String.length s <? length (field t))%nat
  then modify (set_field (strcpy (field t) s))
  else UB.

(** ** The functions of device.c *)

Definition device_set_thing_name (thing_name : string) : M (knot_thing HM) () :=
  strcpy_to name set_name thing_name.

Definition device_set_thing_user_token (user_token : string) : M (knot_thing HM) () :=
  modify (set_user_token (Some user_token)).

Definition device_set_thing_modbus_slave (slave_id : Z) (url : string) : M (knot_thing HM) () :=
  modify (set_modbus_slave (ModbusSlave slave_id (Some url))).

Definition device_set_new_data_item (sensor_id : Z) (schema : knot_schema) (event : knot_event)
    (reg_addr bit_offset endianness_type : Z) : M (knot_thing HM) () :=
  let data_item_aux := KnotDataItem sensor_id schema event 0 0
    (ModbusSource reg_addr bit_offset endianness_type) in
  modify (fun t =>
    match data_items t with
    | Some h => set_items (Some (l_hashmap_insert h sensor_id data_item_aux)) t
    | None => t
    end).

Definition device_data_item_lookup (sensor_id : Z) : M (knot_thing HM) (option knot_data_item) :=
  let! t := get in
  ret match data_items t with Some h => l_hashmap_lookup h sensor_id | None => None end.

(** A write through the pointer to an item. *)
Definition item_write (key : Z) (i : knot_data_item) : M (knot_thing HM) () :=
  modify (fun t =>
    match data_items t with
    | Some h => set_items (Some (l_hashmap_write h key i)) t
    | None => t
    end).

Definition update_item_schema (s : knot_schema) (c : knot_schema) : knot_schema :=
  KnotSchema (schema_type_id c) (schema_unit c) (schema_value_type c)
    (strncpy (schema_name s) (cstr (schema_name c)) KNOT_PROTOCOL_DATA_NAME_LEN).

Definition update_item_event (value_type : Z) (e : knot_event) (c : knot_event) : knot_event :=
  KnotEvent (event_flags c) (event_time_sec c)
    (knot_value_assign_limit value_type (event_lower_limit c) (event_lower_limit e))
    (knot_value_assign_limit value_type (event_upper_limit c) (event_upper_limit e)).

Definition device_update_config_data_item (config : knot_msg_config) : M (knot_thing HM) () :=
  let! data_item := device_data_item_lookup (config_sensor_id config) in
  match data_item with
  | None => ret tt
  | Some i =>
      item_write (config_sensor_id config)
        (KnotDataItem (sensor_id i) (update_item_schema (schema i) (config_schema config))
           (if negb (flag_set (event_flags (config_event config)) KNOT_EVT_FLAG_UNREGISTERED)
            then update_item_event (schema_value_type (config_schema config)) (event i)
                   (config_event config)
            else event i)
           (current_val i) (sent_val i) (modbus_source i))
  end.

Definition device_set_thing_rabbitmq_url (url : string) : M (knot_thing HM) () :=
  modify (set_rabbitmq_url (Some url)).

Definition device_set_thing_credentials (thing_id thing_token : option string)
    : M (knot_thing HM) () :=
  let! i := deref thing_id in
  modify (fun t => set_id (strncpy (id t) i KNOT_PROTOCOL_UUID_LEN) t) ;;
  let! k := deref thing_token in
  modify (fun t => set_token (strncpy (token t) k KNOT_PROTOCOL_TOKEN_LEN) t).

Definition device_generate_thing_id : M (knot_thing HM) () :=
  let! a := ext (C_getrandom 8) in
  strcpy_to id set_id (print_hex (u64 (default 0 (a_data a !! 0%nat)))).

Definition device_clear_thing_id : M (knot_thing HM) () :=
  modify (fun t => set_id (<[0%nat := NUL]> (id t)) t).

Definition device_clear_thing_token : M (knot_thing HM) () :=
  modify (fun t => set_token (<[0%nat := NUL]> (token t)) t).

Definition device_has_thing_token : M (knot_thing HM) Z :=
  let! t := get in
  ret (c_int (negb (bool_decide (head (token t) = Some NUL)))).

Definition device_get_id : M (knot_thing HM) string :=
  let! t := get in ret (cstr (id t)).
End Thing.

(** ** Invariant

    The arrays have the size they are declared with and end the strings they hold; an item is
    under its own id. *)

Section Invariant.
Context `{KL : KnotProtocolLaws} {HM : Type -> Type} `{HL : LHashmapLaws HM}.
Implicit Types (t : knot_thing HM).

Record thing_wf t : Prop := {
  token_array : array_ok KNOT_PROTOCOL_TOKEN_LEN (token t);
  id_array : array_ok KNOT_PROTOCOL_UUID_LEN (id t);
  name_array : length (name t) = KNOT_PROTOCOL_DEVICE_NAME_LEN;
  items_uniq h : data_items t = Some h -> hm_uniq h;
  items_keys k i : (k, i) ∈ items t -> k = sensor_id i
}.

Lemma thing_init_wf : thing_wf thing_init.
Proof.
  split; cbn [token id name data_items thing_init].
  - apply array_ok_replicate.
  - apply array_ok_replicate.
  - apply length_replicate.
  - done.
  - by intros k i ?%elem_of_nil.
Qed.

Lemma thing_wf_new_items t : thing_wf t -> thing_wf (set_items (Some l_hashmap_new) t).
Proof.
  intros [Htok Hid Hname _ _]. split; cbn; try done.
  - intros h [= <-]. apply hm_uniq_new.
  - intros k i. unfold items. cbn. rewrite entries_new. by intros ?%elem_of_nil.
Qed.

(** The invariant reads four fields. *)
Lemma thing_wf_fields t t' :
  array_ok KNOT_PROTOCOL_TOKEN_LEN (token t') -> array_ok KNOT_PROTOCOL_UUID_LEN (id t') ->
  length (name t') = KNOT_PROTOCOL_DEVICE_NAME_LEN -> data_items t' = data_items t ->
  thing_wf t -> thing_wf t'.
Proof.
  intros Htok Hid Hname Hitems [_ _ _ Hu Hk]. unfold items in *. split; try done.
  - by rewrite Hitems.
  - unfold items. by rewrite Hitems.
Qed.

Lemma items_lookup t h k i :
  thing_wf t -> data_items t = Some h ->
  l_hashmap_lookup h k = Some i <-> (k, i) ∈ items t.
Proof. intros Hwf Hh. unfold items. rewrite Hh. apply hm_lookup_spec. by apply (items_uniq t Hwf). Qed.

Lemma thing_wf_write t h k i :
  thing_wf t -> data_items t = Some h -> k = sensor_id i ->
  thing_wf (set_items (Some (l_hashmap_write h k i)) t).
Proof.
  intros [Htok Hid Hname Hu Hk] Hh ->. split; cbn; try done.
  - intros ? [= <-]. apply hm_uniq_write. by apply Hu.
  - intros k' i'. unfold items in *. cbn. rewrite Hh in Hk.
    rewrite entries_write, list_elem_of_fmap by by apply Hu. unfold write_entry.
    intros ([k2 i2] & Hw & Hin). cbn in Hw. case_decide; simplify_eq; [done|by apply Hk].
Qed.

Lemma thing_wf_insert t h k i :
  thing_wf t -> data_items t = Some h -> k = sensor_id i -> l_hashmap_lookup h k = None ->
  thing_wf (set_items (Some (l_hashmap_insert h k i)) t).
Proof.
  intros [Htok Hid Hname Hu Hk] Hh -> Hn. split; cbn; try done.
  - intros ? [= <-]. apply hm_uniq_insert; [done|]. by apply Hu.
  - intros k' i'. unfold items in *. cbn. rewrite Hh in Hk.
    rewrite entries_insert, elem_of_cons. intros [[= -> ->]|Hin]; [done|by apply Hk].
Qed.
End Invariant.

(** ** Specifications of the functions *)

Section Specs.
Context `{KL : KnotProtocolLaws} `{E : Env} {HM : Type -> Type} `{HL : LHashmapLaws HM} (P : Prop).
Implicit Types (t : knot_thing HM) (o : os).

Lemma device_set_thing_name_spec s t o :
  (String.length s < KNOT_PROTOCOL_DEVICE_NAME_LEN)%nat -> thing_wf t ->
  post P (device_set_thing_name s)
    (fun _ t' o' => t' = set_name (strcpy (name t) s) t /\ thing_wf t' /\ o' = o) t o.
Proof.
  intros Hs Hwf. unfold device_set_thing_name, strcpy_to. do 2 post_step. destruct Hwf as [H1 H2 H3 H4 H5].
  rewrite H3, (proj2 (Nat.ltb_lt _ _)) by done. post_step. split; [done|]. split; [|done].
  split; cbn; try done. rewrite length_strcpy by lia. done.
Qed.

Lemma device_set_thing_credentials_spec i k t o :
  thing_wf t ->
  post P (device_set_thing_credentials (Some i) (Some k))
    (fun _ t' o' => o' = o /\ thing_wf t' /\
       t' = set_token (strncpy (token t) k KNOT_PROTOCOL_TOKEN_LEN)
              (set_id (strncpy (id t) i KNOT_PROTOCOL_UUID_LEN) t)) t o.
Proof.
  intros Hwf. unfold device_set_thing_credentials, deref. post_steps.
  split; [done|]. split; [|done]. eapply thing_wf_fields; [..|exact Hwf]; cbn.
  - apply array_ok_strncpy, (token_array t Hwf).
  - apply array_ok_strncpy, (id_array t Hwf).
  - apply (name_array t Hwf).
  - done.
Qed.

Lemma device_generate_thing_id_spec t o :
  thing_wf t ->
  post P device_generate_thing_id
    (fun _ t' o' => exists a n, a = env_answer (C_getrandom 8 :: os_log o) /\
       o' = logged (C_getrandom 8) a o /\ thing_wf t' /\ 0 <= n < 2 ^ 64 /\
       n = u64 (default 0 (a_data a !! 0%nat)) /\
       t' = set_id (strcpy (id t) (print_hex n)) t) t o.
Proof.
  intros Hwf. unfold device_generate_thing_id, strcpy_to. do 4 post_step.
  pose proof (length_print_hex (u64 (default 0 (a_data a !! 0%nat)))) as Hlen.
  pose proof uuid_len_holds_u64. pose proof (id_array t Hwf) as [Hid Hnul].
  rewrite Hid, (proj2 (Nat.ltb_lt _ _)) by lia. post_step.
  exists a, (u64 (default 0 (a_data a !! 0%nat))). split; [done|]. split; [done|].
  split; [|split; [by apply wrap_range|done]].
  eapply thing_wf_fields; [..|exact Hwf]; cbn.
  - apply (token_array t Hwf).
  - apply array_ok_strcpy; [lia|by split].
  - apply (name_array t Hwf).
  - done.
Qed.

Lemma device_update_config_data_item_spec config t o :
  thing_wf t ->
  post P (device_update_config_data_item config)
    (fun _ t' o' => o' = o /\ thing_wf t' /\
       exists h, t' = set_items h t /\ (data_items t = None -> h = None) /\
         (is_Some (data_items t) -> is_Some h)) t o.
Proof.
  intros Hwf. unfold device_update_config_data_item, device_data_item_lookup, item_write.
  do 4 post_step. destruct (data_items t) as [h|] eqn:Hh.
  - destruct (l_hashmap_lookup h (config_sensor_id config)) as [i|] eqn:Hi; post_step.
    + rewrite Hh. split; [done|].
      assert (config_sensor_id config = sensor_id i) as Hk.
      { apply (items_keys t Hwf). unfold items. rewrite Hh. by apply lookup_Some_entries. }
      split; [by apply thing_wf_write|]. by eexists.
    + split; [done|]. split; [done|]. exists (Some h). split; [|done].
      destruct t; cbn in *; by subst.
  - post_step. split; [done|]. split; [done|]. exists None. split; [|done].
    destruct t; cbn in *; by subst.
Qed.

Lemma device_set_new_data_item_spec sid s e ra bo et h t o :
  thing_wf t -> data_items t = Some h -> l_hashmap_lookup h sid = None ->
  post P (device_set_new_data_item sid s e ra bo et)
    (fun _ t' o' => o' = o /\ thing_wf t' /\
       (exists h', t' = set_items (Some h') t) /\
       items t' ≡ₚ (sid, KnotDataItem sid s e 0 0 (ModbusSource ra bo et)) :: items t) t o.
Proof.
  intros Hwf Hh Hn. unfold device_set_new_data_item. post_step. rewrite Hh.
  split; [done|]. split; [by apply thing_wf_insert|]. split; [by eexists|].
  unfold items. cbn. by rewrite Hh, entries_insert.
Qed.
End Specs.

(** ** Properties *)

Section Properties.
Context `{KL : KnotProtocolLaws} `{E : Env} {HM : Type -> Type} `{HL : LHashmapLaws HM}.
Implicit Types (t : knot_thing HM) (o : os).

(** C38: A generated id is the 64 random bits in hexadecimal: between one and sixteen digits, which
    read back as the number that was drawn, so that two numbers never share an id. It fits the
    array with its terminator and nothing else of the thing is touched. *)
Theorem device_generate_thing_id_hex t o :
  thing_wf t ->
  wp device_generate_thing_id
    (fun _ t' _ =>
       let random := u64 (default 0 (a_data (env_answer (C_getrandom 8 :: os_log o)) !! 0%nat)) in
       hex_val (cstr (id t')) = random /\
       Forall (fun c => is_hex_digit c = true) (chars (cstr (id t'))) /\
       (1 <= String.length (cstr (id t')) <= 16)%nat /\
       thing_wf t' /\ t' = set_id (id t') t) t o.
Proof.
  intros Hwf. eapply post_mono; [by apply device_generate_thing_id_spec|].
  intros [] t' o' (a & n & -> & _ & Hwf' & Hn & <- & ->). cbn zeta.
  cbn [id set_id].
  rewrite cstr_strcpy by (apply no_nul_print_hex; lia).
  destruct (hex_val_print n Hn) as (-> & Hd & Hl). pose proof (length_print_hex n).
  split; [done|]. split; [done|]. by split; [lia|].
Qed.
End Properties.

(** ** Witnesses *)

Section Example.
#[local] Existing Instances example_knot list_hashmap.
#[local] Existing Instances example_knot_laws list_hashmap_laws.

(** A small number: an id of two characters. *)
Definition random_env : Env := fun _ => Answer 0 0 [0x2a].

Lemma device_generate_thing_id_hex_witness :
  wp (device_generate_thing_id (E := random_env) (HM := fun V => list (Z * V)))
    (fun _ t' _ => hex_val (cstr (id t')) = 0x2a /\
       Forall (fun c => is_hex_digit c = true) (chars (cstr (id t'))) /\
       (1 <= String.length (cstr (id t')) <= 16)%nat /\
       thing_wf t' /\ t' = set_id (id t') thing_init) thing_init (os_init ∅).
Proof. apply (device_generate_thing_id_hex (E := random_env)), thing_init_wf. Defined.
End Example.
