(* ===== verification/Load.v ===== *)
(** * Loading the thing from its files (src/properties.c)

    The functions of properties.c that fill the thing: what they keep of the rest of the
    program, and what holds of a thing that was loaded. *)

From S2P Require Import Prelude Scan Knot Ext Ell Storage Session Thing Properties.

Section Loads.
Context `{KL : KnotProtocolLaws} `{E : Env} (Hlaw : EnvLaws) `{LSL : LSettingsLaws}
  {HM : Type -> Type} `{HL : LHashmapLaws HM} (P : Prop).
Implicit Types (c : core HM) (o : os) (fd : Z) (group : string).

(** The sensor ids of the groups of a file. *)
Definition sensor_ids (settings : l_settings) (groups : list string) : list Z :=
  omap (fun g => l_settings_get KInt settings g SCHEMA_SENSOR_ID) groups.

(** What the loading of a file keeps: the open files, the invariant of the thing, and the map of
    items, which exists since the start. *)
Record loads c c' o o' : Prop := {
  loads_os : o' = o;
  loads_storage : c_storage c' = c_storage c;
  loads_wf : thing_wf (c_thing c');
  loads_items : is_Some (data_items (c_thing c'))
}.

Lemma loads_refl c o :
  thing_wf (c_thing c) -> is_Some (data_items (c_thing c)) -> loads c c o o.
Proof. by split. Qed.

Ltac same := repeat match goal with |- _ /\ _ => split end; try done; by apply loads_refl.

(** A file filled in only some fields of the thing: it left the items alone. *)
Definition items_kept c c' : Prop := data_items (c_thing c') = data_items (c_thing c).

Lemma set_thing_name_loads fd settings c o :
  list_lookup fd (c_storage c) = Some settings -> thing_wf (c_thing c) ->
  is_Some (data_items (c_thing c)) ->
  post P (set_thing_name fd)
    (fun rc c' o' => loads c c' o o' /\ items_kept c c' /\ rc <= 0) c o.
Proof.
  intros Hfd Hwf Hi. unfold set_thing_name. apply post_bind.
  apply (post_read_string P fd settings c o Hfd).
  destruct (l_settings_get_string settings THING_GROUP THING_NAME) as [[|a s]|];
    [post_step; same| |post_step; same].
  post_step; [post_step; same|]. post_step. apply post_th.
  eapply post_mono; [apply device_set_thing_name_spec; [|done]|].
  - unfold strlen in *. match goal with H : (_ <=? _) = false |- _ => apply Z.leb_gt in H end. lia.
  - intros [] t' o' (Ht & Hwf' & ->). post_step. split; [split; try done|split; [|done]].
    + cbn. rewrite Ht. done.
    + unfold items_kept. cbn. by rewrite Ht.
Qed.

Lemma set_modbus_slave_properties_loads fd settings c o :
  list_lookup fd (c_storage c) = Some settings -> thing_wf (c_thing c) ->
  is_Some (data_items (c_thing c)) ->
  post P (set_modbus_slave_properties fd)
    (fun rc c' o' => loads c c' o o' /\ items_kept c c' /\ rc <= 0 /\
       (rc = 0 -> exists sid url, modbus_slave (c_thing c') = ModbusSlave sid (Some url) /\
          MODBUS_MIN_SLAVE_ID <= sid <= MODBUS_MAX_SLAVE_ID /\ url <> EmptyString /\
          l_settings_get_string settings THING_GROUP THING_MODBUS_URL = Some url)) c o.
Proof.
  intros Hfd Hwf Hi. unfold set_modbus_slave_properties, storage_read_key_int. apply post_bind.
  apply (post_read_key P fd settings c o Hfd); intros; [|post_step; same].
  cbn -[Z.ltb]. post_step; [post_step; same|]. apply post_bind.
  apply (post_read_string P fd settings c o Hfd).
  destruct (l_settings_get_string settings THING_GROUP THING_MODBUS_URL) as [[|a s]|] eqn:Hurl;
    [post_step; same| |post_step; same].
  post_step. apply post_th. unfold device_set_thing_modbus_slave. do 2 post_step.
  split; [split; try done|split; [done|split; [done|]]].
  - cbn. by destruct Hwf.
  - intros _. exists v, (String a s). split; [done|]. split; [|done].
    match goal with H : _ || _ = false |- _ => apply orb_false_iff in H end. lia.
Qed.

Lemma set_rabbit_mq_url_loads fd settings c o :
  list_lookup fd (c_storage c) = Some settings -> thing_wf (c_thing c) ->
  is_Some (data_items (c_thing c)) ->
  post P (set_rabbit_mq_url fd)
    (fun rc c' o' => loads c c' o o' /\ items_kept c c' /\ rc <= 0 /\
       modbus_slave (c_thing c') = modbus_slave (c_thing c) /\
       (rc = 0 -> is_Some (rabbitmq_url (c_thing c')))) c o.
Proof.
  intros Hfd Hwf Hi. unfold set_rabbit_mq_url. apply post_bind.
  apply (post_read_string P fd settings c o Hfd).
  destruct (l_settings_get_string settings CLOUD_GROUP RABBIT_URL) as [[|a s]|];
    [post_step; same| |post_step; same].
  post_step. apply post_th. unfold device_set_thing_rabbitmq_url. do 2 post_step.
  split; [split; try done|split; [done|split; [done|split; [done|by eexists]]]].
  cbn. by destruct Hwf.
Qed.

Lemma set_thing_user_token_loads fd settings c o :
  list_lookup fd (c_storage c) = Some settings -> thing_wf (c_thing c) ->
  is_Some (data_items (c_thing c)) ->
  post P (set_thing_user_token fd)
    (fun rc c' o' => loads c c' o o' /\ items_kept c c' /\ rc <= 0 /\
       modbus_slave (c_thing c') = modbus_slave (c_thing c) /\
       rabbitmq_url (c_thing c') = rabbitmq_url (c_thing c) /\
       (rc = 0 -> is_Some (user_token (c_thing c')))) c o.
Proof.
  intros Hfd Hwf Hi. unfold set_thing_user_token. apply post_bind.
  apply (post_read_string P fd settings c o Hfd).
  destruct (l_settings_get_string settings CLOUD_GROUP THING_USER_TOKEN) as [[|a s]|];
    [post_step; same| |post_step; same].
  post_step. apply post_th. unfold device_set_thing_user_token. do 2 post_step.
  split; [split; try done|split; [done|split; [done|split; [done|split; [done|by eexists]]]]].
  cbn. by destruct Hwf.
Qed.

(** Every item added passed the checks; on success there is one for each group, under the
    sensor id of the group. *)
Lemma set_data_items_loop_loads fd settings groups : forall c o,
  list_lookup fd (c_storage c) = Some settings -> thing_wf (c_thing c) ->
  is_Some (data_items (c_thing c)) -> Forall (fun e => item_ok e.2) (items (c_thing c)) ->
  post P (set_data_items_loop fd groups)
    (fun rc c' o' => loads c c' o o' /\ rc <= 0 /\
       Forall (fun e => item_ok e.2) (items (c_thing c')) /\
       modbus_slave (c_thing c') = modbus_slave (c_thing c) /\
       (rc = 0 -> length (sensor_ids settings groups) = length groups /\
          (items (c_thing c')).*1 ≡ₚ sensor_ids settings groups ++ (items (c_thing c)).*1)) c o.
Proof.
  induction groups as [|g groups IH]; intros c o Hfd Hwf Hi Hok; cbn [set_data_items_loop].
  { post_step. same. }
  post_step. eapply post_mono; [by apply (set_sensor_id_reads P fd settings)|].
  intros [?|sid] ? ? (-> & -> & Hsid); [post_step; same|].
  destruct (Hsid sid eq_refl) as [Hget Hnew].
  post_step. eapply post_mono; [by apply (set_schema_reads P fd settings)|].
  intros [?|sch] ? ? (-> & -> & Hsch); [post_step; same|].
  post_step. eapply post_mono; [by apply (set_event_reads P fd settings)|].
  intros [?|ev] ? ? (-> & -> & Hev); [post_step; same|].
  post_step. eapply post_mono; [apply (set_modbus_source_properties_reads P fd settings); [done|by apply Hsch]|].
  intros [?|src] ? ? (-> & -> & Hsrc); [post_step; same|].
  post_step. apply post_th. destruct Hi as [h Hh]. rewrite Hh in Hnew.
  eapply post_mono; [by eapply device_set_new_data_item_spec|].
  intros [] t' o' (-> & Hwf' & [h' Ht'] & Hitems).
  eapply post_mono; [apply IH; cbn; [done|done|by rewrite Ht'|]|].
  - rewrite Hitems. constructor; [|done]. split; cbn.
    + by apply Hsch.
    + by apply Hev.
    + by apply Hsrc.
  - intros rc c' o' ([-> Hst Hwf2 Hi2] & Hrc & Hok2 & Hsl & H0). cbn in *.
    split; [by split|]. split; [done|]. split; [done|]. split; [by rewrite Hsl, Ht'|].
    intros ->. destruct (H0 eq_refl) as [Hlen Hperm]. unfold sensor_ids in *. cbn. rewrite Hget.
    split; [cbn; by rewrite Hlen|]. rewrite Hperm, Hitems. cbn. by rewrite Permutation_middle.
Qed.

(** Closing the file of a session in which nothing was written. *)
Lemma close_restored {A} (a : A) path fd settings c0 c o0 o (Q : A -> core HM -> os -> Prop) :
  during path fd settings (c_storage c0) (c_storage c) o0 o -> contents o path = contents o0 path ->
  (forall st' o', restored (c_storage c0) st' o0 o' -> Q a (Core (c_thing c) st') o') ->
  post P (sto (storage_close fd) ;; ret a) Q c o.
Proof.
  intros Hd Hc HQ. post_step. apply post_sto. eapply post_mono; [by eapply session_close|].
  intros rc st' o' (Hs & Hf & _). post_step. apply HQ. eapply session_restored; [done|].
  rewrite <- Hc. unfold contents. by rewrite Hf.
Qed.

(** The result of loading the device file. *)
Record device_loaded path c c' o o' rc : Prop := {
  dl_restored : restored (c_storage c) (c_storage c') o o';
  dl_wf : thing_wf (c_thing c');
  dl_items : is_Some (data_items (c_thing c'));
  dl_rc : rc <= 0;
  dl_ok : Forall (fun e => item_ok e.2) (items (c_thing c'));
  dl_slave : rc = 0 -> exists sid url, modbus_slave (c_thing c') = ModbusSlave sid (Some url) /\
    MODBUS_MIN_SLAVE_ID <= sid <= MODBUS_MAX_SLAVE_ID /\ url <> EmptyString /\
    l_settings_get_string (load_file (os_files o !! path)) THING_GROUP THING_MODBUS_URL = Some url;
  dl_ids : rc = 0 ->
    let settings := load_file (os_files o !! path) in
    (items (c_thing c')).*1 ≡ₚ
      sensor_ids settings (data_groups (l_settings_get_groups settings)) ++ (items (c_thing c)).*1
}.

Lemma sensor_ids_kept settings settings' groups :
  data_groups_kept settings settings' ->
  sensor_ids settings' (data_groups groups) = sensor_ids settings (data_groups groups).
Proof.
  intros Hk. unfold sensor_ids, data_groups. induction groups as [|g groups IH]; [done|].
  destruct (decide (has_prefix DATA_ITEM_GROUP g = true)) as [Hg|Hg].
  - rewrite filter_cons_True by done. cbn. by rewrite IH, (proj2 (proj2 (Hk KInt g _ Hg))).
  - by rewrite filter_cons_False.
Qed.

Lemma set_data_items_loads path fd settings st0 o0 c o :
  during path fd settings st0 (c_storage c) o0 o -> thing_wf (c_thing c) ->
  is_Some (data_items (c_thing c)) -> Forall (fun e => item_ok e.2) (items (c_thing c)) ->
  post P (set_data_items fd)
    (fun rc c' o' => o' = o /\ (exists settings', during path fd settings' st0 (c_storage c') o0 o) /\
       thing_wf (c_thing c') /\ is_Some (data_items (c_thing c')) /\ rc <= 0 /\
       Forall (fun e => item_ok e.2) (items (c_thing c')) /\
       modbus_slave (c_thing c') = modbus_slave (c_thing c) /\
       (rc = 0 ->
        (items (c_thing c')).*1 ≡ₚ
          sensor_ids settings (data_groups (l_settings_get_groups settings))
            ++ (items (c_thing c)).*1)) c o.
Proof.
  intros Hd Hwf Hi Hok. unfold set_data_items. post_step. apply post_sto.
  eapply post_mono; [by apply session_groups|].
  intros r st' ? (-> & settings' & Hd' & _ & Hgroups). cbn beta.
  destruct r as [groups|]; cycle 1.
  { post_step. split_and!; try done. by eexists. }
  eapply post_mono.
  { apply (set_data_items_loop_loads fd settings' groups (Core (c_thing c) st') o);
      [apply Hd'|done..]. }
  intros rc c' o' ([-> Hst' Hwf' Hi'] & Hrc & Hok' & Hsl & H0). cbn in *.
  split; [done|]. split; [exists settings'; by rewrite Hst'|]. split; [done|]. split; [done|].
  split; [done|]. split; [done|]. split; [done|]. intros ->.
  destruct Hgroups as (Hk & _ & Hr). destruct (_ <? 0); [done|]. injection Hr as ->.
  destruct (H0 eq_refl) as [_ Hperm]. by rewrite Hperm, (sensor_ids_kept settings settings').
Qed.

Lemma set_thing_properties_loads path c o :
  (String.length path <= PATH_MAX)%nat -> storage_wf (c_storage c) o -> thing_wf (c_thing c) ->
  is_Some (data_items (c_thing c)) -> Forall (fun e => item_ok e.2) (items (c_thing c)) ->
  post P (set_thing_properties path) (fun rc c' o' => device_loaded path c c' o o' rc) c o.
Proof.
  intros Hlen Hst Hwf Hi Hok. unfold set_thing_properties. post_step. apply post_sto.
  eapply post_mono; [by apply session_open|].
  intros fd st1 o1 [(Hfd & -> & Hs & Hf)|(Hfd & Hd & Hc)]; cbn beta.
  { rewrite (proj2 (Z.ltb_lt _ _)) by done. post_step.
    split; cbn; try done; [|lia|lia|lia]. eapply session_restored; [done|].
    unfold contents. by rewrite Hf. }
  rewrite (proj2 (Z.ltb_ge _ _)) by done. set (settings := load_file (os_files o !! path)) in *.
  post_step. eapply post_mono.
  { apply (set_thing_name_loads fd settings (Core (c_thing c) st1) o1); [apply Hd|done|done]. }
  intros rc c2 o2 ([-> Hst2 Hwf2 Hi2] & Hk2 & Hrc2). cbn in Hst2, Hk2.
  assert (Forall (fun e => item_ok e.2) (items (c_thing c2))) as Hok2
    by (unfold items; unfold items_kept in Hk2; cbn in Hk2; by rewrite Hk2).
  assert (items (c_thing c2) = items (c_thing c)) as Hit2
    by (unfold items; unfold items_kept in Hk2; cbn in Hk2; by rewrite Hk2).
  post_step.
  { eapply (close_restored rc path fd settings c); [rewrite Hst2; exact Hd|done|]. intros. split; cbn; try done; lia. }
  post_step. eapply post_mono.
  { apply (set_modbus_slave_properties_loads fd settings c2 o1); [rewrite Hst2; apply Hd|done|done]. }
  intros rc3 c3 o3 ([-> Hst3 Hwf3 Hi3] & Hk3 & Hrc3 & Hsl3). rewrite Hst2 in Hst3.
  assert (Forall (fun e => item_ok e.2) (items (c_thing c3))) as Hok3
    by (unfold items; unfold items_kept in Hk3; by rewrite Hk3).
  assert (items (c_thing c3) = items (c_thing c)) as Hit3
    by (rewrite <- Hit2; unfold items; unfold items_kept in Hk3; by rewrite Hk3).
  post_step.
  { eapply (close_restored rc3 path fd settings c); [rewrite Hst3; exact Hd|done|]. intros. split; cbn; try done; lia. }
  post_step. eapply post_mono.
  { eapply set_data_items_loads; [rewrite Hst3; exact Hd|done..]. }
  intros rc4 c4 o4 (-> & (settings' & Hd4) & Hwf4 & Hi4 & Hrc4 & Hok4 & Hsl4 & Hids4). post_step.
  { eapply (close_restored rc4 path fd settings' c); [exact Hd4|done|]. intros. split; cbn; try done; lia. }
  eapply (close_restored rc4 path fd settings' c); [exact Hd4|done|]. intros. split; cbn; try done.
  - intros ->. rewrite Hsl4. apply Hsl3. lia.
  - intros Hrc0. rewrite (Hids4 Hrc0). by rewrite Hit3.
Qed.
Lemma set_cloud_properties_loads path c o :
  (String.length path <= PATH_MAX)%nat -> storage_wf (c_storage c) o -> thing_wf (c_thing c) ->
  is_Some (data_items (c_thing c)) ->
  post P (set_cloud_properties path)
    (fun rc c' o' => restored (c_storage c) (c_storage c') o o' /\ thing_wf (c_thing c') /\
       items_kept c c' /\ is_Some (data_items (c_thing c')) /\ rc <= 0 /\
       modbus_slave (c_thing c') = modbus_slave (c_thing c) /\
       (rc = 0 -> is_Some (rabbitmq_url (c_thing c')) /\ is_Some (user_token (c_thing c')))) c o.
Proof.
  intros Hlen Hst Hwf Hi. unfold set_cloud_properties. post_step. apply post_sto.
  eapply post_mono; [by apply session_open|].
  intros fd st1 o1 [(Hfd & -> & Hs & Hf)|(Hfd & Hd & Hc)]; cbn beta.
  { rewrite (proj2 (Z.ltb_lt _ _)) by done. post_step. split_and!; try done; [|lia|lia].
    eapply session_restored; [done|]. unfold contents. by rewrite Hf. }
  rewrite (proj2 (Z.ltb_ge _ _)) by done. set (settings := load_file (os_files o !! path)) in *.
  post_step. eapply post_mono.
  { apply (set_rabbit_mq_url_loads fd settings (Core (c_thing c) st1) o1); [apply Hd|done|done]. }
  intros rc c2 o2 ([-> Hst2 Hwf2 Hi2] & Hk2 & Hrc2 & Hsl2 & Hurl). cbn in Hst2, Hk2, Hsl2.
  post_step.
  { eapply (close_restored rc path fd settings c); [rewrite Hst2; exact Hd|done|].
    intros. split_and!; cbn; try done; lia. }
  post_step. eapply post_mono.
  { apply (set_thing_user_token_loads fd settings c2 o1); [rewrite Hst2; apply Hd|done|done]. }
  intros rc3 c3 o3 ([-> Hst3 Hwf3 Hi3] & Hk3 & Hrc3 & Hsl3 & Hurl3 & Htok). rewrite Hst2 in Hst3.
  assert (items_kept c c3) as Hk by (unfold items_kept in *; by rewrite Hk3).
  post_step.
  { eapply (close_restored rc3 path fd settings c); [rewrite Hst3; exact Hd|done|].
    intros. split_and!; cbn; try done; try lia. by rewrite Hsl3. }
  eapply (close_restored rc3 path fd settings c); [rewrite Hst3; exact Hd|done|].
  intros. split_and!; cbn; try done; try lia; [by rewrite Hsl3|].
  intros H0. split; [rewrite Hurl3; apply Hurl; lia|by apply Htok].
Qed.

(** The two keys of the credentials of a settings object. *)
Definition credentials_of (settings : l_settings) : option string * option string :=
  (l_settings_get_string settings CREDENTIALS_GROUP CREDENTIALS_THING_ID,
   l_settings_get_string settings CREDENTIALS_GROUP CREDENTIALS_THING_TOKEN).

Lemma set_thing_credentials_loads path c o :
  (String.length path <= PATH_MAX)%nat -> storage_wf (c_storage c) o -> thing_wf (c_thing c) ->
  let creds := credentials_of (load_file (os_files o !! path)) in
  (creds.1 = None \/ creds.2 = None -> P) ->
  post P (set_thing_credentials path)
    (fun rc c' o' => restored (c_storage c) (c_storage c') o o' /\ thing_wf (c_thing c') /\
       ((rc < 0 /\ c_thing c' = c_thing c) \/
        (rc = 0 /\ exists i k, creds = (Some i, Some k) /\
           c_thing c' = set_token (strncpy (token (c_thing c)) k KNOT_PROTOCOL_TOKEN_LEN)
              (set_id (strncpy (id (c_thing c)) i KNOT_PROTOCOL_UUID_LEN) (c_thing c))))) c o.
Proof.
  cbn zeta. intros Hlen Hst Hwf HP. unfold set_thing_credentials. post_step. apply post_sto.
  eapply post_mono; [by apply session_open|].
  intros fd st1 o1 [(Hfd & -> & Hs & Hf)|(Hfd & Hd & Hc)]; cbn beta.
  { rewrite (proj2 (Z.ltb_lt _ _)) by done. post_step. split; [|split; [done|by left]].
    eapply session_restored; [done|]. unfold contents. by rewrite Hf. }
  rewrite (proj2 (Z.ltb_ge _ _)) by done. set (settings := load_file (os_files o !! path)) in *.
  post_step. apply (post_read_string P fd settings (Core (c_thing c) st1) o1); [apply Hd|].
  post_step. apply (post_read_string P fd settings (Core (c_thing c) st1) o1); [apply Hd|].
  unfold credentials_of in *. cbn [fst snd] in HP.
  destruct (l_settings_get_string settings CREDENTIALS_GROUP CREDENTIALS_THING_ID) as [i|];
    [|post_step; apply post_th; by apply HP; left].
  destruct (l_settings_get_string settings CREDENTIALS_GROUP CREDENTIALS_THING_TOKEN) as [k|];
    [|post_step; apply post_th; by apply HP; right].
  post_step. apply post_th. eapply post_mono; [by apply device_set_thing_credentials_spec|].
  intros [] t' o2 (-> & Hwf' & Ht').
  eapply (close_restored 0 path fd settings c); [exact Hd|done|].
  intros. split; [done|]. split; [done|]. right. split; [done|]. by exists i, k.
Qed.
End Loads.

(** ** Fields the loading does not touch

    [respects R m]: a run of [m] that ends leads from a state to one related by [R]. *)

Definition respects {S A} (R : S -> S -> Prop) (m : M S A) : Prop :=
  forall s o, wlp m (fun _ s' _ => R s s') s o.

Section Respects.
Context {S : Type} (R : S -> S -> Prop) `{!PreOrder R}.

Lemma respects_ret {A} (a : A) : respects R (ret a).
Proof. intros s o. post_step. reflexivity. Qed.

Lemma respects_UB {A} : respects R (UB : M S A).
Proof. by intros s o. Qed.

Lemma respects_get : respects R get.
Proof. intros s o. post_step. reflexivity. Qed.

Lemma respects_modify f : (forall s, R s (f s)) -> respects R (modify f).
Proof. intros Hf s o. by post_step. Qed.

Lemma respects_bind {A B} (m : M S A) (k : A -> M S B) :
  respects R m -> (forall a, respects R (k a)) -> respects R (bind m k).
Proof.
  intros Hm Hk s o. post_step. eapply post_mono; [apply Hm|]. intros a s1 o1 H1.
  eapply post_mono; [apply Hk|]. intros b s2 o2 H2. exact (transitivity H1 H2).
Qed.

Lemma respects_deref {A} (p : option A) : respects R (deref p).
Proof. destruct p; [apply respects_ret|apply respects_UB]. Qed.
End Respects.

Lemma post_and {S A} P (m : M S A) (Q R : A -> S -> os -> Prop) s o :
  post P m Q s o -> wlp m R s o -> post P m (fun a s' o' => Q a s' o' /\ R a s' o') s o.
Proof. unfold post. by destruct (m s o) as [[[a s'] o']|]. Qed.

(** One step of a proof by the shape of the function. *)
Ltac respects_step :=
  match goal with
  | |- respects _ (bind _ _) => refine (respects_bind _ _ _ _ _); [|intros]
  | |- respects _ (ret _) => exact (respects_ret _ _)
  | |- respects _ UB => exact (respects_UB _)
  | |- respects _ get => exact (respects_get _)
  | |- respects _ (deref _) => exact (respects_deref _ _)
  | |- respects _ (modify _) => apply respects_modify; intros
  | |- respects _ (if ?c then _ else _) => destruct c
  | |- respects _ (match ?c with _ => _ end) => destruct c
  | |- respects _ (let _ := _ in _) => cbv zeta
  end.

Section Kept.
Context `{KL : KnotProtocolLaws} `{E : Env} `{LSL : LSettingsLaws}
  {HM : Type -> Type} `{HL : LHashmapLaws HM}.

(** The message timeout and the paths are not touched, and the map of items stays. *)
Record thing_kept (t t' : knot_thing HM) : Prop := {
  kept_msg : msg_to t' = msg_to t;
  kept_files : conf_files t' = conf_files t;
  kept_items : is_Some (data_items t) -> is_Some (data_items t')
}.

#[export] Instance thing_kept_preorder : PreOrder thing_kept.
Proof.
  split; [by split|]. intros t1 t2 t3 [A1 B1 C1] [A2 B2 C2]. split; [congruence..|]. auto.
Qed.

Definition core_kept (c c' : core HM) : Prop := thing_kept (c_thing c) (c_thing c').

#[export] Instance core_kept_preorder : PreOrder core_kept.
Proof. split; [by intros c|]. intros c1 c2 c3 H1 H2. unfold core_kept in *. by etrans. Qed.

Lemma respects_sto {A} (m : M (storage HM) A) : respects core_kept (sto m).
Proof.
  intros c o. apply post_sto. eapply post_mono; [apply wlp_any|]. by intros a st' o' _.
Qed.

Lemma respects_th {A} (m : M (knot_thing HM) A) : respects thing_kept m -> respects core_kept (th m).
Proof. intros Hm c o. apply post_th. eapply post_mono; [apply Hm|]. by intros a t' o' H. Qed.

Ltac kept_steps :=
  repeat first [progress respects_step | apply respects_sto | apply respects_th];
  try (split; cbn; by repeat case_match).

Lemma set_data_items_loop_kept fd groups : respects core_kept (set_data_items_loop fd groups).
Proof.
  induction groups as [|g groups IH]; cbn [set_data_items_loop].
  - exact (respects_ret _ _).
  - unfold set_sensor_id, set_schema, set_event, get_lower_limit, get_upper_limit, get_limit,
      set_modbus_source_properties, device_set_new_data_item, device_data_item_lookup.
    kept_steps. all: try exact IH.
Qed.

Lemma properties_create_device_kept conf : respects core_kept (properties_create_device conf).
Proof.
  unfold properties_create_device, set_thing_properties, set_thing_name,
    set_modbus_slave_properties, set_data_items, set_cloud_properties, set_rabbit_mq_url,
    set_thing_user_token, set_thing_credentials, device_set_thing_name, strcpy_to,
    device_set_thing_modbus_slave, device_set_thing_rabbitmq_url, device_set_thing_user_token,
    device_set_thing_credentials.
  kept_steps. all: try apply set_data_items_loop_kept.
Qed.
End Kept.

(** ** Properties *)

Section Properties.
Context `{KL : KnotProtocolLaws} `{E : Env} (Hlaw : EnvLaws) `{LSL : LSettingsLaws}
  {HM : Type -> Type} `{HL : LHashmapLaws HM}.
Implicit Types (c : core HM) (o : os).

(** What holds of a thing whose files were loaded: [dev], [cloud] and [creds] are the settings
    of the three files. *)
Record thing_ready (dev creds : l_settings) (t : knot_thing HM) : Prop := {
  ready_items : Forall (fun e => item_ok e.2) (items t);
  ready_ids : (items t).*1 ≡ₚ sensor_ids dev (data_groups (l_settings_get_groups dev));
  ready_slave : exists sid url, modbus_slave t = ModbusSlave sid (Some url) /\
    MODBUS_MIN_SLAVE_ID <= sid <= MODBUS_MAX_SLAVE_ID /\ url <> EmptyString /\
    l_settings_get_string dev THING_GROUP THING_MODBUS_URL = Some url;
  ready_cloud : is_Some (rabbitmq_url t) /\ is_Some (user_token t);
  ready_credentials : exists i k, credentials_of creds = (Some i, Some k) /\
    exists i0 k0, id t = strncpy i0 i KNOT_PROTOCOL_UUID_LEN /\
                  token t = strncpy k0 k KNOT_PROTOCOL_TOKEN_LEN
}.

(** The files a device is started with. *)
Definition settings_at (o : os) (path : string) : l_settings := load_file (os_files o !! path).

Definition paths_ok (dp cp kp : string) : Prop :=
  (String.length dp <= PATH_MAX)%nat /\ (String.length cp <= PATH_MAX)%nat /\
  (String.length kp <= PATH_MAX)%nat.

(** A key of the credentials is missing in the file. *)
Definition credentials_missing (settings : l_settings) : Prop :=
  (credentials_of settings).1 = None \/ (credentials_of settings).2 = None.

Lemma settings_at_restored st st' o o' path :
  restored (HM := HM) st st' o o' -> settings_at o' path = settings_at o path.
Proof.
  intros Hr. unfold settings_at, load_file. f_equal. apply (restored_files _ _ _ _ Hr path).
Qed.

Lemma properties_create_device_ok dp cp kp c o :
  paths_ok dp cp kp -> storage_wf (c_storage c) o -> thing_wf (c_thing c) ->
  is_Some (data_items (c_thing c)) -> items (c_thing c) = [] ->
  post (credentials_missing (settings_at o kp))
    (properties_create_device (DeviceSettings (Some kp) (Some dp) (Some cp)))
    (fun rc c' o' => restored (c_storage c) (c_storage c') o o' /\ thing_wf (c_thing c') /\
       rc <= 0 /\ Forall (fun e => item_ok e.2) (items (c_thing c')) /\
       (rc = 0 -> thing_ready (settings_at o dp) (settings_at o kp) (c_thing c'))) c o.
Proof.
  intros (Hdp & Hcp & Hkp) Hst Hwf Hi Hnil. unfold properties_create_device, deref.
  cbn [device_path cloud_path credentials_path]. do 3 post_step.
  eapply post_mono; [apply (set_thing_properties_loads Hlaw); try done; by rewrite Hnil|].
  intros rc1 c1 o1 [Hr1 Hwf1 Hi1 Hrc1 Hok1 Hsl1 Hids1]. cbn beta. post_step.
  { post_step. split; [done|]. split; [done|]. split; [done|]. split; [done|lia]. }
  assert (rc1 = 0) as -> by lia. do 3 post_step.
  eapply post_mono; [apply (set_cloud_properties_loads Hlaw); try done; by destruct Hr1|].
  intros rc2 c2 o2 (Hr2 & Hwf2 & Hk2 & Hi2 & Hrc2 & Hsl2 & Hcloud). cbn beta.
  pose proof (restored_trans _ _ _ _ _ _ Hr1 Hr2) as Hr12.
  assert (items (c_thing c2) = items (c_thing c1)) as Hit
    by (unfold items, items_kept in *; by rewrite Hk2).
  post_step.
  { post_step. split; [done|]. split; [done|]. split; [done|]. rewrite Hit. split; [done|lia]. }
  assert (rc2 = 0) as -> by lia. do 3 post_step.
  eapply post_mono; [apply (set_thing_credentials_loads Hlaw); try done; [by destruct Hr12|]|].
  { fold (settings_at o2 kp). by rewrite (settings_at_restored _ _ _ _ kp Hr12). }
  intros rc3 c3 o3 (Hr3 & Hwf3 & Hres). cbn beta.
  pose proof (restored_trans _ _ _ _ _ _ Hr12 Hr3) as Hr.
  destruct Hres as [[Hrc3 Ht3]|(-> & i & k & Hcr & Ht3)].
  { rewrite (proj2 (Z.ltb_lt _ _)) by done. post_step. split; [done|]. split; [done|].
    split; [lia|]. rewrite Ht3, Hit. split; [done|lia]. }
  change (0 <? 0) with false. cbn iota. post_step.
  assert (items (c_thing c3) = items (c_thing c1)) as Hit3 by (rewrite <- Hit, Ht3; done).
  split; [done|]. split; [done|]. split; [done|]. rewrite Hit3. split; [done|].
  intros _. split; rewrite ?Hit3; try done.
  - rewrite (Hids1 eq_refl), Hnil. by rewrite app_nil_r.
  - rewrite Ht3. cbn. rewrite Hsl2. by apply Hsl1.
  - rewrite Ht3. cbn. by apply Hcloud.
  - exists i, k. rewrite <- (settings_at_restored _ _ _ _ kp Hr12). split; [done|].
    rewrite Ht3. cbn. by eexists _, _.
Qed.

(** C15: Creating the device from its files, on every path through them: no file stays open and none
    is changed, the map of items stays well formed and holds only items that passed the checks;
    when it succeeds the thing is ready, with exactly one item for each group of data items.
    The only undefined behaviour is that of a missing key in the credentials file. *)
Theorem properties_create_device_spec dp cp kp c o :
  paths_ok dp cp kp -> storage_wf (c_storage c) o -> thing_wf (c_thing c) ->
  is_Some (data_items (c_thing c)) -> items (c_thing c) = [] ->
  post (credentials_missing (settings_at o kp))
    (properties_create_device (DeviceSettings (Some kp) (Some dp) (Some cp)))
    (fun rc c' o' => restored (c_storage c) (c_storage c') o o' /\ thing_wf (c_thing c') /\
       rc <= 0 /\ Forall (fun e => item_ok e.2) (items (c_thing c')) /\
       (rc = 0 -> thing_ready (settings_at o dp) (settings_at o kp) (c_thing c'))) c o.
Proof. apply properties_create_device_ok. Qed.

(** C30: A credentials file without one of its keys: the code copies from a NULL pointer, so every
    run that has defined behaviour did not get the file open. *)
Theorem set_thing_credentials_missing path c o :
  (String.length path <= PATH_MAX)%nat -> storage_wf (c_storage c) o -> thing_wf (c_thing c) ->
  credentials_missing (settings_at o path) ->
  wlp (set_thing_credentials path) (fun rc _ _ => rc < 0) c o.
Proof.
  intros Hlen Hst Hwf Hm. eapply post_mono; [by apply (set_thing_credentials_loads Hlaw)|].
  intros rc c' o' (_ & _ & [[? _]|(_ & i & k & Hcr & _)]); [done|]. exfalso.
  unfold credentials_missing, settings_at in Hm. rewrite Hcr in Hm. by destruct Hm.
Qed.
End Properties.

(** ** Witnesses *)

Section Example.
#[local] Existing Instances example_knot list_hashmap example_settings.
#[local] Existing Instances example_knot_laws list_hashmap_laws example_settings_laws.

Definition example_conf : device_settings :=
  DeviceSettings (Some "credentials.conf"%string) (Some "device.conf"%string)
    (Some "cloud.conf"%string).

Lemma example_path_ok (s : string) : (String.length s <= 100)%nat -> (String.length s <= PATH_MAX)%nat.
Proof. unfold PATH_MAX. lia. Qed.

(** The sample files, with a byte order, are accepted: the run returns 0. *)
Lemma properties_create_device_spec_witness :
  match properties_create_device (E := quiet_env) example_conf example_core example_files with
  | Some (rc, c', _) => rc = 0 /\ (items (c_thing c')).*1 = [0]
  | None => False
  end /\
  post (credentials_missing (settings_at example_files "credentials.conf"))
    (properties_create_device (E := quiet_env) example_conf)
    (fun rc c' o' => restored (c_storage example_core) (c_storage c') example_files o' /\
       thing_wf (c_thing c') /\ rc <= 0 /\ Forall (fun e => item_ok e.2) (items (c_thing c')) /\
       (rc = 0 -> thing_ready (settings_at example_files "device.conf")
                    (settings_at example_files "credentials.conf") (c_thing c')))
    example_core example_files.
Proof.
  split; [by vm_compute|].
  apply (properties_create_device_spec quiet_env_laws "device.conf" "cloud.conf"
           "credentials.conf").
  - split_and!; apply example_path_ok; cbn; lia.
  - apply storage_init_wf.
  - apply example_thing_wf.
  - by eexists.
  - done.
Defined.

(** An empty file. *)
Lemma set_thing_credentials_missing_witness :
  match set_thing_credentials (E := quiet_env) "credentials.conf" example_core (os_init ∅) with
  | Some _ => False
  | None => True
  end /\
  wlp (set_thing_credentials (E := quiet_env) "credentials.conf") (fun rc _ _ => rc < 0)
    example_core (os_init ∅).
Proof.
  split; [by vm_compute|].
  apply (set_thing_credentials_missing quiet_env_laws).
  - apply example_path_ok. cbn. lia.
  - apply storage_init_wf.
  - apply example_thing_wf.
  - left. by vm_compute.
Defined.
End Example.
