(* ===== verification/Credentials.v ===== *)
(** * The credentials of the thing (src/properties.c)

    Storing, loading and clearing the id and the token the cloud knows the thing by. *)

From S2P Require Import Prelude Scan Knot Ext Ell Storage Session Thing Properties Load.

Section Credentials.
Context `{KL : KnotProtocolLaws} `{E : Env} (Hlaw : EnvLaws) `{LSL : LSettingsLaws}
  {HM : Type -> Type} `{HL : LHashmapLaws HM} (P : Prop).
Implicit Types (c : core HM) (o : os) (settings : l_settings).

(** ** Lemmas *)

Lemma credentials_of_contents path o s :
  contents o path = l_settings_to_data s ->
  credentials_of (settings_at o path) = credentials_of s.
Proof.
  intros Hc. unfold credentials_of, settings_at, load_file. unfold contents in Hc. rewrite Hc.
  by rewrite (get_string_proper _ _ (load_to_data s) _ _ eq_refl _ _ eq_refl),
    (get_string_proper _ _ (load_to_data s) CREDENTIALS_GROUP _ eq_refl CREDENTIALS_THING_TOKEN _
       eq_refl).
Qed.

(** Both keys written, one after the other. *)
Lemma credentials_of_set settings k i s1 s2 :
  l_settings_set_string settings CREDENTIALS_GROUP CREDENTIALS_THING_TOKEN k = Some s1 ->
  l_settings_set_string s1 CREDENTIALS_GROUP CREDENTIALS_THING_ID i = Some s2 ->
  credentials_of s2 = (Some i, Some k).
Proof.
  intros H1 H2. unfold credentials_of. f_equal; [by eapply set_string_get|].
  rewrite (off_string _ _ _ _ (set_string_off _ _ _ _ _ H2)) by done. by eapply set_string_get.
Qed.

(** What an operation on the credentials file leaves: nothing open, no other file touched. *)
Record credentials_step path c c' o o' rc : Prop := {
  cs_session : session path (c_storage c) (c_storage c') o o';
  cs_wf : thing_wf (c_thing c');
  cs_items : data_items (c_thing c') = data_items (c_thing c);
  cs_rest : msg_to (c_thing c') = msg_to (c_thing c) /\ conf_files (c_thing c') = conf_files (c_thing c);
  cs_rc : rc <= 0
}.

Lemma cs_close {A} (a : A) path fd settings c0 c o0 o (Q : A -> core HM -> os -> Prop) :
  during path fd settings (c_storage c0) (c_storage c) o0 o ->
  (forall st' o', session path (c_storage c0) st' o0 o' -> contents o' path = contents o path ->
     os_quiet o o' -> Q a (Core (c_thing c) st') o') ->
  post P (sto (storage_close fd) ;; ret a) Q c o.
Proof.
  intros Hd HQ. post_step. apply post_sto. eapply post_mono; [by eapply session_close|].
  intros rc st' o' (Hs & Hf & Hq). post_step. apply HQ; [done| |done]. unfold contents.
  by rewrite Hf.
Qed.

Lemma properties_store_credentials_step path i k c o :
  (String.length path <= PATH_MAX)%nat -> storage_wf (c_storage c) o -> thing_wf (c_thing c) ->
  post P (properties_store_credentials path i k)
    (fun rc c' o' => credentials_step path c c' o o' rc /\ c_thing c' = c_thing c /\
       (rc = 0 -> (String.length k <= KNOT_PROTOCOL_TOKEN_LEN)%nat /\
          (whole_writes o' -> credentials_of (settings_at o' path) = (Some i, Some k)))) c o.
Proof.
  intros Hlen Hst Hwf. unfold properties_store_credentials. post_step.
  { post_step. split; [split; try done; by apply session_refl|done]. }
  match goal with H : (_ <? strlen k) = false |- _ => apply Z.ltb_ge in H; unfold strlen in H end.
  post_step. apply post_sto. eapply post_mono; [by apply session_open|].
  intros fd st1 o1 [(Hfd & -> & Hs & _)|(Hfd & Hd & _)]; cbn beta.
  { rewrite (proj2 (Z.ltb_lt _ _)) by done. post_step. split; [|split; [done|lia]].
    split; try done. lia. }
  rewrite (proj2 (Z.ltb_ge _ _)) by done. post_step. apply post_sto.
  eapply post_mono; [by apply session_write_string|].
  intros rc st2 o2 (Hd2 & Hrc & _ & H0). cbn [c_thing c_storage]. post_step.
  { eapply cs_close; [exact Hd2|]. intros. split; [split; done|]. done. }
  assert (rc = 0) as -> by lia. destruct (H0 eq_refl) as (s1 & Hs1 & _). rewrite Hs1 in Hd2.
  post_step. apply post_sto. eapply post_mono; [by apply session_write_string|].
  intros rc st3 o3 (Hd3 & Hrc3 & _ & H3). cbn [c_thing c_storage]. post_step.
  - post_step. apply post_sto. eapply post_mono; [by apply session_write_string|].
    intros rc4 st4 o4 (Hd4 & _). eapply cs_close; [exact Hd4|].
    intros. split; [split; done|]. done.
  - eapply cs_close; [exact Hd3|]. intros st4 o4 Hs4 Hc4 Hq4.
    split; [split; try done|]. split; [done|]. intros ->. split; [lia|]. intros Hw.
    destruct (H3 eq_refl) as (s2 & Hs2 & Hf). cbn in Hs2. rewrite (credentials_of_contents _ _ s2).
    + by eapply credentials_of_set.
    + rewrite Hc4. by eapply Hf, whole_writes_before.
Qed.

Lemma erase_step path fd key (clear : M (knot_thing HM) ()) (f : knot_thing HM -> knot_thing HM)
    settings st0 o0 c o :
  during path fd settings st0 (c_storage c) o0 o ->
  (forall t o, clear t o = Some (tt, f t, o)) ->
  post P (let! rc := sto (storage_write_key_string fd CREDENTIALS_GROUP key EMPTY_STRING) in
          when (negb (rc <? 0)) (th clear) ;; ret rc)
    (fun rc c' o' =>
       during path fd (default settings (l_settings_set_string settings CREDENTIALS_GROUP key ""))
         st0 (c_storage c') o0 o' /\ rc <= 0 /\
       c_thing c' = (if rc <? 0 then c_thing c else f (c_thing c)) /\
       (rc = 0 -> exists s', l_settings_set_string settings CREDENTIALS_GROUP key "" = Some s' /\
          (whole_writes o' -> contents o' path = l_settings_to_data s'))) c o.
Proof.
  intros Hd Hclear. post_step. apply post_sto. eapply post_mono; [by apply session_write_string|].
  intros rc st' o' (Hd' & Hrc & _ & H0). cbn [c_thing c_storage]. post_step.
  destruct (Z.ltb_spec rc 0); cbn [negb when].
  - do 2 post_step. rewrite (proj2 (Z.ltb_lt _ _)) by done. done.
  - apply post_th. unfold post at 1. rewrite Hclear. post_step.
    rewrite (proj2 (Z.ltb_ge _ _)) by done. done.
Qed.

Lemma properties_clear_credentials_step path c o :
  (String.length path <= PATH_MAX)%nat -> storage_wf (c_storage c) o -> thing_wf (c_thing c) ->
  post P (properties_clear_credentials path)
    (fun rc c' o' => credentials_step path c c' o o' rc /\
       (rc = 0 -> cstr (id (c_thing c')) = "" /\ cstr (token (c_thing c')) = "" /\
          (whole_writes o' -> credentials_of (settings_at o' path) = (Some "", Some "")))%string) c o.
Proof.
  intros Hlen Hst Hwf. unfold properties_clear_credentials, erase_thing_token, erase_thing_id.
  post_step. apply post_sto. eapply post_mono; [by apply session_open|].
  intros fd st1 o1 [(Hfd & -> & Hs & _)|(Hfd & Hd & _)]; cbn beta.
  { rewrite (proj2 (Z.ltb_lt _ _)) by done. post_step. split; [split; try done; lia|lia]. }
  rewrite (proj2 (Z.ltb_ge _ _)) by done. apply post_bind.
  eapply post_mono; [by apply (erase_step path fd _ _ (fun t => set_token (<[0%nat := NUL]> (token t)) t)
    _ (c_storage c) o (Core (c_thing c) st1) o1 Hd)|].
  intros rc c2 o2 (Hd2 & Hrc & Ht2 & H2). cbn [c_thing] in Ht2. post_step.
  { eapply cs_close; [exact Hd2|].
    intros. split; [|done]. split; cbn; rewrite ?Ht2; done. }
  assert (rc = 0) as -> by lia. cbn in Ht2. destruct (H2 eq_refl) as (s1 & Hs1 & _). rewrite Hs1 in Hd2.
  assert (thing_wf (c_thing c2)) as Hwf2.
  { rewrite Ht2. eapply thing_wf_fields; [..|exact Hwf]; cbn; try apply array_ok_clear; try apply Hwf; done. }
  apply post_bind.
  eapply post_mono; [by apply (erase_step path fd _ _ (fun t => set_id (<[0%nat := NUL]> (id t)) t)
    _ (c_storage c) o c2 o2 Hd2)|].
  intros rc c3 o3 (Hd3 & Hrc3 & Ht3 & H3). post_step.
  { eapply cs_close; [exact Hd3|].
    intros. split; [|done]. split; cbn; rewrite ?Ht3, ?Ht2; try done. by rewrite <- Ht2. }
  assert (rc = 0) as -> by lia. cbn in Ht3. destruct (H3 eq_refl) as (s2 & Hs2 & Hf).
  eapply cs_close; [exact Hd3|]. intros st4 o4 Hs4 Hc4 Hq4. split.
  - split; cbn; rewrite ?Ht3, ?Ht2; try done. rewrite Ht2 in Hwf2.
    eapply thing_wf_fields; [..|exact Hwf2]; cbn; try apply array_ok_clear; try apply Hwf; done.
  - intros _. cbn [c_thing]. rewrite Ht3, Ht2. cbn.
    split; [by eapply cstr_clear, (id_array _ Hwf)|].
    split; [by eapply cstr_clear, (token_array _ Hwf)|].
    intros Hw. rewrite (credentials_of_contents _ _ s2); [by eapply credentials_of_set|].
    rewrite Hc4. by eapply Hf, whole_writes_before.
Qed.
End Credentials.

(** ** Properties *)

Section Properties.
Context `{KL : KnotProtocolLaws} `{E : Env} (Hlaw : EnvLaws) `{LSL : LSettingsLaws}
  {HM : Type -> Type} `{HL : LHashmapLaws HM}.
Implicit Types (c : core HM) (o : os).

(** An empty token in the file is no token in the thing. *)
Lemma has_token_empty path c o :
  (String.length path <= PATH_MAX)%nat -> storage_wf (c_storage c) o -> thing_wf (c_thing c) ->
  credentials_of (settings_at o path) = (Some "", Some "")%string ->
  wp (let! rc := set_thing_credentials path in
      let! has := th Thing.device_has_thing_token in ret (rc, has))
    (fun r _ _ => r.1 = 0 -> r.2 = 0) c o.
Proof.
  intros Hlen Hst Hwf Hcr. post_step. eapply post_mono.
  { apply (set_thing_credentials_loads Hlaw False path c o); [done..|].
    fold (settings_at o path). rewrite Hcr. by intros [|]. }
  intros rc c' o' (_ & Hwf' & Hres). post_step. apply post_th. unfold Thing.device_has_thing_token.
  do 4 post_step. intros Hrc. cbn in Hrc. destruct Hres as [[? _]|(_ & i & k & Hcr' & Ht)]; [lia|].
  fold (settings_at o path) in Hcr'. rewrite Hcr in Hcr'. injection Hcr' as <- <-.
  rewrite Ht. cbn. rewrite bool_decide_eq_true_2; [done|].
  by apply strncpy_empty, (token_array _ Hwf).
Qed.

(** C16: Credentials that were stored are the ones a later start loads, whatever else the
    environment answers, as long as no write was short (storage.c takes a short write for a
    success). *)
Theorem credentials_round_trip path i k c o :
  (String.length path <= PATH_MAX)%nat -> storage_wf (c_storage c) o -> thing_wf (c_thing c) ->
  no_nul i -> no_nul k -> (String.length i <= KNOT_PROTOCOL_UUID_LEN)%nat ->
  wlp (let! rc := properties_store_credentials path i k in
       let! rc2 := set_thing_credentials path in
       ret (rc, rc2))
    (fun r c' o' => whole_writes o' -> r.1 = 0 -> r.2 = 0 ->
       cstr (id (c_thing c')) = i /\ cstr (token (c_thing c')) = k) c o.
Proof.
  intros Hlen Hst Hwf Hi Hk Hil. post_step.
  eapply post_mono; [by apply (properties_store_credentials_step Hlaw)|].
  intros rc c1 o1 ([Hs Hwf1 _ _ _] & Ht1 & H1). post_step.
  eapply post_mono; [apply (set_thing_credentials_loads Hlaw); try done; by destruct Hs|].
  intros rc2 c2 o2 (Hr2 & Hwf2 & H2). post_step. cbn. intros Hw -> ->.
  destruct H2 as [[? _]|(_ & i' & k' & Hcr & Ht2)]; [done|].
  destruct (H1 eq_refl) as [Hkl Hcr1]. fold (settings_at o1 path) in Hcr.
  rewrite Hcr1 in Hcr by by (eapply whole_writes_before; [by eapply restored_quiet|done]).
  injection Hcr as <- <-.
  rewrite Ht2, Ht1. cbn. split.
  - apply cstr_strncpy_ok; [apply Hwf|done|done].
  - apply cstr_strncpy_ok; [apply Hwf|done|done].
Qed.

(** Storing the credentials, on every path: nothing stays open, no other file is touched and the
    thing is what it was. *)
Theorem properties_store_credentials_session path i k c o :
  (String.length path <= PATH_MAX)%nat -> storage_wf (c_storage c) o -> thing_wf (c_thing c) ->
  wp (properties_store_credentials path i k)
    (fun rc c' o' => rc <= 0 /\ session path (c_storage c) (c_storage c') o o' /\
       c_thing c' = c_thing c) c o.
Proof.
  intros. eapply post_mono; [by apply (properties_store_credentials_step Hlaw)|].
  by intros rc c' o' ([? _ _ _ ?] & ? & _).
Qed.

(** C17: When clearing the credentials succeeds they are empty in the thing and, as long as no write
    was short, in the file: a start that reads this file, in whatever state the thing and the
    storage are then, finds that the thing has no token, which is what makes the state machine register it anew. *)
Theorem properties_clear_credentials_spec path c o :
  (String.length path <= PATH_MAX)%nat -> storage_wf (c_storage c) o -> thing_wf (c_thing c) ->
  wp (properties_clear_credentials path)
    (fun rc c' o' => rc <= 0 /\ session path (c_storage c) (c_storage c') o o' /\
       (rc = 0 ->
        cstr (id (c_thing c')) = ""%string /\ cstr (token (c_thing c')) = ""%string /\
        (whole_writes o' -> credentials_of (settings_at o' path) = (Some "", Some "")%string /\
         forall c2, storage_wf (c_storage c2) o' -> thing_wf (c_thing c2) ->
           wp (let! rc2 := set_thing_credentials path in
               let! has := th Thing.device_has_thing_token in ret (rc2, has))
             (fun r _ _ => r.1 = 0 -> r.2 = 0) c2 o'))) c o.
Proof.
  intros Hlen Hst Hwf. eapply post_mono; [by apply (properties_clear_credentials_step Hlaw)|].
  intros rc c' o' ([? _ _ _ ?] & Hc). split; [done|]. split; [done|]. intros Hrc.
  destruct (Hc Hrc) as (? & ? & Hcr). split; [done|]. split; [done|].
  intros Hw. split; [by apply Hcr|]. intros c2 Hst2 Hwf2. apply has_token_empty; auto.
Qed.
End Properties.

(** ** Witnesses *)

Section Example.
#[local] Existing Instances example_knot list_hashmap example_settings.
#[local] Existing Instances example_knot_laws list_hashmap_laws example_settings_laws.

Lemma no_nul_example : no_nul "fe00" /\ no_nul "secret".
Proof. by repeat constructor. Qed.

Lemma credentials_round_trip_witness :
  wlp (let! rc := properties_store_credentials (E := quiet_env) "credentials.conf" "fe00" "secret" in
       let! rc2 := set_thing_credentials (E := quiet_env) "credentials.conf" in
       ret (rc, rc2))
    (fun r c' o' => whole_writes (H := quiet_env) o' -> r.1 = 0 -> r.2 = 0 ->
       cstr (id (c_thing c')) = "fe00"%string /\ cstr (token (c_thing c')) = "secret"%string)
    example_core example_files.
Proof.
  apply (credentials_round_trip quiet_env_laws).
  - apply example_path_ok. cbn. lia.
  - apply storage_init_wf.
  - apply example_thing_wf.
  - apply no_nul_example.
  - apply no_nul_example.
  - cbn. lia.
Defined.

Lemma properties_store_credentials_session_witness :
  wp (properties_store_credentials (E := failing_env) "credentials.conf" "fe00" "secret")
    (fun rc c' o' => rc <= 0 /\
       session "credentials.conf" (c_storage example_core) (c_storage c') example_files o' /\
       c_thing c' = c_thing example_core) example_core example_files.
Proof.
  apply (properties_store_credentials_session failing_env_laws).
  - apply example_path_ok. cbn. lia.
  - apply storage_init_wf.
  - apply example_thing_wf.
Defined.

Lemma properties_clear_credentials_spec_witness :
  wp (properties_clear_credentials (E := quiet_env) "credentials.conf")
    (fun rc c' o' => rc <= 0 /\
       session "credentials.conf" (c_storage example_core) (c_storage c') example_files o' /\
       (rc = 0 ->
        cstr (id (c_thing c')) = ""%string /\ cstr (token (c_thing c')) = ""%string /\
        (whole_writes (H := quiet_env) o' ->
         credentials_of (settings_at o' "credentials.conf") = (Some "", Some "")%string /\
         forall c2 : core (fun V => list (Z * V)),
           storage_wf (c_storage c2) o' -> thing_wf (c_thing c2) ->
           wp (let! rc2 := set_thing_credentials (E := quiet_env) "credentials.conf" in
               let! has := th Thing.device_has_thing_token in ret (rc2, has))
             (fun r _ _ => r.1 = 0 -> r.2 = 0) c2 o')))
    example_core example_files.
Proof.
  apply (properties_clear_credentials_spec quiet_env_laws).
  - apply example_path_ok. cbn. lia.
  - apply storage_init_wf.
  - apply example_thing_wf.
Defined.
End Example.
