(* ===== verification/Update.v ===== *)
(** * Updating a data item in the device file (src/properties.c)

    [properties_update_data_item] and the functions it calls. *)

From S2P Require Import Prelude Scan Knot Ext Ell Storage Session Thing Properties Load.

(** ** Updating an item *)

Section Updates.
Context `{KL : KnotProtocolLaws} `{E : Env} (Hlaw : EnvLaws) `{LSL : LSettingsLaws}
  {HM : Type -> Type} `{HL : LHashmapLaws HM} (P : Prop).
Context (path : string) (fd : Z) (st0 : storage HM) (o0 : os).
Implicit Types (c : core HM) (o : os) (group : string) (settings : l_settings).

(** The file holds the settings of the open object, if no write was short. *)
Definition synced settings o : Prop :=
  whole_writes o -> contents o path = l_settings_to_data settings.

(** A step on the open file: from [settings] to [settings'], the thing untouched; [rc] is not
    negative only if what the file holds is the object, when it was so before or [wrote]. *)
Record file_step (wrote : bool) settings settings' (t : knot_thing HM) (rc : Z) c' o o' : Prop := {
  fs_during : during path fd settings' st0 (c_storage c') o0 o';
  fs_thing : c_thing c' = t;
  fs_groups : l_settings_get_groups settings' = l_settings_get_groups settings;
  fs_rc : rc <= 0;
  fs_synced : rc = 0 -> wrote = true \/ synced settings o -> synced settings' o'
}.

Lemma file_step_trans w1 w2 s1 s2 s3 t rc1 rc2 c2 c3 o1 o2 o3 :
  file_step w1 s1 s2 t rc1 c2 o1 o2 -> rc1 = 0 -> file_step w2 s2 s3 t rc2 c3 o2 o3 ->
  file_step (w1 || w2) s1 s3 t rc2 c3 o1 o3.
Proof.
  intros [_ _ G1 _ S1] -> [D2 T2 G2 R2 S2]. split; try done; [congruence|].
  intros H0 Hw. apply S2; [done|].
  destruct w2; [by left|right]. apply S1; [done|]. by rewrite orb_false_r in Hw.
Qed.

Lemma add_group_in g (gs : list string) : g ∈ gs -> add_group g gs = gs.
Proof. intros. unfold add_group. by rewrite decide_True. Qed.

Lemma write_key_step k group key v settings c o :
  during path fd settings st0 (c_storage c) o0 o -> group ∈ l_settings_get_groups settings ->
  post P (sto (storage_write_key k fd group key v))
    (fun rc c' o' => exists settings',
       file_step true settings settings' (c_thing c) rc c' o o' /\
       settings_agree_off group key settings settings' /\
       (rc = 0 -> l_settings_set k settings group key v = Some settings')) c o.
Proof.
  intros Hd Hg. apply post_sto. eapply post_mono; [by apply session_write_key|].
  intros rc st' o' (Hd' & Hrc & Hn & H0).
  exists (default settings (l_settings_set k settings group key v)).
  destruct (l_settings_set k settings group key v) as [s'|] eqn:Hs; cbn in *.
  - split; [split; try done|split; [by eapply set_off|done]].
    + rewrite (set_groups _ _ _ _ _ _ Hs). by apply add_group_in.
    + intros Hz _. destruct (H0 Hz) as (x & [= <-] & Hc). done.
  - destruct (Hn eq_refl) as [-> _]. split; [by split|]. split; [by split|done].
Qed.

Lemma write_string_step group key v settings c o :
  during path fd settings st0 (c_storage c) o0 o -> group ∈ l_settings_get_groups settings ->
  post P (sto (storage_write_key_string fd group key v))
    (fun rc c' o' => exists settings',
       file_step true settings settings' (c_thing c) rc c' o o' /\
       settings_agree_off group key settings settings') c o.
Proof.
  intros Hd Hg. apply post_sto. eapply post_mono; [by apply session_write_string|].
  intros rc st' o' (Hd' & Hrc & Hn & H0).
  exists (default settings (l_settings_set_string settings group key v)).
  destruct (l_settings_set_string settings group key v) as [s'|] eqn:Hs; cbn in *.
  - split; [split; try done|by eapply set_string_off].
    + rewrite (set_string_groups _ _ _ _ _ Hs). by apply add_group_in.
    + intros Hz _. destruct (H0 Hz) as (x & [= <-] & Hc). done.
  - destruct (Hn eq_refl) as [-> _]. split; [by split|by split].
Qed.

Lemma set_limit_step group key t v settings c o :
  during path fd settings st0 (c_storage c) o0 o -> group ∈ l_settings_get_groups settings ->
  post P (set_limit fd group key t v)
    (fun rc c' o' => exists settings',
       file_step true settings settings' (c_thing c) rc c' o o' /\
       settings_agree_off group key settings settings') c o.
Proof.
  intros Hd Hg. unfold set_limit. destruct (limit_kind t) as [k|].
  - assert (exists k' v', storage_write_limit (HM := HM) k fd group key (val_of k v)
                          = storage_write_key k' fd group key v') as (k' & v' & ->).
    { destruct k; eexists _, _; reflexivity. }
    eapply post_mono; [by apply write_key_step|].
    intros rc c' o' (s' & Hs & Ha & _). by exists s'.
  - post_step. exists settings. split; [by split|by split].
Qed.

(** One key of the event: what the branches keep. *)
Lemma update_event_key_step group key flag write next settings c o
    (Q : Z -> core HM -> os -> Prop) :
  during path fd settings st0 (c_storage c) o0 o -> group ∈ l_settings_get_groups settings ->
  (forall c o, during path fd settings st0 (c_storage c) o0 o ->
     post P write (fun rc c' o' => exists settings',
       file_step true settings settings' (c_thing c) rc c' o o' /\
       settings_agree_off group key settings settings') c o) ->
  (forall rc c' o' settings', rc < 0 ->
     file_step true settings settings' (c_thing c) rc c' o o' ->
     settings_agree_off group key settings settings' -> flag = true -> Q rc c' o') ->
  (forall c' o' settings', file_step flag settings settings' (c_thing c) 0 c' o o' ->
     settings_agree_off group key settings settings' ->
     (flag = false -> settings' = settings) -> post P next Q c' o') ->
  post P (update_event_key fd group key flag write next) Q c o.
Proof.
  intros Hd Hg Hw Herr Hnext. unfold update_event_key. destruct flag.
  - post_step. eapply post_mono; [by apply Hw|]. intros rc c' o' (s' & Hs & Ha). post_step.
    + post_step. apply (Herr _ _ _ s'); [lia|done..].
    + pose proof (fs_rc _ _ _ _ _ _ _ _ Hs) as Hrc. assert (rc = 0) as -> by lia.
      by apply (Hnext _ _ s').
  - post_step. apply post_sto. unfold storage_has_unit. do 3 post_step.
    rewrite (during_lookup _ _ _ _ _ _ _ Hd).
    assert (Core (c_thing c) (c_storage c) = c) as Hc by by destruct c.
    destruct (l_settings_has_key settings group key) eqn:Hk; cbn [negb when]; rewrite Hc.
    + do 2 post_step. apply (Hnext _ _ settings); [|by split|done].
      split; [done|done|done|done|]. by intros _ [?|?].
    + post_step. post_step. apply post_sto. eapply post_mono; [by apply session_remove_key|].
      intros rc st' o' (Hd' & _ & Hn & _). rewrite remove_key_missing in Hd', Hn by done.
      destruct (Hn eq_refl) as [_ ->]. post_step.
      apply (Hnext _ _ settings); [|by split|done].
      split; [done|done|done|done|]. by intros _ [?|Hs].
Qed.

(** The keys an update of the event writes, and whether it does. *)
Definition event_keys (event : knot_event) : list (string * bool) :=
  [(EVENT_TIME_SEC, flag_set (event_flags event) KNOT_EVT_FLAG_TIME);
   (EVENT_CHANGE, flag_set (event_flags event) KNOT_EVT_FLAG_CHANGE);
   (EVENT_LOWER_THRESHOLD, flag_set (event_flags event) KNOT_EVT_FLAG_LOWER_THRESHOLD);
   (EVENT_UPPER_THRESHOLD, flag_set (event_flags event) KNOT_EVT_FLAG_UPPER_THRESHOLD)].

(** The keys of a group but those of [keys] are what they were. *)
Definition keys_kept group (keys : list string) settings settings' : Prop :=
  forall i g k, (g = group -> k ∉ keys) ->
    l_settings_has_key settings' g k = l_settings_has_key settings g k /\
    l_settings_get_string settings' g k = l_settings_get_string settings g k /\
    l_settings_get i settings' g k = l_settings_get i settings g k.

Lemma keys_kept_refl group keys settings : keys_kept group keys settings settings.
Proof. done. Qed.

Lemma keys_kept_trans group keys1 keys2 s1 s2 s3 :
  keys_kept group keys1 s1 s2 -> keys_kept group keys2 s2 s3 ->
  keys_kept group (keys1 ++ keys2) s1 s3.
Proof.
  intros H1 H2 i g k Hn. destruct (H2 i g k) as (-> & -> & ->); [set_solver|].
  apply H1. set_solver.
Qed.

Lemma keys_kept_off group key s1 s2 :
  settings_agree_off group key s1 s2 -> keys_kept group [key] s1 s2.
Proof.
  intros [H1 H2 H3] i g k Hn. rewrite H1, H2, H3; [done|..].
  all: intros [= -> ->]; by apply Hn; [|left].
Qed.

(** A chain of branches: each one a step that touches its key only when its flag is set. *)
Lemma update_event_chain group (wrote : bool) keys key (flag : bool) write next settings0 settings t c o o1
    (Q : Z -> core HM -> os -> Prop) :
  file_step wrote settings0 settings t 0 c o o1 -> keys_kept group keys settings0 settings ->
  group ∈ l_settings_get_groups settings0 ->
  (forall s c o, during path fd s st0 (c_storage c) o0 o -> group ∈ l_settings_get_groups s ->
     post P write (fun rc c' o' => exists settings',
       file_step true s settings' (c_thing c) rc c' o o' /\
       settings_agree_off group key s settings') c o) ->
  (forall rc c' o' settings', rc < 0 ->
     file_step true settings0 settings' t rc c' o o' ->
     keys_kept group (keys ++ (if flag then [key] else [])) settings0 settings' -> Q rc c' o') ->
  (forall c' o' settings',
     file_step (wrote || flag) settings0 settings' t 0 c' o o' ->
     keys_kept group (keys ++ (if flag then [key] else [])) settings0 settings' ->
     post P next Q c' o') ->
  post P (update_event_key fd group key flag write next) Q c o1.
Proof.
  intros Hs Hk Hg Hw Herr Hnext. pose proof (fs_during _ _ _ _ _ _ _ _ Hs) as Hd.
  pose proof (fs_groups _ _ _ _ _ _ _ _ Hs) as Hgs. pose proof (fs_thing _ _ _ _ _ _ _ _ Hs) as <-.
  eapply (update_event_key_step group key flag write next settings); [done|by rewrite Hgs|..].
  - intros. apply Hw; [done|by rewrite Hgs].
  - intros rc c' o' s' Hrc Hs' Ha ->. apply (Herr _ _ _ s'); [done| |].
    + pose proof (file_step_trans _ _ _ _ _ _ _ _ _ _ _ _ _ Hs eq_refl Hs') as Ht.
      by rewrite orb_true_r in Ht.
    + eapply keys_kept_trans; [done|by apply keys_kept_off].
  - intros c' o' s' Hs' Ha Hno. apply (Hnext _ _ s').
    + by eapply file_step_trans.
    + eapply keys_kept_trans; [done|]. destruct flag; [by apply keys_kept_off|].
      rewrite Hno by done. apply keys_kept_refl.
Qed.

(** The keys whose flag is set. *)
Definition written_keys (event : knot_event) : list string :=
  map fst (List.filter snd (event_keys event)).

Lemma file_step_refl settings c o :
  during path fd settings st0 (c_storage c) o0 o ->
  file_step false settings settings (c_thing c) 0 c o o.
Proof. intros Hd. split; try done. by intros _ [?|?]. Qed.

Ltac sub_keys := cbn; repeat case_match; intros ?k; rewrite ?elem_of_app, ?elem_of_cons; tauto.

Lemma update_event_data_item_step group value_type event settings c o :
  during path fd settings st0 (c_storage c) o0 o -> group ∈ l_settings_get_groups settings ->
  post P (update_event_data_item fd group value_type event)
    (fun rc c' o' => exists wrote settings',
       file_step wrote settings settings' (c_thing c) rc c' o o' /\
       (rc = 0 -> keys_kept group (written_keys event) settings settings') /\
       keys_kept group (map fst (event_keys event)) settings settings') c o.
Proof.
  intros Hd Hg. unfold update_event_data_item, storage_write_key_int.
  assert (forall keys s', keys ⊆ map fst (event_keys event) -> keys_kept group keys settings s' ->
    keys_kept group (map fst (event_keys event)) settings s') as Hsub.
  { intros keys s' Hs H i g k Hn. apply H. intros Hgr Hin. by apply (Hn Hgr), Hs. }
  assert (forall s c o key v, during path fd s st0 (c_storage c) o0 o ->
    group ∈ l_settings_get_groups s ->
    post P (sto (storage_write_key KInt fd group key v))
      (fun rc c' o' => exists settings', file_step true s settings' (c_thing c) rc c' o o' /\
         settings_agree_off group key s settings') c o) as Hint.
  { intros. eapply post_mono; [by apply write_key_step|].
    intros rc c' o' (s' & ? & ? & _). by exists s'. }
  eapply (update_event_chain group false []);
    [by apply file_step_refl|apply keys_kept_refl|done|by intros; apply Hint|..].
  { intros rc c' o' s' Hrc Hs Hk. exists true, s'. split; [done|]. split; [lia|].
    eapply Hsub; [|exact Hk]. sub_keys. }
  intros c1 o1 s1 Hs1 Hk1. eapply update_event_chain; [exact Hs1|exact Hk1|done|by intros; apply Hint|..].
  { intros rc c' o' s' Hrc Hs Hk. exists true, s'. split; [done|]. split; [lia|].
    eapply Hsub; [|exact Hk]. sub_keys. }
  intros c2 o2 s2 Hs2 Hk2. eapply update_event_chain; [exact Hs2|exact Hk2|done|by intros; apply set_limit_step|..].
  { intros rc c' o' s' Hrc Hs Hk. exists true, s'. split; [done|]. split; [lia|].
    eapply Hsub; [|exact Hk]. sub_keys. }
  intros c3 o3 s3 Hs3 Hk3. eapply update_event_chain; [exact Hs3|exact Hk3|done|by intros; apply set_limit_step|..].
  { intros rc c' o' s' Hrc Hs Hk. exists true, s'. split; [done|]. split; [lia|].
    eapply Hsub; [|exact Hk]. sub_keys. }
  intros c4 o4 s4 Hs4 Hk4. post_step. eexists _, s4. split; [exact Hs4|].
  assert (keys_kept group (written_keys event) settings s4) as Hw.
  { revert Hk4. unfold written_keys, event_keys. cbn. by repeat case_match. }
  split; [done|]. eapply Hsub; [|exact Hw]. unfold written_keys. intros k.
  rewrite !list_elem_of_In, !in_map_iff. intros (x & Hx & Hin). exists x. split; [done|].
  by apply filter_In in Hin as [? _].
Qed.

Definition schema_keys : list string :=
  [SCHEMA_TYPE_ID; SCHEMA_UNIT; SCHEMA_VALUE_TYPE; SCHEMA_SENSOR_NAME].

Lemma update_schema_data_item_step group sch settings c o :
  during path fd settings st0 (c_storage c) o0 o -> group ∈ l_settings_get_groups settings ->
  post P (update_schema_data_item fd group sch)
    (fun rc c' o' => exists settings',
       file_step true settings settings' (c_thing c) rc c' o o' /\
       keys_kept group schema_keys settings settings') c o.
Proof.
  intros Hd Hg. unfold update_schema_data_item, storage_write_key_int.
  assert (forall key s, key ∈ schema_keys -> settings_agree_off group key settings s ->
    keys_kept group schema_keys settings s) as Hk1.
  { intros key s Hin Ha i g k Hn. apply (keys_kept_off _ _ _ _ Ha). intros Hgr Hk.
    apply list_elem_of_singleton in Hk as ->. by apply Hn. }
  assert (forall key s s', key ∈ schema_keys -> keys_kept group schema_keys settings s ->
    settings_agree_off group key s s' -> keys_kept group schema_keys settings s') as Hk2.
  { intros key s s' Hin Hs Ha i g k Hn. destruct (Hs i g k Hn) as (<- & <- & <-).
    apply (keys_kept_off _ _ _ _ Ha). intros Hgr Hk.
    apply list_elem_of_singleton in Hk as ->. by apply Hn. }
  post_step. eapply post_mono; [by apply write_key_step|].
  intros rc1 c1 o1 (s1 & Hs1 & Ha1 & _). pose proof (fs_thing _ _ _ _ _ _ _ _ Hs1) as Ht1.
  assert (keys_kept group schema_keys settings s1) as Hkk1 by (eapply Hk1; [left|done]).
  post_step; [post_step; by eexists|]. pose proof (fs_rc _ _ _ _ _ _ _ _ Hs1).
  assert (rc1 = 0) as -> by lia.
  post_step. eapply post_mono;
    [apply write_key_step; [apply Hs1|by rewrite (fs_groups _ _ _ _ _ _ _ _ Hs1)]|].
  intros rc2 c2 o2 (s2 & Hs2 & Ha2 & _). rewrite Ht1 in Hs2.
  pose proof (file_step_trans _ _ _ _ _ _ _ _ _ _ _ _ _ Hs1 eq_refl Hs2) as Hs12.
  pose proof (fs_thing _ _ _ _ _ _ _ _ Hs2) as Ht2.
  assert (keys_kept group schema_keys settings s2) as Hkk2 by (eapply Hk2; [right; left|done|done]).
  post_step; [post_step; by eexists|]. pose proof (fs_rc _ _ _ _ _ _ _ _ Hs2).
  assert (rc2 = 0) as -> by lia.
  post_step. eapply post_mono;
    [apply write_key_step; [apply Hs2|by rewrite (fs_groups _ _ _ _ _ _ _ _ Hs12)]|].
  intros rc3 c3 o3 (s3 & Hs3 & Ha3 & _). rewrite Ht2 in Hs3.
  pose proof (file_step_trans _ _ _ _ _ _ _ _ _ _ _ _ _ Hs12 eq_refl Hs3) as Hs13.
  pose proof (fs_thing _ _ _ _ _ _ _ _ Hs3) as Ht3.
  assert (keys_kept group schema_keys settings s3) as Hkk3
    by (eapply Hk2; [do 2 right; left|done|done]).
  post_step; [post_step; by eexists|]. pose proof (fs_rc _ _ _ _ _ _ _ _ Hs3).
  assert (rc3 = 0) as -> by lia.
  post_step. eapply post_mono;
    [apply write_string_step; [apply Hs3|by rewrite (fs_groups _ _ _ _ _ _ _ _ Hs13)]|].
  intros rc4 c4 o4 (s4 & Hs4 & Ha4). rewrite Ht3 in Hs4.
  pose proof (file_step_trans _ _ _ _ _ _ _ _ _ _ _ _ _ Hs13 eq_refl Hs4) as Hs14.
  post_steps; (exists s4; split; [done|]; eapply Hk2; [do 3 right; left|done|done]).
Qed.
End Updates.

Section Update.
Context `{KL : KnotProtocolLaws} `{E : Env} (Hlaw : EnvLaws) `{LSL : LSettingsLaws}
  {HM : Type -> Type} `{HL : LHashmapLaws HM}.
Implicit Types (c : core HM) (o : os) (group : string) (settings : l_settings).

(** The group is that of the item of a configuration. *)
Definition group_of settings (config : knot_msg_config) group : Prop :=
  l_settings_get KInt settings group SCHEMA_SENSOR_ID = Some (config_sensor_id config).

#[export] Instance group_of_dec settings config group : Decision (group_of settings config group).
Proof. unfold group_of. apply _. Defined.

Lemma update_data_item_loop_step P path fd st0 o0 config settings groups : forall c o,
  during path fd settings st0 (c_storage c) o0 o ->
  Forall (fun g => g ∈ l_settings_get_groups settings) groups ->
  post P (update_data_item_loop fd config groups)
    (fun has_err c' o' => exists wrote settings',
       file_step path fd st0 o0 wrote settings settings' (c_thing c)
         (if has_err : bool then -1 else 0) c' o o' /\
       (Exists (group_of settings config) groups -> wrote = true)) c o.
Proof.
  induction groups as [|g groups IH]; intros c o Hd Hg; cbn [update_data_item_loop].
  { post_step. exists false, settings. split; [by apply file_step_refl|]. by intros ?%Exists_nil. }
  apply Forall_cons in Hg as [Hg Hgs]. post_step.
  eapply post_mono; [by apply (equal_sensor_id_reads P fd settings), Hd|].
  intros ? ? ? (-> & -> & ->). fold (group_of settings config g).
  destruct (decide (group_of settings config g)) as [Hm|Hm];
    [rewrite bool_decide_eq_true_2 by done|rewrite bool_decide_eq_false_2 by done];
    cbn [negb]; cycle 1.
  { eapply post_mono; [by apply IH|]. intros b c' o' (w & s' & Hs & He). exists w, s'.
    split; [done|]. intros [?|?]%Exists_cons; [done|by apply He]. }
  post_step. eapply post_mono; [by apply update_schema_data_item_step|].
  intros rc1 c1 o1 (s1 & Hs1 & _). pose proof (fs_rc _ _ _ _ _ _ _ _ _ _ _ _ Hs1) as Hrc1.
  pose proof (fs_thing _ _ _ _ _ _ _ _ _ _ _ _ Hs1) as Ht1.
  assert (g ∈ l_settings_get_groups s1) as Hg1 by by rewrite (fs_groups _ _ _ _ _ _ _ _ _ _ _ _ Hs1).
  post_step.
  - post_step. eapply post_mono; [apply (update_event_data_item_step Hlaw P path fd st0 o0 g _ _ s1);
      [exact (fs_during _ _ _ _ _ _ _ _ _ _ _ _ Hs1)|done]|].
    intros rc2 c2 o2 (w2 & s2 & Hs2 & _). rewrite Ht1 in Hs2.
    pose proof (fs_rc _ _ _ _ _ _ _ _ _ _ _ _ Hs2) as Hrc2. post_step.
    exists true, s2. split; [|done]. destruct (Z.ltb_spec rc1 0), (Z.ltb_spec rc2 0); cbn [orb].
    4: { assert (rc1 = 0) as -> by lia. assert (rc2 = 0) as -> by lia.
         by apply (file_step_trans _ _ _ _ _ _ _ _ _ _ _ _ _ _ _ _ _ Hs1 eq_refl Hs2). }
    all: destruct Hs1 as [_ _ G1 _ _], Hs2 as [D2 T2 G2 _ _]; split; [done|done|congruence|lia|lia].
  - post_step. exists true, s1. split; [|done]. destruct (Z.ltb_spec rc1 0).
    + destruct Hs1 as [D1 T1 G1 _ _]. split; [done|done|done|lia|lia].
    + assert (rc1 = 0) as -> by lia. done.
Qed.

Lemma properties_update_data_item_step path config c o :
  (String.length path <= PATH_MAX)%nat -> storage_wf (c_storage c) o -> thing_wf (c_thing c) ->
  let settings := load_file (os_files o !! path) in
  wlp (properties_update_data_item path config)
    (fun rc c' o' => session path (c_storage c) (c_storage c') o o' /\ thing_wf (c_thing c') /\
       (exists h, c_thing c' = set_items h (c_thing c) /\
          (is_Some (data_items (c_thing c)) -> is_Some h)) /\
       (Exists (group_of settings config) (data_groups (l_settings_get_groups settings)) ->
        rc = 0 -> whole_writes o' ->
        exists s', contents o' path = l_settings_to_data s' /\
          l_settings_get_groups s' = data_groups (l_settings_get_groups settings))) c o.
Proof.
  cbn zeta. intros Hlen Hst Hwf. unfold properties_update_data_item. post_step. apply post_sto.
  eapply post_mono; [by apply session_open|].
  intros fd st1 o1 [(Hfd & -> & Hs & _)|(Hfd & Hd & Hc)]; cbn beta.
  { rewrite (proj2 (Z.ltb_lt _ _)) by done. post_step. split; [done|]. split; [done|].
    split; [|lia]. exists (data_items (c_thing c)). split; [|done]. by destruct (c_thing c). }
  rewrite (proj2 (Z.ltb_ge _ _)) by done. set (settings := load_file (os_files o !! path)) in *.
  post_step. apply post_th. eapply post_mono; [by apply device_update_config_data_item_spec|].
  intros [] t2 ? (-> & Hwf2 & h & Ht2 & _ & Hh). cbn [c_storage]. post_step. apply post_sto.
  eapply post_mono; [by apply session_groups|].
  intros r st3 ? (-> & settings' & Hd3 & Hr & Hgroups). cbn [c_thing c_storage].
  post_step. unfold deref. destruct r as [groups|]; [|done]. post_step. post_step.
  specialize (Hr groups eq_refl) as ->.
  eapply post_mono; [apply update_data_item_loop_step; [done|by apply Forall_forall]|].
  intros has_err c4 o4 (w & s4 & Hs4 & Hw). cbn [c_thing] in Hs4. post_step. apply post_sto.
  eapply post_mono; [eapply session_close, Hs4|]. intros rc st5 o5 (Hs & Hf & Hq).
  pose proof (fs_thing _ _ _ _ _ _ _ _ _ _ _ _ Hs4) as Ht4.
  assert (forall r, (r = 0 -> has_err = false) ->
    session path (c_storage c) st5 o o5 /\ thing_wf (c_thing c4) /\
    (exists h, c_thing c4 = set_items h (c_thing c) /\
       (is_Some (data_items (c_thing c)) -> is_Some h)) /\
    (Exists (group_of settings config) (data_groups (l_settings_get_groups settings)) ->
     r = 0 -> whole_writes o5 -> exists s', contents o5 path = l_settings_to_data s' /\
       l_settings_get_groups s' = data_groups (l_settings_get_groups settings))) as Hdone.
  { intros r Hr. rewrite Ht4. split; [done|]. split; [done|].
    split; [exists h; by rewrite Ht2|]. intros Hex Hr0 Hw5. destruct Hgroups as (Hk & Hgs & _).
    exists s4. split; [|by rewrite (fs_groups _ _ _ _ _ _ _ _ _ _ _ _ Hs4)].
    unfold contents. rewrite Hf. apply (fs_synced _ _ _ _ _ _ _ _ _ _ _ _ Hs4);
      [by rewrite (Hr Hr0)|left|by eapply whole_writes_before]. apply Hw. rewrite Hgs.
    apply Exists_exists in Hex as (g & Hg & Hm). apply Exists_exists. exists g. split; [done|].
    apply list_elem_of_filter in Hg as [Hg _]. unfold group_of in *.
    by rewrite (proj2 (proj2 (Hk KInt g SCHEMA_SENSOR_ID Hg))). }
  post_step; post_step; apply Hdone; lia || done.
Qed.
End Update.

(** ** Properties *)

Section Properties.
Context `{KL : KnotProtocolLaws} `{E : Env} (Hlaw : EnvLaws) `{LSL : LSettingsLaws}
  {HM : Type -> Type} `{HL : LHashmapLaws HM}.
Implicit Types (c : core HM) (o : os).

Lemma thing_group_not_data groups : THING_GROUP ∉ data_groups groups.
Proof. intros [H _]%list_elem_of_filter. discriminate H. Qed.

(** A device file without the group of the thing cannot be loaded. *)
Lemma set_thing_properties_no_group P path c o :
  (String.length path <= PATH_MAX)%nat -> storage_wf (c_storage c) o ->
  THING_GROUP ∉ l_settings_get_groups (settings_at o path) ->
  post P (set_thing_properties path) (fun rc _ _ => rc < 0) c o.
Proof.
  intros Hlen Hst Hg. unfold set_thing_properties. post_step. apply post_sto.
  eapply post_mono; [by apply session_open|].
  intros fd st1 o1 [(Hfd & _)|(Hfd & Hd & _)]; cbn beta.
  { rewrite (proj2 (Z.ltb_lt _ _)) by done. by post_step. }
  rewrite (proj2 (Z.ltb_ge _ _)) by done. fold (settings_at o path) in Hd.
  unfold set_thing_name. do 2 post_step.
  apply (post_read_string P fd (settings_at o path)); [exact (during_lookup _ _ _ _ _ _ _ Hd)|].
  destruct (l_settings_get_string (settings_at o path) THING_GROUP THING_NAME) eqn:Hn.
  { apply get_string_group in Hn. done. }
  post_step. change (- EINVAL <? 0) with true. cbn iota. post_step. apply post_sto.
  eapply post_mono; [by eapply session_close|]. intros. by post_step.
Qed.

(** C27: The update of one item keeps only the groups of the data items in the device file: after
    one that succeeded, and as long as no write was short, the properties of the thing cannot be
    loaded from the file, in whatever state the thing and the storage are then. *)
Theorem properties_update_data_item_loses_thing path config c o :
  (String.length path <= PATH_MAX)%nat -> storage_wf (c_storage c) o -> thing_wf (c_thing c) ->
  Exists (group_of (settings_at o path) config)
    (data_groups (l_settings_get_groups (settings_at o path))) ->
  wlp (properties_update_data_item path config)
    (fun rc c' o' => storage_wf (c_storage c') o' /\
       (rc = 0 -> whole_writes o' -> forall c2, storage_wf (c_storage c2) o' ->
          wp (set_thing_properties path) (fun rc2 _ _ => rc2 < 0) c2 o')) c o.
Proof.
  intros Hlen Hst Hwf Hex. eapply post_mono; [by apply (properties_update_data_item_step Hlaw)|].
  intros rc c1 o1 (Hs & Hwf1 & _ & Hlost). split; [by destruct Hs|].
  intros Hrc Hw c2 Hst2. destruct (Hlost Hex Hrc Hw) as (s' & Hc & Hg).
  apply set_thing_properties_no_group; [done|done|].
  unfold settings_at, load_file. unfold contents in Hc. rewrite Hc.
  rewrite (get_groups_proper _ _ (load_to_data s')), Hg. apply thing_group_not_data.
Qed.

(** C28: An update of an item leaves nothing open and touches no other file, keeps the thing well
    formed, and keeps of it all but its items. *)
Theorem properties_update_data_item_session path config c o :
  (String.length path <= PATH_MAX)%nat -> storage_wf (c_storage c) o -> thing_wf (c_thing c) ->
  wlp (properties_update_data_item path config)
    (fun _ c' o' => session path (c_storage c) (c_storage c') o o' /\ thing_wf (c_thing c') /\
       exists h, c_thing c' = set_items h (c_thing c)) c o.
Proof.
  intros. eapply post_mono; [by apply (properties_update_data_item_step Hlaw)|].
  intros rc c' o' (? & ? & (h & ? & _) & _). split; [done|]. split; [done|]. by exists h.
Qed.

(** C29: The keys of an event whose flag is not set are neither written nor removed: the file keeps
    the thresholds, the time and the change flag of the event before. *)
Theorem update_event_data_item_keeps path fd settings st0 o0 group value_type event
    (c : core HM) o :
  during path fd settings st0 (c_storage c) o0 o -> group ∈ l_settings_get_groups settings ->
  wp (update_event_data_item fd group value_type event)
    (fun rc c' o' => rc <= 0 /\
       (rc = 0 -> exists settings', during path fd settings' st0 (c_storage c') o0 o' /\
          keys_kept group (written_keys event) settings settings')) c o.
Proof.
  intros Hd Hg. eapply post_mono; [by apply (update_event_data_item_step Hlaw)|].
  intros rc c' o' (w & s' & Hs & Hk & _). split; [by destruct Hs|]. intros H0.
  exists s'. split; [by destruct Hs|by apply Hk].
Qed.
End Properties.

(** ** Witnesses *)

Section Example.
#[local] Existing Instances example_knot list_hashmap example_settings.
#[local] Existing Instances example_knot_laws list_hashmap_laws example_settings_laws.

(** A new name for the item of the sample file, and no event. *)
Definition example_config : knot_msg_config :=
  KnotMsgConfig 0 (KnotSchema 1 1 1 (strcpy (replicate 30 NUL) "Renamed")) (KnotEvent 8 0 0 0).

Lemma properties_update_data_item_loses_thing_witness :
  match (let! rc := properties_update_data_item (E := quiet_env) "device.conf" example_config in
         let! rc2 := set_thing_properties (E := quiet_env) "device.conf" in
         ret (rc, rc2)) example_core example_files with
  | Some (r, _, _) => r = (0, - EINVAL)
  | None => False
  end /\
  wlp (properties_update_data_item (E := quiet_env) "device.conf" example_config)
    (fun rc c' o' => storage_wf (c_storage c') o' /\
       (rc = 0 -> whole_writes (H := quiet_env) o' -> forall c2 : core (fun V => list (Z * V)),
          storage_wf (c_storage c2) o' ->
          wp (set_thing_properties (E := quiet_env) "device.conf") (fun rc2 _ _ => rc2 < 0) c2 o'))
    example_core example_files.
Proof.
  split; [by vm_compute|].
  apply (properties_update_data_item_loses_thing quiet_env_laws).
  - apply example_path_ok. cbn. lia.
  - apply storage_init_wf.
  - apply example_thing_wf.
  - apply (bool_decide_unpack _). by vm_compute.
Defined.

Lemma properties_update_data_item_session_witness :
  wlp (properties_update_data_item (E := quiet_env) "device.conf" example_config)
    (fun _ c' o' =>
       session "device.conf" (c_storage example_core) (c_storage c') example_files o' /\
       thing_wf (c_thing c') /\ exists h, c_thing c' = set_items h (c_thing example_core))
    example_core example_files.
Proof.
  apply (properties_update_data_item_session quiet_env_laws).
  - apply example_path_ok. cbn. lia.
  - apply storage_init_wf.
  - apply example_thing_wf.
Defined.

Lemma update_event_data_item_keeps_witness :
  written_keys (KnotEvent 8 0 0 0) = ["EventChange"%string] /\
  wp (update_event_data_item (E := quiet_env) 3 "DataItem_0" 1 (KnotEvent 8 0 0 0))
    (fun rc c' o' => rc <= 0 /\
       (rc = 0 -> exists settings',
          during "device.conf" 3 settings' storage_init (c_storage c') (with_fds ∅ example_open) o' /\
          keys_kept "DataItem_0" (written_keys (KnotEvent 8 0 0 0)) example_object settings'))
    example_open_core example_open.
Proof.
  split; [by vm_compute|].
  apply (update_event_data_item_keeps quiet_env_laws "device.conf" 3 example_object storage_init
           (with_fds ∅ example_open) "DataItem_0" 1 (KnotEvent 8 0 0 0)).
  - apply example_during.
  - apply (bool_decide_unpack _). by vm_compute.
Defined.
End Example.
