(* ===== verification/Device.v ===== *)
(** * The device (src/device.c): the functions the state machine calls

    The implementation of the class [Device] of [Sm] over the static variables of the program,
    and the proof that it satisfies [DeviceSpec]. *)

From S2P Require Import Prelude Scan Knot Ext Ell Sm Event Poll Modbus Timers Storage Session.
From S2P Require Import Thing Properties Load Credentials Update.

(** ** State: the static variables of the source files but sm.c *)

Section Device.
Context `{KP : KnotProtocol} `{E : Env} `{LS : LSettings} {HM Q : Type -> Type}
  `{LH : !LHashmap HM} `{LQ : !LQueue Q}.

Record world := World {
  w_core : core HM;              (* device.c: thing; storage.c *)
  w_event : event_state Q;       (* event.c *)
  w_poll : poll_state Q;         (* poll.c *)
  w_modbus : modbus_state;       (* iface-modbus.c *)
  w_conn_mask : Z                (* device.c: conn_mask of conn_handler *)
}.

Definition core_lens : lens world (core HM) :=
  Lens w_core (fun c w => World c (w_event w) (w_poll w) (w_modbus w) (w_conn_mask w)).
Definition event_lens : lens world (event_state Q) :=
  Lens w_event (fun e w => World (w_core w) e (w_poll w) (w_modbus w) (w_conn_mask w)).
Definition poll_lens : lens world (poll_state Q) :=
  Lens w_poll (fun p w => World (w_core w) (w_event w) p (w_modbus w) (w_conn_mask w)).
Definition modbus_lens : lens world modbus_state :=
  Lens w_modbus (fun m w => World (w_core w) (w_event w) (w_poll w) m (w_conn_mask w)).
Definition mask_lens : lens world Z :=
  Lens w_conn_mask (fun k w => World (w_core w) (w_event w) (w_poll w) (w_modbus w) k).

Definition on_core {A} (m : M (core HM) A) : M world A := zoom core_lens m.
Definition on_thing {A} (m : M (knot_thing HM) A) : M world A := on_core (th m).

Definition w_thing (w : world) : knot_thing HM := c_thing (w_core w).
Definition get_thing : M world (knot_thing HM) := let! w := get in ret (w_thing w).

(** ** Data *)

Definition on_publish_data (sid : Z) : M world () :=
  let! data_item := on_thing (device_data_item_lookup sid) in
  match data_item with
  | None => ret tt
  | Some i =>
      let! t := get_thing in
      let! rc := ext_rc (C_cloud_publish_data (cstr (id t)) (sensor_id i)
                           (schema_value_type (schema i)) (current_val i) sizeof_value_type) in
      ret tt
  end.

Definition foreach_publish_all_data (e : Z * knot_data_item) : M world () :=
  on_publish_data (sensor_id e.2).

Definition device_publish_data_list (sensor_id_list : list Z) : M world () :=
  foreach on_publish_data sensor_id_list.

Definition device_publish_data_all : M world () :=
  let! t := get_thing in
  foreach foreach_publish_all_data (items t).

(** ** Events and configuration *)

Definition foreach_event_add_data_item (e : Z * knot_data_item) : M world () :=
  zoom event_lens (event_add_data_item (sensor_id e.2) (event e.2)).

Definition device_start_event : M world Z :=
  let! rc := zoom event_lens (event_start on_event_timeout_cb) in
  if rc <? 0 then ret rc
  else
    let! t := get_thing in
    foreach foreach_event_add_data_item (items t) ;;
    ret 0.

Definition device_stop_event : M world () := zoom event_lens event_stop.

Definition foreach_update_config (config : knot_msg_config) : M world () :=
  let! t := get_thing in
  let! path := deref (device_path (conf_files t)) in
  on_core (properties_update_data_item path config) ;;
  ret tt.

Definition device_update_config (config_list : list knot_msg_config) : M world Z :=
  device_stop_event ;;
  foreach foreach_update_config config_list ;;
  let! rc := device_start_event in
  ret 0.

Definition device_check_schema_change : M world Z := ret 1.

(** ** Requests *)

Definition device_send_register_request : M world Z :=
  let! t := get_thing in
  ext_rc (C_cloud_register_device (cstr (id t)) (cstr (name t))).

Definition device_send_auth_request : M world Z :=
  let! t := get_thing in
  ext_rc (C_cloud_auth_device (cstr (id t)) (cstr (token t))).

Definition foreach_send_config (config_queue : Q knot_msg_config) (e : Z * knot_data_item)
    : Q knot_msg_config :=
  l_queue_push_head config_queue (KnotMsgConfig (sensor_id e.2) (schema e.2) (event e.2)).

Definition device_send_config : M world Z :=
  let! t := get_thing in
  let config_queue := fold_left foreach_send_config (items t) l_queue_new in
  ext_rc (C_cloud_update_config (cstr (id t)) (l_queue_elems config_queue)).

Definition device_start_read_cloud : M world Z :=
  let! t := get_thing in
  ext_rc (C_cloud_read_start (cstr (id t))).

(** ** Credentials *)

Definition device_store_credentials_on_file (thing_token : option string) : M world Z :=
  let! t := get_thing in
  let! k := deref thing_token in
  let! path := deref (credentials_path (conf_files t)) in
  let! rc := on_core (properties_store_credentials path (cstr (id t)) k) in
  if rc <? 0 then ret (-1)
  else
    on_thing (modify (fun t => set_token (strncpy (token t) k KNOT_PROTOCOL_TOKEN_LEN) t)) ;;
    ret 0.

Definition device_clear_credentials_on_file : M world Z :=
  let! t := get_thing in
  let! path := deref (credentials_path (conf_files t)) in
  on_core (properties_clear_credentials path).

(** ** The message timeout *)

Definition device_msg_timeout_create (seconds : Z) : M world () :=
  let! t := get_thing in
  if negb (msg_to t =? 0) then ret tt
  else
    let! to := l_timeout_create seconds on_msg_timeout_cb in
    on_thing (modify (set_msg_to to)).

Definition device_msg_timeout_modify (seconds : Z) : M world () :=
  let! t := get_thing in
  l_timeout_modify (msg_to t) seconds.

Definition device_msg_timeout_remove : M world () :=
  let! t := get_thing in
  l_timeout_remove (msg_to t) ;;
  on_thing (modify (set_msg_to 0)).

(** ** The implementation *)

#[export] Instance device : Device world := {|
  Sm.device_has_thing_token := on_thing Thing.device_has_thing_token;
  Sm.device_generate_thing_id := on_thing Thing.device_generate_thing_id;
  Sm.device_start_read_cloud := device_start_read_cloud;
  Sm.device_msg_timeout_create := device_msg_timeout_create;
  Sm.device_msg_timeout_modify := device_msg_timeout_modify;
  Sm.device_msg_timeout_remove := device_msg_timeout_remove;
  Sm.device_check_schema_change := device_check_schema_change;
  Sm.device_send_auth_request := device_send_auth_request;
  Sm.device_send_register_request := device_send_register_request;
  Sm.device_send_config := device_send_config;
  Sm.device_store_credentials_on_file := device_store_credentials_on_file;
  Sm.device_clear_credentials_on_file := device_clear_credentials_on_file;
  Sm.device_start_event := device_start_event;
  Sm.device_stop_event := device_stop_event;
  Sm.device_update_config := device_update_config;
  Sm.device_publish_data_list := device_publish_data_list;
  Sm.device_publish_data_all := device_publish_data_all
|}.
End Device.

Arguments world {LS} HM Q.

(** ** The invariant of the device

    [frame] is the part of the state the functions above do not touch: the polling, the Modbus
    interface and the connections. *)

Section Invariant.
Context `{KL : KnotProtocolLaws} `{E : Env} (Hlaw : EnvLaws) `{LSL : LSettingsLaws}
  {HM Q : Type -> Type} `{HL : LHashmapLaws HM} `{LQL : LQueueLaws Q}.
Implicit Types (w : world HM Q) (o : os).

Record frame := Frame { f_poll : poll_state Q; f_modbus : modbus_state; f_mask : Z }.

Definition frame_of w : frame := Frame (w_poll w) (w_modbus w) (w_conn_mask w).

(** The paths of the files are set when the device has started. *)
Definition path_ok (p : option string) : Prop :=
  exists path, p = Some path /\ (String.length path <= PATH_MAX)%nat.

Record dev_inv (f : frame) w o : Prop := {
  di_os : os_wf o;
  di_thing : thing_wf (w_thing w);
  di_storage : storage_wf (c_storage (w_core w)) o;
  di_items : is_Some (data_items (w_thing w));
  di_credentials : path_ok (credentials_path (conf_files (w_thing w)));
  di_device : path_ok (device_path (conf_files (w_thing w)));
  di_msg : msg_ok (msg_to (w_thing w)) (os_timers o);
  di_event : event_ok (w_event w) (os_timers o);
  di_poll : poll_ok (f_poll f) (os_timers o);
  di_connect : connect_ok (f_modbus f) (os_timers o);
  di_frame : frame_of w = f
}.

Definition timer_pending w : bool := negb (msg_to (w_thing w) =? 0).

Definition device_frame f w w' o o' : Prop :=
  dev_inv f w' o' /\ timer_pending w' = timer_pending w /\
  active (w_event w') = active (w_event w) /\ published o' = published o.

(** A call that changes nothing the program keeps. *)
Lemma dev_inv_os f w o o' :
  os_timers o' = os_timers o -> os_next o' = os_next o ->
  storage_wf (c_storage (w_core w)) o' -> dev_inv f w o -> dev_inv f w o'.
Proof.
  intros Ht Hn Hs [[H1 H1'] H2 H3 H4 H5 H6 H7 H8 H9 H10 H11]. split; rewrite ?Ht; try done.
  split; [by rewrite Hn|by rewrite Hn, Ht].
Qed.

Lemma storage_wf_logged (st : storage HM) c a o : storage_wf st o -> storage_wf st (logged c a o).
Proof. by intros []. Qed.

Lemma dev_inv_logged f w c a o : dev_inv f w o -> dev_inv f w (logged c a o).
Proof. intros Hi. eapply dev_inv_os; [..|exact Hi]; try done. apply storage_wf_logged, Hi. Qed.

Lemma device_frame_logged f w c a o :
  is_publish c = false -> dev_inv f w o -> device_frame f w w o (logged c a o).
Proof.
  intros Hc Hi. split; [by apply dev_inv_logged|]. split; [done|]. split; [done|].
  unfold published. cbn. by rewrite Hc.
Qed.

(** The core changed, the timers not. *)
Lemma dev_inv_core f w o c' o' :
  dev_inv f w o -> os_quiet o o' -> thing_wf (c_thing c') -> storage_wf (c_storage c') o' ->
  is_Some (data_items (c_thing c')) -> conf_files (c_thing c') = conf_files (w_thing w) ->
  msg_to (c_thing c') = msg_to (w_thing w) ->
  device_frame f w (lens_set core_lens c' w) o o'.
Proof.
  intros [H1 H2 H3 H4 H5 H6 H7 H8 H9 H10 H11] Hq Ht Hs Hi Hc Hm.
  split; [|split; [|split; [done|apply (quiet_published _ _ Hq)]]].
  - split; rewrite ?(quiet_timers _ _ Hq); unfold w_thing in *; cbn; rewrite ?Hc, ?Hm; try done.
    by eapply os_quiet_wf.
  - unfold timer_pending, w_thing in *. cbn. by rewrite Hm.
Qed.

(** The thing changed in fields that are not the core of the invariant. *)
Lemma dev_inv_thing f w o t' :
  dev_inv f w o -> thing_wf t' -> is_Some (data_items t') ->
  conf_files t' = conf_files (w_thing w) -> msg_to t' = msg_to (w_thing w) ->
  forall o', os_quiet o o' -> storage_wf (c_storage (w_core w)) o' ->
  device_frame f w (lens_set core_lens (Core t' (c_storage (w_core w))) w) o o'.
Proof. intros. by apply dev_inv_core. Qed.

(** ** Specifications of the functions *)

Section Specs.
Context (f : frame).

Lemma get_thing_spec P (R : knot_thing HM -> world HM Q -> os -> Prop) w o :
  R (w_thing w) w o -> post P get_thing R w o.
Proof. intros HR. unfold get_thing. by do 3 post_step. Qed.

Ltac thing_step := apply post_bind, get_thing_spec.

Lemma request_spec (c : knot_thing HM -> call) w o :
  (forall t, is_publish (c t) = false) -> dev_inv f w o ->
  wp (let! t := get_thing in ext_rc (c t)) (fun _ w' o' => device_frame f w w' o o') w o.
Proof.
  intros Hc Hi. thing_step. apply post_ext_rc. intros a Ha. by apply device_frame_logged.
Qed.

Lemma has_thing_token_spec w o :
  dev_inv f w o ->
  wp (on_thing Thing.device_has_thing_token) (fun _ w' o' => device_frame f w w' o o') w o.
Proof.
  intros Hi. unfold on_thing, on_core. apply post_zoom, post_th.
  unfold Thing.device_has_thing_token. do 3 post_step.
  eapply dev_inv_thing; [done|apply Hi|apply Hi|done|done|done|apply Hi].
Qed.

Lemma generate_thing_id_spec w o :
  dev_inv f w o ->
  wp (on_thing Thing.device_generate_thing_id) (fun _ w' o' => device_frame f w w' o o') w o.
Proof.
  intros Hi. unfold on_thing, on_core. apply post_zoom, post_th.
  eapply post_mono; [apply device_generate_thing_id_spec, Hi|].
  intros [] t' o' (a & n & _ & -> & Hwf & _ & _ & ->).
  eapply dev_inv_thing; [done|done|apply Hi|done|done|by apply os_quiet_logged|].
  apply storage_wf_logged, Hi.
Qed.

Lemma send_config_spec w o :
  dev_inv f w o -> wp device_send_config (fun _ w' o' => device_frame f w w' o o') w o.
Proof. intros. by apply (request_spec (fun t => C_cloud_update_config _ _)). Qed.

Lemma msg_timeout_modify_spec n w o :
  dev_inv f w o ->
  wp (device_msg_timeout_modify n) (fun _ w' o' => device_frame f w w' o o') w o.
Proof.
  intros Hi. thing_step. apply post_ext_. intros a Ha. by apply device_frame_logged.
Qed.

Lemma on_publish_data_spec sid w o :
  dev_inv f w o ->
  wp (on_publish_data sid)
    (fun _ w' o' => dev_inv f w' o' /\ timer_pending w' = timer_pending w /\
       active (w_event w') = active (w_event w)) w o.
Proof.
  intros Hi. unfold on_publish_data. post_step. unfold on_thing, on_core.
  apply post_zoom, post_th. unfold device_data_item_lookup. do 3 post_step.
  assert (lens_set core_lens (Core (c_thing (lens_get core_lens w))
            (c_storage (lens_get core_lens w))) w = w) as -> by by destruct w as [[]].
  destruct (match data_items _ with Some h => _ | None => _ end) as [i|]; [|by post_step].
  thing_step. do 3 post_step. split; [by apply dev_inv_logged|done].
Qed.

Lemma publish_list_spec {A} (g : A -> M (world HM Q) ()) (l : list A) w o :
  (forall a w o, dev_inv f w o ->
     wp (g a) (fun _ w' o' => dev_inv f w' o' /\ timer_pending w' = timer_pending w /\
       active (w_event w') = active (w_event w)) w o) ->
  dev_inv f w o ->
  wp (foreach g l)
    (fun _ w' o' => dev_inv f w' o' /\ timer_pending w' = timer_pending w /\
       active (w_event w') = active (w_event w)) w o.
Proof.
  intros Hg Hi. apply (post_foreach _ _ _ (fun w' o' => dev_inv f w' o' /\
    timer_pending w' = timer_pending w /\ active (w_event w') = active (w_event w))); [done|].
  intros a w1 o1 _ (Hi1 & Ht1 & Ha1). eapply post_mono; [by apply Hg|].
  intros ? w2 o2 (Hi2 & Ht2 & Ha2). split; [done|]. split; congruence.
Qed.

Lemma publish_data_list_spec ids w o :
  dev_inv f w o ->
  wp (device_publish_data_list ids)
    (fun _ w' o' => dev_inv f w' o' /\ timer_pending w' = timer_pending w /\
       active (w_event w') = active (w_event w)) w o.
Proof. intros Hi. apply publish_list_spec; [|done]. intros. by apply on_publish_data_spec. Qed.

Lemma publish_data_all_spec w o :
  dev_inv f w o ->
  wp device_publish_data_all
    (fun _ w' o' => dev_inv f w' o' /\ timer_pending w' = timer_pending w /\
       active (w_event w') = active (w_event w)) w o.
Proof.
  intros Hi. thing_step. apply publish_list_spec; [|done]. intros. by apply on_publish_data_spec.
Qed.

(** *** The message timeout *)

Lemma dev_inv_msg_to to w o m next log :
  dev_inv f w o -> os_wf (Os log (os_errno o) (os_files o) (os_fds o) m next) ->
  msg_ok to m -> (forall r, r <> R_msg -> same r (os_timers o) m) ->
  forall e, dev_inv f (lens_set core_lens (Core (set_msg_to to (w_thing w))
              (c_storage (w_core w))) w) (Os log e (os_files o) (os_fds o) m next).
Proof.
  intros [H1 H2 H3 H4 H5 H6 H7 H8 H9 H10 H11] Hw Hm Hk e.
  split; unfold w_thing in *; cbn; try done.
  - eapply thing_wf_fields; [..|exact H2]; cbn; by try apply H2.
  - destruct H3 as [Hu Ho]. by split.
  - eapply event_ok_same; [by apply Hk|done].
  - eapply poll_ok_same; [by apply Hk|done].
  - eapply connect_ok_same; [by apply Hk|done].
Qed.

Lemma msg_timeout_create_spec n w o :
  dev_inv f w o ->
  wp (device_msg_timeout_create n)
    (fun _ w' o' => dev_inv f w' o' /\
       ((forall log s cb, 0 <= a_rc (env_answer (C_timeout_create s cb :: log))) ->
          timer_pending w' = true) /\
       active (w_event w') = active (w_event w) /\ published o' = published o) w o.
Proof.
  intros Hi. pose proof (di_os _ _ _ Hi) as Hw. thing_step. post_step.
  { post_step. split; [done|]. by split. }
  match goal with H : negb _ = false |- _ => apply negb_false_iff, Z.eqb_eq in H; rename H into H0 end.
  post_step. apply post_new_timer; [done|..]; intros a Ha Hrc; intros; unfold on_thing, on_core;
    apply post_zoom, post_th; post_step.
  - split; [|split; [|by split]].
    + apply (dev_inv_msg_to 0 w o (os_timers o) (os_next o) (C_timeout_create n on_msg_timeout_cb :: os_log o));
        [done|done| |done]. rewrite <- H0. apply Hi.
    + intros Hav. specialize (Hav (os_log o) n on_msg_timeout_cb). subst a. lia.
  - split; [|split; [|by split]].
    + apply (dev_inv_msg_to (os_next o) w o);
        [done|by apply (os_wf_timer_added (C_timeout_create n on_msg_timeout_cb) a)|..].
      * apply msg_ok_new; [done|]. rewrite <- H0. apply Hi.
      * intros r Hr. apply same_insert; [by apply os_wf_fresh|]. by intros <-.
    + intros _. unfold timer_pending, w_thing. cbn. by apply negb_true_iff, Z.eqb_neq.
Qed.

Lemma msg_timeout_remove_spec w o :
  dev_inv f w o ->
  wp device_msg_timeout_remove
    (fun _ w' o' => dev_inv f w' o' /\ timer_pending w' = false /\
       active (w_event w') = active (w_event w) /\ published o' = published o) w o.
Proof.
  intros Hi. pose proof (di_os _ _ _ Hi) as Hw. thing_step. post_step. unfold l_timeout_remove.
  do 3 post_step. unfold on_thing, on_core. apply post_zoom, post_th. post_step.
  split; [|done]. cbn.
  apply (dev_inv_msg_to 0 w o (delete (msg_to (w_thing w)) (os_timers o)) (os_next o)
           (C_timeout_remove (msg_to (w_thing w)) :: os_log o)); [done|..].
  - by apply (os_wf_delete _ o).
  - by apply msg_ok_removed, Hi.
  - intros r Hr. apply same_delete. intros cb Hto.
    destruct (decide (msg_to (w_thing w) = 0)) as [H0|H0].
    + rewrite H0 in Hto. by apply no_timer_0 in Hto.
    + rewrite (msg_live _ _ (di_msg _ _ _ Hi) H0) in Hto. injection Hto as <-. by intros <-.
Qed.

(** *** Events and credentials *)

Lemma dev_inv_event w o e' o' :
  dev_inv f w o -> others R_event o o' -> event_ok e' (os_timers o') ->
  dev_inv f (lens_set event_lens e' w) o'.
Proof.
  intros [H1 H2 H3 H4 H5 H6 H7 H8 H9 H10 H11] [Hw Hs Hf Hd _] He.
  split; unfold w_thing in *; cbn; try done.
  - destruct H3 as [Hu Ho]. split; [done|]. by rewrite Hf, Hd.
  - eapply msg_ok_same; [by apply Hs|done].
  - eapply poll_ok_same; [by apply Hs|done].
  - eapply connect_ok_same; [by apply Hs|done].
Qed.

Lemma start_event_spec w o :
  dev_inv f w o -> active (w_event w) = false ->
  wp device_start_event
    (fun _ w' o' => dev_inv f w' o' /\ timer_pending w' = timer_pending w /\
       published o' = published o) w o.
Proof.
  intros Hi Hidle. unfold device_start_event. apply post_bind, post_zoom.
  eapply post_mono; [apply event_start_ok; [apply Hi..|done]|].
  intros rc e1 o1 (Hoth & He1 & Hsome). pose proof (others_published _ _ _ Hoth) as Hp.
  assert (dev_inv f (lens_set event_lens e1 w) o1) as Hi1 by by apply (dev_inv_event w o).
  post_step; [by post_step|].
  match goal with H : (rc <? 0) = false |- _ => apply Z.ltb_ge, Hsome in H as [Hs1 Hcb1] end.
  thing_step. post_step.
  pose (I w' o' := dev_inv f w' o' /\ timer_pending w' = timer_pending w /\
    published o' = published o /\ is_Some (sensor_timeouts (w_event w')) /\
    is_Some (timeout_cb (w_event w'))).
  apply (post_mono _ _ (fun _ => I)); [|by intros [] w' o' (? & ? & ? & _); post_step].
  apply post_foreach; [by split_and!|].
  intros [j item] w2 o2 _ (Hi2 & Ht2 & Hp2 & Hs2 & Hcb2). unfold foreach_event_add_data_item.
  apply post_zoom. eapply post_mono; [apply event_add_data_item_ok; try apply Hi2; done|].
  intros [] e3 o3 (Hoth3 & He3 & Hs3 & Hcb3). unfold I. cbn [lens_get event_lens] in Hcb3.
  rewrite <- Hcb3 in Hcb2. pose proof (others_published _ _ _ Hoth3).
  split; [by eapply dev_inv_event|]. split; [done|]. split; [congruence|done].
Qed.

Lemma stop_event_spec w o :
  dev_inv f w o ->
  wp device_stop_event
    (fun _ w' o' => dev_inv f w' o' /\ timer_pending w' = timer_pending w /\
       active (w_event w') = false /\ published o' = published o) w o.
Proof.
  intros Hi. apply post_zoom. eapply post_mono; [apply event_stop_ok; apply Hi|].
  intros [] e1 o1 (Hoth & He1 & Ha1). split; [by eapply dev_inv_event|].
  split; [done|]. split; [done|]. by eapply others_published.
Qed.

Lemma clear_credentials_spec w o :
  dev_inv f w o ->
  wp device_clear_credentials_on_file (fun _ w' o' => device_frame f w w' o o') w o.
Proof.
  intros Hi. thing_step. destruct (di_credentials _ _ _ Hi) as (path & -> & Hlen).
  do 2 post_step. apply post_zoom.
  eapply post_mono; [apply (properties_clear_credentials_step Hlaw); [done|apply Hi..]|].
  intros rc c1 o1 ([Hs Hwf Hit [Hm Hcf] _] & _). destruct Hs as [Hs Hq _ _ _].
  apply dev_inv_core; try done. rewrite Hit. apply Hi.
Qed.

Lemma store_credentials_spec k w o :
  dev_inv f w o ->
  post (k = None) (device_store_credentials_on_file k) (fun _ w' o' => device_frame f w w' o o') w o.
Proof.
  intros Hi. thing_step. destruct k as [k|]; [|done].
  destruct (di_credentials _ _ _ Hi) as (path & -> & Hlen).
  do 5 post_step. apply post_zoom.
  eapply post_mono; [apply (properties_store_credentials_step Hlaw); [done|apply Hi..]|].
  intros rc c1 o1 ([Hs Hwf Hit [Hm Hcf] _] & Ht1 & _). destruct Hs as [Hs Hq _ _ _].
  assert (device_frame f w (lens_set core_lens c1 w) o o1) as Hf1.
  { apply dev_inv_core; try done. rewrite Hit. apply Hi. }
  post_step; [by post_step|]. post_step. unfold on_thing, on_core. apply post_zoom, post_th.
  do 2 post_step. destruct Hf1 as (Hi1 & Ht & Ha & Hp).
  assert (device_frame f (lens_set core_lens c1 w)
    (lens_set core_lens (Core (set_token (strncpy (token (c_thing c1)) k KNOT_PROTOCOL_TOKEN_LEN)
       (c_thing c1)) (c_storage c1)) (lens_set core_lens c1 w)) o1 o1) as (Hi2 & _).
  { eapply dev_inv_thing; try done; [|apply Hi1].
    eapply thing_wf_fields; [..|exact Hwf]; cbn; try apply array_ok_strncpy; apply Hwf || done. }
  split; [done|]. by destruct w as [[]].
Qed.

Lemma update_config_item_spec config w o :
  dev_inv f w o -> wlp (foreach_update_config config) (fun _ w' o' => device_frame f w w' o o') w o.
Proof.
  intros Hi. thing_step. destruct (di_device _ _ _ Hi) as (path & -> & Hlen).
  do 3 post_step. apply post_zoom.
  eapply post_mono; [apply (properties_update_data_item_step Hlaw); [done|apply Hi..]|].
  intros rc c1 o1 ([Hs Hq _ _ _] & Hwf & (h & Ht & Hh) & _). post_step.
  apply dev_inv_core; try done; rewrite Ht; [|done..]. apply Hh, Hi.
Qed.

Lemma update_config_spec l w o :
  dev_inv f w o ->
  wlp (device_update_config l)
    (fun rc w' o' => dev_inv f w' o' /\ timer_pending w' = timer_pending w /\
       (c_true rc = true -> active (w_event w') = false) /\ published o' = published o) w o.
Proof.
  intros Hi. unfold device_update_config. post_step.
  eapply post_mono; [eapply wp_wlp, stop_event_spec, Hi|].
  intros [] w1 o1 (Hi1 & Ht1 & Ha1 & Hp1). post_step.
  eapply post_mono.
  { apply (post_foreach _ _ _ (fun w' o' => dev_inv f w' o' /\ timer_pending w' = timer_pending w /\
       active (w_event w') = false /\ published o' = published o)); [done|].
    intros config w2 o2 _ (Hi2 & Ht2 & Ha2 & Hp2).
    eapply post_mono; [by apply update_config_item_spec|].
    intros ? w3 o3 (Hi3 & Ht3 & Ha3 & Hp3). split; [done|]. split_and!; congruence. }
  intros [] w2 o2 (Hi2 & Ht2 & Ha2 & Hp2). post_step.
  eapply post_mono; [eapply wp_wlp, start_event_spec; done|].
  intros rc w3 o3 (Hi3 & Ht3 & Hp3). post_step.
  split; [done|]. split; [congruence|]. split; [done|congruence].
Qed.

(** ** The interface the state machine relies on *)

Definition device_spec : DeviceSpec (world HM Q).
Proof.
  refine {|
    dev_ok := dev_inv f;
    dev_timer := timer_pending;
    dev_events w := active (w_event w);
    dev_timers_available :=
      forall log s cb, 0 <= a_rc (env_answer (C_timeout_create s cb :: log))
  |}.
  - apply has_thing_token_spec.
  - apply generate_thing_id_spec.
  - intros. by apply (request_spec (fun t => C_cloud_read_start (cstr (id t)))).
  - intros. by split.
  - intros. by apply (request_spec (fun t => C_cloud_auth_device (cstr (id t)) (cstr (token t)))).
  - intros. by apply (request_spec (fun t => C_cloud_register_device (cstr (id t)) (cstr (name t)))).
  - apply send_config_spec.
  - apply store_credentials_spec.
  - apply clear_credentials_spec.
  - intros. by apply msg_timeout_modify_spec.
  - intros n w o Hi. eapply post_mono; [by apply msg_timeout_create_spec|]. done.
  - apply msg_timeout_remove_spec.
  - apply start_event_spec.
  - apply stop_event_spec.
  - apply update_config_spec.
  - intros. by apply publish_data_list_spec.
  - apply publish_data_all_spec.
Defined.
End Specs.
End Invariant.

(** ** What is handed to the cloud *)

Section Cloud.
Context `{KL : KnotProtocolLaws} `{E : Env} `{LSL : LSettingsLaws} {HM Q : Type -> Type}
  `{HL : LHashmapLaws HM} `{LQL : LQueueLaws Q} (P : Prop).
Implicit Types (w : world HM Q) (o : os) (t : knot_thing HM).

Definition item_at t (sid : Z) : option knot_data_item :=
  match data_items t with Some h => l_hashmap_lookup h sid | None => None end.

Definition publish_call t (i : knot_data_item) : call :=
  C_cloud_publish_data (cstr (id t)) (sensor_id i) (schema_value_type (schema i)) (current_val i)
    sizeof_value_type.

Lemma on_publish_data_run sid w o :
  post P (on_publish_data sid)
    (fun _ w' o' => w' = w /\
       published o' = rev (publish_call (w_thing w) <$> option_list (item_at (w_thing w) sid))
                        ++ published o) w o.
Proof.
  unfold on_publish_data. post_step. unfold on_thing, on_core. apply post_zoom, post_th.
  unfold device_data_item_lookup. do 3 post_step.
  assert (lens_set core_lens (Core (c_thing (lens_get core_lens w))
            (c_storage (lens_get core_lens w))) w = w) as -> by by destruct w as [[]].
  change (match data_items (c_thing (lens_get core_lens w)) with Some h => _ | None => _ end)
    with (item_at (w_thing w) sid).
  destruct (item_at (w_thing w) sid) as [i|]; [|by post_step].
  apply post_bind, get_thing_spec. do 3 post_step. done.
Qed.

Lemma publish_all_run ids w o :
  post P (device_publish_data_list ids)
    (fun _ w' o' => w' = w /\
       published o' = rev (publish_call (w_thing w) <$> omap (item_at (w_thing w)) ids)
                        ++ published o) w o.
Proof.
  unfold device_publish_data_list. revert o. induction ids as [|sid ids IH]; intros o; cbn [foreach].
  { by post_step. }
  post_step. eapply post_mono; [apply on_publish_data_run|]. intros ? ? o1 [-> Hp1].
  eapply post_mono; [apply IH|]. intros ? ? o2 [-> Hp2]. split; [done|].
  rewrite Hp2, Hp1. cbn. destruct (item_at (w_thing w) sid); cbn; [|done].
  by rewrite <- app_assoc.
Qed.

Lemma item_at_items t k i : thing_wf t -> (k, i) ∈ items t -> item_at t (sensor_id i) = Some i.
Proof.
  intros Hwf Hki. rewrite <- (items_keys _ Hwf _ _ Hki). unfold item_at, items in *.
  destruct (data_items t) as [h|] eqn:Eh; [|by apply elem_of_nil in Hki].
  apply hm_lookup_spec; [by apply (items_uniq _ Hwf)|done].
Qed.

Lemma foreach_map {S A B} (g : B -> M S ()) (h : A -> B) l :
  foreach g (h <$> l) = foreach (fun a => g (h a)) l.
Proof. induction l as [|a l IH]; [done|]. cbn. by rewrite IH. Qed.

Lemma publish_all_items w o :
  thing_wf (w_thing w) ->
  post P device_publish_data_all
    (fun _ w' o' => w' = w /\
       published o' = rev (publish_call (w_thing w) <$> (items (w_thing w)).*2) ++ published o)
    w o.
Proof.
  intros Hwf. apply post_bind, get_thing_spec.
  change (foreach foreach_publish_all_data (items (w_thing w)))
    with (foreach (fun e : Z * knot_data_item => on_publish_data (Q := Q) (HM := HM) (sensor_id e.2))
            (items (w_thing w))).
  rewrite <- (foreach_map on_publish_data (fun e : Z * knot_data_item => sensor_id e.2)).
  eapply post_mono; [apply publish_all_run|]. intros ? ? o' [-> Hp]. split; [done|].
  rewrite Hp. do 3 f_equal.
  assert (forall l, (forall e, e ∈ l -> e ∈ items (w_thing w)) ->
    omap (item_at (w_thing w)) ((fun e => sensor_id e.2) <$> l) = l.*2) as Hl; [|by apply Hl].
  intros l. induction l as [|[k i] l IH]; intros Hin; [done|]. cbn.
  rewrite (item_at_items _ k i) by (done || (apply Hin; left)).
  f_equal. apply IH. intros e He. apply Hin. by right.
Qed.

Lemma msg_timeout_remove_thing w o :
  post P device_msg_timeout_remove (fun _ w' _ => w_thing w' = set_msg_to 0 (w_thing w)) w o.
Proof.
  apply post_bind, get_thing_spec. unfold l_timeout_remove. do 4 post_step.
  unfold on_thing, on_core. apply post_zoom, post_th. by post_step.
Qed.

Lemma send_config_run w o :
  post P device_send_config
    (fun rc w' o' => w' = w /\
       let config i := KnotMsgConfig (sensor_id i) (schema i) (event i) in
       os_log o' = C_cloud_update_config (cstr (id (w_thing w)))
                     (rev (config <$> (items (w_thing w)).*2)) :: os_log o /\
       os_timers o' = os_timers o) w o.
Proof.
  apply post_bind, get_thing_spec. apply post_ext_rc. intros a Ha. split; [done|]. cbn.
  split; [|done]. do 2 f_equal. assert (forall l (q : Q knot_msg_config),
    l_queue_elems (fold_left foreach_send_config l q) =
      rev ((fun i => KnotMsgConfig (sensor_id i) (schema i) (event i)) <$> l.*2)
        ++ l_queue_elems q) as Hl.
  { intros l. induction l as [|[k i] l IH]; intros q; [done|]. cbn [fold_left]. rewrite IH.
    unfold foreach_send_config. rewrite elems_push_head. cbn. by rewrite <- app_assoc. }
  by rewrite Hl, elems_new, app_nil_r.
Qed.
End Cloud.

(** ** Properties *)

Section Properties.
Context `{KL : KnotProtocolLaws} `{E : Env} `{LSL : LSettingsLaws} {HM Q : Type -> Type}
  `{HL : LHashmapLaws HM} `{LQL : LQueueLaws Q}.
Implicit Types (w : world HM Q) (o : os).

(** C23: A request for the data of a list of sensors is answered, in the order of the list, by the
    current value of each sensor the thing has, under the id of the thing; the sensors it does not
    have are skipped, and nothing else changes. *)
Theorem device_publish_data_list_spec ids w o :
  wp (device_publish_data_list ids)
    (fun _ w' o' => w' = w /\
       published o' = rev (publish_call (w_thing w) <$> omap (item_at (w_thing w)) ids)
                        ++ published o) w o.
Proof. apply publish_all_run. Qed.

(** C24: The confirmation of the configuration brings the daemon from CONFIG into ONLINE, and on the
    way each item of the thing is published once, with its current value, and nothing else is. *)
Theorem config_confirmed_publishes f u w o :
  dev_inv f w o -> active (w_event w) = false ->
  wp (sm_input_event EVT_CFG_UPT_OK u)
    (fun _ d' o' => current_state d' = Some ST_ONLINE /\
       published o' = rev (publish_call (w_thing w) <$> (items (w_thing w)).*2) ++ published o)
    (Sm (Some ST_CONFIG) w) o.
Proof.
  intros Hi Hidle. unfold sm_input_event. do 3 post_step. cbn [current_state]. do 2 post_step.
  apply post_zoom. cbn [lens_get sm_lens sm_device].
  cbn [get_next states get_next_config]. post_step.
  eapply post_mono; [apply post_and; [by apply (msg_timeout_remove_spec f)|apply msg_timeout_remove_thing]|].
  intros ? w1 o1 ((Hi1 & _ & Ha1 & Hp1) & Ht1). post_step.
  rewrite bool_decide_eq_false_2 by done. cbn [negb when]. post_step. apply post_zoom.
  cbn [lens_get lens_set sm_lens sm_device enter states]. unfold enter_online. post_step.
  eapply post_mono; [apply post_and; [by apply (publish_data_all_spec f)|apply publish_all_items, Hi1]|].
  intros ? w2 o2 ((Hi2 & _) & -> & Hp2). post_step.
  eapply post_mono; [apply (start_event_spec f); [done|congruence]|].
  intros ? w3 o3 (_ & _ & Hp3). do 2 post_step. split; [done|]. rewrite Hp3, Hp2, Hp1, Ht1. done.
Qed.

(** The configuration sent to the cloud has one entry for each item, its schema and its event,
    under the id of the thing. *)
Theorem device_send_config_spec w o :
  wp device_send_config
    (fun rc w' o' => w' = w /\
       let config i := KnotMsgConfig (sensor_id i) (schema i) (event i) in
       os_log o' = C_cloud_update_config (cstr (id (w_thing w)))
                     (rev (config <$> (items (w_thing w)).*2)) :: os_log o) w o.
Proof. eapply post_mono; [apply send_config_run|]. by intros ? ? ? (? & ? & _). Qed.
End Properties.

(** ** Witnesses *)

Section Example.
#[local] Existing Instances example_knot list_hashmap list_queue example_settings.
#[local] Existing Instances example_knot_laws list_hashmap_laws list_queue_laws
  example_settings_laws.

Definition example_item : knot_data_item :=
  KnotDataItem 7 (KnotSchema 9 1 1 (strcpy (replicate 30 NUL) "Level")) (KnotEvent 8 0 0 0)
    42 41 (ModbusSource 3 16 1).

Definition example_thing : knot_thing (fun V => list (Z * V)) :=
  set_items (Some [(7, example_item)]) thing_init.

Definition example_world : world (fun V => list (Z * V)) list :=
  World (Core example_thing storage_init) event_init poll_init modbus_init 0.

Lemma example_thing_ready : thing_wf example_thing.
Proof.
  pose proof (thing_wf_insert (HM := fun V => list (Z * V)) (set_items (Some []) thing_init) [] 7
    example_item (thing_wf_new_items thing_init thing_init_wf) eq_refl eq_refl eq_refl) as H.
  exact H.
Qed.

(** The device with its files known. *)
Definition configured_world : world (fun V => list (Z * V)) list :=
  World (Core (set_conf_files example_conf example_thing) storage_init) event_init poll_init
    modbus_init 0.

Lemma configured_inv : dev_inv (frame_of configured_world) configured_world (os_init ∅).
Proof.
  split; try done.
  - apply os_init_wf.
  - eapply thing_wf_fields; [..|apply example_thing_ready]; try done; by apply example_thing_ready.
  - exists "credentials.conf"%string. split; [done|]. apply example_path_ok. cbn. lia.
  - exists "device.conf"%string. split; [done|]. apply example_path_ok. cbn. lia.
  - split; try done. by intros to ?%elem_of_nil.
  - split; try done. by intros e ?%elem_of_nil.
Qed.

Lemma config_confirmed_publishes_witness :
  wp (sm_input_event (D := device (E := quiet_env)) EVT_CFG_UPT_OK UD_null)
    (fun _ d' o' => current_state d' = Some ST_ONLINE /\
       published o' = [C_cloud_publish_data "" 7 1 42 sizeof_value_type])
    (Sm (Some ST_CONFIG) configured_world) (os_init ∅).
Proof.
  eapply post_mono;
    [apply (config_confirmed_publishes (E := quiet_env) (frame_of configured_world) UD_null configured_world (os_init ∅))|].
  - apply configured_inv.
  - reflexivity.
  - intros ? d' o' [-> ->]. by split.
Defined.
End Example.
