(* ===== verification/Daemon.v ===== *)
(** * The daemon: callbacks, start and stop of the device (src/device.c)

    The functions of [device.c] that raise the events of the state machine, and those that start
    and destroy the device. [handle] is one turn of the main loop: what the daemon does when a
    timer expires, the Modbus connection is lost or the cloud library calls back. *)

From S2P Require Import Prelude Scan Knot Ext Ell Sm Event Poll Modbus Timers Storage Session.
From S2P Require Import Thing Properties Load Credentials Update Device.

(** ** Data *)

(** The message the cloud library hands to [on_cloud_receive]. *)
Inductive msg_type :=
| UPDATE_MSG | REQUEST_MSG | REGISTER_MSG | UNREGISTER_MSG | AUTH_MSG | CONFIG_MSG | LIST_MSG
| MSG_TYPES_LENGTH | MSG_OTHER (n : Z).

Record knot_cloud_msg := KnotCloudMsg {
  type : msg_type;
  error : option string;
  msg_token : option string;
  list_of : user_data_t
}.

(** [user_data] of a registration: the token of the message. *)
Definition token_data (token : option string) : user_data_t :=
  match token with Some t => UD_token t | None => UD_null end.

Definition CONNECTED_MASK : Z := 0xFF.
Definition DEFAULT_POLLING_INTERVAL : Z := 1.

(** [enum CONN_TYPE] *)
Definition MODBUS : Z := 0x0F.
Definition CLOUD : Z := 0xF0.

Definition set_conn_bitmask (a : bool) (b1 b2 : Z) : Z :=
  if a then Z.lor b1 b2 else Z.land b1 (Z.lnot b2).

Definition lens_compose {W S T} (l : lens W S) (k : lens S T) : lens W T :=
  Lens (fun w => lens_get k (lens_get l w)) (fun t w => lens_set l (lens_set k t (lens_get l w)) w).

Section Daemon.
Context `{KP : KnotProtocol} `{E : Env} `{LS : LSettings} {HM Q : Type -> Type}
  `{LH : !LHashmap HM} `{LQ : !LQueue Q}.

Definition daemon : Type := sm (world HM Q).

(** A component's function in the daemon. *)
Definition on_world {A} (m : M (world HM Q) A) : M daemon A := zoom sm_lens m.
Definition in_core {A} (m : M (core HM) A) : M daemon A := on_world (on_core m).
Definition in_thing {A} (m : M (knot_thing HM) A) : M daemon A := on_world (on_thing m).
Definition in_poll {A} (m : M (poll_state Q) A) : M daemon A := on_world (zoom poll_lens m).
Definition in_modbus {A} (m : M modbus_state A) : M daemon A := on_world (zoom modbus_lens m).
Definition in_event {A} (m : M (event_state Q) A) : M daemon A := on_world (zoom event_lens m).

(** ** Callbacks *)

Definition on_msg_timeout : M daemon () := sm_input_event EVT_TIMEOUT UD_null.

Definition on_event_timeout (id : Z) : M daemon () :=
  sm_input_event EVT_PUB_DATA (UD_sensor_ids [id]).

Definition is_error (msg : knot_cloud_msg) : bool :=
  match error msg with Some _ => true | None => false end.

Definition on_cloud_receive (msg : knot_cloud_msg) : M daemon () :=
  match type msg with
  | UPDATE_MSG => when (negb (is_error msg)) (sm_input_event EVT_DATA_UPDT (list_of msg))
  | REQUEST_MSG => when (negb (is_error msg)) (sm_input_event EVT_PUB_DATA (list_of msg))
  | REGISTER_MSG =>
      if is_error msg then sm_input_event EVT_REG_NOT_OK UD_null
      else sm_input_event EVT_REG_OK (token_data (msg_token msg))
  | UNREGISTER_MSG => when (negb (is_error msg)) (sm_input_event EVT_UNREG_REQ UD_null)
  | AUTH_MSG =>
      if is_error msg then sm_input_event EVT_AUTH_NOT_OK UD_null
      else sm_input_event EVT_AUTH_OK UD_null
  | CONFIG_MSG =>
      if is_error msg then sm_input_event EVT_CFG_UPT_NOT_OK UD_null
      else sm_input_event EVT_CFG_UPT_OK (list_of msg)
  | LIST_MSG | MSG_TYPES_LENGTH | MSG_OTHER _ => ret tt
  end.

Definition conn_handler (conn : Z) (is_up : bool) : M daemon () :=
  on_world (zoom mask_lens (modify (fun mask => u8 (set_conn_bitmask is_up mask conn)))) ;;
  let! mask := on_world (zoom mask_lens get) in
  if negb (mask =? CONNECTED_MASK) then sm_input_event EVT_NOT_READY UD_null
  else sm_input_event EVT_READY UD_null.

Definition on_cloud_disconnected : M daemon () := conn_handler CLOUD false.
Definition on_cloud_connected : M daemon () := conn_handler CLOUD true.

Definition on_modbus_disconnected : M daemon () :=
  in_poll poll_stop ;;
  conn_handler MODBUS false.

Definition on_modbus_connected : M daemon () :=
  in_poll poll_start ;;
  conn_handler MODBUS true.

Definition on_modbus_poll_receive (id : Z) : M daemon Z :=
  let! data_item := in_thing (device_data_item_lookup id) in
  match data_item with
  | None => ret (- EINVAL)
  | Some i =>
      let! '(rc, v) := in_modbus (iface_modbus_read_data (reg_addr (modbus_source i))
                         (bit_offset (modbus_source i)) (current_val i)
                         (endianness_type_sensor (modbus_source i))) in
      let i := set_current_val v i in
      in_thing (item_write id i) ;;
      let! st := in_event get in
      when (0 <? event_check_value st (event i) (current_val i) (sent_val i)
                   (schema_value_type (schema i)))
        (in_thing (item_write id (set_sent_val (current_val i) i)) ;;
         sm_input_event EVT_PUB_DATA (UD_sensor_ids [id])) ;;
      ret rc
  end.

(** The functions behind the callbacks the other files are handed. *)
Definition call_timeout_cb (cb : timeout_cb_t) : Z -> M daemon () :=
  match cb with on_event_timeout_cb => on_event_timeout end.
Definition call_read_cb (cb : poll_read_cb) : Z -> M daemon Z :=
  match cb with on_modbus_poll_receive_cb => on_modbus_poll_receive end.
Definition call_connected_cb (cb : modbus_connected_cb_t) : M daemon () :=
  match cb with on_modbus_connected_cb => on_modbus_connected end.
Definition call_disconnected_cb (cb : modbus_disconnected_cb_t) : M daemon () :=
  match cb with on_modbus_disconnected_cb => on_modbus_disconnected end.

(** ** Polling *)

Definition foreach_data_item_polling (data_item : knot_data_item) (rc : Z) : M daemon Z :=
  let! failed := in_poll (poll_create DEFAULT_POLLING_INTERVAL (sensor_id data_item)
                            on_modbus_poll_receive_cb) in
  ret (if c_true failed then -1 else rc).

Fixpoint polling_loop (data_items : list (Z * knot_data_item)) (rc : Z) : M daemon Z :=
  match data_items with
  | [] => ret rc
  | e :: r => let! rc := foreach_data_item_polling e.2 rc in polling_loop r rc
  end.

Definition create_data_item_polling : M daemon Z :=
  let! t := on_world get_thing in
  let! rc := polling_loop (items t) 0 in
  when (c_true rc) (in_poll poll_destroy) ;;
  ret rc.

(** ** Start and stop *)

(** The memory of the fields is released: a pointer to it is as good as none. *)
Definition free_fields (t : knot_thing HM) : knot_thing HM :=
  KnotThing (token t) (id t) (name t) None (ModbusSlave (slave_id (modbus_slave t)) None) None
    (DeviceSettings None None None) None (msg_to t).

Definition knot_thing_destroy : M daemon () :=
  let! t := on_world get_thing in
  when (negb (msg_to t =? 0)) (l_timeout_remove (msg_to t)) ;;
  in_thing (modify free_fields).

Definition device_set_log_priority (priority : Z) : M daemon () :=
  ext_ (C_cloud_set_log_priority priority).

Definition device_start (conf : device_settings) : M daemon Z :=
  in_thing (modify (set_items (Some l_hashmap_new))) ;;
  let! rc := in_core (properties_create_device conf) in
  if c_true rc then ret (- EINVAL)
  else
  sm_start ;;
  let! err := create_data_item_polling in
  if err <? 0 then knot_thing_destroy ;; ret err
  else
  let! t := on_world get_thing in
  let! url := deref (slave_url (modbus_slave t)) in
  let! err := in_modbus (iface_modbus_start url (slave_id (modbus_slave t))
                           on_modbus_connected_cb on_modbus_disconnected_cb) in
  if err <? 0 then in_poll poll_destroy ;; knot_thing_destroy ;; ret err
  else
  let! t := on_world get_thing in
  let! err := ext_rc (C_cloud_start (rabbitmq_url t) (user_token t)) in
  if err <? 0 then
    in_poll poll_destroy ;;
    in_modbus iface_modbus_stop ;;
    knot_thing_destroy ;;
    ret err
  else
  in_thing (modify (set_conf_files conf)) ;;
  ret 0.

Definition device_destroy : M daemon () :=
  in_event event_stop ;;
  in_poll poll_destroy ;;
  ext_ C_cloud_stop ;;
  in_modbus iface_modbus_stop ;;
  knot_thing_destroy.

(** ** One turn of the main loop *)

Inductive input :=
| Timer (to : Z)
| Modbus_lost
| Cloud_connected
| Cloud_disconnected
| Cloud_message (msg : knot_cloud_msg).

(** The callback of a timer. *)
Definition fire (to : Z) (cb : timer_cb) : M daemon () :=
  match cb with
  | on_msg_timeout_cb => on_msg_timeout
  | on_sensor_to_cb id timeout_sec =>
      on_sensor_to (lens_compose sm_lens event_lens) call_timeout_cb to id timeout_sec
  | on_poll_timeout_cb id interval read_cb =>
      on_poll_timeout (lens_compose sm_lens poll_lens) call_read_cb to
        (PollData id interval read_cb)
  | attempt_connect_cb => attempt_connect (lens_compose sm_lens modbus_lens) call_connected_cb to
  end.

(** A timer that is not live does not expire, and only an open connection is lost. *)
Definition handle (i : input) : M daemon () :=
  match i with
  | Timer to =>
      let! o := get_os in
      match os_timers o !! to with Some cb => fire to cb | None => ret tt end
  | Modbus_lost =>
      let! m := in_modbus get in
      when (negb (modbus_io m =? 0))
        (on_disconnected (lens_compose sm_lens modbus_lens) call_disconnected_cb)
  | Cloud_connected => on_cloud_connected
  | Cloud_disconnected => on_cloud_disconnected
  | Cloud_message msg => on_cloud_receive msg
  end.

Definition main_loop (inputs : list input) : M daemon () := foreach handle inputs.
End Daemon.

Arguments daemon {LS} HM Q.
