(* ===== verification/Link.v ===== *)
(** * The daemon as an automaton

    What the daemon promises of its state and its two connections, without timers, files and
    calls: an automaton whose labels are the inputs of the main loop.  [Handle] shows that a turn
    of the main loop is a step of it. *)

From S2P Require Import Prelude Scan Knot Ext Ell Sm Event Poll Modbus Timers Storage Session.
From S2P Require Import Thing Properties Load Credentials Update Device Daemon.

Record link := Link { l_state : STATES; l_cloud : bool; l_modbus : bool }.

(** The event a message of the cloud stands for. *)
Definition message_event (m : knot_cloud_msg) : option EVENTS :=
  match type m, error m with
  | UPDATE_MSG, None => Some EVT_DATA_UPDT
  | REQUEST_MSG, None => Some EVT_PUB_DATA
  | REGISTER_MSG, None => Some EVT_REG_OK
  | REGISTER_MSG, Some _ => Some EVT_REG_NOT_OK
  | UNREGISTER_MSG, None => Some EVT_UNREG_REQ
  | AUTH_MSG, None => Some EVT_AUTH_OK
  | AUTH_MSG, Some _ => Some EVT_AUTH_NOT_OK
  | CONFIG_MSG, None => Some EVT_CFG_UPT_OK
  | CONFIG_MSG, Some _ => Some EVT_CFG_UPT_NOT_OK
  | _, _ => None
  end.

(** The events an input may raise, those of the connections left aside. *)
Definition input_event (i : input) (e : EVENTS) : Prop :=
  match i, e with
  | Timer _, (EVT_TIMEOUT | EVT_PUB_DATA) => True
  | Cloud_message m, _ => message_event m = Some e
  | _, _ => False
  end.

(** The inputs that bring a connection up or down. *)
Definition conn_input (conn : Z) (up : bool) (i : input) : Prop :=
  match i with
  | Timer _ => conn = MODBUS /\ up = true
  | Modbus_lost => conn = MODBUS /\ up = false
  | Cloud_connected => conn = CLOUD /\ up = true
  | Cloud_disconnected => conn = CLOUD /\ up = false
  | Cloud_message _ => False
  end.

(** The event of a change of the connections. *)
Definition conn_event (cloud modbus : bool) : EVENTS :=
  if cloud && modbus then EVT_READY else EVT_NOT_READY.

(** One input: the connection changes and its event is raised, another event is raised, or
    nothing happens. *)
Inductive link_step (i : input) : link -> link -> Prop :=
| step_cloud up s c m s' :
    conn_input CLOUD up i -> edge s (conn_event up m) s' ->
    link_step i (Link s c m) (Link s' up m)
| step_modbus up s c m s' :
    conn_input MODBUS up i -> edge s (conn_event c up) s' ->
    link_step i (Link s c m) (Link s' c up)
| step_event e s c m s' :
    input_event i e -> edge s e s' -> link_step i (Link s c m) (Link s' c m)
| step_stay l :
    i <> Cloud_connected -> i <> Cloud_disconnected -> link_step i l l.

Inductive link_run : list input -> link -> link -> Prop :=
| run_nil l : link_run [] l l
| run_snoc inputs i l l1 l2 :
    link_run inputs l l1 -> link_step i l1 l2 -> link_run (inputs ++ [i]) l l2.

(** The automaton before any input. *)
Definition link_init : link := Link ST_DISCONNECTED false false.

Definition is_up (conn m : Z) : bool := Z.land m conn =? conn.

(** The part of a daemon the automaton is about. *)
Definition linked `{LSettings} {HM Q : Type -> Type} (d : daemon HM Q) (l : link) : Prop :=
  current_state d = Some (l_state l) /\
  is_up CLOUD (w_conn_mask (sm_device d)) = l_cloud l /\
  is_up MODBUS (w_conn_mask (sm_device d)) = l_modbus l.

Lemma linked_inj `{LSettings} {HM Q : Type -> Type} (d : daemon HM Q) l l' :
  linked d l -> linked d l' -> l = l'.
Proof. destruct l, l'. intros (H1 & H2 & H3) (H4 & H5 & H6). cbn in *. congruence. Qed.
