(* ===== verification/Handle.v ===== *)
(** * One turn of the main loop keeps the invariant of the daemon (src/device.c)

    [daemon_inv]: the message timeout, the detection of events and the polling agree with the
    state and the connections, and every live timer is held by the component that uses it.
    [handle_step] is what one input does to it, and the step of the automaton it is. *)

From S2P Require Import Prelude Scan Knot Ext Ell Sm Event Poll Modbus Timers Storage Session.
From S2P Require Import Thing Properties Load Credentials Update Device Daemon Link.

(** ** The invariant of the daemon *)

Section Invariant.
Context `{KL : KnotProtocolLaws} `{E : Env} (Hlaw : EnvLaws) `{LSL : LSettingsLaws}
  {HM Q : Type -> Type} `{HL : LHashmapLaws HM} `{LQL : LQueueLaws Q}.
Implicit Types (d : daemon HM Q) (w : world HM Q) (o : os).

Definition mask d : Z := w_conn_mask (sm_device d).

(** The invariant of the state machine over the device, but that of the device itself. *)
Definition phase (c : option STATES) w : Prop :=
  match c with
  | None => timer_pending w = false /\ active (w_event w) = false
  | Some st =>
      (timer_pending w = true -> waiting st = true) /\
      ((forall log s cb, 0 <= a_rc (env_answer (C_timeout_create s cb :: log))) ->
         waiting st = true -> timer_pending w = true) /\
      (active (w_event w) = true -> st = ST_ONLINE \/ st = ST_UNREGISTER)
  end.

(** The view of the state machine, [sm_inv] of [device_spec]: the rest of the state is the
    frame. *)
Definition machine_inv d o : Prop :=
  dev_inv (frame_of (sm_device d)) (sm_device d) o /\ phase (current_state d) (sm_device d).

(** DISCONNECTED is the state without both connections, but in the two states with no way
    out. *)
Definition state_ok (st : STATES) (m : Z) : Prop :=
  st = ST_UNREGISTER \/ st = ST_ERROR \/ (st = ST_DISCONNECTED <-> m <> CONNECTED_MASK).

Record connections_ok d : Prop := {
  co_mask : mask d ∈ [0; MODBUS; CLOUD; CONNECTED_MASK];
  co_poll : poll_active (w_poll (sm_device d)) = is_up MODBUS (mask d)
}.

Record daemon_inv d o : Prop := {
  dm_machine : machine_inv d o;
  dm_connections : connections_ok d;
  dm_state : exists st, current_state d = Some st /\ state_ok st (mask d)
}.

(** *** Views of the state *)

Section Views.
Context (P : Prop) (c : option STATES).

Lemma post_on_world {A} (m : M (world HM Q) A) (R : A -> daemon HM Q -> os -> Prop) w o :
  post P m (fun a w' o' => R a (Sm c w') o') w o -> post P (on_world m) R (Sm c w) o.
Proof. intros H. by apply (post_zoom P sm_lens). Qed.

Lemma post_in_thing {A} (m : M (knot_thing HM) A) (R : A -> daemon HM Q -> os -> Prop) w o :
  post P m (fun a t o' =>
    R a (Sm c (lens_set core_lens (Core t (c_storage (w_core w))) w)) o') (w_thing w) o ->
  post P (in_thing m) R (Sm c w) o.
Proof. intros H. apply post_on_world, post_zoom, post_th. exact H. Qed.

Lemma post_in_core {A} (m : M (core HM) A) (R : A -> daemon HM Q -> os -> Prop) w o :
  post P m (fun a k o' => R a (Sm c (lens_set core_lens k w)) o') (w_core w) o ->
  post P (in_core m) R (Sm c w) o.
Proof. intros H. apply post_on_world, post_zoom. exact H. Qed.

Lemma post_in_poll {A} (m : M (poll_state Q) A) (R : A -> daemon HM Q -> os -> Prop) w o :
  post P m (fun a p o' => R a (Sm c (lens_set poll_lens p w)) o') (w_poll w) o ->
  post P (in_poll m) R (Sm c w) o.
Proof. intros H. apply post_on_world, post_zoom. exact H. Qed.

Lemma post_in_modbus {A} (m : M modbus_state A) (R : A -> daemon HM Q -> os -> Prop) w o :
  post P m (fun a s o' => R a (Sm c (lens_set modbus_lens s w)) o') (w_modbus w) o ->
  post P (in_modbus m) R (Sm c w) o.
Proof. intros H. apply post_on_world, post_zoom. exact H. Qed.

Lemma post_in_event {A} (m : M (event_state Q) A) (R : A -> daemon HM Q -> os -> Prop) w o :
  post P m (fun a e o' => R a (Sm c (lens_set event_lens e w)) o') (w_event w) o ->
  post P (in_event m) R (Sm c w) o.
Proof. intros H. apply post_on_world, post_zoom. exact H. Qed.

Lemma post_world_thing (R : knot_thing HM -> daemon HM Q -> os -> Prop) w o :
  R (w_thing w) (Sm c w) o -> post P (on_world get_thing) R (Sm c w) o.
Proof. intros H. by apply post_on_world, get_thing_spec. Qed.
End Views.

#[local] Instance modbus_daemon_lens : LensLaws (lens_compose sm_lens (modbus_lens (HM := HM) (Q := Q))).
Proof. split; [by intros s [c []]|by intros [c []]|by intros s s' [c []]]. Qed.
#[local] Instance poll_daemon_lens : LensLaws (lens_compose sm_lens (poll_lens (HM := HM) (Q := Q))).
Proof. split; [by intros s [c []]|by intros [c []]|by intros s s' [c []]]. Qed.
#[local] Instance event_daemon_lens : LensLaws (lens_compose sm_lens (event_lens (HM := HM) (Q := Q))).
Proof. split; [by intros s [c []]|by intros [c []]|by intros s s' [c []]]. Qed.

(** *** Changes of the frame *)

Lemma storage_wf_same (st : storage HM) o o' :
  os_files o' = os_files o -> os_fds o' = os_fds o -> storage_wf st o -> storage_wf st o'.
Proof. intros Hf Hd [Hu Ho]. split; [done|]. by rewrite Hf, Hd. Qed.

Lemma dev_inv_same f w o o' : os_same o o' -> dev_inv f w o -> dev_inv f w o'.
Proof.
  intros [Hf Hd Ht Hn] Hi. apply (dev_inv_os f w o); try done. by eapply storage_wf_same, Hi.
Qed.

Lemma dev_inv_parts f r w w' o o' :
  dev_inv f w o -> others r o o' -> r <> R_msg -> w_core w' = w_core w ->
  (r <> R_event /\ w_event w' = w_event w \/ event_ok (w_event w') (os_timers o')) ->
  (r <> R_poll /\ w_poll w' = w_poll w \/ poll_ok (w_poll w') (os_timers o')) ->
  (r <> R_connect /\ w_modbus w' = w_modbus w \/ connect_ok (w_modbus w') (os_timers o')) ->
  dev_inv (frame_of w') w' o'.
Proof.
  intros [H1 H2 H3 H4 H5 H6 H7 H8 H9 H10 <-] [Hw Hs Hf Hd _] Hr Hc He Hp Hm.
  split; unfold w_thing in *; rewrite ?Hc; try done.
  - by eapply storage_wf_same.
  - eapply msg_ok_same; [by apply Hs|done].
  - destruct He as [[Hne ->]|]; [|done]. eapply event_ok_same; [by apply Hs|done].
  - destruct Hp as [[Hne Heq]|]; [|done]. cbn in *. rewrite Heq.
    eapply poll_ok_same; [by apply Hs|done].
  - destruct Hm as [[Hne Heq]|]; [|done]. cbn in *. rewrite Heq.
    eapply connect_ok_same; [by apply Hs|done].
Qed.

Lemma machine_inv_eq c w o : machine_inv (Sm c w) o <-> dev_inv (frame_of w) w o /\ phase c w.
Proof. done. Qed.

Lemma phase_same c w w' :
  timer_pending w' = timer_pending w -> active (w_event w') = active (w_event w) ->
  phase c w -> phase c w'.
Proof. unfold phase. by intros -> ->. Qed.

Lemma machine_inv_sm d o :
  machine_inv d o <-> sm_inv (H := device_spec Hlaw (frame_of (sm_device d))) d o.
Proof. done. Qed.

(** *** Raising an event *)

Lemma edge_connected s e s' :
  edge s e s' -> raised e = true -> e <> EVT_READY -> e <> EVT_NOT_READY ->
  (s = ST_DISCONNECTED <-> s' = ST_DISCONNECTED) /\
  (s = ST_UNREGISTER -> s' = ST_UNREGISTER) /\ (s = ST_ERROR -> s' = ST_ERROR).
Proof.
  intros (q & u & <-) He Hr Hn.
  destruct s, e; try done; cbn; repeat case_match; split_and!; done.
Qed.

Lemma edge_ready s s' : edge s EVT_READY s' -> s' <> ST_DISCONNECTED.
Proof. intros (q & u & <-). destruct s; cbn; by repeat case_match. Qed.

Lemma edge_not_ready s s' :
  edge s EVT_NOT_READY s' -> s' = ST_DISCONNECTED \/ s' = ST_UNREGISTER \/ s' = ST_ERROR.
Proof. intros (q & u & <-). destruct s; cbn; tauto. Qed.

(** What one event does: the machine's step, the frame untouched. *)
Record raised_step e st d d' o o' : Prop := {
  rs_machine : machine_inv d' o';
  rs_frame : frame_of (sm_device d') = frame_of (sm_device d);
  rs_state : exists st', current_state d' = Some st' /\ edge st e st' /\
    (published o' = published o \/ st = ST_ONLINE \/ st' = ST_ONLINE)
}.

Lemma raise_step e u st d o :
  raised e = true -> machine_inv d o -> current_state d = Some st ->
  post (unchecked st e u) (sm_input_event e u) (fun _ d' o' => raised_step e st d d' o o') d o.
Proof.
  intros He Hi Hst.
  eapply post_mono; [by apply (sm_input_event_step (DS := device_spec Hlaw (frame_of (sm_device d)))); [left|..]|].
  intros [] [c' w'] o' (Hinv & Hst'). destruct d as [c w].
  assert (frame_of w' = frame_of w) as Hf by (destruct Hinv as [Hd _]; apply Hd).
  split; [|done|done]. unfold machine_inv. cbn [sm_device]. by rewrite Hf.
Qed.

Lemma raise_event e u st d o :
  raised e = true -> e <> EVT_READY -> e <> EVT_NOT_READY -> daemon_inv d o ->
  current_state d = Some st ->
  post (unchecked st e u) (sm_input_event e u)
    (fun _ d' o' => daemon_inv d' o' /\ raised_step e st d d' o o') d o.
Proof.
  intros He Hr Hn [Hm [Hc Hp] (st0 & Hst0 & Hok)] Hst. rewrite Hst in Hst0. injection Hst0 as <-.
  eapply post_mono; [by apply raise_step|]. intros [] d' o' Hs. split; [|done].
  destruct Hs as [Hm' Hf (st' & Hst' & He' & _)]. unfold mask, frame_of in *.
  injection Hf as Hf1 Hf2 Hf3.
  split; [done|split; unfold mask; congruence|]. exists st'. split; [done|]. unfold mask.
  rewrite Hf3. destruct (edge_connected _ _ _ He' He Hr Hn) as (H1 & H2 & H3).
  unfold state_ok in *. rewrite <- H1. tauto.
Qed.
(** *** Connections *)

Definition mask_after (conn : Z) (up : bool) (m : Z) : Z := u8 (set_conn_bitmask up m conn).

Lemma mask_after_legal conn up m :
  conn ∈ [MODBUS; CLOUD] -> m ∈ [0; MODBUS; CLOUD; CONNECTED_MASK] ->
  mask_after conn up m ∈ [0; MODBUS; CLOUD; CONNECTED_MASK].
Proof.
  intros Hc Hm. apply (bool_decide_unpack _). revert Hc Hm. rewrite !elem_of_cons.
  by intros [->|[->|[]%elem_of_nil]] [->|[->|[->|[->|[]%elem_of_nil]]]]; destruct up.
Qed.

(** A connection that is down is missing. *)
Lemma mask_after_down conn m :
  conn ∈ [MODBUS; CLOUD] -> m ∈ [0; MODBUS; CLOUD; CONNECTED_MASK] ->
  mask_after conn false m <> CONNECTED_MASK.
Proof.
  intros Hc Hm. apply (bool_decide_unpack _). revert Hc Hm. rewrite !elem_of_cons.
  by intros [->|[->|[]%elem_of_nil]] [->|[->|[->|[->|[]%elem_of_nil]]]].
Qed.

Lemma is_up_after c conn up m :
  c ∈ [MODBUS; CLOUD] -> conn ∈ [MODBUS; CLOUD] -> m ∈ [0; MODBUS; CLOUD; CONNECTED_MASK] ->
  is_up c (mask_after conn up m) = if decide (conn = c) then up else is_up c m.
Proof.
  rewrite !elem_of_cons.
  by intros [->|[->|[]%elem_of_nil]] [->|[->|[]%elem_of_nil]] [->|[->|[->|[->|[]%elem_of_nil]]]];
    destruct up.
Qed.

(** The event [conn_handler] raises. *)
Lemma conn_event_mask m :
  m ∈ [0; MODBUS; CLOUD; CONNECTED_MASK] ->
  conn_event (is_up CLOUD m) (is_up MODBUS m) =
    if m =? CONNECTED_MASK then EVT_READY else EVT_NOT_READY.
Proof. rewrite !elem_of_cons. by intros [->|[->|[->|[->|[]%elem_of_nil]]]]. Qed.

Definition with_mask (m : Z) w : world HM Q := lens_set mask_lens m w.

Lemma machine_inv_mask c w m o : machine_inv (Sm c w) o -> machine_inv (Sm c (with_mask m w)) o.
Proof. intros [[] Hp]. by split. Qed.

Record connection_step conn up st d d' o o' : Prop := {
  cn_inv : daemon_inv d' o';
  cn_mask : mask d' = mask_after conn up (mask d);
  cn_state : exists st', current_state d' = Some st' /\
    edge st (conn_event (is_up CLOUD (mask d')) (is_up MODBUS (mask d'))) st' /\
    (published o' = published o \/ st = ST_ONLINE \/ st' = ST_ONLINE)
}.

Lemma conn_handler_step conn up st c w o :
  machine_inv (Sm c w) o -> conn ∈ [MODBUS; CLOUD] ->
  w_conn_mask w ∈ [0; MODBUS; CLOUD; CONNECTED_MASK] -> c = Some st ->
  poll_active (w_poll w) = is_up MODBUS (mask_after conn up (w_conn_mask w)) ->
  wp (conn_handler conn up)
    (fun _ d' o' => connection_step conn up st (Sm c w) d' o o' /\
       w_modbus (sm_device d') = w_modbus w) (Sm c w) o.
Proof.
  intros Hi Hc Hm Hst Hp. unfold conn_handler. fold (mask_after conn up).
  pose proof (mask_after_legal conn up _ Hc Hm) as Hm'.
  set (m' := mask_after conn up (w_conn_mask w)) in *.
  apply post_bind, post_on_world, post_zoom, post_modify.
  apply post_bind, post_on_world, post_zoom, post_get.
  apply (machine_inv_mask c w m') in Hi. fold (with_mask m' w).
  set (e := conn_event (is_up CLOUD m') (is_up MODBUS m')).
  assert (raised e = true /\ ~ unchecked st e UD_null) as [Hr Hu].
  { unfold e, conn_event, unchecked.
    destruct (_ && _); (split; [done|]); by intros [(_ & ? & _)|[_ ?]]. }
  assert (forall st', edge st e st' -> state_ok st' m') as Hok.
  { intros st'. unfold e. rewrite conn_event_mask by done. unfold state_ok.
    destruct (Z.eqb_spec m' CONNECTED_MASK) as [Heq|Hne].
    - intros Hd%edge_ready. tauto.
    - intros Hd%edge_not_ready. tauto. }
  assert (wp (sm_input_event e UD_null)
    (fun _ d' o' => connection_step conn up st (Sm c w) d' o o' /\
       w_modbus (sm_device d') = w_modbus w) (Sm c (with_mask m' w)) o) as Hraise.
  { eapply post_use; [by apply (raise_step e UD_null st)|done|].
    intros [] d' o' [Hm1 Hf (st' & Hst' & He' & Hpub)]. unfold frame_of in Hf. cbn in Hf.
    injection Hf as Hf1 Hf2 Hf3. split; [|done]. split; [split; [done|split|]|done|].
    - unfold mask. by rewrite Hf3.
    - unfold mask. by rewrite Hf1, Hf3.
    - exists st'. split; [done|]. unfold mask. rewrite Hf3. by apply Hok.
    - exists st'. unfold mask. by rewrite Hf3. }
  unfold e in Hraise. rewrite conn_event_mask in Hraise by done.
  cbn [with_mask lens_set lens_get mask_lens w_conn_mask]. fold m'.
  by destruct (m' =? CONNECTED_MASK).
Qed.
(** *** What one input does *)

Definition auth_ok (i : input) : Prop :=
  match i with Cloud_message m => type m = AUTH_MSG /\ error m = None | _ => False end.

(** The inputs of the Modbus connection, and what the others keep. *)
Definition modbus_event (i : input) d o : Prop :=
  match i with
  | Timer to => os_timers o !! to = Some attempt_connect_cb
  | Modbus_lost => modbus_io (w_modbus (sm_device d)) <> 0
  | _ => False
  end.

Definition same_modbus d d' : Prop :=
  w_modbus (sm_device d') = w_modbus (sm_device d) /\
  is_up MODBUS (mask d') = is_up MODBUS (mask d).

Lemma same_modbus_refl d : same_modbus d d.
Proof. done. Qed.

Record handled i d d' o o' : Prop := {
  hd_inv : daemon_inv d' o';
  hd_state : exists st st', current_state d = Some st /\ current_state d' = Some st' /\
    (st' = st \/ exists e, (e = EVT_AUTH_OK -> auth_ok i) /\ edge st e st');
  hd_down : i = Cloud_disconnected -> mask d' <> CONNECTED_MASK;
  hd_modbus : modbus_event i d o \/ same_modbus d d';
  hd_published :
    published o' = published o \/ current_state d = Some ST_ONLINE \/
    current_state d' = Some ST_ONLINE;
  hd_link l : linked d l -> exists l', linked d' l' /\ link_step i l l'
}.

(** The inputs whose handling reads a pointer the daemon does not check. *)
Definition unchecked_input d (i : input) : Prop :=
  match i with
  | Cloud_message m =>
      error m = None /\
      (type m = REGISTER_MSG /\ msg_token m = None /\ current_state d = Some ST_REGISTER \/
       type m = CONFIG_MSG /\ current_state d = Some ST_ONLINE)
  | _ => False
  end.

Lemma state_ok_online st m :
  state_ok st m -> st = ST_ONLINE \/ st = ST_CONFIG -> m = CONNECTED_MASK.
Proof.
  intros Hok Hst. destruct (decide (m = CONNECTED_MASK)) as [|Hne]; [done|].
  destruct Hst as [->| ->], Hok as [?|[?|H]]; try done; by apply H in Hne.
Qed.

Lemma daemon_inv_logged d c a o : daemon_inv d o -> daemon_inv d (logged c a o).
Proof.
  destruct d as [st w]. intros [[Hd Hp]%machine_inv_eq Hc Hs]. split; [|done|done].
  apply machine_inv_eq. split; [by apply dev_inv_logged|done].
Qed.

Lemma handled_logged i d d' o o' c a :
  is_publish c = false -> handled i d d' o o' -> handled i d d' o (logged c a o').
Proof.
  intros Hc [Hi Hs Hd Hm Hp Hl]. split; [by apply daemon_inv_logged|done|done|done| |done].
  unfold published in *. cbn. by rewrite Hc.
Qed.

(** The inputs that change nothing of the automaton. *)
Definition quiet_input (i : input) : Prop := i <> Cloud_connected /\ i <> Cloud_disconnected.

Lemma handled_stay i d d' o o' :
  daemon_inv d o -> daemon_inv d' o' -> current_state d' = current_state d ->
  published o' = published o -> mask d' = mask d -> quiet_input i ->
  modbus_event i d o \/ same_modbus d d' -> handled i d d' o o'.
Proof.
  intros [_ _ (st & Hst & _)] Hi Hc Hp Hk [Hn1 Hn2] Hm. split; [done| |done|done|by left|].
  - exists st, st. split; [done|]. split; [congruence|by left].
  - intros l (H1 & H2 & H3). exists l. split; [|by apply step_stay].
    unfold linked, mask in *. by rewrite Hc, Hk.
Qed.

Lemma input_event_auth i : input_event i EVT_AUTH_OK -> auth_ok i.
Proof.
  destruct i as [| | | |m]; try done. cbn. unfold message_event.
  by destruct (type m), (error m).
Qed.

(** An event raised by an input that is not about the connections, and then at most some calls.
    [d0] and [o0] are where the input found the daemon. *)
Lemma handled_raise i e u d0 o0 d o :
  raised e = true -> e <> EVT_READY -> e <> EVT_NOT_READY -> input_event i e ->
  daemon_inv d o -> current_state d = current_state d0 ->
  frame_of (sm_device d) = frame_of (sm_device d0) -> published o = published o0 ->
  post (exists st, current_state d0 = Some st /\ unchecked st e u) (sm_input_event e u)
    (fun _ d' o' => handled i d0 d' o0 o') d o.
Proof.
  intros He Hr Hn Hi Hd Hc Hfr Hp. pose proof Hd as [_ _ (st & Hst & Hok)].
  eapply post_use; [by apply (raise_event e u st)|by intros; exists st; rewrite <- Hc|].
  intros [] d' o' (Hd' & [_ Hf (st' & Hst' & Hed & Hpub)]).
  rewrite Hfr in Hf. unfold frame_of in Hf. injection Hf as Hf1 Hf2 Hf3. split; [done|..].
  - exists st, st'. split; [by rewrite <- Hc|]. split; [done|]. right. exists e.
    split; [|done]. intros ->. by apply input_event_auth.
  - intros ->. by destruct e.
  - right. split; [done|]. unfold mask. by rewrite Hf3.
  - rewrite <- Hp, <- Hc. destruct Hpub as [->|[->| ->]]; auto.
  - intros [s c m] (H1 & H2 & H3). cbn in *. exists (Link st' c m). unfold linked.
    rewrite Hf3. split; [done|]. apply (step_event i e); [done|].
    rewrite <- Hc, Hst in H1. by injection H1 as <-.
Qed.

Lemma handled_connection i conn up st d d' o o' :
  daemon_inv d o -> current_state d = Some st -> connection_step conn up st d d' o o' ->
  conn_input conn up i ->
  modbus_event i d o \/ conn = CLOUD /\ w_modbus (sm_device d') = w_modbus (sm_device d) ->
  handled i d d' o o'.
Proof.
  intros [_ [Hm _] (st0 & Hst0 & Hok)] Hst [Hd' Hm' (st' & Hst' & Hed & Hpub)] Hi Hev.
  assert (conn ∈ [MODBUS; CLOUD]) as Hconn.
  { rewrite !elem_of_cons. destruct i; [..|done]; destruct Hi as [-> _]; auto. }
  rewrite Hst in Hst0. injection Hst0 as <-. split; [done|..].
  - exists st, st'. split; [done|]. split; [done|]. right. eexists. split; [|exact Hed].
    unfold conn_event. by destruct (_ && _).
  - intros ->. destruct Hi as [_ ->]. rewrite Hm'. by apply mask_after_down.
  - destruct Hev as [?|[-> ?]]; [by left|right]. split; [done|]. by rewrite Hm', is_up_after by (done || left).
  - destruct Hpub as [->|[->| ->]]; auto.
  - intros [s c m] (H1 & H2 & H3). change (is_up CLOUD (mask d) = c) in H2.
    change (is_up MODBUS (mask d) = m) in H3. rewrite Hst in H1. injection H1 as <-.
    rewrite Hm', !is_up_after, H2, H3 in Hed by (done || left || (right; left)).
    exists (Link st' (is_up CLOUD (mask d')) (is_up MODBUS (mask d'))). split; [done|].
    rewrite Hm', !is_up_after, H2, H3 by (done || left || (right; left)).
    destruct (decide (conn = CLOUD)) as [->|Hne].
    + rewrite decide_False in * by done. by apply step_cloud.
    + assert (conn = MODBUS) as ->.
      { revert Hconn. rewrite !elem_of_cons. by intros [?|[?|[]%elem_of_nil]]. }
      rewrite decide_True in * by done. by apply step_modbus.
Qed.
(** *** Messages *)

Lemma on_cloud_receive_step msg d o :
  daemon_inv d o ->
  post (unchecked_input d (Cloud_message msg)) (on_cloud_receive msg)
    (fun _ d' o' => handled (Cloud_message msg) d d' o o') d o.
Proof.
  intros Hd. assert (forall e u, raised e = true -> e <> EVT_READY -> e <> EVT_NOT_READY ->
    message_event msg = Some e ->
    (forall st, current_state d = Some st -> unchecked st e u ->
       unchecked_input d (Cloud_message msg)) ->
    post (unchecked_input d (Cloud_message msg)) (sm_input_event e u)
      (fun _ d' o' => handled (Cloud_message msg) d d' o o') d o) as Hraise.
  { intros e u He Hr Hn Ha Hu. eapply post_use; [by eapply (handled_raise (Cloud_message msg))|..].
    - intros (st & Hst & Hun). by eapply Hu.
    - done. }
  assert (handled (Cloud_message msg) d d o o) as Hstay
    by (apply handled_stay; try done; by right).
  unfold on_cloud_receive, is_error. unfold message_event in Hraise.
  destruct (type msg) eqn:Ht; destruct (error msg) as [err|] eqn:Herr; cbn [negb when];
    try (by apply post_ret); apply Hraise; try done.
  all: intros st Hst [(-> & ? & Htok)|[-> ?]]; try done; cbn; rewrite Ht; (split; [done|]).
  - left. by destruct (msg_token msg).
  - by right.
Qed.


(** *** Timers *)

Lemma on_msg_timeout_step to d o :
  daemon_inv d o -> wp on_msg_timeout (fun _ d' o' => handled (Timer to) d d' o o') d o.
Proof.
  intros Hd. eapply post_use; [by apply (handled_raise (Timer to) EVT_TIMEOUT UD_null d o)| |done].
  by intros (st & _ & [(_ & ? & _)|[_ ?]]).
Qed.

Lemma on_event_timeout_step i sid d0 o0 d o :
  input_event i EVT_PUB_DATA -> daemon_inv d o -> current_state d = current_state d0 ->
  frame_of (sm_device d) = frame_of (sm_device d0) -> published o = published o0 ->
  wp (on_event_timeout sid) (fun _ d' o' => handled i d0 d' o0 o') d o.
Proof.
  intros Hi Hd Hc Hm Hp. eapply post_use;
    [by apply (handled_raise i EVT_PUB_DATA (UD_sensor_ids [sid]) d0 o0)| |done].
  by intros (st & _ & [(_ & ? & _)|[_ ?]]).
Qed.

Lemma on_sensor_to_step to id n d o :
  daemon_inv d o -> os_timers o !! to = Some (on_sensor_to_cb id n) ->
  wp (on_sensor_to (lens_compose sm_lens event_lens) call_timeout_cb to id n)
    (fun _ d' o' => handled (Timer to) d d' o o') d o.
Proof.
  intros Hd Hto. unfold on_sensor_to. do 2 post_step.
  assert (is_Some (timeout_cb (w_event (sm_device d)))) as [cb Hcb].
  { destruct d as [st w]. destruct Hd as [[Hw _]%machine_inv_eq _ _].
    by apply (event_registered _ _ (di_event _ _ _ Hw) to id n). }
  cbn. rewrite Hcb. do 3 post_step. destruct cb. cbn [call_timeout_cb].
  eapply post_mono; [by apply (on_event_timeout_step (Timer to) id d o)|].
  intros ? d' o' Hh. unfold l_timeout_modify. post_step. by apply handled_logged.
Qed.

(** The read of a data item changes nothing the daemon keeps. *)
Lemma read_data_frame P reg bit out e s o :
  post P (iface_modbus_read_data reg bit out e)
    (fun _ s' o' => s' = s /\ os_same o o' /\ published o' = published o) s o.
Proof. unfold iface_modbus_read_data. post_steps; done. Qed.

Lemma item_write_step P i w o f :
  dev_inv f w o ->
  post P (item_write (sensor_id i) i)
    (fun _ t' o' => o' = o /\ device_frame f w (lens_set core_lens (Core t' (c_storage (w_core w))) w) o o)
    (w_thing w) o.
Proof.
  intros Hi. unfold item_write. post_step. split; [done|].
  destruct (di_items _ _ _ Hi) as [h Eh]. rewrite Eh.
  eapply dev_inv_thing; [done| |done|done|done|done|apply Hi].
  apply thing_wf_write; [apply Hi|done|done].
Qed.
(** The daemon after a change of the thing. *)
Lemma daemon_inv_frame c w w' o o' :
  daemon_inv (Sm c w) o -> device_frame (frame_of w) w w' o o' ->
  daemon_inv (Sm c w') o' /\ frame_of w' = frame_of w /\ published o' = published o.
Proof.
  intros [[Hw Hp]%machine_inv_eq [Hm Hpoll] Hs] (Hw' & Ht & Ha & Hpub).
  pose proof (di_frame _ _ _ Hw') as Hf. pose proof Hf as Hfr.
  unfold frame_of in Hf. injection Hf as Hf1 Hf2 Hf3. unfold mask in *. cbn [sm_device current_state] in *. split; [|done]. split.
  - apply machine_inv_eq. split; [by rewrite (di_frame _ _ _ Hw')|by eapply phase_same].
  - split; unfold mask; cbn; congruence.
  - unfold mask. cbn. by rewrite Hf3.
Qed.

Lemma daemon_inv_same c w o o' : os_same o o' -> daemon_inv (Sm c w) o -> daemon_inv (Sm c w) o'.
Proof.
  intros Hs [[Hw Hp]%machine_inv_eq Hc Hst]. split; [|done|done].
  apply machine_inv_eq. split; [by eapply dev_inv_same|done].
Qed.

Lemma item_write_daemon P c i w o (R : () -> daemon HM Q -> os -> Prop) :
  daemon_inv (Sm c w) o ->
  (forall t, daemon_inv (Sm c (lens_set core_lens (Core t (c_storage (w_core w))) w)) o ->
     frame_of (lens_set core_lens (Core t (c_storage (w_core w))) w) = frame_of w ->
     R tt (Sm c (lens_set core_lens (Core t (c_storage (w_core w))) w)) o) ->
  post P (in_thing (item_write (sensor_id i) i)) R (Sm c w) o.
Proof.
  intros Hd HR. apply post_in_thing. pose proof Hd as [[Hw _]%machine_inv_eq _ _].
  eapply post_mono; [by eapply item_write_step|]. intros [] t' o' [-> Hf].
  destruct (daemon_inv_frame _ _ _ _ _ Hd Hf) as (Hd' & Hm & _). by apply HR.
Qed.

Lemma on_modbus_poll_receive_step to sid d o :
  daemon_inv d o -> wp (on_modbus_poll_receive sid) (fun _ d' o' => handled (Timer to) d d' o o') d o.
Proof.
  destruct d as [c w]. intros Hd. unfold on_modbus_poll_receive. post_step. apply post_in_thing.
  unfold device_data_item_lookup. do 3 post_step.
  assert (lens_set core_lens (Core (w_thing w) (c_storage (w_core w))) w = w) as ->
    by by destruct w as [[]].
  change (match data_items (w_thing w) with Some h => _ | None => _ end)
    with (item_at (w_thing w) sid).
  destruct (item_at (w_thing w) sid) as [i|] eqn:Hat;
    [|post_step; apply handled_stay; try done; by right].
  assert (sid = sensor_id i) as ->.
  { destruct Hd as [[Hw _]%machine_inv_eq _ _]. unfold item_at in Hat.
    destruct (data_items (w_thing w)) as [h|] eqn:Eh; [|done].
    apply (items_keys (w_thing w) (di_thing _ _ _ Hw)). unfold items. rewrite Eh.
    by apply lookup_Some_entries. }
  post_step. apply post_in_modbus. eapply post_mono; [apply read_data_frame|].
  intros [rc v] s1 o1 (-> & Hs1 & Hp1).
  assert (lens_set modbus_lens (w_modbus w) w = w) as -> by by destruct w as [[]].
  pose proof (daemon_inv_same _ _ _ o1 Hs1 Hd) as Hd0. post_step.
  apply (item_write_daemon _ c (set_current_val v i)); [done|].
  intros t1 Hd1 Hm1. post_step. apply post_in_event. do 3 post_step.
  - post_step. apply (item_write_daemon _ c (set_sent_val _ (set_current_val v i))).
    { by destruct w as [[]]. }
    intros t2 Hd2 Hm2. eapply post_mono;
      [by apply (on_event_timeout_step (Timer to) (sensor_id i) (Sm c w) o)|].
    intros ? d' o' Hh. by post_step.
  - post_step. apply handled_stay; try done. by right.
Qed.

Lemma on_poll_timeout_step to data d o :
  daemon_inv d o ->
  wp (on_poll_timeout (lens_compose sm_lens poll_lens) call_read_cb to data)
    (fun _ d' o' => handled (Timer to) d d' o o') d o.
Proof.
  intros Hd. unfold on_poll_timeout. do 2 post_step.
  post_step; [|apply handled_stay; try done; by right].
  post_step. destruct (pd_read_cb data). cbn [call_read_cb].
  eapply post_mono; [by apply (on_modbus_poll_receive_step to)|].
  intros rc d' o' Hh. unfold l_timeout_modify. post_step. by apply handled_logged.
Qed.
(** *** The Modbus connection *)

Definition with_io (io : Z) w : world HM Q :=
  lens_set modbus_lens (set_modbus_io io (w_modbus w)) w.

(** The daemon while it tries to connect: only [modbus_io] is another. *)
Definition connecting c w o d' o' : Prop :=
  exists io, d' = Sm c (with_io io w) /\ machine_inv d' o' /\ published o' = published o.

Lemma machine_inv_others c w w' r o o' :
  machine_inv (Sm c w) o -> others r o o' -> r <> R_msg -> w_core w' = w_core w ->
  active (w_event w') = active (w_event w) ->
  (r <> R_event /\ w_event w' = w_event w \/ event_ok (w_event w') (os_timers o')) ->
  (r <> R_poll /\ w_poll w' = w_poll w \/ poll_ok (w_poll w') (os_timers o')) ->
  (r <> R_connect /\ w_modbus w' = w_modbus w \/ connect_ok (w_modbus w') (os_timers o')) ->
  machine_inv (Sm c w') o'.
Proof.
  intros [Hw Hp]%machine_inv_eq Ho Hr Hc Ha He Hpl Hm. apply machine_inv_eq. split.
  - by eapply dev_inv_parts.
  - eapply phase_same; [|done|done]. unfold timer_pending, w_thing. by rewrite Hc.
Qed.

Lemma with_io_self w : with_io (modbus_io (w_modbus w)) w = w.
Proof. by destruct w as [? ? ? [] ?]. Qed.

Lemma connect_ok_io io s m : connect_ok s m -> connect_ok (set_modbus_io io s) m.
Proof. by intros []. Qed.

(** The steps of the attempt. *)
Lemma connecting_os c w o d' o' o2 :
  connecting c w o d' o' -> os_wf o2 -> os_timers o2 = os_timers o' ->
  os_files o2 = os_files o' -> os_fds o2 = os_fds o' -> published o2 = published o' ->
  connecting c w o d' o2.
Proof.
  intros (io & -> & Hm & Hp) Hw Ht Hf Hd Hpub. exists io. split; [done|]. split; [|congruence].
  pose proof Hm as [Hi _]%machine_inv_eq.
  eapply (machine_inv_others _ _ _ R_connect); [exact Hm|split|..]; try done; try by left.
  - by intros r _ t cb _; rewrite Ht.
  - right. rewrite Ht. apply Hi.
Qed.

Lemma connecting_logged c w o d' o' k a :
  is_publish k = false -> connecting c w o d' o' -> connecting c w o d' (logged k a o').
Proof.
  intros Hk Hc. eapply connecting_os; [exact Hc|..]; try done.
  - destruct Hc as (io & -> & [Hi _]%machine_inv_eq & _). apply Hi.
  - unfold published. cbn. by rewrite Hk.
Qed.

Lemma connecting_next c w o d' o' :
  connecting c w o d' o' -> connecting c w o d' (with_next (os_next o' + 1) o').
Proof.
  intros Hc. eapply connecting_os; [exact Hc|..]; try done.
  destruct Hc as (io & -> & [Hi _]%machine_inv_eq & _). pose proof (di_os _ _ _ Hi) as [Hn Ht].
  split; cbn; [lia|]. intros to Hto. specialize (Ht to Hto). lia.
Qed.

Lemma connecting_io c w o d' o' io :
  connecting c w o d' o' ->
  connecting c w o (lens_set (lens_compose sm_lens modbus_lens)
    (set_modbus_io io (lens_get (lens_compose sm_lens modbus_lens) d')) d') o'.
Proof.
  intros (io0 & -> & Hm & Hp). exists io. split; [by destruct w|]. split; [|done].
  pose proof Hm as [Hi _]%machine_inv_eq.
  eapply (machine_inv_others _ _ _ R_connect); [exact Hm|apply others_refl, Hi|..]; try done;
    try by left.
  right. apply connect_ok_io. apply (di_connect _ _ _ Hi).
Qed.

#[local] Hint Resolve connecting_logged connecting_next connecting_io : vthing.

(** The attempt ends in the callback of the connection or with the timer armed again. *)
Lemma attempt_connect_frame P to c w o (R : () -> daemon HM Q -> os -> Prop) :
  machine_inv (Sm c w) o ->
  (forall d' o', connecting c w o d' o' -> R tt d' o') ->
  (forall cb d' o', connecting c w o d' o' -> post P (call_connected_cb cb) R d' o') ->
  post P (attempt_connect (lens_compose sm_lens modbus_lens) call_connected_cb to) R (Sm c w) o.
Proof.
  intros Hm HR Hcb. assert (connecting c w o (Sm c w) o) as H0.
  { exists (modbus_io (w_modbus w)). by rewrite with_io_self. }
  unfold attempt_connect, io_destroy, connection_close, retry, l_timeout_modify, ext_alloc.
  post_steps; first [apply HR|apply Hcb]; eauto 20 with vthing.
Qed.
Lemma connection_step_from conn up st d0 d d' o0 o o' :
  mask d = mask d0 -> published o = published o0 -> connection_step conn up st d d' o o' ->
  connection_step conn up st d0 d' o0 o'.
Proof.
  intros Hm Hp [Hi Hm' Hs]. split; [done|by rewrite <- Hm|]. by rewrite <- Hp.
Qed.

Lemma set_polling_inv c w b o o' :
  machine_inv (Sm c w) o -> os_same o o' -> published o' = published o ->
  machine_inv (Sm c (lens_set poll_lens (PollState (poll_entries (w_poll w)) b) w)) o'.
Proof.
  intros Hm Hs Hp. pose proof Hm as [Hi _]%machine_inv_eq.
  eapply (machine_inv_others _ _ _ R_poll); [exact Hm|..]; try done; try by left.
  - destruct Hs as [Hf Hd Ht Hn]. split; try done.
    + destruct (di_os _ _ _ Hi) as [H1 H2]. split; [by rewrite Hn|by rewrite Ht, Hn].
    + intros r _. by rewrite Ht.
  - right. rewrite (same_timers _ _ Hs). by destruct (di_poll _ _ _ Hi), (di_frame _ _ _ Hi).
Qed.

Lemma on_modbus_connected_step st c w o :
  machine_inv (Sm c w) o -> w_conn_mask w ∈ [0; MODBUS; CLOUD; CONNECTED_MASK] -> c = Some st ->
  wp on_modbus_connected
    (fun _ d' o' => connection_step MODBUS true st (Sm c w) d' o o') (Sm c w) o.
Proof.
  intros Hm Hmask Hst. unfold on_modbus_connected. post_step. apply post_in_poll.
  eapply post_mono; [apply poll_start_ok|]. intros ? p1 o1 (-> & Hs & Hp).
  eapply post_mono; [apply (conn_handler_step MODBUS true st)|].
  - by eapply set_polling_inv.
  - left.
  - done.
  - done.
  - by rewrite is_up_after, decide_True by (done || left).
  - intros ? d' o' [Hcs _]. revert Hcs. by apply connection_step_from.
Qed.

Lemma on_modbus_disconnected_step st c w o :
  machine_inv (Sm c w) o -> w_conn_mask w ∈ [0; MODBUS; CLOUD; CONNECTED_MASK] -> c = Some st ->
  wp on_modbus_disconnected
    (fun _ d' o' => connection_step MODBUS false st (Sm c w) d' o o') (Sm c w) o.
Proof.
  intros Hm Hmask Hst. unfold on_modbus_disconnected. post_step. apply post_in_poll.
  unfold poll_stop. post_step.
  eapply post_mono; [apply (conn_handler_step MODBUS false st)|].
  - by eapply set_polling_inv.
  - left.
  - done.
  - done.
  - by rewrite is_up_after, decide_True by (done || left).
  - intros ? d' o' [Hcs _]. revert Hcs. by apply connection_step_from.
Qed.

Lemma cloud_handler_step st up c w o :
  daemon_inv (Sm c w) o -> c = Some st ->
  wp (conn_handler CLOUD up)
    (fun _ d' o' => connection_step CLOUD up st (Sm c w) d' o o' /\
       w_modbus (sm_device d') = w_modbus w) (Sm c w) o.
Proof.
  intros [Hm [Hmask Hp] _] Hst. apply conn_handler_step; try done.
  - right; left.
  - unfold mask in Hp. cbn in Hp. by rewrite is_up_after by (done || left || (right; left)).
Qed.

(** *** One input *)

Lemma attempt_connect_step to d o :
  daemon_inv d o -> os_timers o !! to = Some attempt_connect_cb ->
  wp (attempt_connect (lens_compose sm_lens modbus_lens) call_connected_cb to)
    (fun _ d' o' => handled (Timer to) d d' o o') d o.
Proof.
  destruct d as [c w]. intros Hd Hto. pose proof Hd as [Hm [Hmask Hp] (st & Hst & Hok)].
  cbn in Hst. apply attempt_connect_frame; [done|..].
  - intros d' o' (io & -> & Hm' & Hp'). apply handled_stay; try done; [|by left].
    split; [done|done|]. by exists st.
  - intros [] d' o' (io & -> & Hm' & Hp'). cbn [call_connected_cb].
    eapply post_mono; [by apply (on_modbus_connected_step st)|]. intros ? d2 o2 Hcs.
    eapply (handled_connection _ MODBUS true st); [done|done| |done|by left].
    by apply (connection_step_from _ _ _ _ (Sm c (with_io io w)) _ _ o').
Qed.

Lemma modbus_lost_step d o :
  daemon_inv d o -> modbus_io (w_modbus (sm_device d)) <> 0 ->
  wp (on_disconnected (lens_compose sm_lens modbus_lens) call_disconnected_cb)
    (fun _ d' o' => handled Modbus_lost d d' o o') d o.
Proof.
  intros Hd Hio. unfold on_disconnected. do 2 post_step. post_step.
  apply (post_mono _ _ (fun _ d' o' => handled Modbus_lost d d' o o')).
  - destruct d as [c w]. pose proof Hd as [Hm [Hmask Hp] (st & Hst & Hok)]. cbn in Hst.
    destruct (disconn_cb _) as [[]|];
      [|post_step; apply handled_stay; try done; by left].
    eapply post_mono; [by apply (on_modbus_disconnected_step st)|]. intros ? d' o' Hcs.
    eapply (handled_connection _ MODBUS false st); [done|done|done|done|by left].
  - intros ? d' o' Hh. do 2 post_step. post_step; [|done]. unfold l_timeout_modify. post_step.
    by apply handled_logged.
Qed.

Lemma handle_step i d o :
  daemon_inv d o ->
  post (unchecked_input d i) (handle i) (fun _ d' o' => handled i d d' o o') d o.
Proof.
  intros Hd. destruct i as [to| | | |msg]; cbn [handle unchecked_input].
  - do 2 post_step. destruct (os_timers o !! to) as [cb|] eqn:Hto;
      [|post_step; apply handled_stay; try done; by right].
    destruct cb; cbn [fire].
    + by apply on_msg_timeout_step.
    + by apply on_sensor_to_step.
    + by apply on_poll_timeout_step.
    + by apply attempt_connect_step.
  - post_step. destruct d as [c w]. apply post_in_modbus, post_get.
    assert (lens_set modbus_lens (w_modbus w) w = w) as -> by by destruct w.
    apply post_when; intros Hc; [|apply handled_stay; try done; by right].
    apply negb_true_iff, Z.eqb_neq in Hc. by apply modbus_lost_step.
  - destruct d as [c w]. pose proof Hd as [_ _ (st & Hst & _)].
    eapply post_mono; [by apply (cloud_handler_step st true)|]. intros ? d' o' [Hcs Hw].
    eapply (handled_connection _ CLOUD true st); [done|done|done|done|by right].
  - destruct d as [c w]. pose proof Hd as [_ _ (st & Hst & _)].
    eapply post_mono; [by apply (cloud_handler_step st false)|]. intros ? d' o' [Hcs Hw].
    eapply (handled_connection _ CLOUD false st); [done|done|done|done|by right].
  - by apply on_cloud_receive_step.
Qed.
End Invariant.
