(* ===== verification/Start.v ===== *)
(** * Start and stop of the device (src/device.c)

    What [device_start] leaves on every path and what [device_destroy] releases. *)

From S2P Require Import Prelude Scan Knot Ext Ell Sm Event Poll Modbus Timers Storage Session.
From S2P Require Import Thing Properties Load Credentials Update Device Daemon Link Handle.

Section Start.
Context `{KL : KnotProtocolLaws} `{E : Env} (Hlaw : EnvLaws) `{LSL : LSettingsLaws}
  {HM Q : Type -> Type} `{HL : LHashmapLaws HM} `{LQL : LQueueLaws Q}.
Implicit Types (d : daemon HM Q) (w : world HM Q) (o : os).

(** ** Start and stop *)

(** No timer of a role is live. *)
Definition no_timer (r : role) (m : gmap Z timer_cb) : Prop :=
  forall to cb, m !! to = Some cb -> role_of cb <> r.

Lemma no_timer_same r m m' : same r m m' -> no_timer r m -> no_timer r m'.
Proof. intros Hs Hn to cb Hto Hr. by apply (Hn to cb); [apply Hs|]. Qed.

Lemma no_timer_all m : (forall r, no_timer r m) -> m = ∅.
Proof.
  intros Hn. apply map_eq. intros to. rewrite lookup_empty.
  destruct (m !! to) as [cb|] eqn:Hto; [|done]. by destruct (Hn (role_of cb) to cb Hto).
Qed.

Lemma no_timer_empty r : no_timer r ∅.
Proof. by intros to cb. Qed.

Lemma no_timer_event (e : event_state Q) m : event_ok e m -> active e = false -> no_timer R_event m.
Proof.
  intros [_ Ho _ Hi] Ha to [] Hto; try done. apply Ho in Hto. unfold event_timers in Hto.
  rewrite (Hi Ha) in Hto. by apply elem_of_nil in Hto.
Qed.

Lemma no_timer_poll (p : poll_state Q) m : poll_ok p m -> entries p = [] -> no_timer R_poll m.
Proof.
  intros [_ Ho] He to [] Hto; try done. apply Ho in Hto. rewrite He in Hto.
  by apply elem_of_nil in Hto.
Qed.

Lemma no_timer_connect s o :
  os_wf o -> connect_ok s (os_timers o) -> connect_to s = 0 -> no_timer R_connect (os_timers o).
Proof.
  intros Hw [_ Ho] H0 to [] Hto; try done. pose proof (Ho to Hto) as ->. rewrite H0 in Hto.
  by apply no_timer_0 in Hto.
Qed.

Lemma no_timer_msg o :
  os_wf o -> msg_ok 0 (os_timers o) -> no_timer R_msg (os_timers o).
Proof.
  intros Hw [_ Ho] to [] Hto; try done. pose proof (Ho to Hto) as ->. by apply no_timer_0 in Hto.
Qed.

(** The daemon holds the live timers, and only those. *)
Record resources w o : Prop := {
  rs_os : os_wf o;
  rs_msg : msg_ok (msg_to (w_thing w)) (os_timers o);
  rs_event : event_ok (w_event w) (os_timers o);
  rs_poll : poll_ok (w_poll w) (os_timers o);
  rs_connect : connect_ok (w_modbus w) (os_timers o)
}.

Lemma dev_inv_resources f w o : dev_inv f w o -> resources w o.
Proof. intros [? ? ? ? ? ? ? ? ? ? <-]. by split. Qed.

Lemma resources_logged w o c a : resources w o -> resources w (logged c a o).
Proof. by intros []. Qed.

Lemma resources_event w e o o' :
  resources w o -> others R_event o o' -> event_ok e (os_timers o') ->
  resources (lens_set event_lens e w) o'.
Proof.
  intros [H1 H2 H3 H4 H5] [Hw Hs _ _ _] He. split; try done.
  - eapply msg_ok_same; [by apply Hs|done].
  - eapply poll_ok_same; [by apply Hs|done].
  - eapply connect_ok_same; [by apply Hs|done].
Qed.

Lemma resources_poll w p o o' :
  resources w o -> others R_poll o o' -> poll_ok p (os_timers o') ->
  resources (lens_set poll_lens p w) o'.
Proof.
  intros [H1 H2 H3 H4 H5] [Hw Hs _ _ _] He. split; try done.
  - eapply msg_ok_same; [by apply Hs|done].
  - eapply event_ok_same; [by apply Hs|done].
  - eapply connect_ok_same; [by apply Hs|done].
Qed.

Lemma resources_modbus w s o o' :
  resources w o -> others R_connect o o' -> connect_ok s (os_timers o') ->
  resources (lens_set modbus_lens s w) o'.
Proof.
  intros [H1 H2 H3 H4 H5] [Hw Hs _ _ _] He. split; try done.
  - eapply msg_ok_same; [by apply Hs|done].
  - eapply event_ok_same; [by apply Hs|done].
  - eapply poll_ok_same; [by apply Hs|done].
Qed.

(** Releasing the timers of a component. *)
Definition released (r : role) o o' : Prop := others r o o' /\ no_timer r (os_timers o').

Lemma poll_destroy_released P c w o :
  resources w o ->
  post P (in_poll poll_destroy)
    (fun _ d' o' => exists w', d' = Sm c w' /\ resources w' o' /\ released R_poll o o' /\
       w_core w' = w_core w /\ w_event w' = w_event w /\ w_modbus w' = w_modbus w) (Sm c w) o.
Proof.
  intros Hr. apply post_in_poll. eapply post_mono; [apply poll_destroy_ok; apply Hr|].
  intros [] p' o' (Ho & Hp & He & _). eexists. split; [done|].
  split; [by eapply resources_poll|]. split; [|done]. split; [done|]. by eapply no_timer_poll.
Qed.

Lemma iface_modbus_stop_released P c w o :
  resources w o ->
  post P (in_modbus iface_modbus_stop)
    (fun _ d' o' => exists w', d' = Sm c w' /\ resources w' o' /\ released R_connect o o' /\
       w_core w' = w_core w /\ w_event w' = w_event w /\ w_poll w' = w_poll w) (Sm c w) o.
Proof.
  intros Hr. apply post_in_modbus. eapply post_mono; [apply iface_modbus_stop_ok; apply Hr|].
  intros [] s' o' (Ho & Hs & H0). eexists. split; [done|].
  split; [by eapply resources_modbus|]. split; [|done]. split; [done|].
  eapply no_timer_connect; [apply Ho|done|done].
Qed.

Lemma event_stop_released P c w o :
  resources w o ->
  post P (in_event event_stop)
    (fun _ d' o' => exists w', d' = Sm c w' /\ resources w' o' /\ released R_event o o' /\
       w_core w' = w_core w /\ w_poll w' = w_poll w /\ w_modbus w' = w_modbus w) (Sm c w) o.
Proof.
  intros Hr. apply post_in_event. eapply post_mono; [apply event_stop_ok; apply Hr|].
  intros [] e' o' (Ho & He & Ha). eexists. split; [done|].
  split; [by eapply resources_event|]. split; [|done]. split; [done|]. by eapply no_timer_event.
Qed.

Lemma knot_thing_destroy_released P c w o :
  resources w o ->
  post P knot_thing_destroy (fun _ _ o' => released R_msg o o') (Sm c w) o.
Proof.
  intros Hr. pose proof (rs_os _ _ Hr) as Hw. unfold knot_thing_destroy.
  apply post_bind, post_world_thing. post_step. apply post_when; intros Hc.
  - apply negb_true_iff, Z.eqb_neq in Hc. unfold l_timeout_remove. do 3 post_step.
    apply post_in_thing, post_modify. split; [split; try done|].
    + by apply (os_wf_delete _ o).
    + intros r Hr'. apply same_delete. intros cb Hto. cbn in Hto.
      rewrite (msg_live _ _ (rs_msg _ _ Hr) Hc) in Hto. injection Hto as <-. by intros <-.
    + apply no_timer_msg; [by apply (os_wf_delete _ o)|]. by apply msg_ok_removed, Hr.
  - apply negb_false_iff, Z.eqb_eq in Hc. apply post_in_thing, post_modify.
    split; [by apply others_refl|]. apply no_timer_msg; [done|]. rewrite <- Hc. apply Hr.
Qed.

Lemma released_keeps r r' o o' : released r o o' -> r' <> r -> no_timer r' (os_timers o) ->
  no_timer r' (os_timers o').
Proof. intros [Ho _] Hr. by apply no_timer_same, Ho. Qed.

(** What the end of the daemon leaves to the system. *)
Lemma device_destroy_releases P c w o :
  resources w o ->
  post P device_destroy
    (fun _ _ o' => os_timers o' = ∅ /\ os_files o' = os_files o /\ os_fds o' = os_fds o /\
       published o' = published o) (Sm c w) o.
Proof.
  intros Hr. unfold device_destroy. post_step.
  eapply post_mono; [by apply event_stop_released|]. intros ? ? o1 (w1 & -> & Hr1 & H1 & _).
  post_step. eapply post_mono; [by apply poll_destroy_released|].
  intros ? ? o2 (w2 & -> & Hr2 & H2 & _). post_step. apply post_ext_. intros a3 _.
  set (o3 := logged C_cloud_stop a3 o2). apply (resources_logged w2 o2 C_cloud_stop a3) in Hr2.
  post_step. eapply post_mono; [by apply iface_modbus_stop_released|].
  intros ? ? o4 (w4 & -> & Hr4 & H4 & _).
  eapply post_mono; [by apply knot_thing_destroy_released|]. intros ? d5 o5 H5.
  assert (no_timer R_event (os_timers o5)).
  { apply (released_keeps _ _ _ _ H5), (released_keeps _ _ _ _ H4); [done|done|].
    apply (released_keeps _ _ _ _ H2); [done|]. by destruct H1. }
  assert (no_timer R_poll (os_timers o5)).
  { apply (released_keeps _ _ _ _ H5), (released_keeps _ _ _ _ H4); [done|done|].
    by destruct H2. }
  assert (no_timer R_connect (os_timers o5)).
  { apply (released_keeps _ _ _ _ H5); [done|]. by destruct H4. }
  destruct H1 as [[_ _ F1 D1 P1] _], H2 as [[_ _ F2 D2 P2] _], H4 as [[_ _ F4 D4 P4] _],
    H5 as [[_ _ F5 D5 P5] N5].
  assert (os_files o3 = os_files o2 /\ os_fds o3 = os_fds o2 /\ published o3 = published o2)
    as (F3 & D3 & P3) by done.
  split; [apply no_timer_all; by intros []|]. split_and!; congruence.
Qed.
(** *** Start *)

Definition boot_world : world HM Q :=
  World (Core thing_init storage_init) event_init poll_init modbus_init 0.

(** The static variables before [main]. *)
Definition boot : daemon HM Q := Sm None boot_world.

Definition poll_of (e : Z * knot_data_item) : poll_data :=
  PollData (sensor_id e.2) DEFAULT_POLLING_INTERVAL on_modbus_poll_receive_cb.

Record polls_created l c w rc rc' d' o o' : Prop := {
  pc_state : exists p, d' = Sm c (lens_set poll_lens p w) /\ poll_ok p (os_timers o') /\
    poll_active p = poll_active (w_poll w) /\
    (rc' = 0 -> rc = 0 /\
       pe_data <$> entries p = rev (poll_of <$> l) ++ (pe_data <$> entries (w_poll w)));
  pc_others : others R_poll o o';
  pc_rc : rc' = rc \/ rc' = -1
}.

Lemma polling_loop_creates P l : forall rc c w o,
  os_wf o -> poll_ok (w_poll w) (os_timers o) ->
  post P (polling_loop l rc) (fun rc' d' o' => polls_created l c w rc rc' d' o o') (Sm c w) o.
Proof.
  induction l as [|e l IH]; intros rc c w o Hw Hp; cbn [polling_loop].
  { post_step. split; [|by apply others_refl|by left]. exists (w_poll w).
    split; [by destruct w|done]. }
  post_step. unfold foreach_data_item_polling. post_step. apply post_in_poll.
  eapply post_mono; [by apply poll_create_ok|]. intros failed p1 o1 (Ho1 & Hp1 & Ha1 & Hf).
  post_step. eapply post_mono; [apply IH; [apply Ho1|done]|].
  intros rc' d' o' [(p & -> & Hp' & Ha' & Hn) Ho' Hrc'].
  split; [exists p|by eapply others_trans|].
  - split; [by destruct w|]. split; [done|]. split; [by rewrite Ha'|]. intros ->.
    destruct (Hn eq_refl) as [Hrc Hent]. destruct Hf as [[-> [to He]]|[-> _]]; [|done].
    split; [done|]. rewrite Hent. cbn. rewrite He. cbn. by rewrite <- app_assoc.
  - destruct Hrc' as [->| ->]; [|by right]. destruct (c_true failed); [by right|by left].
Qed.

(** Nothing outside the program but timers was touched. *)
Record untouched o o' : Prop := {
  ut_files q : contents o' q = contents o q;
  ut_fds : os_fds o' = os_fds o;
  ut_published : published o' = published o
}.

#[export] Instance untouched_preorder : PreOrder untouched.
Proof.
  split; [by split|]. intros o1 o2 o3 [A1 B1 C1] [A2 B2 C2]. split; [|congruence..].
  intros q. by rewrite A2.
Qed.

Lemma untouched_others r o o' : others r o o' -> untouched o o'.
Proof. intros [_ _ Hf Hd Hp]. split; [|done|done]. intros q. unfold contents. by rewrite Hf. Qed.

Lemma untouched_restored (st st' : storage HM) o o' : restored st st' o o' -> untouched o o'.
Proof. intros [_ Hq Hd _ Hf]. split; [done|done|apply Hq]. Qed.

(** A device that has started. *)
Record started dp kp d' o o' : Prop := {
  st_inv : daemon_inv d' o';
  st_state : current_state d' = Some ST_DISCONNECTED /\ mask d' = 0;
  st_thing : thing_ready (settings_at o dp) (settings_at o kp) (w_thing (sm_device d'));
  st_polls : pe_data <$> entries (w_poll (sm_device d')) =
    rev (poll_of <$> items (w_thing (sm_device d')));
  st_modbus url : slave_url (modbus_slave (w_thing (sm_device d'))) = Some url -> bad_url url ->
    connect_to (w_modbus (sm_device d')) = 0 /\ modbus_io (w_modbus (sm_device d')) = 0
}.

Lemma resources_boot t st o :
  os_wf o -> os_timers o = ∅ -> msg_to t = 0 ->
  resources (World (Core t st) event_init poll_init modbus_init 0) o.
Proof.
  intros Hw Ht Hm. split; cbn; rewrite ?Ht; try done; unfold w_thing; cbn; rewrite ?Hm.
  - split; try done. intros to Hto. by apply elem_of_nil in Hto.
  - split; try done. intros e He. by apply elem_of_nil in He.
Qed.

(** The failures after the properties: everything created is released again. *)
Lemma start_failure P c w o o0 err (R : Z -> daemon HM Q -> os -> Prop) :
  resources w o -> active (w_event w) = false -> no_timer R_poll (os_timers o) ->
  no_timer R_connect (os_timers o) -> untouched o0 o ->
  (forall d' o', os_timers o' = ∅ -> untouched o0 o' -> R err d' o') ->
  post P (knot_thing_destroy ;; ret err) R (Sm c w) o.
Proof.
  intros Hr Ha Hp Hc Hu HR. post_step. eapply post_mono; [by apply knot_thing_destroy_released|].
  intros ? d' o' Hrel. post_step. apply HR.
  - apply no_timer_all. intros [].
    + by destruct Hrel.
    + apply (released_keeps _ _ _ _ Hrel); [done|]. eapply no_timer_event; [apply Hr|done].
    + by apply (released_keeps _ _ _ _ Hrel).
    + by apply (released_keeps _ _ _ _ Hrel).
  - etrans; [exact Hu|]. destruct Hrel as [Ho _]. by eapply untouched_others.
Qed.
Lemma create_data_item_polling_ok P c w o :
  resources w o -> entries (w_poll w) = [] ->
  post P create_data_item_polling
    (fun rc d' o' => exists p, d' = Sm c (lens_set poll_lens p w) /\
       resources (lens_set poll_lens p w) o' /\ others R_poll o o' /\
       poll_active p = poll_active (w_poll w) /\
       (rc = 0 /\ pe_data <$> entries p = rev (poll_of <$> items (w_thing w)) \/
        rc = -1 /\ no_timer R_poll (os_timers o'))) (Sm c w) o.
Proof.
  intros Hr Hnil. unfold create_data_item_polling. apply post_bind, post_world_thing. post_step.
  eapply post_mono; [apply polling_loop_creates; apply Hr|].
  intros rc d1 o1 [(p & -> & Hp & Ha & Hent) Ho Hrc]. rewrite Hnil, app_nil_r in Hent.
  assert (resources (lens_set poll_lens p w) o1) as Hr1 by by eapply resources_poll.
  post_step. apply post_when; intros Hc.
  - apply post_in_poll. eapply post_mono; [apply poll_destroy_ok; apply Hr1|].
    intros [] p2 o2 (Ho2 & Hp2 & He2 & Ha2). post_step. exists p2. split; [by destruct w|].
    assert (others R_poll o o2) by by eapply others_trans.
    split; [by eapply (resources_poll w)|]. split; [done|]. split; [by rewrite Ha2|]. right.
    split; [|by eapply no_timer_poll]. by destruct Hrc as [->| ->].
  - post_step. exists p. split; [done|]. split; [done|]. split; [done|]. split; [done|]. left.
    assert (rc = 0) as -> by by destruct Hrc as [->| ->]. split; [done|]. by apply Hent.
Qed.

Lemma device_start_ok dp cp kp o :
  paths_ok dp cp kp -> os_wf o -> os_timers o = ∅ ->
  post (credentials_missing (settings_at o kp))
    (device_start (DeviceSettings (Some kp) (Some dp) (Some cp)))
    (fun rc d' o' => untouched o o' /\
       (rc = 0 /\ started dp kp d' o o' \/ rc < 0 /\ os_timers o' = ∅)) boot o.
Proof.
  intros Hpaths Hw Ht. unfold device_start, boot. post_step. apply post_in_thing, post_modify.
  set (t0 := set_items (Some l_hashmap_new) (w_thing boot_world)).
  post_step. apply post_in_core.
  eapply post_mono; [apply post_and; [apply (properties_create_device_ok Hlaw dp cp kp (Core t0 storage_init))|
                                      apply properties_create_device_kept]|].
  { done. }
  { apply storage_init_wf. }
  { apply thing_wf_new_items, thing_init_wf. }
  { done. }
  { unfold items. cbn. by rewrite entries_new. }
  intros rc c1 o1 ((Hres & Hwf & Hrc & Hok & Hready) & [Hmsg _ Hit]). cbn [c_thing] in *.
  pose proof (untouched_restored _ _ _ _ Hres) as Hu1. destruct Hres as [Hst1 Hq1 _ _ _].
  assert (os_timers o1 = ∅) as Ht1 by by rewrite (quiet_timers _ _ Hq1).
  post_step. { post_step. split; [done|]. right. by split. }
  assert (rc = 0) as -> by (unfold c_true in *; lia). specialize (Hready eq_refl). specialize (Hit (ex_intro _ _ eq_refl)).
  unfold sm_start. do 2 post_step.
  assert (resources (World c1 event_init poll_init modbus_init 0) o1) as Hr1.
  { destruct c1 as [t1 st1]. apply resources_boot; [by eapply os_quiet_wf|done|done]. }
  set (w1 := World c1 event_init poll_init modbus_init 0) in *.
  post_step. eapply post_mono; [by apply (create_data_item_polling_ok _ _ w1)|].
  intros err d2 o2 (p & -> & Hr2 & Ho2 & Ha2 & Hpoll). cbn beta.
  pose proof (untouched_others _ _ _ Ho2) as Hu2.
  assert (untouched o o2) as Hu02 by by etrans.
  assert (os_wf o2) as Hw2 by apply Ho2.
  assert (forall err w o', err < 0 -> resources w o' -> active (w_event w) = false ->
    no_timer R_poll (os_timers o') -> no_timer R_connect (os_timers o') -> untouched o o' ->
    post (credentials_missing (settings_at o kp)) (knot_thing_destroy ;; ret err)
      (fun rc d' o' => untouched o o' /\
         (rc = 0 /\ started dp kp d' o o' \/ rc < 0 /\ os_timers o' = ∅))
      (Sm (Some ST_DISCONNECTED) w) o') as Hfail.
  { intros err' w' o' Herr Hr' Hae Hp' Hc' Hu'. eapply start_failure; try done.
    intros d' o3 Ht3 Hu3. split; [done|by right]. }
  destruct Hpoll as [[-> Hent]|[-> Hnp]]; cycle 1.
  { apply Hfail; try done. eapply no_timer_connect; [done|apply Hr2|done]. }
  change (0 <? 0) with false. cbn iota. apply post_bind, post_world_thing.
  destruct (ready_slave _ _ _ Hready) as (sid & url & Hslave & _).
  change (w_thing (lens_set poll_lens p w1)) with (c_thing c1). rewrite Hslave. cbn [slave_url slave_id].
  do 3 post_step. apply post_in_modbus.
  eapply post_mono; [by apply iface_modbus_start_ok; [|apply Hr2|]|].
  intros err s3 o3 (Ho3 & Hs3 & Herr & Hbad). set (w2 := lens_set poll_lens p w1) in *.
  assert (resources (lens_set modbus_lens s3 w2) o3) as Hr3 by by eapply resources_modbus.
  assert (untouched o o3) as Hu03 by (etrans; [exact Hu02|by eapply untouched_others]).
  post_step.
  { post_step. eapply post_mono; [by apply poll_destroy_released|].
    intros ? ? o4 (w4 & -> & Hr4 & [Ho4 Hn4] & _ & He4 & Hm4).
    apply Hfail; try done; [lia|by rewrite He4| |].
    - eapply no_timer_connect; [apply Ho4|apply Hr4|]. rewrite Hm4. apply Herr. lia.
    - etrans; [exact Hu03|by eapply untouched_others]. }
  apply post_bind, post_world_thing. post_step. apply post_ext_rc. intros a Ha.
  set (o4 := logged _ a o3). apply (resources_logged _ _ (C_cloud_start
    (rabbitmq_url (w_thing (lens_set modbus_lens s3 w2)))
    (user_token (w_thing (lens_set modbus_lens s3 w2)))) a) in Hr3. fold o4 in Hr3.
  assert (untouched o o4) as Hu04 by (etrans; [exact Hu03|by split]).
  post_step.
  { post_step. eapply post_mono; [by apply poll_destroy_released|].
    intros ? ? o5 (w5 & -> & Hr5 & [Ho5 Hn5] & _ & He5 & _). post_step.
    eapply post_mono; [by apply iface_modbus_stop_released|].
    intros ? ? o6 (w6 & -> & Hr6 & [Ho6 Hn6] & _ & He6 & _).
    apply Hfail; try done; [lia|by rewrite He6, He5| |].
    - by eapply no_timer_same; [apply Ho6|].
    - etrans; [exact Hu04|]. etrans; by eapply untouched_others. }
  post_step. apply post_in_thing, post_modify. post_step. split; [done|]. left. split; [done|].
  destruct Hpaths as (Hdp & Hcp & Hkp). destruct Hr3 as [R1 R2 R3 R4 R5]. split.
  - split.
    + apply machine_inv_eq. split.
      * split; try done.
        -- eapply thing_wf_fields; [..|exact Hwf]; cbn; try apply Hwf; done.
        -- apply (storage_wf_same _ o1 o4); [| |exact Hst1].
           ++ by rewrite (others_files _ _ _ Ho3 : os_files o4 = _), (others_files _ _ _ Ho2).
           ++ by rewrite (others_fds _ _ _ Ho3 : os_fds o4 = _), (others_fds _ _ _ Ho2).
        -- by exists kp.
        -- by exists dp.
      * unfold phase, timer_pending, w_thing. cbn. rewrite Hmsg. by repeat split.
    + split; [apply (bool_decide_unpack _); by vm_compute|exact Ha2].
    + exists ST_DISCONNECTED. split; [done|]. right; right. by split.
  - done.
  - destruct Hready as [G1 G2 G3 G4 G5]. by split.
  - exact Hent.
  - intros url' Hu Hb. change (slave_url (modbus_slave (c_thing c1)) = Some url') in Hu.
    rewrite Hslave in Hu. injection Hu as <-. by destruct (Hbad Hb).
Qed.

(** *** A start that meets no failure of the system *)

(** Every timer is created, and the cloud starts. *)
Definition start_answers : Prop :=
  (forall log s cb, 0 <= a_rc (env_answer (C_timeout_create s cb :: log))) /\
  (forall log url tok, 0 <= a_rc (env_answer (C_cloud_start url tok :: log))).

Lemma polling_loop_succeeds P l : forall rc c w o,
  start_answers -> os_wf o ->
  post P (polling_loop l rc)
    (fun rc' d' _ => rc' = rc /\ exists p, d' = Sm c (lens_set poll_lens p w)) (Sm c w) o.
Proof.
  induction l as [|e l IH]; intros rc c w o Ha Hw; cbn [polling_loop].
  { post_step. split; [done|]. exists (w_poll w). by destruct w. }
  post_step. unfold foreach_data_item_polling. post_step. apply post_in_poll.
  eapply post_mono; [apply poll_create_succeeds; [apply Ha|done]|]. intros rc1 p1 o1 [-> Hw1].
  post_step. eapply post_mono; [by apply IH|]. intros ? ? ? (-> & p & ->).
  split; [done|]. exists p. by destruct w.
Qed.

Lemma create_data_item_polling_succeeds P c w o :
  start_answers -> os_wf o ->
  post P create_data_item_polling
    (fun rc d' _ => rc = 0 /\ exists p, d' = Sm c (lens_set poll_lens p w)) (Sm c w) o.
Proof.
  intros Ha Hw. unfold create_data_item_polling. apply post_bind, post_world_thing. post_step.
  eapply post_mono; [by apply polling_loop_succeeds|]. intros ? d1 o1 (-> & p & ->).
  post_step. cbn. split; [done|]. by exists p.
Qed.

(** A bad URL gets through all of the start, once the files were read. *)
Lemma device_start_accepts dp cp kp url o :
  paths_ok dp cp kp -> os_wf o -> os_timers o = ∅ ->
  l_settings_get_string (settings_at o dp) THING_GROUP THING_MODBUS_URL = Some url ->
  bad_url url ->
  wlp (device_start (DeviceSettings (Some kp) (Some dp) (Some cp)))
    (fun rc d' _ => start_answers -> current_state d' <> None -> rc = 0) boot o.
Proof.
  intros Hpaths Hw Ht Hurl [Hb1 Hb2]. apply wlp_imp. intros Ha. unfold device_start, boot. post_step. apply post_in_thing, post_modify.
  set (t0 := set_items (Some l_hashmap_new) (w_thing boot_world)).
  post_step. apply post_in_core.
  eapply post_use;
    [apply (properties_create_device_ok Hlaw dp cp kp (Core t0 storage_init) o);
       [done|apply storage_init_wf|apply thing_wf_new_items, thing_init_wf|done|
        unfold items; cbn; by rewrite entries_new]
    |done|].
  intros rc c1 o1 (Hres & _ & _ & _ & Hready). post_step; [by post_step|].
  assert (rc = 0) as -> by (unfold c_true in *; lia).
  destruct (ready_slave _ _ _ (Hready eq_refl)) as (sid & url' & Hslave & _ & _ & Hurl').
  rewrite Hurl in Hurl'. injection Hurl' as <-.
  assert (os_wf o1) as Hw1 by (eapply os_quiet_wf; [by eapply restored_quiet|done]).
  unfold sm_start. do 3 post_step. 
  eapply post_mono; [by apply create_data_item_polling_succeeds|].
  intros ? d2 o2 (-> & p & ->). change (0 <? 0) with false. cbn iota.
  apply post_bind, post_world_thing. unfold w_thing. cbn [w_core lens_set poll_lens lens_get].
  cbn [sm_device w_core lens_set core_lens]. rewrite Hslave. cbn [slave_url slave_id]. do 3 post_step. apply post_in_modbus.
  eapply post_intro; [by apply iface_modbus_start_bad_url|].
  change (EINVAL <? 0) with false. cbn iota.
  apply post_bind, post_world_thing. post_step. apply post_ext_rc. intros a ->. post_step.
  - exfalso. match goal with H : (a_rc (env_answer (C_cloud_start ?u ?k :: ?l)) <? 0) = true |- _ =>
      pose proof (proj2 Ha l u k); lia end.
  - post_step. apply post_in_thing, post_modify. by post_step.
Qed.
End Start.
