(* ===== verification/Run.v ===== *)
(** * Runs of the daemon (src/device.c)

    The main loop from the start of the device: invariants of every run, and the properties of
    the daemon as a whole. *)

From S2P Require Import Prelude Scan Knot Ext Ell Sm Event Poll Modbus Timers Storage Session.
From S2P Require Import Thing Properties Load Credentials Update Device Daemon Link Handle Start.

Section Runs.
Context `{KL : KnotProtocolLaws} `{E : Env} (Hlaw : EnvLaws) `{LSL : LSettingsLaws}
  {HM Q : Type -> Type} `{HL : LHashmapLaws HM} `{LQL : LQueueLaws Q}.
Implicit Types (d : daemon HM Q) (w : world HM Q) (o : os).

(** ** Runs *)

(** The last successful authentication, with no loss of the cloud since. *)
Definition authenticated (inputs : list input) : Prop :=
  exists is1 m is2, inputs = is1 ++ Cloud_message m :: is2 /\ type m = AUTH_MSG /\
    error m = None /\ Cloud_disconnected ∉ is2.

Definition online d : Prop :=
  current_state d = Some ST_ONLINE \/ current_state d = Some ST_CONFIG.

Lemma authenticated_snoc inputs i :
  authenticated inputs -> i <> Cloud_disconnected -> authenticated (inputs ++ [i]).
Proof.
  intros (is1 & m & is2 & -> & Ht & He & Hn) Hi. exists is1, m, (is2 ++ [i]).
  split; [by rewrite <- app_assoc|]. split; [done|]. split; [done|].
  rewrite elem_of_app, list_elem_of_singleton. by intros [?|<-].
Qed.

Lemma authenticated_last inputs i : auth_ok i -> authenticated (inputs ++ [i]).
Proof.
  destruct i as [| | | |m]; try done. intros [Ht He]. exists inputs, m, [].
  split; [done|]. split; [done|]. split; [done|]. apply not_elem_of_nil.
Qed.

Record ran inputs d' o o' : Prop := {
  ran_inv : daemon_inv d' o';
  ran_online : online d' -> authenticated inputs;
  ran_published : published o' = published o \/
    exists is1 is2, inputs = is1 ++ is2 /\ authenticated is1
}.

Lemma main_loop_step inputs i d1 d2 o o1 o2 :
  ran inputs d1 o o1 -> handled i d1 d2 o1 o2 -> ran (inputs ++ [i]) d2 o o2.
Proof.
  intros [Hi Hon Hpub] [Hi2 (st & st2 & Hst & Hst2 & Hmove) Hdown _ Hpub2 _].
  assert (online d2 -> authenticated (inputs ++ [i])) as Hon2.
  { intros Ho. assert (st2 = ST_ONLINE \/ st2 = ST_CONFIG) as Hs2.
    { destruct Ho as [Ho|Ho]; rewrite Hst2 in Ho; injection Ho as ->; auto. }
    assert (online d1 -> authenticated (inputs ++ [i])) as Hkeep.
    { intros Ho1. apply authenticated_snoc; [by apply Hon|]. intros Hdis.
      destruct (Hdown Hdis). destruct Hi2 as [_ _ (st3 & Hst3 & Hok)].
      rewrite Hst2 in Hst3. injection Hst3 as <-. by eapply state_ok_online. }
    destruct Hmove as [->|(e & He & Hedge)].
    - apply Hkeep. unfold online. rewrite Hst. destruct Hs2 as [->| ->]; auto.
    - destruct (edge_online _ _ _ Hedge Hs2) as [->|[Hs _]].
      + by apply authenticated_last, He.
      + apply Hkeep. unfold online. rewrite Hst. destruct Hs as [->| ->]; auto. }
  split; [done|done|].
  destruct Hpub as [Hp|(is1 & is2 & -> & Ha)]; cycle 1.
  { right. exists is1, (is2 ++ [i]). by rewrite app_assoc. }
  destruct Hpub2 as [Hp2|[Ho|Ho]].
  - left. congruence.
  - right. exists inputs, [i]. split; [done|]. apply Hon. by left.
  - right. exists (inputs ++ [i]), []. split; [by rewrite app_nil_r|]. apply Hon2. by left.
Qed.

Lemma main_loop_ran inputs d o :
  daemon_inv d o -> ~ online d ->
  wlp (main_loop inputs) (fun _ d' o' => ran inputs d' o o') d o.
Proof.
  intros Hd Hoff. induction inputs as [|i inputs IH] using rev_ind.
  { cbn. split; [done|done|by left]. }
  apply post_foreach_snoc. eapply post_mono; [apply IH|]. intros ? d1 o1 Hr.
  eapply post_use; [apply (handle_step Hlaw), Hr|done|]. intros ? d2 o2 Hh.
  exact (main_loop_step _ _ _ _ _ _ _ Hr Hh).
Qed.

(** The automaton follows the daemon. *)
Lemma main_loop_link inputs d o l :
  daemon_inv d o -> linked d l ->
  wlp (main_loop inputs)
    (fun _ d' o' => daemon_inv d' o' /\ exists l', linked d' l' /\ link_run inputs l l') d o.
Proof.
  intros Hd Hl. induction inputs as [|i inputs IH] using rev_ind.
  { cbn. split; [done|]. exists l. split; [done|apply run_nil]. }
  apply post_foreach_snoc. eapply post_mono; [apply IH|]. intros ? d1 o1 (Hd1 & l1 & Hl1 & Hr1).
  eapply post_use; [by apply (handle_step Hlaw)|done|]. intros ? d2 o2 [Hd2 _ _ _ _ Hlink].
  split; [done|]. destruct (Hlink l1 Hl1) as (l2 & Hl2 & Hstep). exists l2.
  split; [done|by eapply run_snoc].
Qed.

(** A daemon whose Modbus interface was not set up stays offline. *)
Record offline d o : Prop := {
  of_inv : daemon_inv d o;
  of_connect : connect_to (w_modbus (sm_device d)) = 0;
  of_io : modbus_io (w_modbus (sm_device d)) = 0;
  of_down : is_up MODBUS (mask d) = false
}.

Lemma offline_not_online d o : offline d o -> ~ online d.
Proof.
  intros [[_ _ (st & Hst & Hok)] _ _ Hd] Ho.
  assert (mask d = CONNECTED_MASK) as Hm.
  { eapply state_ok_online; [exact Hok|]. destruct Ho as [Ho|Ho]; rewrite Hst in Ho;
      injection Ho as ->; auto. }
  by rewrite Hm in Hd.
Qed.

Lemma offline_step i d d' o o' :
  offline d o -> handled i d d' o o' -> offline d' o' /\ published o' = published o.
Proof.
  intros Hoff [Hi _ _ Hm Hp _]. destruct Hoff as [Hd Hc Hio Hdown].
  destruct Hm as [Hev|[Hw Hup]].
  { exfalso. destruct d as [c w]. destruct Hd as [[Hw _]%machine_inv_eq _ _]. destruct i; try done.
    cbn in Hev, Hw. pose proof (dev_inv_resources _ _ _ Hw) as [Hos _ _ _ Hco].
    pose proof (connect_owned _ _ Hco _ Hev) as ->. cbn in Hc. rewrite Hc in Hev.
    by apply no_timer_0 in Hev. }
  assert (offline d' o') as Hoff' by (split; [done|by rewrite Hw|by rewrite Hw|by rewrite Hup]).
  split; [done|]. destruct Hp as [?|[Ho|Ho]]; [done|..]; exfalso.
  - by eapply (offline_not_online d o); [split|left].
  - by eapply (offline_not_online d' o'); [|left].
Qed.

Lemma main_loop_offline inputs d o :
  offline d o -> wlp (main_loop inputs) (fun _ _ o' => published o' = published o) d o.
Proof.
  intros Hoff.
  apply (post_mono _ _ (fun _ d' o' => offline d' o' /\ published o' = published o));
    [|by intros ? ? ? []].
  apply (post_foreach _ _ _ (fun d' o' => offline d' o' /\ published o' = published o)); [done|].
  intros i d1 o1 _ [Hoff1 Hp1]. eapply post_use; [apply (handle_step Hlaw), Hoff1|done|].
  intros ? d2 o2 Hh. destruct (offline_step _ _ _ _ _ Hoff1 Hh) as [Hoff2 Hp2].
  split; [done|congruence].
Qed.

(** The message timeout of a daemon, by the state. *)
Lemma timeout_pending st d o :
  daemon_inv d o -> current_state d = Some st ->
  (forall log s cb, 0 <= a_rc (env_answer (C_timeout_create s cb :: log))) ->
  waiting st = true <-> exists to, os_timers o !! to = Some on_msg_timeout_cb.
Proof.
  destruct d as [c w]. intros [[Hw Hp] _ _] Hst Hav. cbn in *. subst c. destruct Hp as (H1 & H2 & _).
  destruct (dev_inv_resources _ _ _ Hw) as [Hos [Hl Ho] _ _ _]. split.
  - intros Hwait. specialize (H2 Hav Hwait). exists (msg_to (w_thing w)). apply Hl.
    intros H0. unfold timer_pending in H2. by rewrite H0 in H2.
  - intros [to Hto]. apply H1. unfold timer_pending. rewrite <- (Ho to Hto).
    apply negb_true_iff, Z.eqb_neq. intros ->. by apply no_timer_0 in Hto.
Qed.

(** A run of the main loop stops at an input the daemon does not check. *)
Definition unchecked_run inputs d o : Prop :=
  exists is1 i is2 d1 o1, inputs = is1 ++ i :: is2 /\
    main_loop is1 d o = Some (tt, d1, o1) /\ unchecked_input d1 i.

Lemma main_loop_runs inputs d o :
  daemon_inv d o ->
  post (unchecked_run inputs d o) (main_loop inputs) (fun _ d' o' => daemon_inv d' o') d o.
Proof.
  revert d o. induction inputs as [|i inputs IH]; intros d o Hd; [done|].
  pose proof (handle_step Hlaw i d o Hd) as Hh. unfold post in Hh |- *. cbn. unfold bind.
  destruct (handle i d o) as [[[[] d1] o1]|] eqn:Hi; cycle 1.
  { exists [], i, inputs, d, o. by split_and!. }
  pose proof (IH d1 o1 (hd_inv _ _ _ _ _ Hh)) as IH1. unfold post, main_loop in IH1.
  destruct (foreach handle inputs d1 o1) as [[[[] d2] o2]|]; [done|].
  destruct IH1 as (is1 & j & is2 & d3 & o3 & -> & Hrun & Hun).
  exists (i :: is1), j, is2, d3, o3. split; [done|]. split; [|done].
  unfold main_loop in *. cbn. unfold bind. by rewrite Hi.
Qed.
End Runs.

(** ** Properties *)

(** The request a state waits for the answer of. *)
Definition request_of `{KnotProtocol} `{LSettings} {HM : Type -> Type} `{!LHashmap HM}
    (st : STATES) (t : knot_thing HM) : option call :=
  match st with
  | ST_AUTH => Some (C_cloud_auth_device (cstr (id t)) (cstr (token t)))
  | ST_REGISTER => Some (C_cloud_register_device (cstr (id t)) (cstr (name t)))
  | ST_CONFIG => Some (C_cloud_update_config (cstr (id t))
      (rev ((fun i => KnotMsgConfig (sensor_id i) (schema i) (event i)) <$> (items t).*2)))
  | _ => None
  end.

Section Items.
Context `{KL : KnotProtocolLaws} {HM : Type -> Type} `{HL : LHashmapLaws HM}.
Implicit Types (t : knot_thing HM).

Lemma item_at_key t sid i : thing_wf t -> item_at t sid = Some i -> sid = sensor_id i.
Proof.
  intros Hwf Hat. unfold item_at in Hat. destruct (data_items t) as [h|] eqn:Eh; [|done].
  apply (items_keys _ Hwf). unfold items. rewrite Eh. by apply lookup_Some_entries.
Qed.

(** Writing to an item of the thing. *)
Lemma item_written t i i' :
  thing_wf t -> sensor_id i' = sensor_id i -> item_at t (sensor_id i) = Some i ->
  let t' := match data_items t with
            | Some h => set_items (Some (l_hashmap_write h (sensor_id i) i')) t
            | None => t
            end in
  thing_wf t' /\ item_at t' (sensor_id i) = Some i' /\ id t' = id t.
Proof.
  intros Hwf Hs Hat. cbn zeta. unfold item_at in *.
  destruct (data_items t) as [h|] eqn:Eh; [|done]. split; [by apply thing_wf_write|].
  split; [|done]. cbn. pose proof (items_uniq _ Hwf _ Eh) as Hu.
  apply hm_lookup_spec; [by apply hm_uniq_write|]. rewrite entries_write by done.
  apply lookup_Some_entries in Hat. apply list_elem_of_fmap. exists (sensor_id i, i).
  split; [|done]. unfold write_entry. cbn. by rewrite decide_True.
Qed.
End Items.

Section Retry.
Context `{KL : KnotProtocolLaws} `{E : Env} `{LSL : LSettingsLaws}
  {HM Q : Type -> Type} `{HL : LHashmapLaws HM} `{LQL : LQueueLaws Q}.

Definition send_request (st : STATES) : M (world HM Q) Z :=
  match st with
  | ST_AUTH => Device.device_send_auth_request
  | ST_REGISTER => Device.device_send_register_request
  | _ => Device.device_send_config
  end.

Lemma send_request_logs P st req (w : world HM Q) o :
  request_of st (w_thing w) = Some req ->
  post P (send_request st)
    (fun _ w' o' => w' = w /\ os_log o' = req :: os_log o /\ os_timers o' = os_timers o) w o.
Proof.
  intros Hreq. destruct st; try discriminate Hreq; injection Hreq as <-; cbn [send_request].
  - by apply post_bind, get_thing_spec, post_ext_rc.
  - by apply post_bind, get_thing_spec, post_ext_rc.
  - eapply post_mono; [apply send_config_run|]. done.
Qed.

Lemma get_next_retries st u :
  waiting st = true ->
  get_next (states (W := world HM Q) st) EVT_TIMEOUT u =
    (let! rc := send_request st in
     Device.device_msg_timeout_modify DEFAULT_MSG_TIMEOUT ;; ret st).
Proof. by destruct st. Qed.
End Retry.

Section Properties.
Context `{KL : KnotProtocolLaws} `{E : Env} (Hlaw : EnvLaws) `{LSL : LSettingsLaws}
  {HM Q : Type -> Type} `{HL : LHashmapLaws HM} `{LQL : LQueueLaws Q}.
Implicit Types (d : daemon HM Q) (w : world HM Q) (o : os).

(** Whatever the libraries and the system answer, one turn of the main loop keeps the invariant
    of the daemon and runs into no undefined behaviour, but on two messages of the cloud: a
    registration without a token and an update of the configuration. *)
Theorem handle_inv i d o :
  daemon_inv d o ->
  post (unchecked_input d i) (handle i) (fun _ d' o' => daemon_inv d' o') d o.
Proof. intros Hd. eapply post_mono; [by apply handle_step|]. by intros ? d' o' []. Qed.

(** C5: The main loop comes to the end of its inputs, whatever they are and whatever the system answers,
    unless it is handed a message the daemon does not check in the state it has reached. *)
Theorem main_loop_total inputs d o :
  daemon_inv d o -> ~ unchecked_run inputs d o ->
  exists d' o', main_loop inputs d o = Some (tt, d', o') /\ daemon_inv d' o'.
Proof.
  intros Hd Hun. pose proof (main_loop_runs Hlaw inputs d o Hd) as H. unfold post in H.
  destruct (main_loop inputs d o) as [[[[] d'] o']|]; [by exists d', o'|done].
Qed.

(** C6: Starting the device on its three files. When it succeeds the device is ready, disconnected,
    with one poll for each data item; when it fails no timer is left. Either way no file was
    changed or left open and nothing was handed to the cloud. *)
Theorem device_start_spec dp cp kp o :
  paths_ok dp cp kp -> os_wf o -> os_timers o = ∅ ->
  post (credentials_missing (settings_at o kp))
    (device_start (HM := HM) (Q := Q) (DeviceSettings (Some kp) (Some dp) (Some cp)))
    (fun rc d' o' => untouched o o' /\
       (rc = 0 /\ started dp kp d' o o' \/ rc < 0 /\ os_timers o' = ∅)) boot o.
Proof. apply (device_start_ok Hlaw). Qed.

(** C3: A daemon that started is ONLINE, or in CONFIG, only with both connections up and after the
    cloud accepted its credentials, without a disconnection of the cloud since. *)
Theorem daemon_online conf_dp conf_cp conf_kp inputs o :
  paths_ok conf_dp conf_cp conf_kp -> os_wf o -> os_timers o = ∅ ->
  wlp (let! rc := device_start (HM := HM) (Q := Q)
                    (DeviceSettings (Some conf_kp) (Some conf_dp) (Some conf_cp)) in
       main_loop inputs ;; ret rc)
    (fun rc d' _ => rc = 0 -> online d' -> mask d' = CONNECTED_MASK /\ authenticated inputs) boot o.
Proof.
  intros Hp Hw Ht. post_step.
  eapply post_use; [by apply (device_start_ok Hlaw conf_dp conf_cp conf_kp)|done|].
  intros rc d1 o1 (_ & [[-> Hst]|[Hrc _]]); cycle 1.
  { post_step. eapply post_mono; [apply wlp_any|]. intros ? d2 o2 _. post_step. lia. }
  destruct Hst as [Hi [Hst _] _ _ _]. post_step. eapply post_mono; [apply (main_loop_ran Hlaw); [exact Hi|]|].
  { unfold online. rewrite Hst. by intros [|]. }
  intros ? d2 o2 [Hi2 Hon _]. post_step. intros _ Hon2. split; [|by apply Hon].
  destruct Hi2 as [_ _ (st & Hst2 & Hok)]. eapply state_ok_online; [exact Hok|].
  destruct Hon2 as [H|H]; rewrite Hst2 in H; injection H as ->; auto.
Qed.

(** C4: The daemon refines the automaton of its state and its two connections: every run of a daemon
    that started is a run of the automaton on the same inputs. *)
Theorem daemon_refines_link conf_dp conf_cp conf_kp inputs o :
  paths_ok conf_dp conf_cp conf_kp -> os_wf o -> os_timers o = ∅ ->
  wlp (let! rc := device_start (HM := HM) (Q := Q)
                    (DeviceSettings (Some conf_kp) (Some conf_dp) (Some conf_cp)) in
       main_loop inputs ;; ret rc)
    (fun rc d' _ => rc = 0 -> exists l, linked d' l /\ link_run inputs link_init l) boot o.
Proof.
  intros Hp Hw Ht. post_step.
  eapply post_use; [by apply (device_start_ok Hlaw conf_dp conf_cp conf_kp)|done|].
  intros rc d1 o1 (_ & [[-> Hst]|[Hrc _]]); cycle 1.
  { post_step. eapply post_mono; [apply wlp_any|]. intros ? d2 o2 _. post_step. lia. }
  destruct Hst as [Hi [Hst Hm] _ _ _]. post_step. unfold mask in Hm.
  eapply post_mono; [apply (main_loop_link Hlaw _ _ _ link_init); [exact Hi|]|].
  { unfold linked. by rewrite Hst, Hm. }
  intros ? d2 o2 [_ Hl]. by post_step.
Qed.

(** A daemon that started hands data to the cloud only after the cloud accepted its
    credentials. *)
Theorem daemon_publishes conf_dp conf_cp conf_kp inputs o :
  paths_ok conf_dp conf_cp conf_kp -> os_wf o -> os_timers o = ∅ ->
  wlp (let! rc := device_start (HM := HM) (Q := Q)
                    (DeviceSettings (Some conf_kp) (Some conf_dp) (Some conf_cp)) in
       main_loop inputs ;; ret rc)
    (fun rc _ o' => rc = 0 -> published o' <> published o ->
       exists is1 is2, inputs = is1 ++ is2 /\ authenticated is1) boot o.
Proof.
  intros Hp Hw Ht. post_step.
  eapply post_use; [by apply (device_start_ok Hlaw conf_dp conf_cp conf_kp)|done|].
  intros rc d1 o1 ([_ _ Hpub] & [[-> Hst]|[Hrc _]]); cycle 1.
  { post_step. eapply post_mono; [apply wlp_any|]. intros ? d2 o2 _. post_step. lia. }
  destruct Hst as [Hi [Hst _] _ _ _]. post_step. eapply post_mono; [apply (main_loop_ran Hlaw); [exact Hi|]|].
  { unfold online. rewrite Hst. by intros [|]. }
  intros ? d2 o2 [_ _ Hr]. post_step. intros _ Hne. destruct Hr as [Hr|Hr]; [congruence|done].
Qed.

(** From the start to the end of the daemon no timer is leaked: whatever happened in between, none
    is live when it has been destroyed, or when its start has failed. *)
Theorem daemon_releases conf_dp conf_cp conf_kp inputs o :
  paths_ok conf_dp conf_cp conf_kp -> os_wf o -> os_timers o = ∅ ->
  wlp (let! rc := device_start (HM := HM) (Q := Q)
                    (DeviceSettings (Some conf_kp) (Some conf_dp) (Some conf_cp)) in
       if c_true rc then ret rc else main_loop inputs ;; device_destroy ;; ret 0)
    (fun _ _ o' => os_timers o' = ∅) boot o.
Proof.
  intros Hp Hw Ht. post_step.
  eapply post_use; [by apply (device_start_ok Hlaw conf_dp conf_cp conf_kp)|done|].
  intros rc d1 o1 (_ & [[-> Hst]|[Hrc Htm]]); cbn -[Z.eqb].
  - destruct Hst as [Hi _ _ _ _]. change (c_true 0) with false. cbn iota. post_step.
    eapply post_mono.
    { apply (post_foreach _ _ _ daemon_inv); [exact Hi|]. intros i d2 o2 _ Hi2.
      eapply post_use; [by apply (handle_step Hlaw)|done|]. by intros ? ? ? []. }
    intros ? [c w] o2 [[Hw2 _] _ _]. post_step. eapply post_mono.
    { apply device_destroy_releases. by eapply dev_inv_resources. }
    intros ? d3 o3 [Ht3 _]. by post_step.
  - destruct (c_true rc) eqn:Hc; [by post_step|]. unfold c_true in Hc. lia.
Qed.

(** C31: A URL of the Modbus slave that is neither of TCP nor of a serial line is not an error to
    [device_start]: when the files were read, which is when the state machine has a state, and
    the system creates the timers and the cloud starts, it returns 0. The daemon it starts never
    hands any data to the cloud, whatever the system and the cloud answer. *)
Theorem device_start_bad_url conf_dp conf_cp conf_kp url inputs o :
  paths_ok conf_dp conf_cp conf_kp -> os_wf o -> os_timers o = ∅ ->
  l_settings_get_string (settings_at o conf_dp) THING_GROUP THING_MODBUS_URL = Some url ->
  bad_url url ->
  wlp (let! rc := device_start (HM := HM) (Q := Q)
                    (DeviceSettings (Some conf_kp) (Some conf_dp) (Some conf_cp)) in
       let! d := get in
       main_loop inputs ;;
       ret (rc, current_state d))
    (fun r _ o' => (start_answers -> r.2 <> None -> r.1 = 0) /\
       (r.1 = 0 -> published o' = published o)) boot o.
Proof.
  intros Hp Hw Ht Hurl Hb. post_step.
  eapply post_use;
    [apply post_and; [by apply (device_start_ok Hlaw conf_dp conf_cp conf_kp)
                     |by eapply (device_start_accepts Hlaw)]|done|].
  intros rc d1 o1 [([_ _ Hpub] & Hres) Hacc]. post_step. post_step. post_step.
  destruct Hres as [[-> Hst]|[Hrc _]]; cycle 1.
  { eapply post_mono; [apply wlp_any|]. intros ? d2 o2 _. post_step. cbn. split; [done|lia]. }
  destruct Hst as [Hi [Hc Hm] Hready _ Hbad].
  destruct (ready_slave _ _ _ Hready) as (sid & url' & Hslave & _ & _ & Hurl').
  rewrite Hurl in Hurl'. injection Hurl' as <-. rewrite Hslave in Hbad.
  destruct (Hbad url eq_refl Hb) as [H1 H2].
  eapply post_mono; [apply (main_loop_offline Hlaw); split; [done|done|done|by rewrite Hm]|].
  intros ? d2 o2 Hp2. post_step. split; [done|]. intros _. congruence.
Qed.

(** C8: In every run from the start of the daemon in which the creation of timers does not fail, the
    message timeout is live exactly in the states that wait for an answer of the cloud. *)
Theorem message_timeout_pending conf_dp conf_cp conf_kp inputs o :
  paths_ok conf_dp conf_cp conf_kp -> os_wf o -> os_timers o = ∅ ->
  (forall log s cb, 0 <= a_rc (env_answer (C_timeout_create s cb :: log))) ->
  wlp (let! rc := device_start (HM := HM) (Q := Q)
                    (DeviceSettings (Some conf_kp) (Some conf_dp) (Some conf_cp)) in
       main_loop inputs ;; ret rc)
    (fun rc d' o' => rc = 0 -> exists st, current_state d' = Some st /\
       (waiting st = true <-> exists to, os_timers o' !! to = Some on_msg_timeout_cb)) boot o.
Proof.
  intros Hp Hw Ht Hav. post_step.
  eapply post_use; [by apply (device_start_ok Hlaw conf_dp conf_cp conf_kp)|done|].
  intros rc d1 o1 (_ & [[-> Hst]|[Hrc _]]); cycle 1.
  { post_step. eapply post_mono; [apply wlp_any|]. intros ? d2 o2 _. post_step. lia. }
  destruct Hst as [Hi [Hst _] _ _ _]. post_step.
  eapply post_mono; [apply (main_loop_ran Hlaw); [exact Hi|]|].
  { unfold online. rewrite Hst. by intros [|]. }
  intros ? d2 o2 [Hi2 _ _]. post_step. intros _. pose proof Hi2 as [_ _ (st & Hst2 & _)].
  exists st. split; [done|]. by apply timeout_pending with d2.
Qed.

(** C9: When the message timeout expires the request the state waits for is sent again, the timer is
    armed for three more seconds, and nothing else changes. *)
Theorem daemon_retries to st d o :
  daemon_inv d o -> current_state d = Some st -> os_timers o !! to = Some on_msg_timeout_cb ->
  exists request, request_of st (w_thing (sm_device d)) = Some request /\
    wp (handle (Timer to))
      (fun _ d' o' => d' = d /\ os_timers o' = os_timers o /\
         os_log o' = C_timeout_modify to DEFAULT_MSG_TIMEOUT :: request :: os_log o) d o.
Proof.
  destruct d as [c w]. intros [[Hw Hp] _ _] Hst Hto. cbn in *. subst c. destruct Hp as (H1 & _ & _).
  destruct (dev_inv_resources _ _ _ Hw) as [Hos [Hl Ho] _ _ _].
  assert (waiting st = true) as Hwait.
  { apply H1. unfold timer_pending. rewrite <- (Ho to Hto).
    apply negb_true_iff, Z.eqb_neq. intros ->. by apply no_timer_0 in Hto. }
  pose proof (Ho to Hto) as ->.
  assert (is_Some (request_of st (w_thing w))) as [req Hreq] 
    by (destruct st; try discriminate Hwait; by eexists).
  exists req. split; [done|]. unfold handle. do 2 post_step. rewrite Hto. cbn [fire].
  unfold on_msg_timeout, sm_input_event. do 3 post_step. cbn [current_state].
  do 2 post_step. apply post_zoom. rewrite get_next_retries by done. post_step.
  eapply post_mono; [by apply send_request_logs|]. intros ? ? o1 (-> & Hlog & Htm). post_step.
  unfold Device.device_msg_timeout_modify, l_timeout_modify. post_step.
  apply post_bind, get_thing_spec, post_ext_. intros a2 _. post_step.
  rewrite bool_decide_eq_true_2 by done. split; [done|]. split; [exact Htm|]. cbn. by rewrite Hlog.
Qed.
(** C7: One poll of an item while ONLINE: the value read replaces the current one, and it is handed to
    the cloud, and remembered as sent, exactly when the check of the events of the item asks for
    it. *)
Theorem on_modbus_poll_receive_spec sid i rc v w o o1 :
  thing_wf (w_thing w) -> item_at (w_thing w) sid = Some i ->
  iface_modbus_read_data (reg_addr (modbus_source i)) (bit_offset (modbus_source i))
    (current_val i) (endianness_type_sensor (modbus_source i)) (w_modbus w) o
  = Some ((rc, v), w_modbus w, o1) ->
  let sent := 0 <? event_check_value (w_event w) (event i) v (sent_val i)
                     (schema_value_type (schema i)) in
  wp (on_modbus_poll_receive sid)
    (fun rc' d' o' => rc' = rc /\ current_state d' = Some ST_ONLINE /\
       item_at (w_thing (sm_device d')) sid =
         Some (set_sent_val (if sent then v else sent_val i) (set_current_val v i)) /\
       published o' = (if sent then [publish_call (w_thing w) (set_current_val v i)] else [])
                        ++ published o) (Sm (Some ST_ONLINE) w) o.
Proof.
  cbn zeta. intros Hwf Hat Hread. set (sent := 0 <? _). unfold on_modbus_poll_receive. post_step. apply post_in_thing.
  unfold device_data_item_lookup. do 3 post_step.
  assert (lens_set core_lens (Core (w_thing w) (c_storage (w_core w))) w = w) as ->
    by by destruct w as [[]].
  change (match data_items (w_thing w) with Some h => _ | None => _ end)
    with (item_at (w_thing w) sid).
  rewrite Hat. pose proof (item_at_key _ _ _ Hwf Hat) as ->.
  pose proof (wlp_elim _ _ _ _ _ _ _ (read_data_frame _ _ _ _ _ _ _) Hread) as (_ & _ & Hp1).
  post_step. apply post_in_modbus. eapply post_intro; [exact Hread|].
  assert (lens_set modbus_lens (w_modbus w) w = w) as -> by by destruct w as [[]].
  set (i1 := set_current_val v i). post_step. apply post_in_thing. unfold item_write. post_step.
  destruct (item_written _ i i1 Hwf eq_refl Hat) as (Hwf1 & Hat1 & Hid1).
  set (t1 := match data_items (w_thing w) with Some h => _ | None => _ end) in *.
  post_step. apply post_in_event, post_get.
  change (w_event (lens_set core_lens _ w)) with (w_event w).
  post_step. apply post_when; intros Hc; change (sent = true) in Hc || change (sent = false) in Hc;
    rewrite Hc; cycle 1.
  { post_step. split; [done|]. split; [done|]. split; [|done].
    change (item_at t1 (sensor_id i) = Some (set_sent_val (sent_val i) i1)). rewrite Hat1.
    by destruct i. }
  set (i2 := set_sent_val (current_val i1) i1). post_step. apply post_in_thing, post_modify.
  destruct (item_written t1 i1 i2 Hwf1 eq_refl Hat1) as (Hwf2 & Hat2 & Hid2).
  set (w2 := lens_set core_lens _ _).
  change (item_at (w_thing w2) (sensor_id i) = Some i2) in Hat2.
  change (id (w_thing w2) = id t1) in Hid2.
  unfold sm_input_event. do 3 post_step. cbn [current_state]. do 2 post_step.
  apply post_zoom. cbn [get_next states get_next_online lens_get sm_lens sm_device as_sensor_ids].
  post_step. eapply post_mono; [apply publish_all_run|]. intros ? ? o3 [-> Hp3]. post_step.
  rewrite bool_decide_eq_true_2 by done. cbn [negb when]. do 2 post_step.
  split; [done|]. split; [done|]. split; [exact Hat2|].
  rewrite Hp3, Hp1. cbn [omap list_omap]. rewrite Hat2. unfold publish_call.
  by rewrite Hid2, Hid1.
Qed.
End Properties.

(** ** Witnesses

    The sample device, in a system where every call succeeds, from its start to ONLINE. *)

Definition example_env : Env := fun log =>
  match log with
  | C_io_set_disconnect_handler _ :: _ => Answer 1 0 []
  | C_pwrite _ data :: _ => Answer (strlen data) 0 []
  | _ => Answer 0 0 []
  end.

Lemma example_env_laws : EnvLaws (E := example_env).
Proof. split. intros [|[]]; cbn; try lia. unfold strlen. lia. Qed.

Section Example.
#[local] Existing Instances example_knot list_hashmap list_queue example_settings.
#[local] Existing Instances example_knot_laws list_hashmap_laws list_queue_laws
  example_settings_laws.
#[local] Existing Instance example_env.

Definition example_conf : device_settings :=
  DeviceSettings (Some "credentials.conf") (Some "device.conf") (Some "cloud.conf").

(** The Modbus connection, the cloud, the registration, the authentication and the
    configuration. *)
Definition example_inputs : list input :=
  [Timer 3; Cloud_connected;
   Cloud_message (KnotCloudMsg REGISTER_MSG None (Some "secret"%string) UD_null);
   Cloud_message (KnotCloudMsg AUTH_MSG None None UD_null);
   Cloud_message (KnotCloudMsg CONFIG_MSG None None UD_null)].

Definition example_run (o : os) (inputs : list input) : option (Z * option STATES * list call) :=
  match (let! rc := device_start (HM := fun V => list (Z * V)) (Q := list) example_conf in
         main_loop inputs ;; ret rc) boot o with
  | Some (rc, d, o') => Some (rc, current_state d, published o')
  | None => None
  end.

Lemma example_paths : paths_ok "device.conf" "cloud.conf" "credentials.conf".
Proof. repeat split; apply example_path_ok; cbn; lia. Qed.

Lemma device_start_spec_witness :
  example_run example_files [] = Some (0, Some ST_DISCONNECTED, []) /\
  post (credentials_missing (settings_at example_files "credentials.conf"))
    (device_start (HM := fun V => list (Z * V)) (Q := list) example_conf)
    (fun rc d' o' => untouched example_files o' /\
       (rc = 0 /\ started "device.conf" "credentials.conf" d' example_files o' \/
        rc < 0 /\ os_timers o' = ∅)) boot example_files.
Proof.
  split; [by vm_compute|].
  apply (device_start_spec example_env_laws "device.conf" "cloud.conf" "credentials.conf"
           example_files).
  - apply example_paths.
  - apply os_init_wf.
  - reflexivity.
Defined.

Lemma daemon_online_witness :
  example_run example_files example_inputs
    = Some (0, Some ST_ONLINE, [C_cloud_publish_data "0" 0 1 0 1]) /\
  wlp (let! rc := device_start (HM := fun V => list (Z * V)) (Q := list) example_conf in
       main_loop example_inputs ;; ret rc)
    (fun rc d' _ => rc = 0 -> online d' -> mask d' = CONNECTED_MASK /\ authenticated example_inputs)
    boot example_files.
Proof.
  split; [by vm_compute|].
  apply (daemon_online example_env_laws "device.conf" "cloud.conf" "credentials.conf"
           example_inputs example_files).
  - apply example_paths.
  - apply os_init_wf.
  - reflexivity.
Defined.

Lemma daemon_refines_link_witness :
  wlp (let! rc := device_start (HM := fun V => list (Z * V)) (Q := list) example_conf in
       main_loop example_inputs ;; ret rc)
    (fun rc d' _ => rc = 0 -> exists l, linked d' l /\ link_run example_inputs link_init l)
    boot example_files.
Proof.
  apply (daemon_refines_link example_env_laws "device.conf" "cloud.conf" "credentials.conf"
           example_inputs example_files).
  - apply example_paths.
  - apply os_init_wf.
  - reflexivity.
Defined.

Lemma daemon_publishes_witness :
  wlp (let! rc := device_start (HM := fun V => list (Z * V)) (Q := list) example_conf in
       main_loop example_inputs ;; ret rc)
    (fun rc _ o' => rc = 0 -> published o' <> published example_files ->
       exists is1 is2, example_inputs = is1 ++ is2 /\ authenticated is1) boot example_files.
Proof.
  apply (daemon_publishes example_env_laws "device.conf" "cloud.conf" "credentials.conf"
           example_inputs example_files).
  - apply example_paths.
  - apply os_init_wf.
  - reflexivity.
Defined.

Lemma daemon_releases_witness :
  wlp (let! rc := device_start (HM := fun V => list (Z * V)) (Q := list) example_conf in
       if c_true rc then ret rc else main_loop example_inputs ;; device_destroy ;; ret 0)
    (fun _ _ o' => os_timers o' = ∅) boot example_files.
Proof.
  apply (daemon_releases example_env_laws "device.conf" "cloud.conf" "credentials.conf"
           example_inputs example_files).
  - apply example_paths.
  - apply os_init_wf.
  - reflexivity.
Defined.

(** The sample device with a URL of neither kind. *)
Definition example_bad_files : os := example_files_of (example_device_file_of "127.0.0.1:502").

Lemma device_start_bad_url_witness :
  example_run example_bad_files example_inputs = Some (0, Some ST_DISCONNECTED, []) /\
  bad_url "127.0.0.1:502" /\ start_answers /\
  wlp (let! rc := device_start (HM := fun V => list (Z * V)) (Q := list) example_conf in
       let! d := get in
       main_loop example_inputs ;;
       ret (rc, current_state d))
    (fun r _ o' => (start_answers -> r.2 <> None -> r.1 = 0) /\
       (r.1 = 0 -> published o' = published example_bad_files)) boot example_bad_files.
Proof.
  split; [by vm_compute|]. split; [by split|]. split; [by split|].
  apply (device_start_bad_url example_env_laws "device.conf" "cloud.conf" "credentials.conf"
           "127.0.0.1:502" example_inputs example_bad_files).
  - apply example_paths.
  - apply os_init_wf.
  - reflexivity.
  - by vm_compute.
  - by split.
Defined.

(** A daemon that waits for the answer to its authentication. *)
Definition waiting_world : world (fun V => list (Z * V)) list :=
  World (Core (set_msg_to 1 (set_conf_files example_conf example_thing)) storage_init)
    event_init (PollState None true) modbus_init CONNECTED_MASK.

Definition waiting_os : os :=
  Os [] 0 ∅ ∅ {[1 := on_msg_timeout_cb]} 2.

Lemma waiting_timer to cb : os_timers waiting_os !! to = Some cb -> to = 1 /\ cb = on_msg_timeout_cb.
Proof.
  change (({[1 := on_msg_timeout_cb]} : gmap Z timer_cb) !! to = Some cb -> to = 1 /\ cb = on_msg_timeout_cb).
  by intros [<- <-]%lookup_singleton_Some.
Qed.

Lemma waiting_inv st : waiting st = true -> daemon_inv (Sm (Some st) waiting_world) waiting_os.
Proof.
  intros Hst. split.
  - apply machine_inv_eq. split; [split|].
    + split; [done|]. intros to [cb [-> _]%waiting_timer]. cbn. lia.
    + eapply thing_wf_fields; [..|apply example_thing_ready]; try done;
        by apply example_thing_ready.
    + apply storage_init_wf.
    + done.
    + exists "credentials.conf"%string. split; [done|]. apply example_paths.
    + exists "device.conf"%string. split; [done|]. apply example_paths.
    + split; [done|]. by intros t [-> _]%waiting_timer.
    + split; try done; [by intros to ?%elem_of_nil|..]; by intros to i n [_ ?]%waiting_timer.
    + split; [by intros e ?%elem_of_nil|]. by intros to i n cb [_ ?]%waiting_timer.
    + split; [done|]. by intros to [_ ?]%waiting_timer.
    + done.
    + cbn. by split_and!.
  - split; [apply (bool_decide_unpack _); by vm_compute|done].
  - exists st. split; [done|]. right; right. split; [by intros ->|by intros []].
Qed.

Lemma handle_inv_witness :
  post (unchecked_input (Sm (Some ST_AUTH) waiting_world) Cloud_disconnected)
    (handle Cloud_disconnected) (fun _ d' o' => daemon_inv d' o')
    (Sm (Some ST_AUTH) waiting_world) waiting_os.
Proof. apply (handle_inv example_env_laws). by apply waiting_inv. Defined.

Lemma main_loop_total_witness :
  let inputs := [Timer 1; Cloud_message (KnotCloudMsg AUTH_MSG None None UD_null)] in
  exists d' o', main_loop inputs (Sm (Some ST_AUTH) waiting_world) waiting_os = Some (tt, d', o') /\
    daemon_inv d' o'.
Proof.
  intros inputs.
  apply (main_loop_total example_env_laws inputs (Sm (Some ST_AUTH) waiting_world) waiting_os).
  - by apply waiting_inv.
  - intros (is1 & i & is2 & d1 & o1 & Hin & _ & Hun).
    destruct is1 as [|i1 [|i2 [|]]]; injection Hin; intros; subst; try done.
    by destruct Hun as (_ & [[? _]|[? _]]).
Defined.

(** The run that waits for the configuration has the timeout. *)
Lemma message_timeout_pending_witness :
  match (let! rc := device_start (HM := fun V => list (Z * V)) (Q := list) example_conf in
         main_loop (take 4 example_inputs) ;; ret rc) boot example_files with
  | Some (rc, d, o) => rc = 0 /\ current_state d = Some ST_CONFIG /\
      os_timers o !! msg_to (w_thing (sm_device d)) = Some on_msg_timeout_cb
  | None => False
  end /\
  wlp (let! rc := device_start (HM := fun V => list (Z * V)) (Q := list) example_conf in
       main_loop (take 4 example_inputs) ;; ret rc)
    (fun rc d' o' => rc = 0 -> exists st, current_state d' = Some st /\
       (waiting st = true <-> exists to, os_timers o' !! to = Some on_msg_timeout_cb))
    boot example_files.
Proof.
  split; [by vm_compute|].
  apply (message_timeout_pending example_env_laws "device.conf" "cloud.conf" "credentials.conf"
           (take 4 example_inputs) example_files).
  - apply example_paths.
  - apply os_init_wf.
  - reflexivity.
  - intros. cbn. lia.
Defined.

Lemma daemon_retries_witness :
  exists request,
    request_of ST_REGISTER (w_thing (sm_device (Sm (Some ST_REGISTER) waiting_world))) = Some request /\
    wp (handle (Timer 1))
      (fun _ d' o' => d' = Sm (Some ST_REGISTER) waiting_world /\
         os_timers o' = os_timers waiting_os /\
         os_log o' = C_timeout_modify 1 DEFAULT_MSG_TIMEOUT :: request :: os_log waiting_os)
      (Sm (Some ST_REGISTER) waiting_world) waiting_os.
Proof.
  apply (daemon_retries 1 ST_REGISTER (Sm (Some ST_REGISTER) waiting_world) waiting_os).
  - by apply waiting_inv.
  - reflexivity.
  - reflexivity.
Defined.

(** A change of the value of the item of [example_thing]. *)
Definition polled_world : world (fun V => list (Z * V)) list :=
  World (Core example_thing storage_init) (EventState None None true) (PollState None true)
    modbus_init CONNECTED_MASK.

Definition polled_env : Env := fun log => Answer 1 0 [77].

Lemma on_modbus_poll_receive_spec_witness :
  wp (on_modbus_poll_receive (E := polled_env) 7)
    (fun rc' d' o' => rc' = 1 /\ current_state d' = Some ST_ONLINE /\
       item_at (w_thing (sm_device d')) 7 =
         Some (set_sent_val 77 (set_current_val 77 example_item)) /\
       published o' = [C_cloud_publish_data "" 7 1 77 sizeof_value_type])
    (Sm (Some ST_ONLINE) polled_world) (os_init ∅).
Proof.
  assert ((0 <? event_check_value (w_event polled_world) (event example_item) 77
    (sent_val example_item) (schema_value_type (schema example_item))) = true) as Hsent by reflexivity.
  eapply post_mono.
  - apply (on_modbus_poll_receive_spec (E := polled_env) 7 example_item 1 77 polled_world (os_init ∅)
      (logged (C_modbus_read_registers 0 3 1) (Answer 1 0 [77]) (os_init ∅))).
    + apply example_thing_ready.
    + reflexivity.
    + reflexivity.
  - rewrite Hsent. intros rc d' o' (-> & ? & ? & ->). by split_and!.
Defined.
End Example.
