(* ===== verification/Settings.v ===== *)
(** * The command line (src/settings.c)

    [getopt_long] is the C library's: the options it recognises in [argv], in order, and the
    number of arguments that are left are the arguments of [parse_args]. *)

From S2P Require Import Prelude.

(** The priorities of ell's log. *)
Class LogPriorities := {
  L_LOG_ERR : Z; L_LOG_WARNING : Z; L_LOG_INFO : Z; L_LOG_DEBUG : Z
}.

Class LogPrioritiesLaws `{!LogPriorities} : Prop := {
  log_priorities_positive : 0 <= L_LOG_ERR /\ 0 <= L_LOG_WARNING /\ 0 <= L_LOG_INFO /\ 0 <= L_LOG_DEBUG
}.

(** What [getopt_long] returns with the string "c:d:p:l:nh"; [Opt_other] is any other value. *)
Inductive opt :=
| Opt_c (optarg : string)
| Opt_d (optarg : string)
| Opt_p (optarg : string)
| Opt_l (optarg : string)
| Opt_n
| Opt_h
| Opt_other.

Record settings := Settings {
  credentials_path : string;
  device_path : string;
  cloud_path : string;
  log_level : Z;
  detach : bool;
  help : bool
}.

Definition set_credentials_path (v : string) (s : settings) : settings :=
  Settings v (device_path s) (cloud_path s) (log_level s) (detach s) (help s).
Definition set_device_path (v : string) (s : settings) : settings :=
  Settings (credentials_path s) v (cloud_path s) (log_level s) (detach s) (help s).
Definition set_cloud_path (v : string) (s : settings) : settings :=
  Settings (credentials_path s) (device_path s) v (log_level s) (detach s) (help s).
Definition set_log_level (v : Z) (s : settings) : settings :=
  Settings (credentials_path s) (device_path s) (cloud_path s) v (detach s) (help s).
Definition set_detach (v : bool) (s : settings) : settings :=
  Settings (credentials_path s) (device_path s) (cloud_path s) (log_level s) v (help s).
Definition set_help (v : bool) (s : settings) : settings :=
  Settings (credentials_path s) (device_path s) (cloud_path s) (log_level s) (detach s) v.

Definition DEFAULT_CREDENTIALS_FILE_PATH : string := "/etc/knot/credentials.conf".
Definition DEFAULT_DEVICE_FILE_PATH : string := "/etc/knot/device.conf".
Definition DEFAULT_AMQP_FILE_PATH : string := "/etc/knot/cloud.conf".

Definition LOG_STRING_ERR : string := "error".
Definition LOG_STRING_WARN : string := "warn".
Definition LOG_STRING_INFO : string := "info".
Definition LOG_STRING_DEBUG : string := "debug".

Section Settings.
Context `{LP : LogPriorities}.

Definition parse_log_level (log_name : string) : Z :=
  if String.eqb log_name LOG_STRING_ERR then L_LOG_ERR
  else if String.eqb log_name LOG_STRING_WARN then L_LOG_WARNING
  else if String.eqb log_name LOG_STRING_INFO then L_LOG_INFO
  else if String.eqb log_name LOG_STRING_DEBUG then L_LOG_DEBUG
  else -1.

(** [rest] is [argc - optind] when there are no more options. *)
Fixpoint parse_args (opts : list opt) (rest : Z) (s : settings) : Z * settings :=
  match opts with
  | [] => if 0 <? rest then (- EINVAL, s) else (0, s)
  | Opt_c optarg :: r => parse_args r rest (set_credentials_path optarg s)
  | Opt_d optarg :: r => parse_args r rest (set_device_path optarg s)
  | Opt_p optarg :: r => parse_args r rest (set_cloud_path optarg s)
  | Opt_l optarg :: r =>
      let s := set_log_level (parse_log_level optarg) s in
      if log_level s <? 0 then (- EINVAL, s) else parse_args r rest s
  | Opt_n :: r => parse_args r rest (set_detach false s)
  | Opt_h :: r => (0, set_help true s)
  | Opt_other :: r => (- EINVAL, s)
  end.

Definition default_settings : settings :=
  Settings DEFAULT_CREDENTIALS_FILE_PATH DEFAULT_DEVICE_FILE_PATH DEFAULT_AMQP_FILE_PATH
    L_LOG_INFO true false.

Definition settings_load (opts : list opt) (rest : Z) : option settings :=
  let '(rc, s) := parse_args opts rest default_settings in
  if rc <? 0 then None else Some s.
End Settings.

(** ** Specification

    The last option of each kind counts; the first -h stops the reading of the others. *)

Section Specification.
Context `{LP : LogPriorities}.

(** The argument of the last option a function selects. *)
Definition last_arg {A} (f : opt -> option A) (d : A) (opts : list opt) : A :=
  default d (last (omap f opts)).

Definition credentials_arg (o : opt) : option string := match o with Opt_c a => Some a | _ => None end.
Definition device_arg (o : opt) : option string := match o with Opt_d a => Some a | _ => None end.
Definition cloud_arg (o : opt) : option string := match o with Opt_p a => Some a | _ => None end.
Definition log_arg (o : opt) : option Z :=
  match o with Opt_l a => Some (parse_log_level a) | _ => None end.
Definition nodetach_arg (o : opt) : option bool :=
  match o with Opt_n => Some false | _ => None end.

(** An option the program takes and goes on from. *)
Definition accepted (o : opt) : Prop :=
  match o with
  | Opt_l a => a ∈ [LOG_STRING_ERR; LOG_STRING_WARN; LOG_STRING_INFO; LOG_STRING_DEBUG]
  | Opt_h | Opt_other => False
  | _ => True
  end.

#[export] Instance accepted_dec o : Decision (accepted o).
Proof. destruct o; cbn; apply _. Defined.

(** The settings after the options. *)
Definition settings_of (opts : list opt) (s : settings) : settings :=
  Settings (last_arg credentials_arg (credentials_path s) opts)
    (last_arg device_arg (device_path s) opts) (last_arg cloud_arg (cloud_path s) opts)
    (last_arg log_arg (log_level s) opts) (last_arg nodetach_arg (detach s) opts) (help s).

(** The options up to the first that ends the reading. *)
Fixpoint taken (opts : list opt) : list opt :=
  match opts with
  | [] => []
  | o :: r => if decide (accepted o) then o :: taken r else []
  end.

Definition load_spec (opts : list opt) (rest : Z) : option settings :=
  let s := settings_of (taken opts) default_settings in
  match drop (length (taken opts)) opts with
  | [] => if decide (rest <= 0) then Some s else None
  | Opt_h :: _ => Some (set_help true s)
  | _ => None
  end.
End Specification.

(** ** Lemmas *)

Section Lemmas.
Context `{LPL : LogPrioritiesLaws}.

Lemma last_arg_cons {A} (f : opt -> option A) d o opts :
  last_arg f d (o :: opts) = last_arg f (default d (f o)) opts.
Proof.
  unfold last_arg. cbn. destruct (f o) as [a|]; [|done].
  destruct (last_is_Some (omap f opts)) as [_ Hl].
  destruct (omap f opts) as [|b l] eqn:Ho; [done|].
  destruct Hl as [c Hc]; [done|]. change (default d (last (b :: l)) = default a (last (b :: l))).
  by rewrite Hc.
Qed.

Lemma settings_of_nil s : settings_of [] s = s.
Proof. by destruct s. Qed.

Lemma parse_log_level_accepted a : accepted (Opt_l a) <-> 0 <= parse_log_level a.
Proof.
  destruct log_priorities_positive as (H1 & H2 & H3 & H4). cbn.
  rewrite !elem_of_cons, elem_of_nil. unfold parse_log_level.
  destruct (String.eqb_spec a LOG_STRING_ERR); [tauto|].
  destruct (String.eqb_spec a LOG_STRING_WARN); [tauto|].
  destruct (String.eqb_spec a LOG_STRING_INFO); [tauto|].
  destruct (String.eqb_spec a LOG_STRING_DEBUG); [tauto|]. split; [tauto|lia].
Qed.

(** One accepted option. *)
Lemma parse_args_accepted o opts rest s :
  accepted o -> parse_args (o :: opts) rest s = parse_args opts rest (settings_of [o] s).
Proof.
  intros Ho. destruct s. destruct o; try done.
  apply parse_log_level_accepted in Ho. cbn.
  by rewrite (proj2 (Z.ltb_ge _ _)) by done.
Qed.

Lemma settings_of_cons o opts s : settings_of (o :: opts) s = settings_of opts (settings_of [o] s).
Proof. unfold settings_of. rewrite !last_arg_cons. cbn. by destruct o. Qed.

Lemma parse_args_taken opts rest s :
  parse_args opts rest s =
    parse_args (drop (length (taken opts)) opts) rest (settings_of (taken opts) s).
Proof.
  revert s. induction opts as [|o opts IH]; intros s; [by rewrite settings_of_nil|]. cbn [taken].
  case_decide as Ho; [|by rewrite settings_of_nil].
  rewrite parse_args_accepted, IH by done. cbn [length drop]. by rewrite (settings_of_cons o (taken opts)).
Qed.

Lemma taken_stops opts o r : drop (length (taken opts)) opts = o :: r -> ~ accepted o.
Proof.
  induction opts as [|p opts IH]; [done|]. cbn [taken]. case_decide as Hp; cbn; [apply IH|].
  by intros [= <- _].
Qed.
End Lemmas.

(** ** Properties *)

Section Properties.
Context `{LPL : LogPrioritiesLaws}.

(** C20: The settings are the defaults with the last option of each kind; an unknown option or log
    level, or an argument that is no option, is an error, unless a -h comes first. *)
Theorem settings_load_spec opts rest : settings_load opts rest = load_spec opts rest.
Proof.
  unfold settings_load, load_spec. rewrite parse_args_taken.
  destruct (drop (length (taken opts)) opts) as [|o r] eqn:Hd.
  - cbn. destruct (Z.ltb_spec 0 rest); case_decide; try lia; done.
  - apply taken_stops in Hd. destruct o as [| | |a| | |]; try by destruct Hd.
    all: try reflexivity.
    cbn. rewrite parse_log_level_accepted in Hd.
    by rewrite (proj2 (Z.ltb_lt _ _)) by lia.
Qed.
End Properties.

(** ** Witnesses *)

#[export] Instance example_priorities : LogPriorities :=
  {| L_LOG_ERR := 3; L_LOG_WARNING := 4; L_LOG_INFO := 6; L_LOG_DEBUG := 7 |}.

#[export] Instance example_priorities_laws : LogPrioritiesLaws.
Proof. by split. Qed.

Lemma settings_load_spec_witness :
  let opts := [Opt_l "warn"; Opt_n; Opt_l "debug"] in
  settings_load opts 0 = load_spec opts 0 /\
  load_spec opts 0 =
    Some (Settings "/etc/knot/credentials.conf" "/etc/knot/device.conf" "/etc/knot/cloud.conf"
            7 false false) /\
  load_spec [Opt_n; Opt_l "loud"; Opt_h] 0 = None.
Proof. split; [apply settings_load_spec|by split]. Defined.
