(* ===== verification/Main.v ===== *)
(** * The program (src/main.c)

    The command line, the log, the start of the device, the detachment from the terminal and the
    main loop.  What the library's loop hands to the callbacks before it returns is the list
    [events] of [main]. *)

From S2P Require Import Settings.
From S2P Require Import Prelude Scan Knot Ext Ell Sm Event Poll Modbus Timers Storage Session.
From S2P Require Import Thing Properties Load Credentials Update Device Daemon Link Handle Start Run.

Definition EXIT_SUCCESS : Z := 0.
Definition EXIT_FAILURE : Z := 1.
Definition SIGINT : Z := 2.
Definition SIGTERM : Z := 15.

(** An event of the main loop: one of the daemon, or a signal. *)
Inductive main_event :=
| Daemon_event (i : input)
| Signal (signo : Z).

(** The static variables of the program. *)
Record program (D : Type) := Program { log_priority : Z; the_device : D }.
Arguments Program {D} _ _.
Arguments log_priority {D} _.
Arguments the_device {D} _.

Definition device_lens {D} : lens (program D) D :=
  Lens the_device (fun d p => Program (log_priority p) d).
Definition log_priority_lens {D} : lens (program D) Z :=
  Lens log_priority (fun l p => Program l (the_device p)).

Section Main.
Context `{KP : KnotProtocol} `{E : Env} `{LS : LSettings} {HM Q : Type -> Type}
  `{LH : !LHashmap HM} `{LQ : !LQueue Q} `{LP : LogPriorities}.

Definition vthing : Type := program (daemon HM Q).

Definition in_device {A} (m : M (daemon HM Q) A) : M vthing A := zoom device_lens m.

Definition signal_handler (signo : Z) : M vthing () :=
  when ((signo =? SIGINT) || (signo =? SIGTERM)) (ext_ C_main_quit).

Definition detach_daemon : M vthing Z :=
  let! rc := ext_rc C_daemon in
  if c_true rc then let! e := errno in ret (- e) else ret 0.

Definition set_device_settings (s : settings) : device_settings :=
  DeviceSettings (Some (Settings.credentials_path s)) (Some (Settings.device_path s))
    (Some (Settings.cloud_path s)).

(** What is written before a message that is not dropped: the [func] of the message stands for
    the name of the function it comes from. *)
Definition log_stderr_handler (limit priority : Z) (func : string) : option string :=
  if limit <? priority then None
  else if priority =? L_LOG_ERR then Some ("ERR: " ++ func ++ "() ")%string
  else if priority =? L_LOG_WARNING then Some "WARN: "%string
  else if priority =? L_LOG_INFO then Some "INFO: "%string
  else if priority =? L_LOG_DEBUG then Some "DEBUG: "%string
  else None.

Definition log_enable (priority : Z) : M vthing () :=
  ext_ C_log_set_handler ;;
  zoom log_priority_lens (put priority) ;;
  in_device (device_set_log_priority priority) ;;
  let! log_priority := zoom log_priority_lens get in
  when (log_priority =? L_LOG_DEBUG) (ext_ (C_debug_enable "*")).

Definition handle_main (e : main_event) : M vthing () :=
  match e with
  | Daemon_event i => in_device (handle i)
  | Signal signo => signal_handler signo
  end.

Definition l_main_run_with_signal (events : list main_event) : M vthing () :=
  foreach handle_main events.

(** [opts] and [rest] are the command line, as in [Settings.settings_load]. *)
Definition main (opts : list opt) (rest : Z) (events : list main_event) : M vthing Z :=
  match settings_load opts rest with
  | None => ret EXIT_FAILURE
  | Some settings =>
      if help settings then ret EXIT_SUCCESS
      else
      let! inited := ext_rc C_main_init in
      if negb (c_true inited) then ret EXIT_FAILURE
      else
      log_enable (log_level settings) ;;
      let! err := in_device (device_start (set_device_settings settings)) in
      if c_true err then ext_ C_main_exit ;; ret EXIT_FAILURE
      else
      let! err := if detach settings then detach_daemon else ret 0 in
      if c_true err then ext_ C_main_exit ;; ret EXIT_FAILURE
      else
      l_main_run_with_signal events ;;
      in_device device_destroy ;;
      ext_ C_main_exit ;;
      ret EXIT_SUCCESS
  end.
End Main.

Arguments vthing {LS} HM Q.

(** ** Lemmas *)

(** What the events of the main loop are to the daemon. *)
Definition inputs_of (events : list main_event) : list input :=
  omap (fun e => match e with Daemon_event i => Some i | Signal _ => None end) events.

Section Runs.
Context `{KL : KnotProtocolLaws} `{E : Env} (Hlaw : EnvLaws) `{LSL : LSettingsLaws}
  {HM Q : Type -> Type} `{HL : LHashmapLaws HM} `{LQL : LQueueLaws Q} `{LP : LogPriorities}.
Implicit Types (p : vthing HM Q) (o : os).

(** Calls that have no other effect. *)
Definition only_calls o o' : Prop :=
  os_timers o' = os_timers o /\ os_next o' = os_next o /\ os_files o' = os_files o /\
  os_fds o' = os_fds o /\ published o' = published o.

Lemma only_calls_refl o : only_calls o o.
Proof. done. Qed.

Lemma only_calls_logged o c a o' : is_publish c = false -> only_calls o o' -> only_calls o (logged c a o').
Proof. unfold only_calls, published. cbn. by intros ->. Qed.

Lemma only_calls_wf o o' : only_calls o o' -> os_wf o -> os_wf o'.
Proof. intros (Ht & Hn & _) Hw. unfold os_wf. by rewrite Ht, Hn. Qed.

Lemma log_enable_ok P priority p o :
  post P (log_enable priority)
    (fun _ p' o' => p' = Program priority (the_device p) /\ only_calls o o') p o.
Proof.
  destruct p as [l d]. unfold log_enable, in_device, device_set_log_priority. post_steps.
  all: split; [done|repeat apply only_calls_logged; done].
Qed.

Lemma detach_ok P (b : bool) p o :
  post P (if b then detach_daemon else ret 0) (fun _ p' o' => p' = p /\ only_calls o o') p o.
Proof.
  destruct b; [|done]. unfold detach_daemon. post_steps.
  all: split; [done|by apply only_calls_logged].
Qed.

Lemma inputs_of_snoc events e :
  inputs_of (events ++ [e]) =
    inputs_of events ++ match e with Daemon_event i => [i] | Signal _ => [] end.
Proof. unfold inputs_of. rewrite omap_app. by destruct e. Qed.

Lemma ran_quit inputs d o a o' :
  ran (KP := KP) inputs d o o' -> ran (HM := HM) (Q := Q) inputs d o (logged C_main_quit a o').
Proof. intros [Hi Ho Hp]. split; [by apply daemon_inv_logged|done|exact Hp]. Qed.

Lemma main_run_ran events p o :
  daemon_inv (the_device p) o -> ~ online (the_device p) ->
  wlp (l_main_run_with_signal events)
    (fun _ p' o' => ran (inputs_of events) (the_device p') o o') p o.
Proof.
  intros Hd Hoff. induction events as [|e events IH] using rev_ind.
  { cbn. split; [done|done|by left]. }
  apply post_foreach_snoc. eapply post_mono; [apply IH|]. intros ? [l d1] o1 Hr.
  rewrite inputs_of_snoc. destruct e as [i|signo]; cbn [handle_main].
  - apply post_zoom. eapply post_use; [apply (handle_step Hlaw), Hr|done|]. intros ? d2 o2 Hh.
    exact (main_loop_step _ _ _ _ _ _ _ Hr Hh).
  - rewrite app_nil_r. unfold signal_handler. post_steps; [by apply ran_quit|exact Hr].
Qed.

(** What a run of the program that gets past its command line leaves. *)
Record program_end (events : list main_event) (rc : Z) o o' : Prop := {
  pe_rc : rc = EXIT_SUCCESS \/ rc = EXIT_FAILURE;
  pe_timers : rc = EXIT_SUCCESS -> os_timers o' = ∅;
  pe_exit : os_log o' = C_main_init :: os_log o \/ exists log, os_log o' = C_main_exit :: log;
  pe_published : published o' = published o \/
    exists is1 is2, inputs_of events = is1 ++ is2 /\ authenticated is1
}.

Lemma program_failure events o o1 a :
  published o1 = published o -> program_end events EXIT_FAILURE o (logged C_main_exit a o1).
Proof. intros Hp. split; [by right|done|right; by eexists|by left]. Qed.

Lemma main_ends opts rest events l o s :
  settings_load opts rest = Some s -> help s = false ->
  paths_ok (Settings.device_path s) (Settings.cloud_path s) (Settings.credentials_path s) ->
  os_wf o -> os_timers o = ∅ ->
  wlp (main opts rest events) (fun rc _ o' => program_end events rc o o')
    (Program l (boot : daemon HM Q)) o.
Proof.
  intros Hs Hh Hp Hw Ht. unfold main. rewrite Hs, Hh. post_step. apply post_ext_rc. intros a _.
  set (o0 := logged C_main_init a o).
  assert (only_calls o o0) as Ho0 by by apply only_calls_logged.
  post_step. { post_step. split; [by right|done|by left|by left]. }
  post_step. eapply post_mono; [apply log_enable_ok|]. cbn [the_device].
  intros ? ? o1 [-> Ho1]. assert (only_calls o o1) as Ho by (unfold only_calls in *; intuition congruence).
  post_step. apply post_zoom. unfold set_device_settings.
  eapply post_use; [apply (device_start_ok Hlaw _ _ _ _ Hp)|done|].
  { by eapply only_calls_wf. }
  { destruct Ho as [-> _]. done. }
  intros err d2 o2 ([_ _ Hpub2] & Hst). cbn [lens_set device_lens log_priority].
  assert (published o2 = published o) as Hpub by (rewrite Hpub2; apply Ho).
  destruct (c_true err) eqn:Herr.
  { post_step. apply post_ext_. intros a3 _. post_step. by apply program_failure. }
  assert (started (Settings.device_path s) (Settings.credentials_path s) d2 o1 o2) as [Hi [Hdis _] _ _ _].
  { destruct Hst as [[_ Hst]|[Hrc _]]; [done|]. unfold c_true in Herr. lia. }
  post_step. eapply post_mono; [apply detach_ok|]. intros err3 ? o3 [-> Ho3].
  destruct Ho3 as (Ht3 & Hn3 & Hf3 & Hd3 & Hp3).
  assert (daemon_inv d2 o3) as Hi3.
  { destruct d2 as [c w]. apply (daemon_inv_same _ _ o2); [|done]. by split. }
  destruct (c_true err3).
  { post_step. apply post_ext_. intros a4 _. post_step. apply program_failure. congruence. }
  post_step. eapply post_mono; [apply main_run_ran; [exact Hi3|]|].
  { cbn. unfold online. rewrite Hdis. by intros [|]. }
  intros ? [l4 [c4 w4]] o4 [[[Hw4 _] _ _] _ Hp4]. post_step. apply post_zoom.
  eapply post_mono; [apply device_destroy_releases; by eapply dev_inv_resources|].
  intros ? d5 o5 (Ht5 & _ & _ & Hp5). post_step. apply post_ext_. intros a6 _. post_step.
  split; [by left|done|right; by eexists|].
  destruct Hp4 as [Hp4|Hp4]; [left|by right]. unfold published in *. cbn. congruence.
Qed.
End Runs.

(** ** Properties *)

Section Properties.
Context `{KL : KnotProtocolLaws} `{E : Env} (Hlaw : EnvLaws) `{LSL : LSettingsLaws}
  {HM Q : Type -> Type} `{HL : LHashmapLaws HM} `{LQL : LQueueLaws Q} `{LP : LogPriorities}.
Implicit Types (o : os).

(** C1: An invalid command line or a -h ends the program before it touches anything.  Any other run
    ends with one of the two exit codes, has left the main loop it initialised, and has
    released every timer when it exits with success. *)
Theorem main_spec opts rest events l o :
  (forall s, settings_load opts rest = Some s ->
     paths_ok (Settings.device_path s) (Settings.cloud_path s) (Settings.credentials_path s)) ->
  os_wf o -> os_timers o = ∅ ->
  wlp (main opts rest events)
    (fun rc _ o' =>
       match settings_load opts rest with
       | None => rc = EXIT_FAILURE /\ o' = o
       | Some s =>
           if help s then rc = EXIT_SUCCESS /\ o' = o
           else (rc = EXIT_SUCCESS /\ os_timers o' = ∅ \/ rc = EXIT_FAILURE) /\
             (os_log o' = C_main_init :: os_log o \/ exists log, os_log o' = C_main_exit :: log)
       end) (Program l (boot : daemon HM Q)) o.
Proof.
  intros Hp Hw Ht. destruct (settings_load opts rest) as [s|] eqn:Hs; cycle 1.
  { unfold main. rewrite Hs. by post_step. }
  destruct (help s) eqn:Hh. { unfold main. rewrite Hs, Hh. by post_step. }
  eapply post_mono; [apply (main_ends Hlaw _ _ _ _ _ s); by auto|].
  intros rc ? o' [[->| ->] Htm Hx _]; split; auto.
Qed.

(** C2: The program hands data to the cloud only after the cloud accepted its credentials. *)
Theorem main_publishes opts rest events l o s :
  settings_load opts rest = Some s -> help s = false ->
  paths_ok (Settings.device_path s) (Settings.cloud_path s) (Settings.credentials_path s) ->
  os_wf o -> os_timers o = ∅ ->
  wlp (main opts rest events)
    (fun _ _ o' => published o' <> published o ->
       exists is1 is2, inputs_of events = is1 ++ is2 /\ authenticated is1)
    (Program l (boot : daemon HM Q)) o.
Proof.
  intros Hs Hh Hp Hw Ht. eapply post_mono; [by apply (main_ends Hlaw _ _ _ _ _ s)|].
  intros ? ? o' [_ _ _ [Hpub|Hpub]] Hne; [done|exact Hpub].
Qed.
End Properties.

(** ** Witnesses *)

(** Every call succeeds, but the detachment where [detaches] is false. *)
Definition main_env (detaches : bool) : Env := fun log =>
  match log with
  | C_main_init :: _ => Answer 1 0 []
  | C_daemon :: _ => if detaches then Answer 0 0 [] else Answer (-1) EIO []
  | _ => example_env log
  end.

Lemma main_env_laws b : EnvLaws (E := main_env b).
Proof.
  destruct example_env_laws as [Hf]. split.
  intros log H. destruct log as [|[] log]; try exact (Hf _ H); try exact (Hf (_ :: log) H);
    [by destruct b|done].
Qed.

Section Example.
#[local] Existing Instances example_knot list_hashmap list_queue example_settings.
#[local] Existing Instances example_knot_laws list_hashmap_laws list_queue_laws
  example_settings_laws.

Definition example_opts : list opt :=
  [Opt_c "credentials.conf"; Opt_d "device.conf"; Opt_p "cloud.conf"].

Definition example_events : list main_event := (Daemon_event <$> example_inputs) ++ [Signal SIGTERM].

Definition example_main (detaches : bool) : option (Z * list call * list timer_cb) :=
  match main (E := main_env detaches) (HM := fun V => list (Z * V)) (Q := list) example_opts 0
          example_events (Program 0 boot) example_files with
  | Some (rc, _, o') => Some (rc, published o', (map_to_list (os_timers o')).*2)
  | None => None
  end.

(** When the daemon cannot detach, the program ends without destroying the device it started:
    the timers of the poll and of the connection are left. *)
Example main_detach_fails :
  example_main false =
    Some (EXIT_FAILURE, [], [attempt_connect_cb; on_poll_timeout_cb 0 1 on_modbus_poll_receive_cb]).
Proof. by vm_compute. Qed.

Lemma main_spec_witness :
  example_main true = Some (EXIT_SUCCESS, [C_cloud_publish_data "0" 0 1 0 1], []) /\
  wlp (main (E := main_env true) (HM := fun V => list (Z * V)) (Q := list) example_opts 0
         example_events)
    (fun rc _ o' =>
       match settings_load example_opts 0 with
       | None => rc = EXIT_FAILURE /\ o' = example_files
       | Some s =>
           if help s then rc = EXIT_SUCCESS /\ o' = example_files
           else (rc = EXIT_SUCCESS /\ os_timers o' = ∅ \/ rc = EXIT_FAILURE) /\
             (os_log o' = C_main_init :: os_log example_files \/
              exists log, os_log o' = C_main_exit :: log)
       end) (Program 0 boot) example_files.
Proof.
  split; [by vm_compute|].
  apply (main_spec (main_env_laws true) example_opts 0 example_events 0 example_files).
  - intros s [= <-]. apply example_paths.
  - apply os_init_wf.
  - reflexivity.
Defined.

Lemma main_publishes_witness :
  wlp (main (E := main_env true) (HM := fun V => list (Z * V)) (Q := list) example_opts 0
         example_events)
    (fun _ _ o' => published o' <> published example_files ->
       exists is1 is2, inputs_of example_events = is1 ++ is2 /\ authenticated is1)
    (Program 0 boot) example_files.
Proof.
  apply (main_publishes (main_env_laws true) example_opts 0 example_events 0 example_files
           (set_cloud_path "cloud.conf" (set_device_path "device.conf"
              (set_credentials_path "credentials.conf" default_settings)))).
  - reflexivity.
  - reflexivity.
  - apply example_paths.
  - apply os_init_wf.
  - reflexivity.
Defined.
End Example.
